(* ===== verification/_CoqProject ===== *)
-Q . S2P
Prelude.v
GoStrings.v
Strconv.v
Json.v
JsonSpec.v
JsonPrefix.v
Message.v
Records.v
Lww.v
RecordsConc.v
Delegate.v
Wire.v
Watcher.v
WatcherSpec.v
WatchLoop.v
NetIP.v
Dns.v
DockerCluster.v
Version.v
Discovery.v
Cluster.v
ClusterSpec.v
TornRead.v
Network.v
TraefikRecords.v
Parser.v
ParserSpec.v
FileWatcher.v
TraefikExternals.v
Controller.v
Setup.v
TraefikSetup.v
