(* ===== verification/Prelude.v ===== *)
(** * Joyride: a verification development of the CoreDNS plugins

    Joyride is CoreDNS with two plugins.  [docker-cluster] publishes the host
    names that running containers carry in their labels, and can replicate them
    to other nodes by gossip; [traefik-externals] publishes the host names of the
    rules in a directory of Traefik configuration files.  Both answer A queries
    with one host IP from a copy-on-write record store.

    ** The parts and the files that model them

    - [Prelude]: the results of fallible calls, 64-bit integers, copying a Go map
      and ranging over it in any order, tactics and hint databases.
    - [GoStrings]: UTF-8, [strings.ToLower], Split, Join, TrimSpace and the like.
      The case tables of package unicode are the class [UnicodeCase], with the
      facts the stores rely on; [latin1_case] is an instance to compute with.
    - [Strconv]: decimal integers, read and written; [Json]: what the plugins use
      of encoding/json, from the bytes to the fields of a struct, behind the
      classes [JsonCodec] and [JsonRoundTrip]; [JsonSpec] and [JsonPrefix]: reading
      terminates, inverts writing, yields valid UTF-8, and refuses cut texts.
    - [Message] (docker-cluster/message.go): gossip messages and full states, and
      their JSON form, which discharges the two classes.
    - [Records] (records.go): the store, its two maps and every operation on
      them as one step; [RecordsConc]: the same methods as programs over the mutex
      and the two atomic values, interleaved; [Lww]: the abstract last-write-wins
      map and what the store refines.
    - [Delegate] (delegate.go): the callbacks of memberlist, the bounded message
      channel and its goroutine as a step relation; [TransmitLimitedQueue] is
      memberlist's queue.  [Wire]: the delegate over the JSON of [Message];
      [TornRead]: a full state that is read while the store is written.
    - [Watcher] (docker_watcher.go): hostname extraction, tracking of containers,
      synchronization, the event stream and the connection loop; the Docker
      client, the clock and dns.IsDomainName are arguments.  The store it writes
      is reached through the class [RecordsWorld], so that the same definitions
      serve a node alone and a clustered node.  [WatcherSpec] and [WatchLoop]
      hold its theorems.
    - [Discovery] (discovery.go), [Cluster] (cluster_config.go, cluster.go and the
      callback wired in setup.go) and [ClusterSpec]: peers, configuration,
      lifecycle and notifications of a clustered node; memberlist is a class.
      [Network]: any number of such nodes; what is on the wire comes from their
      broadcast queues, which the class [TransmitLimitedQueueLaws] describes.
    - [NetIP]: net.ParseIP and IP.To4; [Dns]: what the handlers use of miekg/dns
      and CoreDNS, as the classes [DnsMsg] and [DnsMsgLaws]; [DockerCluster]
      (docker_cluster.go): ServeDNS and handleUnknown; [Version] (version.go and
      the rest of docker_cluster.go): the version endpoint over net/http.
    - [TraefikRecords] (traefik-externals/records.go), [Parser] and [ParserSpec]
      (parser.go, with a matcher for the regular expressions it uses),
      [FileWatcher] (file_watcher.go, metrics.go), [TraefikExternals]
      (traefik_externals.go).
    - [Controller] (Caddy's token dispenser as the class [Controller], strconv),
      [Setup] (docker-cluster/setup.go) and [TraefikSetup]
      (traefik-externals/setup.go): reading the configuration and starting.

    A struct is a record, a nil pointer [None], a method a function that returns
    the changed receiver beside its results.  What runs in the background is a
    step relation (the delegate) or a function of the sequence of things that
    happen to it (the watch loops, the listeners).  Logging is left out.

    ** What the theorems show

    - Replication: additions converge to the later stamp whatever the order and
      repetition ([adds_converge], [adds_refine_lww]); merging a full state takes
      over what no held stamp forbids, and is a join where no stamp has outlived its
      record ([merge_is_join]); two nodes that exchange states answer alike exactly
      where neither shadows the other ([push_pull_converges]); with in-order
      delivery removals behave too ([in_order_delivery]).  Removals leave no trace,
      so a late addition or a merge brings a record back ([late_add_resurrects],
      [merge_undoes_removal]), and a removal that was dropped is not recovered
      ([dropped_message_recovery]).
    - The delegate's goroutine: stopping it ends it although messages still arrive
      ([Stop_returns]).
    - The store under concurrency: the calls of any number of goroutines have one
      order that explains them, and all return ([concurrent_calls_linearize],
      [calls_return], [methods_run_alone]); the one read that looks twice can be
      torn, and what follows from it ([torn_state_diverges]).
    - The wire: messages and states survive it ([message_round_trip],
      [local_state_received]), what decodes is well-formed
      ([decoded_well_formed]), what was cut does not decode
      ([truncated_rejected], [announcement_discovered]), and nothing more is
      checked ([fieldless_message_accepted]).
    - Watching: over any run of the loop the store answers for exactly the
      tracked containers as long as no name is shared ([watchLoop_mirrors],
      [sync_resolves], [syncContainers_tracks]), and the incremental update does
      what a full one does as long as no two spellings meet
      ([update_equals_rebuild]); what happens when a name is shared
      ([shared_name_lost], [recreated_container_lost]); the pacing of the loop.
    - Clustering: updates reach the peers to which they are news
      ([update_reaches_peers]); over any run of a cluster every address served was
      queued for broadcast ([served_was_announced]), and one round of exchanges
      through a hub makes all nodes agree on the hosts that nobody shadows
      ([hub_sync_converges]); the direct writes of the watcher can part from the
      metadata ([local_add_diverges], [stop_keeps_metadata]).
    - Answers: which queries get which reply ([tracked_name_answered],
      [external_name_answered] and their neighbours), down to the octets parsed
      from the configured address.
    - Traefik rules: what is extracted, rules read back, comments, templates
      ([ParseContent_spec] and the rest of [ParserSpec]); reloads and their
      debouncing ([reload_spec], [burst_reloads_once]).
    - Configuration: what an accepted one satisfies, which source wins, and that
      reading it terminates ([parseConfig_valid], [env_precedence],
      [parseConfig_terminates], [accepted_host_ip]).

    ** Bounds and fuel

    The recursion of the models is structural except for decoding UTF-8, which
    carries the length of the string as fuel ([runes_step] shows it is enough),
    for reading JSON, whose fuel is twice the length of the text
    ([parse_fuel_parse]: any more gives the same result), and for the loops over Corefile tokens, whose fuel must exceed the tokens left
    ([parseConfig_terminates]); the group loop of parseIPv6 turns at most eight
    times, which is its bound in the source.  Durations and timestamps are integers in nanoseconds, with the
    wrap-around of an int64 where a product could leave it ([nextBackoff]).

    ** What is not modelled

    Logging, which writes nothing that is read again.  Sockets, files, the Docker
    API, the connections of the version endpoint and the dispatch of its mux are
    inputs of the definitions that use them, and memberlist, miekg/dns, CoreDNS and
    Caddy are interfaces.  Apart from [RecordsConc] and the goroutines of the
    delegate, each method is one step.  A context is done when its own cancel
    function was called; its parents are not cancelled on their own. *)

From stdpp Require Import gmap strings list fin_maps sorting.
From Stdlib Require Import ZArith Lia.

(** ** Scopes and hint databases *)

Declare Scope joyride_scope.
Delimit Scope joyride_scope with joy.

(** Preservation lemmas of the invariants, added by each component. *)
Create HintDb joyride.
Create Rewrite HintDb gostrings.

(** ** Fallible computations: Go's [(value, error)] results *)

Inductive result (E A : Type) : Type :=
| Ok (a : A)
| Err (e : E).
Arguments Ok {E A} _.
Arguments Err {E A} _.

Notation "'let?' x := e 'in' k" :=
  (match e with Ok x => k | Err err => Err err end)
  (at level 10, x pattern, e at level 100, k at level 200) : joyride_scope.

Definition is_ok {E A} (r : result E A) : bool :=
  match r with Ok _ => true | Err _ => false end.

(** ** Machine integers *)

(** Two's-complement reduction to 64 bits: the value of a Go [int64]
    expression (and of an [int], on the 64-bit platforms the image is built
    for). *)
Definition wrap64 (z : Z) : Z := ((z + 2 ^ 63) mod 2 ^ 64 - 2 ^ 63)%Z.

Definition int64 (z : Z) : Prop := (- 2 ^ 63 ≤ z < 2 ^ 63)%Z.

#[global] Instance int64_dec (z : Z) : Decision (int64 z).
Proof. unfold int64. apply _. Defined.

Lemma wrap64_id (z : Z) : int64 z → wrap64 z = z.
Proof. unfold wrap64, int64. intros ?. rewrite Z.mod_small; lia. Qed.

Lemma wrap64_range (z : Z) : int64 (wrap64 z).
Proof.
  unfold wrap64, int64.
  pose proof (Z.mod_pos_bound (z + 2 ^ 63) (2 ^ 64) ltac:(lia)). lia.
Qed.

(** Decide a closed proposition by evaluating its [Decision] instance. *)
Ltac by_computation := apply (bool_decide_unpack _); by vm_compute.

(** ** Go maps: the copy loops of the copy-on-write stores *)

(** [for k, v := range m { out[k] = v }], over one iteration order [l]. *)
Definition copy_into {A} (out : gmap string A) (l : list (string * A)) : gmap string A :=
  foldl (λ acc kv, <[kv.1 := kv.2]> acc) out l.

(** [for k, v := range m { if k != h { out[k] = v } }]. *)
Definition copy_except_into {A} (h : string) (out : gmap string A)
    (l : list (string * A)) : gmap string A :=
  foldl (λ acc kv, if bool_decide (kv.1 = h) then acc else <[kv.1 := kv.2]> acc) out l.

(** The loops started on a fresh [make(map...)]; Go leaves the iteration order
    open, and the [_perm] lemmas below show that it does not matter. *)
Definition range_copy {A} (m : gmap string A) : gmap string A :=
  copy_into ∅ (map_to_list m).

Definition range_copy_except {A} (h : string) (m : gmap string A) : gmap string A :=
  copy_except_into h ∅ (map_to_list m).

(** The order in which one [range] statement visits a Go map is any order. *)
Definition range_order {A} (rng : gmap string A → list (string * A)) : Prop :=
  ∀ m, rng m ≡ₚ map_to_list m.

Lemma range_order_keys {A} (rng : gmap string A → list (string * A)) m k :
  range_order rng → k ∈ (rng m).*1 ↔ is_Some (m !! k).
Proof.
  intros Hr. rewrite list_elem_of_fmap. split.
  - intros ([k' v] & -> & Hin). rewrite (Hr m) in Hin. apply elem_of_map_to_list in Hin. eauto.
  - intros [v Hv]. exists (k, v). split; [done|]. rewrite (Hr m). by apply elem_of_map_to_list.
Qed.

Section copies.
Context {A : Type}.
Implicit Types (m out : gmap string A) (l : list (string * A)).

Lemma copy_into_spec out l :
  NoDup l.*1 → copy_into out l = list_to_map l ∪ out.
Proof.
  revert out. induction l as [|[k v] l IH]; intros out Hnd; simpl.
  { by rewrite (left_id_L ∅ (∪)). }
  apply NoDup_cons in Hnd as [Hk Hnd]. unfold copy_into in *. simpl.
  rewrite IH by done. rewrite <-insert_union_r; [|by apply not_elem_of_list_to_map_1].
  by rewrite insert_union_l.
Qed.

Lemma copy_except_into_filter h out l :
  copy_except_into h out l = copy_into out (filter (λ kv, kv.1 ≠ h) l).
Proof.
  revert out. induction l as [|[k v] l IH]; intros out; [done|].
  unfold copy_except_into, copy_into in *. rewrite filter_cons. simpl.
  destruct (decide (k = h)); simpl.
  - rewrite bool_decide_eq_true_2 by done. by rewrite decide_False by naive_solver.
  - rewrite bool_decide_eq_false_2 by done. by rewrite decide_True by done.
Qed.

(** Whatever order the iteration takes, the copy is the map itself. *)
Lemma copy_into_perm m l : l ≡ₚ map_to_list m → copy_into ∅ l = m.
Proof.
  intros Hl. assert (NoDup l.*1) as Hnd.
  { rewrite Hl. apply NoDup_fst_map_to_list. }
  rewrite copy_into_spec by done. rewrite (right_id_L ∅ (∪)).
  rewrite (list_to_map_proper l (map_to_list m)) by done.
  apply list_to_map_to_list.
Qed.

Lemma copy_except_into_perm h m l :
  l ≡ₚ map_to_list m → copy_except_into h ∅ l = delete h m.
Proof.
  intros Hl. rewrite copy_except_into_filter.
  rewrite <-(copy_into_perm (delete h m) (filter (λ kv, kv.1 ≠ h) l)); [done|].
  apply NoDup_Permutation.
  - apply NoDup_filter. rewrite Hl. apply NoDup_map_to_list.
  - apply NoDup_map_to_list.
  - intros [k v]. rewrite list_elem_of_filter, Hl, !elem_of_map_to_list. simpl.
    rewrite lookup_delete. case_decide; naive_solver.
Qed.

Lemma fst_map_to_list_NoDup {B} (f : string → A → B) m :
  NoDup ((λ kv, (kv.1, f kv.1 kv.2)) <$> map_to_list m).*1.
Proof.
  rewrite <-list_fmap_compose. apply (NoDup_fst_map_to_list m).
Qed.

Lemma range_copy_id m : range_copy m = m.
Proof. by apply copy_into_perm. Qed.

Lemma range_copy_except_delete h m : range_copy_except h m = delete h m.
Proof. by apply copy_except_into_perm. Qed.
End copies.
