(* ===== verification/GoStrings.v ===== *)
(** * GoStrings: the part of Go's [strings], [unicode/utf8] and [unicode]
    packages that the plugins call

    A Go string is a sequence of bytes: here a [string] of [ascii] (8-bit)
    characters.  [ToLower], [Map] and [TrimSpace] decode UTF-8, an invalid
    byte decoding to [RuneError] with width one, as the language specifies. *)

From stdpp Require Import gmap strings list fin_maps.
From Stdlib Require Import ZArith NArith Lia ZifyBool ZifyN Ascii.
From S2P Require Import Prelude.

Local Open Scope N_scope.

(** ** UTF-8 *)

Module Utf8.

Definition RuneSelf : N := 0x80.
Definition RuneError : N := 0xFFFD.

Definition in_range (lo hi b : N) : bool := (lo <=? b) && (b <=? hi).

(** A Unicode scalar value: what [utf8.ValidRune] accepts. *)
Definition ValidRune (r : N) : bool := (r <? 0xD800) || in_range 0xE000 0x10FFFF r.

(** The admissible second bytes after a lead byte ([acceptRanges]). *)
Definition second_range (b0 : N) : N * N :=
  if b0 =? 0xE0 then (0xA0, 0xBF)
  else if b0 =? 0xED then (0x80, 0x9F)
  else if b0 =? 0xF0 then (0x90, 0xBF)
  else if b0 =? 0xF4 then (0x80, 0x8F)
  else (0x80, 0xBF).

Definition is_second (b0 b1 : N) : bool :=
  in_range (second_range b0).1 (second_range b0).2 b1.
Definition is_cont (b : N) : bool := in_range 0x80 0xBF b.

(** [utf8.DecodeRuneInString], returning the rest of the string instead of the
    width; [None] on the empty string. *)
Definition DecodeRune (s : string) : option (N * string) :=
  match s with
  | EmptyString => None
  | String c0 s1 =>
      let b0 := N_of_ascii c0 in
      let bad := Some (RuneError, s1) in
      if b0 <? RuneSelf then Some (b0, s1)
      else if in_range 0xC2 0xDF b0 then
        match s1 with
        | String c1 s2 =>
            let b1 := N_of_ascii c1 in
            if is_second b0 b1 then Some ((b0 - 0xC0) * 64 + (b1 - 0x80), s2) else bad
        | _ => bad
        end
      else if in_range 0xE0 0xEF b0 then
        match s1 with
        | String c1 (String c2 s3) =>
            let b1 := N_of_ascii c1 in let b2 := N_of_ascii c2 in
            if is_second b0 b1 && is_cont b2
            then Some ((b0 - 0xE0) * 4096 + (b1 - 0x80) * 64 + (b2 - 0x80), s3) else bad
        | _ => bad
        end
      else if in_range 0xF0 0xF4 b0 then
        match s1 with
        | String c1 (String c2 (String c3 s4)) =>
            let b1 := N_of_ascii c1 in let b2 := N_of_ascii c2 in
            let b3 := N_of_ascii c3 in
            if is_second b0 b1 && is_cont b2 && is_cont b3
            then Some ((b0 - 0xF0) * 262144 + (b1 - 0x80) * 4096
                       + (b2 - 0x80) * 64 + (b3 - 0x80), s4) else bad
        | _ => bad
        end
      else bad
  end.

Definition byte (n : N) : ascii := ascii_of_N n.

(** [utf8.AppendRune]: a value that is not a scalar encodes as [RuneError]. *)
Definition EncodeRune (r0 : N) : string :=
  let r := if ValidRune r0 then r0 else RuneError in
  if r <? 0x80 then String (byte r) ""
  else if r <? 0x800 then
    String (byte (0xC0 + r / 64)) (String (byte (0x80 + r mod 64)) "")
  else if r <? 0x10000 then
    String (byte (0xE0 + r / 4096)) (String (byte (0x80 + (r / 64) mod 64))
      (String (byte (0x80 + r mod 64)) ""))
  else
    String (byte (0xF0 + r / 262144)) (String (byte (0x80 + (r / 4096) mod 64))
      (String (byte (0x80 + (r / 64) mod 64)) (String (byte (0x80 + r mod 64)) ""))).

(** [for _, r := range s]: the runes of a string.  Each step consumes at least
    one byte, so the length is enough fuel ([runes_step] below). *)
Fixpoint runes_fuel (fuel : nat) (s : string) : list N :=
  match fuel with
  | O => []
  | S fuel =>
      match DecodeRune s with
      | None => []
      | Some (r, s') => r :: runes_fuel fuel s'
      end
  end.
Definition runes (s : string) : list N := runes_fuel (String.length s) s.

(** [string(runes)]. *)
Definition encode_all (l : list N) : string := foldr (λ r s, EncodeRune r +:+ s) "" l.

End Utf8.
Import Utf8.

(** ** [strings] *)

Definition is_upper (c : ascii) : bool := in_range 65 90 (N_of_ascii c).
Definition lower_byte (c : ascii) : ascii :=
  if is_upper c then ascii_of_N (N_of_ascii c + 32) else c.

Fixpoint map_bytes (f : ascii → ascii) (s : string) : string :=
  match s with EmptyString => EmptyString | String c s => String (f c) (map_bytes f s) end.
Fixpoint all_bytes (f : ascii → bool) (s : string) : bool :=
  match s with EmptyString => true | String c s => f c && all_bytes f s end.
Definition is_ascii (s : string) : bool := all_bytes (λ c, N_of_ascii c <? RuneSelf) s.

(** The simple case mapping of the [unicode] tables is data of the Go release,
    so it is an interface here, with the three facts of it that the stores rely
    on: on ASCII it is the usual mapping, it maps scalars to scalars, and
    lowering twice is lowering once. *)
Class UnicodeCase := {
  unicode_ToLower : N → N;
  unicode_ToLower_ascii : ∀ r, (r < RuneSelf)%N →
    unicode_ToLower r = if in_range 65 90 r then r + 32 else r;
  unicode_ToLower_valid : ∀ r, ValidRune r = true → ValidRune (unicode_ToLower r) = true;
  unicode_ToLower_idem : ∀ r, ValidRune r = true →
    unicode_ToLower (unicode_ToLower r) = unicode_ToLower r;
}.

(** [strings.Map], for a mapping that drops nothing. *)
Definition Map (f : N → N) (s : string) : string := encode_all (f <$> runes s).

(** [strings.ToLower], with its ASCII fast path. *)
Definition ToLower `{UnicodeCase} (s : string) : string :=
  if is_ascii s then
    if all_bytes (λ c, negb (is_upper c)) s then s else map_bytes lower_byte s
  else Map unicode_ToLower s.

(** [strings.Split(s, sep)] for a one-byte separator. *)
Fixpoint Split (s : string) (sep : ascii) : list string :=
  match s with
  | EmptyString => [EmptyString]
  | String c s' =>
      if bool_decide (c = sep) then EmptyString :: Split s' sep
      else match Split s' sep with
           | w :: ws => String c w :: ws
           | [] => [String c EmptyString]
           end
  end.

(** [strings.SplitN(s, sep, 2)] for a one-byte separator. *)
Fixpoint SplitN2 (s : string) (sep : ascii) : list string :=
  match s with
  | EmptyString => [EmptyString]
  | String c s' =>
      if bool_decide (c = sep) then [EmptyString; s']
      else match SplitN2 s' sep with
           | w :: ws => String c w :: ws
           | [] => [String c EmptyString]
           end
  end.

(** [strings.Join(l, sep)] for a one-byte separator. *)
Fixpoint Join (l : list string) (sep : ascii) : string :=
  match l with
  | [] => EmptyString
  | [w] => w
  | w :: ws => w +:+ String sep (Join ws sep)
  end.

(** [strings.TrimSuffix(s, suffix)]: the one place where the rest of [s] is the
    suffix is cut off. *)
Fixpoint TrimSuffix (s suffix : string) : string :=
  if bool_decide (s = suffix) then EmptyString
  else match s with
       | EmptyString => EmptyString
       | String c s' => String c (TrimSuffix s' suffix)
       end.

Fixpoint drop_bytes (n : nat) (s : string) : string :=
  match n, s with
  | O, _ => s
  | S n, String _ s => drop_bytes n s
  | S _, EmptyString => EmptyString
  end.

(** [strings.Replace(s, old, new, 1)] for a non-empty [old]. *)
Fixpoint Replace1 (s old new : string) : string :=
  if String.prefix old s then new +:+ drop_bytes (String.length old) s
  else match s with
       | EmptyString => EmptyString
       | String c s' => String c (Replace1 s' old new)
       end.

(** [unicode.IsSpace]: the White_Space code points. *)
Definition IsSpace (r : N) : bool :=
  in_range 9 13 r || (r =? 32) || (r =? 0x85) || (r =? 0xA0) || (r =? 0x1680)
  || in_range 0x2000 0x200A r || in_range 0x2028 0x2029 r
  || (r =? 0x202F) || (r =? 0x205F) || (r =? 0x3000).

(** [strings.TrimLeftFunc(s, unicode.IsSpace)]. *)
Fixpoint TrimLeft_fuel (fuel : nat) (s : string) : string :=
  match fuel with
  | O => s
  | S fuel =>
      match DecodeRune s with
      | Some (r, s') => if IsSpace r then TrimLeft_fuel fuel s' else s
      | None => s
      end
  end.

(** [strings.TrimRightFunc(s, unicode.IsSpace)]: cut where the rest is nothing
    but space runes.  (A suffix that starts inside an encoding decodes to
    [RuneError], which is no space, so cutting at the first such place removes
    exactly the space runes that decoding from the end removes.) *)
Fixpoint TrimRight (s : string) : string :=
  if forallb IsSpace (runes s) then EmptyString
  else match s with
       | EmptyString => EmptyString
       | String c s' => String c (TrimRight s')
       end.

(** [strings.TrimSpace]. *)
Definition TrimSpace (s : string) : string :=
  TrimRight (TrimLeft_fuel (String.length s) s).

(** ** Lemmas *)

Lemma app_String (c : ascii) (s t : string) : String c s +:+ t = String c (s +:+ t).
Proof. done. Qed.
Lemma app_empty_l (s : string) : EmptyString +:+ s = s.
Proof. done. Qed.
Lemma app_empty_r (s : string) : s +:+ EmptyString = s.
Proof. induction s as [|c s IH]; [done|]. by rewrite app_String, IH. Qed.
Lemma sapp_assoc (s t u : string) : (s +:+ t) +:+ u = s +:+ (t +:+ u).
Proof. induction s as [|c s IH]; [done|]. by rewrite !app_String, IH. Qed.
Lemma slength_app (s t : string) :
  String.length (s +:+ t) = (String.length s + String.length t)%nat.
Proof. induction s as [|c s IH]; [done|]. rewrite app_String. simpl. by rewrite IH. Qed.

#[export] Hint Rewrite app_String app_empty_l app_empty_r sapp_assoc : gostrings.

Lemma N_of_byte (n : N) : n < 256 → N_of_ascii (byte n) = n.
Proof. apply N_ascii_embedding. Qed.

(** *** UTF-8 *)

Ltac Zify.zify_post_hook ::= Z.div_mod_to_equations.

Lemma in_range_iff (lo hi b : N) : in_range lo hi b = true ↔ lo <= b <= hi.
Proof. unfold in_range. lia. Qed.

Lemma ValidRune_iff (r : N) :
  ValidRune r = true ↔ r < 0xD800 ∨ 0xE000 <= r <= 0x10FFFF.
Proof. unfold ValidRune, in_range. lia. Qed.

Lemma is_second_iff (b0 b1 : N) :
  is_second b0 b1 = true ↔
    0x80 <= b1 <= 0xBF ∧ (b0 = 0xE0 → 0xA0 <= b1) ∧ (b0 = 0xED → b1 <= 0x9F) ∧
    (b0 = 0xF0 → 0x90 <= b1) ∧ (b0 = 0xF4 → b1 <= 0x8F).
Proof.
  unfold is_second, second_range, in_range.
  repeat (case_match; simpl); lia.
Qed.

Lemma DecodeRune_shrinks (s s' : string) (r : N) :
  DecodeRune s = Some (r, s') → (String.length s' < String.length s)%nat.
Proof.
  destruct s as [|c0 [|c1 [|c2 [|c3 s]]]]; simpl; [done|..];
    repeat case_match; intros; simplify_eq/=; lia.
Qed.

(** Every boolean test of the decoder as an inequality, for [lia]. *)
Ltac rune_bounds :=
  unfold is_cont, RuneSelf, RuneError in *;
  rewrite <-?not_true_iff_false in *;
  rewrite ?andb_true_iff, ?in_range_iff, ?is_second_iff, ?ValidRune_iff in *.

Lemma DecodeRune_valid (s s' : string) (r : N) :
  DecodeRune s = Some (r, s') → ValidRune r = true.
Proof.
  assert (ValidRune RuneError = true) by done.
  destruct s as [|c0 s1]; [done|]. unfold DecodeRune; fold DecodeRune.
  destruct (N_of_ascii c0 <? RuneSelf) eqn:?.
  { intros [= <- _]. rune_bounds. lia. }
  repeat case_match; intros [= <- _]; try done; rune_bounds; lia.
Qed.

(** Decoding inverts encoding on scalar values, whatever follows. *)
Lemma DecodeRune_EncodeRune (r : N) (s : string) :
  ValidRune r = true → DecodeRune (EncodeRune r +:+ s) = Some (r, s).
Proof.
  intros Hv. unfold EncodeRune. rewrite Hv. rune_bounds.
  repeat case_match; rewrite ?app_String, ?app_empty_l; unfold DecodeRune;
    rewrite !N_of_byte by lia; repeat case_match; rune_bounds;
    first [by do 2 f_equal; lia | exfalso; lia].
Qed.

Lemma runes_fuel_enough (n1 n2 : nat) (s : string) :
  (String.length s ≤ n1)%nat → (String.length s ≤ n2)%nat →
  runes_fuel n1 s = runes_fuel n2 s.
Proof.
  revert n2 s. induction n1 as [|n1 IH]; intros [|n2] s H1 H2.
  - done.
  - by destruct s; [|simpl in *; lia].
  - by destruct s; [|simpl in *; lia].
  - simpl. destruct (DecodeRune s) as [[r s']|] eqn:Hs; [|done].
    apply DecodeRune_shrinks in Hs. f_equal. apply IH; lia.
Qed.

Lemma runes_step (s s' : string) (r : N) :
  DecodeRune s = Some (r, s') → runes s = r :: runes s'.
Proof.
  intros Hs. pose proof (DecodeRune_shrinks _ _ _ Hs) as Hlt. unfold runes.
  destruct (String.length s) as [|n] eqn:Hn; [lia|]. simpl. rewrite Hs. f_equal.
  apply runes_fuel_enough; lia.
Qed.

Lemma runes_empty : runes EmptyString = [].
Proof. done. Qed.

Lemma DecodeRune_cons (c : ascii) (s : string) : is_Some (DecodeRune (String c s)).
Proof. unfold DecodeRune. repeat case_match; eauto. Qed.

(** Induction along the runes of a string. *)
Lemma runes_ind (P : string → Prop) :
  P EmptyString →
  (∀ s s' r, DecodeRune s = Some (r, s') → P s' → P s) →
  ∀ s, P s.
Proof.
  intros H0 HS s. remember (String.length s) as n eqn:Hn.
  revert s Hn. induction (lt_wf n) as [n _ IH]. intros [|c s] ->; [done|].
  destruct (DecodeRune_cons c s) as [[r s'] Hs].
  eapply HS; [exact Hs|]. eapply IH; [|done]. by eapply DecodeRune_shrinks.
Qed.

Lemma runes_valid (s : string) : Forall (λ r, ValidRune r = true) (runes s).
Proof.
  induction s as [|s s' r Hs IH] using runes_ind; [done|].
  rewrite (runes_step _ _ _ Hs). constructor; [|done]. by eapply DecodeRune_valid.
Qed.

(** [[]rune(string(l)) = l] for scalar values. *)
Lemma runes_encode_all (l : list N) :
  Forall (λ r, ValidRune r = true) l → runes (encode_all l) = l.
Proof.
  induction 1 as [|r l Hr _ IH]; [done|]. simpl.
  rewrite (runes_step _ (encode_all l) r); [by rewrite IH|].
  by apply DecodeRune_EncodeRune.
Qed.

Lemma encode_all_cons (r : N) (l : list N) :
  encode_all (r :: l) = EncodeRune r +:+ encode_all l.
Proof. done. Qed.

Lemma runes_ascii_cons (c : ascii) (s : string) :
  N_of_ascii c < RuneSelf → runes (String c s) = N_of_ascii c :: runes s.
Proof.
  intros Hc. apply runes_step. unfold DecodeRune.
  by rewrite (proj2 (N.ltb_lt _ _) Hc).
Qed.

Lemma EncodeRune_ascii (r : N) : r < RuneSelf → EncodeRune r = String (byte r) EmptyString.
Proof.
  intros Hr. unfold RuneSelf in *. unfold EncodeRune.
  rewrite (proj2 (ValidRune_iff r)) by lia.
  by rewrite (proj2 (N.ltb_lt _ _) Hr).
Qed.

(** An ASCII byte after a string starts a rune of its own. *)
Lemma ascii_not_cont (c : ascii) (b0 : N) :
  N_of_ascii c < RuneSelf → is_second b0 (N_of_ascii c) = false ∧ is_cont (N_of_ascii c) = false.
Proof.
  unfold RuneSelf. intros Hc. split; apply not_true_is_false.
  - rewrite is_second_iff. lia.
  - unfold is_cont. rewrite in_range_iff. lia.
Qed.

Lemma DecodeRune_snoc (s s' : string) (r : N) (c : ascii) :
  N_of_ascii c < RuneSelf → DecodeRune s = Some (r, s') →
  DecodeRune (s +:+ String c EmptyString) = Some (r, s' +:+ String c EmptyString).
Proof.
  intros Hc. destruct s as [|c0 s1]; [done|]. rewrite app_String. unfold DecodeRune.
  destruct (ascii_not_cont c (N_of_ascii c0) Hc) as [Hs Hk].
  destruct (N_of_ascii c0 <? RuneSelf); [by intros [= <- <-]|].
  destruct (in_range 0xC2 0xDF _); [|destruct (in_range 0xE0 0xEF _); [|destruct (in_range 0xF0 0xF4 _)]];
    [..|by intros [= <- <-]];
    destruct s1 as [|c1 [|c2 [|c3 s4]]]; rewrite ?app_empty_l, ?app_String, ?app_empty_l, ?Hs, ?Hk,
      ?andb_false_r; simpl; rewrite ?andb_false_r;
    repeat (case_match; try done); by intros [= <- <-].
Qed.

Lemma runes_snoc (s : string) (c : ascii) :
  N_of_ascii c < RuneSelf → runes (s +:+ String c EmptyString) = runes s ++ [N_of_ascii c].
Proof.
  intros Hc. induction s as [|s s' r Hs IH] using runes_ind.
  - rewrite app_empty_l, runes_ascii_cons by done. done.
  - rewrite (runes_step _ _ _ (DecodeRune_snoc _ _ _ _ Hc Hs)), (runes_step _ _ _ Hs), IH. done.
Qed.

Lemma encode_all_snoc (l : list N) (r : N) :
  encode_all (l ++ [r]) = encode_all l +:+ EncodeRune r.
Proof.
  induction l as [|x l IH]; simpl; [by rewrite app_empty_r|]. by rewrite IH, sapp_assoc.
Qed.

Section lower.
Context `{UnicodeCase}.

Lemma Map_ascii (s : string) :
  is_ascii s = true → Map unicode_ToLower s = map_bytes lower_byte s.
Proof.
  unfold Map, is_ascii. induction s as [|c s IH]; [done|]. simpl.
  intros [Hc Hs]%andb_true_iff. apply N.ltb_lt in Hc.
  rewrite runes_ascii_cons by done. rewrite fmap_cons, encode_all_cons, IH by done.
  rewrite unicode_ToLower_ascii by done. unfold lower_byte, is_upper.
  destruct (in_range 65 90 (N_of_ascii c)) eqn:Hu.
  - rewrite EncodeRune_ascii; [done|]. apply in_range_iff in Hu. unfold RuneSelf. lia.
  - rewrite EncodeRune_ascii by done. unfold byte. by rewrite ascii_N_embedding.
Qed.

Lemma map_bytes_no_upper (s : string) :
  all_bytes (λ c, negb (is_upper c)) s = true → map_bytes lower_byte s = s.
Proof.
  induction s as [|c s IH]; [done|]. simpl.
  intros [Hc Hs]%andb_true_iff. unfold lower_byte at 1.
  by rewrite (proj1 (negb_true_iff _) Hc), IH.
Qed.

(** The fast path of [ToLower] computes what the rune-wise mapping computes. *)
Lemma ToLower_Map (s : string) : ToLower s = Map unicode_ToLower s.
Proof.
  unfold ToLower. destruct (is_ascii s) eqn:Ha; [|done]. rewrite Map_ascii by done.
  destruct (all_bytes _ s) eqn:Hu; [|done]. by rewrite map_bytes_no_upper.
Qed.

(** A byte such as the dot that has no upper case stays in its place. *)
Lemma ToLower_snoc (s : string) (c : ascii) :
  N_of_ascii c < RuneSelf → is_upper c = false →
  ToLower (s +:+ String c EmptyString) = ToLower s +:+ String c EmptyString.
Proof.
  intros Hc Hu. rewrite !ToLower_Map. unfold Map.
  rewrite runes_snoc, fmap_app by done. cbn [fmap list_fmap].
  rewrite encode_all_snoc. f_equal.
  rewrite unicode_ToLower_ascii by done. unfold is_upper in Hu. rewrite Hu.
  rewrite EncodeRune_ascii by done. unfold byte. by rewrite ascii_N_embedding.
Qed.

Lemma ToLower_idem (s : string) : ToLower (ToLower s) = ToLower s.
Proof.
  rewrite !ToLower_Map. unfold Map. pose proof (runes_valid s) as Hv.
  rewrite runes_encode_all.
  - f_equal. rewrite <-list_fmap_compose. apply Forall_fmap_ext_1.
    eapply Forall_impl; [exact Hv|]. apply unicode_ToLower_idem.
  - rewrite Forall_fmap. eapply Forall_impl; [exact Hv|]. apply unicode_ToLower_valid.
Qed.

End lower.

#[export] Hint Rewrite @ToLower_idem : gostrings.

(** A table with the ASCII and Latin-1 letters, for evaluating the models: the
    interface above has an instance that is not the identity. *)
Definition latin1_lower (r : N) : N :=
  if in_range 65 90 r || (in_range 0xC0 0xDE r && negb (r =? 0xD7)) then r + 32 else r.

Definition latin1_case : UnicodeCase.
Proof.
  refine {| unicode_ToLower := latin1_lower |}; unfold latin1_lower;
    intros r Hr; rune_bounds; unfold in_range; repeat case_match; lia.
Defined.

(** *** Splitting and joining *)

Lemma Split_cons (s : string) (sep : ascii) : ∃ w ws, Split s sep = w :: ws.
Proof. destruct s as [|c s]; simpl; [eauto|]. repeat case_match; eauto. Qed.

Lemma Join_cons_byte (c : ascii) (w : string) (ws : list string) (sep : ascii) :
  Join (String c w :: ws) sep = String c (Join (w :: ws) sep).
Proof. by destruct ws. Qed.

(** [strings.Join] undoes [strings.Split]. *)
Lemma Join_Split (s : string) (sep : ascii) : Join (Split s sep) sep = s.
Proof.
  induction s as [|c s IH]; [done|]. simpl.
  destruct (Split_cons s sep) as (w & ws & Hs). rewrite Hs in *.
  destruct (bool_decide_reflect (c = sep)) as [->|].
  - by rewrite <-IH.
  - by rewrite Join_cons_byte, IH.
Qed.

Definition has_byte (b : ascii) (s : string) : bool :=
  negb (all_bytes (λ c, negb (bool_decide (c = b))) s).

Lemma has_byte_cons (b c : ascii) (s : string) :
  has_byte b (String c s) = bool_decide (c = b) || has_byte b s.
Proof. unfold has_byte. simpl. by destruct (bool_decide (c = b)). Qed.

(** No piece of a split contains the separator. *)
Lemma Split_no_sep (s : string) (sep : ascii) :
  Forall (λ w, has_byte sep w = false) (Split s sep).
Proof.
  induction s as [|c s IH]; [by repeat constructor|]. simpl.
  destruct (Split_cons s sep) as (w & ws & Hs). rewrite Hs in *.
  apply Forall_cons in IH as [Hw Hws].
  destruct (bool_decide (c = sep)) eqn:Hc; [by repeat constructor|].
  constructor; [|done]. by rewrite has_byte_cons, Hc.
Qed.

(** Joining pieces without separator and splitting again gives the pieces. *)
Lemma Split_Join (l : list string) (sep : ascii) :
  l ≠ [] → Forall (λ w, has_byte sep w = false) l → Split (Join l sep) sep = l.
Proof.
  intros Hne Hall. induction Hall as [|w ws Hw Hws IH]; [done|]. clear Hne.
  induction w as [|c w IHw].
  - destruct ws as [|w' ws]; [done|].
    change (Split (String sep (Join (w' :: ws) sep)) sep = EmptyString :: w' :: ws).
    cbn [Split]. rewrite bool_decide_eq_true_2 by done. by rewrite IH.
  - rewrite has_byte_cons in Hw. apply orb_false_iff in Hw as [Hc Hw].
    rewrite Join_cons_byte. cbn [Split]. by rewrite Hc, IHw.
Qed.

(** *** Trimming a suffix *)

Lemma TrimSuffix_nil (suffix : string) : TrimSuffix EmptyString suffix = EmptyString.
Proof. simpl. by case_match. Qed.

Lemma TrimSuffix_app (s suffix : string) : TrimSuffix (s +:+ suffix) suffix = s.
Proof.
  induction s as [|c s IH].
  - rewrite app_empty_l. destruct suffix; simpl; [done|].
    by rewrite bool_decide_eq_true_2.
  - rewrite app_String. simpl. rewrite bool_decide_eq_false_2; [by rewrite IH|].
    intros Heq. apply (f_equal String.length) in Heq. simpl in Heq.
    rewrite slength_app in Heq. lia.
Qed.

(** Either the suffix is there and is cut, or nothing happens. *)
Lemma TrimSuffix_cases (s suffix : string) :
  s = TrimSuffix s suffix +:+ suffix ∨ TrimSuffix s suffix = s.
Proof.
  induction s as [|c s IH]; simpl.
  - destruct (bool_decide_reflect (EmptyString = suffix)) as [<-|]; auto.
  - destruct (bool_decide_reflect (String c s = suffix)) as [<-|]; [by left|].
    destruct IH as [IH|IH]; [left; rewrite app_String; by f_equal|right; by f_equal].
Qed.
