(* ===== verification/Strconv.v ===== *)
(** * Strconv: decimal integers as package strconv and [%d] read and write them

    [ParseUint] and [Atoi] of the configuration and of the JSON decoder, and the
    texts of integers ([strconv.AppendInt], [%d]), which stdpp's [pretty]
    produces.  Reading a written integer gives it back. *)

From stdpp Require Import gmap strings list pretty.
From Stdlib Require Import ZArith NArith Lia ZifyN Ascii.
From S2P Require Import Prelude GoStrings.

(** ** Reading *)

Definition is_digit (c : ascii) : bool := Utf8.in_range 48 57 (N_of_ascii c).
Definition decimal_digit (c : ascii) : option N :=
  if is_digit c then Some (N_of_ascii c - 48)%N else None.

Fixpoint decimal_from (acc : N) (s : string) : option N :=
  match s with
  | EmptyString => Some acc
  | String c s => d ← decimal_digit c; decimal_from (acc * 10 + d)%N s
  end.
Definition decimal (s : string) : option N :=
  if bool_decide (s = EmptyString) then None else decimal_from 0 s.

(** [strconv.ParseUint(s, 10, 32)]; the kind of error does not matter. *)
Definition ParseUint32 (s : string) : option N :=
  n ← decimal s; if (n <? 2 ^ 32)%N then Some n else None.

(** [strconv.Atoi], for a 64-bit int. *)
Definition Atoi (s : string) : option Z :=
  let '(neg, digits) :=
    match s with
    | String c rest =>
        if bool_decide (c = "-"%char) then (true, rest)
        else if bool_decide (c = "+"%char) then (false, rest) else (false, s)
    | EmptyString => (false, s)
    end in
  n ← decimal digits;
  let z := if neg then (- Z.of_N n)%Z else Z.of_N n in
  if bool_decide (- 2 ^ 63 ≤ z < 2 ^ 63)%Z then Some z else None.

Example atoi_port : Atoi "+7946" = Some 7946%Z.
Proof. reflexivity. Qed.
Example atoi_junk : Atoi "79x" = None.
Proof. reflexivity. Qed.
Example uint_big : ParseUint32 "4294967296" = None.
Proof. reflexivity. Qed.

Lemma ParseUint32_bound s n : ParseUint32 s = Some n → (n < 2 ^ 32)%N.
Proof.
  unfold ParseUint32. destruct (decimal s) as [k|]; [|done]. cbn [mbind option_bind].
  destruct (k <? 2 ^ 32)%N eqn:Hk; [|done]. intros [= <-]. by apply N.ltb_lt.
Qed.

(** ** Reading what was written *)

Lemma decimal_digit_char (d : N) : (d < 10)%N → decimal_digit (pretty_N_char d) = Some d.
Proof.
  intros Hd. assert (d = 0 ∨ d = 1 ∨ d = 2 ∨ d = 3 ∨ d = 4 ∨ d = 5 ∨ d = 6 ∨ d = 7 ∨
    d = 8 ∨ d = 9)%N as H by lia.
  by destruct_or! H; subst.
Qed.

(** Writing the digits of [x] in front of [s] and reading on. *)
Lemma decimal_from_go (x : N) (s : string) :
  decimal_from 0 (pretty_N_go x s) = decimal_from x s.
Proof.
  revert s. induction (N.lt_wf_0 x) as [x _ IH]. intros s.
  destruct (decide (x = 0%N)) as [->|]; [by rewrite pretty_N_go_0|].
  rewrite pretty_N_go_step by lia. rewrite IH by (apply N.div_lt; lia). simpl.
  rewrite decimal_digit_char by (apply N.mod_lt; lia). simpl. f_equal.
  rewrite (N.div_mod x 10) at 3 by done. lia.
Qed.

Lemma decimal_pretty (n : N) : decimal (pretty n) = Some n.
Proof.
  unfold pretty, pretty_N. destruct (decide (n = 0%N)) as [->|Hn]; [done|].
  unfold decimal. rewrite bool_decide_eq_false_2; [apply decimal_from_go|].
  intros He. pose proof (decimal_from_go n "") as Hd. rewrite He in Hd. simpl in Hd. congruence.
Qed.

(** A written natural number is a single zero, or digits that start with another
    one. *)
Lemma pretty_N_go_shape (x : N) (s : string) :
  (0 < x)%N → ∃ c d, pretty_N_go x s = String c (d +:+ s) ∧
    c ≠ "0"%char ∧ is_digit c = true ∧ all_bytes is_digit d = true.
Proof.
  revert s. induction (N.lt_wf_0 x) as [x _ IH]. intros s Hx.
  rewrite pretty_N_go_step by lia. pose proof (N.mod_lt x 10 ltac:(done)) as Hm.
  assert (is_digit (pretty_N_char (x mod 10)) = true) as Hd.
  { pose proof (decimal_digit_char _ Hm) as Hc. unfold decimal_digit in Hc. by case_match. }
  destruct (decide (x / 10 = 0)%N) as [Hq|Hq].
  - rewrite Hq, pretty_N_go_0. exists (pretty_N_char (x mod 10)), EmptyString.
    split_and!; [done| |done|done].
    pose proof (N.div_mod x 10 ltac:(done)) as Hdm. rewrite Hq in Hdm.
    change "0"%char with (pretty_N_char 0). intros Hc%pretty_N_char_inj; lia.
  - destruct (IH (x / 10)%N) with (s := String (pretty_N_char (x mod 10)) s)
      as (c & d & -> & Hc & Hcd & Hds); [apply N.div_lt; lia|lia|].
    exists c, (d +:+ String (pretty_N_char (x mod 10)) EmptyString). split_and!; try done.
    + by rewrite sapp_assoc.
    + clear -Hds Hd. induction d as [|b d IHd]; simpl in *; [by rewrite Hd|].
      apply andb_true_iff in Hds as [-> ?]. rewrite IHd by done. done.
Qed.

Lemma pretty_N_shape (n : N) :
  pretty n = "0" ∨ ∃ c d, pretty n = String c d ∧ c ≠ "0"%char ∧
    is_digit c = true ∧ all_bytes is_digit d = true.
Proof.
  unfold pretty, pretty_N. case_decide; [by left|right].
  destruct (pretty_N_go_shape n EmptyString) as (c & d & -> & ?); [lia|].
  exists c, d. by rewrite app_empty_r.
Qed.

Lemma pretty_Z_cases (z : Z) :
  ∃ n : N, (pretty z = pretty n ∧ z = Z.of_N n) ∨ (pretty z = String "-"%char (pretty n) ∧ z = - Z.of_N n ∧ z < 0)%Z.
Proof.
  destruct z as [|p|p]; [exists 0%N; by left|exists (N.pos p); by left|exists (N.pos p); by right].
Qed.

Lemma decimal_no_sign (n : N) :
  ∃ c s, pretty n = String c s ∧ c ≠ "-"%char ∧ c ≠ "+"%char.
Proof.
  destruct (pretty_N_shape n) as [->|(c & d & -> & _ & Hd & _)]; [by repeat eexists|].
  exists c, d. split_and!; [done|..]; by intros ->.
Qed.

Lemma Atoi_pretty (z : Z) : int64 z → Atoi (pretty z) = Some z.
Proof.
  intros Hz. destruct (pretty_Z_cases z) as [n [[-> Hn]|(-> & Hn & _)]]; unfold Atoi.
  - destruct (decimal_no_sign n) as (c & s & Hp & H1 & H2). rewrite Hp.
    rewrite !bool_decide_eq_false_2 by done. rewrite <-Hp, decimal_pretty. cbn [mbind option_bind].
    rewrite <-Hn. by rewrite bool_decide_eq_true_2.
  - rewrite bool_decide_eq_true_2, decimal_pretty by done. cbn [mbind option_bind].
    rewrite <-Hn. by rewrite bool_decide_eq_true_2.
Qed.

Lemma Atoi_int64 s z : Atoi s = Some z → int64 z.
Proof.
  unfold Atoi. destruct (match s with EmptyString => _ | String _ _ => _ end) as [neg d].
  destruct (decimal d) as [n|]; [|done]. cbn [mbind option_bind].
  case_bool_decide; [|done]. by intros [= <-].
Qed.

Lemma decimal_pretty_Z (z : Z) : (0 ≤ z)%Z → decimal (pretty z) = Some (Z.to_N z).
Proof.
  intros Hz. destruct (pretty_Z_cases z) as [n [[-> Hn]|[-> Hn]]].
  - rewrite decimal_pretty, Hn. by rewrite N2Z.id.
  - lia.
Qed.
