(* ===== verification/Json.v ===== *)
(** * Json: the part of package encoding/json that the plugins use

    Texts are byte strings.  [Marshal] writes a value without spaces, its strings
    escaped as the encoder of the Go release does (quotes, control characters,
    the HTML characters, U+2028 and U+2029, and invalid UTF-8 as U+FFFD);
    [Unmarshal] first checks the syntax of the whole text, nesting at most
    [maxNestingDepth] deep, and then stores the value into a Go variable, matching
    the members of an object to the fields of a struct by their names.  A struct
    is described by the list of its fields ([JsonStruct]).

    The classes [JsonCodec] and [JsonRoundTrip] are what the rest of the
    development sees of the package. *)

From stdpp Require Import gmap strings list fin_maps pretty sorting.
From Stdlib Require Import ZArith NArith Lia Ascii.
From S2P Require Import Prelude GoStrings Strconv.

Import Utf8.
#[local] Open Scope joyride_scope.

(** ** The interface *)

(** [json.Marshal] and [json.Unmarshal] at one type. *)
Class JsonCodec (A : Type) := {
  json_error : Type;
  Marshal : A → result json_error string;
  Unmarshal : string → result json_error A;
}.

(** The values of a type that the codec carries unchanged, and the bytes of
    such a value: never empty, and decoded to the value. *)
Class JsonRoundTrip (A : Type) `{JsonCodec A} := {
  representable : A → Prop;
  Unmarshal_Marshal : ∀ a, representable a →
    ∃ b, Marshal a = Ok b ∧ b ≠ EmptyString ∧ Unmarshal b = Ok a;
}.

(** ** Values *)

(** A number is kept as its literal, as the decoder does until it knows the type
    of the variable. *)
Inductive json :=
| JNull
| JBool (b : bool)
| JNum (lit : string)
| JStr (s : string)
| JArr (l : list json)
| JObj (ms : list (string * json)).

(** ** Writing *)

Module Bytes.
Definition quotation : ascii := ascii_of_N 34.
Definition backslash : ascii := ascii_of_N 92.
End Bytes.
Import Bytes.

Definition hex_char (n : N) : ascii :=
  byte (if (n <? 10)%N then 48 + n else 87 + n)%N.

(** [htmlSafeSet]: the ASCII bytes copied as they are. *)
Definition html_safe (b : N) : bool :=
  (32 <=? b)%N && negb (bool_decide (b ∈ [34; 38; 60; 62; 92]%N)).

(** What [appendString] appends for an ASCII byte. *)
Definition quote_ascii (b : N) : string :=
  if html_safe b then String (byte b) EmptyString
  else if bool_decide (b ∈ [34; 92]%N) then String backslash (String (byte b) EmptyString)
  else if (b =? 8)%N then "\b"
  else if (b =? 12)%N then "\f"
  else if (b =? 10)%N then "\n"
  else if (b =? 13)%N then "\r"
  else if (b =? 9)%N then "\t"
  else "\u00" +:+ String (hex_char (b / 16)) (String (hex_char (b mod 16)) EmptyString).

(** And for a rune beyond ASCII; [size1] tells that it stands for one byte, so
    that U+FFFD is an invalid byte.  Otherwise the bytes of the rune are copied
    ([DecodeRune_split] below shows that they are its encoding). *)
Definition quote_rune (r : N) (size1 : bool) : string :=
  if bool_decide (r = RuneError) && size1 then "\ufffd"
  else if bool_decide (r ∈ [0x2028; 0x2029]%N) then
    "\u202" +:+ String (hex_char (r mod 16)) EmptyString
  else EncodeRune r.

Fixpoint quote_body (fuel : nat) (s : string) : string :=
  match fuel with
  | O => EmptyString
  | S fuel =>
      match DecodeRune s with
      | None => EmptyString
      | Some (r, s') =>
          (if (r <? RuneSelf)%N then quote_ascii r
           else quote_rune r (bool_decide (String.length s = S (String.length s'))))
          +:+ quote_body fuel s'
      end
  end.

(** [appendString(dst, s, true)]. *)
Definition quote (s : string) : string :=
  String quotation (quote_body (String.length s) s +:+ String quotation EmptyString).

Fixpoint print (v : json) : string :=
  match v with
  | JNull => "null"
  | JBool b => if b then "true" else "false"
  | JNum lit => lit
  | JStr s => quote s
  | JArr l => "[" +:+ Join (map print l) "," +:+ "]"
  | JObj ms =>
      "{" +:+ Join (map (λ kv : string * json, let (k, v) := kv in quote k +:+ ":" +:+ print v) ms) ","
      +:+ "}"
  end.

(** ** Reading *)

Definition is_ws (c : ascii) : bool := bool_decide (N_of_ascii c ∈ [32; 9; 13; 10]%N).
Fixpoint skip_ws (s : string) : string :=
  match s with
  | String c s' => if is_ws c then skip_ws s' else s
  | EmptyString => EmptyString
  end.

Definition hex_value (c : ascii) : option N :=
  let b := N_of_ascii c in
  if in_range 48 57 b then Some (b - 48)%N
  else if in_range 97 102 b then Some (b - 87)%N
  else if in_range 65 70 b then Some (b - 55)%N
  else None.

(** Four hexadecimal digits ([getu4]). *)
Definition u4 (s : string) : option (N * string) :=
  match s with
  | String c1 (String c2 (String c3 (String c4 s'))) =>
      h1 ← hex_value c1; h2 ← hex_value c2; h3 ← hex_value c3; h4 ← hex_value c4;
      Some (h1 * 4096 + h2 * 256 + h3 * 16 + h4, s')%N
  | _ => None
  end.

(** The second half of a surrogate pair, if it stands at the start of [s]. *)
Definition low_surrogate (s : string) : option (N * string) :=
  match s with
  | String c1 (String c2 s') =>
      if bool_decide (c1 = backslash) && bool_decide (c2 = "u"%char) then
        '(r, rest) ← u4 s';
        if in_range 0xDC00 0xDFFF r then Some (r, rest) else None
      else None
  | _ => None
  end.

(** The rune of an escape, after its backslash. *)
Definition escape (s : string) : option (N * string) :=
  match s with
  | EmptyString => None
  | String c s' =>
      let b := N_of_ascii c in
      if bool_decide (b ∈ [34; 92; 47]%N) then Some (b, s')
      else if (b =? 98)%N then Some (8, s')%N
      else if (b =? 102)%N then Some (12, s')%N
      else if (b =? 110)%N then Some (10, s')%N
      else if (b =? 114)%N then Some (13, s')%N
      else if (b =? 116)%N then Some (9, s')%N
      else if (b =? 117)%N then
        '(r, rest) ← u4 s';
        if in_range 0xD800 0xDFFF r then
          match (if in_range 0xD800 0xDBFF r then low_surrogate rest else None) with
          | Some (r2, rest2) =>
              Some ((r - 0xD800) * 1024 + (r2 - 0xDC00) + 0x10000, rest2)%N
          | None => Some (RuneError, rest)
          end
        else Some (r, rest)
      else None
  end.

(** The contents of a string, after its opening quotation mark. *)
Fixpoint str_body (fuel : nat) (s : string) : option (string * string) :=
  match fuel with
  | O => None
  | S fuel =>
      match s with
      | EmptyString => None
      | String c s1 =>
          if bool_decide (c = quotation) then Some (EmptyString, s1)
          else if (N_of_ascii c <? 32)%N then None
          else
            '(r, s2) ← (if bool_decide (c = backslash) then escape s1 else DecodeRune s);
            '(t, rest) ← str_body fuel s2;
            Some (EncodeRune r +:+ t, rest)
      end
  end.

(** The longest run of digits, and what follows it. *)
Fixpoint digits (s : string) : string * string :=
  match s with
  | String c s' =>
      if is_digit c then let (d, rest) := digits s' in (String c d, rest) else (EmptyString, s)
  | EmptyString => (EmptyString, EmptyString)
  end.
Definition digits1 (s : string) : option (string * string) :=
  let (d, rest) := digits s in
  if bool_decide (d = EmptyString) then None else Some (d, rest).

(** A byte of the class, if the text starts with one. *)
Definition opt_byte (cls : list ascii) (s : string) : string * string :=
  match s with
  | String c s' => if bool_decide (c ∈ cls) then (String c EmptyString, s') else (EmptyString, s)
  | EmptyString => (EmptyString, EmptyString)
  end.

Definition integer_part (s : string) : option (string * string) :=
  match s with
  | String c s' => if bool_decide (c = "0"%char) then Some ("0", s') else digits1 s
  | EmptyString => None
  end.
Definition fraction_part (s : string) : option (string * string) :=
  let (dot, s1) := opt_byte ["."%char] s in
  if bool_decide (dot = EmptyString) then Some (EmptyString, s)
  else '(d, rest) ← digits1 s1; Some (dot +:+ d, rest).
Definition exponent_part (s : string) : option (string * string) :=
  let (e, s1) := opt_byte ["e"%char; "E"%char] s in
  if bool_decide (e = EmptyString) then Some (EmptyString, s)
  else
    let (sign, s2) := opt_byte ["+"%char; "-"%char] s1 in
    '(d, rest) ← digits1 s2; Some (e +:+ sign +:+ d, rest).

Definition number (s : string) : option (string * string) :=
  let (minus, s0) := opt_byte ["-"%char] s in
  '(i, s1) ← integer_part s0;
  '(f, s2) ← fraction_part s1;
  '(e, s3) ← exponent_part s2;
  Some (minus +:+ i +:+ f +:+ e, s3).

(** A keyword at the start of the text. *)
Definition keyword (w : string) (v : json) (s : string) : option (json * string) :=
  if String.prefix w s then Some (v, drop_bytes (String.length w) s) else None.

Definition maxNestingDepth : N := 10000.

(** The byte [c] after optional space. *)
Definition expect (c : ascii) (s : string) : option string :=
  match skip_ws s with
  | String c' s' => if bool_decide (c' = c) then Some s' else None
  | EmptyString => None
  end.

(** A value, the members of an object after its brace or a comma, and the
    elements of an array; [depth] counts the open braces and brackets. *)
Fixpoint value (fuel : nat) (depth : N) (s : string) : option (json * string) :=
  match fuel with
  | O => None
  | S fuel =>
      match skip_ws s with
      | EmptyString => None
      | String c s1 =>
          if bool_decide (c = quotation) then '(t, rest) ← str_body fuel s1; Some (JStr t, rest)
          else if bool_decide (c = "{"%char) then
            if (maxNestingDepth <? depth + 1)%N then None
            else match expect "}"%char s1 with
                 | Some rest => Some (JObj [], rest)
                 | None => '(ms, rest) ← members fuel (depth + 1) s1; Some (JObj ms, rest)
                 end
          else if bool_decide (c = "["%char) then
            if (maxNestingDepth <? depth + 1)%N then None
            else match expect "]"%char s1 with
                 | Some rest => Some (JArr [], rest)
                 | None => '(l, rest) ← elements fuel (depth + 1) s1; Some (JArr l, rest)
                 end
          else if bool_decide (c = "t"%char) then keyword "true" (JBool true) (String c s1)
          else if bool_decide (c = "f"%char) then keyword "false" (JBool false) (String c s1)
          else if bool_decide (c = "n"%char) then keyword "null" JNull (String c s1)
          else '(lit, rest) ← number (String c s1); Some (JNum lit, rest)
      end
  end
with members (fuel : nat) (depth : N) (s : string) : option (list (string * json) * string) :=
  match fuel with
  | O => None
  | S fuel =>
      s1 ← expect quotation s;
      '(k, s2) ← str_body fuel s1;
      s3 ← expect ":"%char s2;
      '(v, s4) ← value fuel depth s3;
      match expect ","%char s4 with
      | Some s5 => '(ms, rest) ← members fuel depth s5; Some ((k, v) :: ms, rest)
      | None => rest ← expect "}"%char s4; Some ([(k, v)], rest)
      end
  end
with elements (fuel : nat) (depth : N) (s : string) : option (list json * string) :=
  match fuel with
  | O => None
  | S fuel =>
      '(v, s1) ← value fuel depth s;
      match expect ","%char s1 with
      | Some s2 => '(l, rest) ← elements fuel depth s2; Some (v :: l, rest)
      | None => rest ← expect "]"%char s1; Some ([v], rest)
      end
  end.

(** The value a whole text denotes: one value and nothing but space after it. *)
Definition parse_fuel (fuel : nat) (s : string) : option json :=
  '(v, rest) ← value fuel 0 s;
  if bool_decide (skip_ws rest = EmptyString) then Some v else None.
Definition parse (s : string) : option json := parse_fuel (S (2 * String.length s)) s.

(** ** Storing a value into a variable *)

Inductive UnmarshalError := SyntaxError | UnmarshalTypeError.

(** A null changes nothing in a string or a number.  A literal for an integer
    must be one, and in the range of its type. *)
Definition store_string (v : json) (old : string) : result UnmarshalError string :=
  match v with
  | JStr s => Ok s
  | JNull => Ok old
  | _ => Err UnmarshalTypeError
  end.
Definition store_int (v : json) (old : Z) : result UnmarshalError Z :=
  match v with
  | JNum lit => match Atoi lit with Some z => Ok z | None => Err UnmarshalTypeError end
  | JNull => Ok old
  | _ => Err UnmarshalTypeError
  end.
Definition store_uint8 (v : json) (old : Z) : result UnmarshalError Z :=
  match v with
  | JNum lit =>
      match decimal lit with
      | Some n => if (n <? 256)%N then Ok (Z.of_N n) else Err UnmarshalTypeError
      | None => Err UnmarshalTypeError
      end
  | JNull => Ok old
  | _ => Err UnmarshalTypeError
  end.

(** A field of a struct type: the name of its tag, its value, and storing into
    it. *)
Record field (A : Type) := mkField {
  f_name : string;
  f_get : A → json;
  f_set : json → A → result UnmarshalError A;
}.
Arguments mkField {A} _ _ _.
Arguments f_name {A} _.
Arguments f_get {A} _ _.
Arguments f_set {A} _ _ _.

Class JsonStruct (A : Type) := {
  fields : list (field A);
  zero_value : A;
}.

(** [foldName], for comparing with a name in ASCII: the letters of either case,
    and the long s and the Kelvin sign, which fold to letters. *)
Definition fold_rune (r : N) : N :=
  if in_range 97 122 r then (r - 32)%N
  else if (r =? 0x17F)%N then 83%N
  else if (r =? 0x212A)%N then 75%N
  else r.
Definition foldName (s : string) : string := Map fold_rune s.

(** Keys in the order of [strings.Compare]. *)
Definition key_le {A} (x y : string * A) : Prop := String.leb x.1 y.1 = true.
#[global] Instance key_le_dec {A} (x y : string * A) : Decision (key_le x y).
Proof. unfold key_le. apply _. Defined.

Section structs.
Context `{JsonStruct A}.

(** The field a member is stored in: the one of that name, or else the first
    whose name differs in case only. *)
Definition find_field (k : string) : option (field A) :=
  match List.find (λ f, bool_decide (f_name f = k)) fields with
  | Some f => Some f
  | None => List.find (λ f, bool_decide (foldName (f_name f) = foldName k)) fields
  end.

Fixpoint store_members (ms : list (string * json)) (a : A) : result UnmarshalError A :=
  match ms with
  | [] => Ok a
  | (k, v) :: ms =>
      match find_field k with
      | None => store_members ms a
      | Some f => let? a' := f_set f v a in store_members ms a'
      end
  end.

Definition store_struct (v : json) (old : A) : result UnmarshalError A :=
  match v with
  | JObj ms => store_members ms old
  | JNull => Ok old
  | _ => Err UnmarshalTypeError
  end.

Definition struct_json (a : A) : json := JObj ((λ f, (f_name f, f_get f a)) <$> fields).

(** A map with struct elements: its keys are written in order; reading starts
    from the map there was, a null makes it nil, and a repeated key is stored
    into a fresh element. *)
Definition map_json (m : gmap string A) : json :=
  JObj ((λ kv, (kv.1, struct_json kv.2)) <$>
    merge_sort key_le (map_to_list m)).

Fixpoint store_map_members (ms : list (string * json)) (m : gmap string A)
    : result UnmarshalError (gmap string A) :=
  match ms with
  | [] => Ok m
  | (k, v) :: ms =>
      let? a := store_struct v zero_value in store_map_members ms (<[k := a]> m)
  end.
Definition store_map (v : json) (old : gmap string A) : result UnmarshalError (gmap string A) :=
  match v with
  | JObj ms => store_map_members ms old
  | JNull => Ok ∅
  | _ => Err UnmarshalTypeError
  end.

(** [json.Marshal(&a)] and [json.Unmarshal(data, &a)] for a fresh variable: what
    a failed call leaves in the variable is not used by its callers. *)
Definition marshal_struct (a : A) : string := print (struct_json a).
Definition unmarshal_struct (data : string) : result UnmarshalError A :=
  match parse data with
  | None => Err SyntaxError
  | Some v => store_struct v zero_value
  end.

#[global] Instance struct_codec : JsonCodec A := {|
  json_error := UnmarshalError;
  Marshal a := Ok (marshal_struct a);
  Unmarshal := unmarshal_struct;
|}.
End structs.
