(* ===== verification/JsonSpec.v ===== *)
(** * JsonSpec: what reading and writing JSON guarantee

    Reading terminates: the fuel of the parser is never what stops it.  Reading
    what was written gives the value back, its strings with invalid bytes
    replaced; and every string that is read is valid UTF-8. *)

From stdpp Require Import gmap strings list fin_maps pretty sorting.
From Stdlib Require Import ZArith NArith Lia ZifyBool ZifyN Ascii.
From S2P Require Import Prelude GoStrings Strconv Json.

Import Utf8 Bytes.

(** ** The parser consumes its input *)

#[local] Notation slen := String.length (only parsing).

Lemma skip_ws_length s : slen (skip_ws s) ≤ slen s.
Proof. induction s as [|c s IH]; simpl; [done|]. case_match; simpl; lia. Qed.

Lemma expect_shrinks c s s' : expect c s = Some s' → slen s' < slen s.
Proof.
  unfold expect. pose proof (skip_ws_length s). repeat case_match; intros; simplify_eq/=; lia.
Qed.

Lemma u4_shrinks s r s' : u4 s = Some (r, s') → slen s' < slen s.
Proof.
  destruct s as [|c1 [|c2 [|c3 [|c4 s]]]]; simpl; try done.
  destruct (hex_value c1), (hex_value c2), (hex_value c3), (hex_value c4); intros; simplify_eq/=; lia.
Qed.

Lemma low_surrogate_shrinks s r s' : low_surrogate s = Some (r, s') → slen s' < slen s.
Proof.
  destruct s as [|c1 [|c2 s]]; simpl; try done. case_match; [|done].
  destruct (u4 s) as [[r1 rest]|] eqn:Hu; simpl; [|done]. apply u4_shrinks in Hu.
  case_match; intros; simplify_eq/=; lia.
Qed.

Lemma escape_shrinks s r s' : escape s = Some (r, s') → slen s' < slen s.
Proof.
  destruct s as [|c s]; [done|]. unfold escape.
  destruct (u4 s) as [[r1 rest]|] eqn:Hu; simpl; [apply u4_shrinks in Hu|];
    repeat case_match; intros; simplify_eq/=; try lia.
  - match goal with H : low_surrogate _ = _ |- _ => apply low_surrogate_shrinks in H end. lia.
Qed.

Lemma str_body_shrinks n s t rest : str_body n s = Some (t, rest) → slen rest < slen s.
Proof.
  revert s t. induction n as [|n IH]; intros [|c s] t; cbn [str_body]; try done.
  case_match; [intros; simplify_eq/=; lia|]. case_match; [done|].
  destruct (if bool_decide (c = backslash) then escape s else DecodeRune (String c s))
    as [[r s2]|] eqn:Hr; cbn [mbind option_bind]; [|done].
  assert (slen s2 ≤ slen s).
  { case_match; [apply escape_shrinks in Hr; lia|]. apply (DecodeRune_shrinks (String c s)) in Hr.
    simpl in Hr. lia. }
  destruct (str_body n s2) as [[t' rest']|] eqn:Hb; cbn [mbind option_bind]; [|done].
  intros [= _ <-]. apply IH in Hb. simpl. lia.
Qed.

Lemma digits_length s d rest : digits s = (d, rest) → slen rest + slen d = slen s.
Proof.
  revert d. induction s as [|c s IH]; intros d; simpl; [by intros [= <- <-]|].
  case_match; [|by intros [= <- <-]]. destruct (digits s) as [d' r']. intros [= <- <-].
  simpl. specialize (IH _ eq_refl). lia.
Qed.

Lemma digits1_shrinks s d rest : digits1 s = Some (d, rest) → slen rest < slen s.
Proof.
  unfold digits1. destruct (digits s) as [d' r'] eqn:Hd. apply digits_length in Hd.
  case_bool_decide; [done|]. intros [= <- <-]. destruct d'; simpl in *; [done|lia].
Qed.

Lemma opt_byte_length cls s d rest : opt_byte cls s = (d, rest) → slen rest ≤ slen s.
Proof. destruct s; simpl; repeat case_match; intros; simplify_eq/=; lia. Qed.

Lemma number_shrinks s lit rest : number s = Some (lit, rest) → slen rest < slen s.
Proof.
  unfold number, integer_part, fraction_part, exponent_part.
  destruct (opt_byte ["-"%char] s) as [m s0] eqn:Em. apply opt_byte_length in Em.
  destruct s0 as [|c s0]; [done|].
  destruct (if bool_decide (c = "0"%char) then _ else _) as [[i s1]|] eqn:Ei; [|done].
  assert (slen s1 < slen s).
  { case_match; [simplify_eq/=; lia|]. apply digits1_shrinks in Ei. lia. }
  cbn [mbind option_bind].
  destruct (opt_byte _ s1) as [dot s1'] eqn:Edot. apply opt_byte_length in Edot.
  destruct (if bool_decide (dot = EmptyString) then _ else _) as [[f s2]|] eqn:Ef; [|done].
  assert (slen s2 ≤ slen s1).
  { case_match; [by simplify_eq|]. destruct (digits1 s1') as [[d r]|] eqn:Hd; [|done].
    apply digits1_shrinks in Hd. simplify_eq/=. lia. }
  cbn [mbind option_bind].
  destruct (opt_byte _ s2) as [e s2'] eqn:Ee. apply opt_byte_length in Ee.
  destruct (bool_decide (e = EmptyString)); cbn [mbind option_bind].
  { intros [= _ <-]. lia. }
  destruct (opt_byte _ s2') as [sg s3] eqn:Esg. apply opt_byte_length in Esg.
  destruct (digits1 s3) as [[d r]|] eqn:Hd; [|done]. apply digits1_shrinks in Hd.
  intros [= _ <-]. lia.
Qed.

Lemma drop_bytes_length n s : slen (drop_bytes n s) = slen s - n.
Proof. revert s. induction n as [|n IH]; intros [|c s]; simpl; auto. Qed.

Lemma keyword_shrinks w v s x rest :
  w ≠ EmptyString → keyword w v s = Some (x, rest) → s = EmptyString ∨ slen rest < slen s.
Proof.
  unfold keyword. intros Hw. case_match; [|done]. intros [= _ <-]. rewrite drop_bytes_length.
  destruct s, w; simpl in *; try done; auto. right. lia.
Qed.

(** ** Fuel *)

Lemma str_body_fuel n1 n2 s : slen s < n1 → slen s < n2 → str_body n1 s = str_body n2 s.
Proof.
  revert n2 s. induction n1 as [|n1 IH]; intros [|n2] s H1 H2; try lia.
  destruct s as [|c s]; [done|]. cbn [str_body]. simpl in H1, H2.
  case_match; [done|]. case_match; [done|].
  destruct (if bool_decide (c = backslash) then escape s else DecodeRune (String c s))
    as [[r s2]|] eqn:Hr; [|done]. cbn [mbind option_bind].
  rewrite (IH n2 s2); [done| |];
    (case_match; [apply escape_shrinks in Hr; lia|]; apply (DecodeRune_shrinks (String c s)) in Hr;
     simpl in Hr; lia).
Qed.

(** Run the goal through the reading steps it starts with, keeping the successful
    case of each. *)
Ltac read_steps :=
  repeat match goal with
  | |- context [mbind _ ?o] =>
      let x := fresh "x" in
      destruct o as [x|] eqn:?; cbn [mbind option_bind]; [|done];
      try match type of x with prod _ _ => destruct x end
  end.

Ltac shrink IHv IHm IHe :=
  repeat match goal with
  | H : str_body _ _ = _ |- _ => apply str_body_shrinks in H
  | H : expect _ _ = Some _ |- _ => apply expect_shrinks in H
  | H : value _ _ _ = _ |- _ => apply IHv in H
  | H : members _ _ _ = _ |- _ => apply IHm in H
  | H : elements _ _ _ = _ |- _ => apply IHe in H
  | H : number _ = _ |- _ => apply number_shrinks in H
  | H : keyword _ _ _ = _ |- _ => apply keyword_shrinks in H as [|]; [done| |done]
  end; simpl in *; lia.

(** Every way a value, its members or its elements can be read leaves less text. *)
Lemma parse_shrinks n :
  (∀ d s v rest, value n d s = Some (v, rest) → slen rest < slen s) ∧
  (∀ d s ms rest, members n d s = Some (ms, rest) → slen rest < slen s) ∧
  (∀ d s l rest, elements n d s = Some (l, rest) → slen rest < slen s).
Proof.
  induction n as [|n (IHv & IHm & IHe)]; [done|].
  split_and!.
  - intros d s v rest. cbn [value]. pose proof (skip_ws_length s) as Hs.
    destruct (skip_ws s) as [|c s1]; [done|]. simpl in Hs.
    repeat case_match; read_steps; intros; simplify_eq; shrink IHv IHm IHe.
  - intros d s ms rest. cbn [members]. read_steps.
    case_match; read_steps; intros; simplify_eq; shrink IHv IHm IHe.
  - intros d s l rest. cbn [elements]. read_steps.
    case_match; read_steps; intros; simplify_eq; shrink IHv IHm IHe.
Qed.

Lemma value_shrinks n d s v rest : value n d s = Some (v, rest) → slen rest < slen s.
Proof. apply parse_shrinks. Qed.

(** A fuel above twice the length of the text is as good as any other. *)
Lemma parse_fuel_enough n1 n2 :
  (∀ d s, 2 * slen s < n1 → 2 * slen s < n2 → value n1 d s = value n2 d s) ∧
  (∀ d s, 2 * slen s < n1 → 2 * slen s < n2 → members n1 d s = members n2 d s) ∧
  (∀ d s, 2 * slen s + 1 < n1 → 2 * slen s + 1 < n2 → elements n1 d s = elements n2 d s).
Proof.
  revert n2. induction n1 as [|n1 IH]; intros [|n2]; split_and!; intros d s H1 H2; try lia;
    destruct (IH n2) as (IHv & IHm & IHe).
  - cbn [value]. pose proof (skip_ws_length s) as Hs.
    destruct (skip_ws s) as [|c s1]; [done|]. simpl in Hs.
    rewrite (str_body_fuel n1 n2), IHm, IHe by lia. done.
  - cbn [members]. destruct (expect quotation s) as [s1|] eqn:E1; [|done].
    apply expect_shrinks in E1. cbn [mbind option_bind].
    rewrite (str_body_fuel n1 n2) by lia.
    destruct (str_body n2 s1) as [[k s2]|] eqn:E2; [|done]. apply str_body_shrinks in E2.
    cbn [mbind option_bind]. destruct (expect ":"%char s2) as [s3|] eqn:E3; [|done].
    apply expect_shrinks in E3. cbn [mbind option_bind]. rewrite IHv by lia.
    destruct (value n2 d s3) as [[v s4]|] eqn:E4; [|done]. apply value_shrinks in E4.
    cbn [mbind option_bind]. destruct (expect ","%char s4) as [s5|] eqn:E5; [|done].
    apply expect_shrinks in E5. by rewrite IHm by lia.
  - cbn [elements]. rewrite IHv by lia.
    destruct (value n2 d s) as [[v s4]|] eqn:E4; [|done]. apply value_shrinks in E4.
    cbn [mbind option_bind]. destruct (expect ","%char s4) as [s5|] eqn:E5; [|done].
    apply expect_shrinks in E5. by rewrite IHe by lia.
Qed.

Lemma parse_fuel_parse n s : 2 * slen s < n → parse_fuel n s = parse s.
Proof.
  intros Hn. unfold parse, parse_fuel.
  by rewrite (proj1 (parse_fuel_enough n (S (2 * slen s)))) by lia.
Qed.

(** ** Strings *)

(** A string with every invalid byte replaced by U+FFFD, and the strings that
    need no replacement ([utf8.ValidString]). *)
Definition scrub (s : string) : string := encode_all (runes s).
Definition valid_utf8 (s : string) : Prop := scrub s = s.

#[global] Instance valid_utf8_dec s : Decision (valid_utf8 s).
Proof. unfold valid_utf8. apply _. Defined.

Lemma runes_scrub s : runes (scrub s) = runes s.
Proof. apply runes_encode_all, runes_valid. Qed.
Lemma scrub_idem s : scrub (scrub s) = scrub s.
Proof. unfold scrub at 1. by rewrite runes_scrub. Qed.
Lemma valid_scrub s : valid_utf8 (scrub s).
Proof. apply scrub_idem. Qed.
Lemma valid_empty : valid_utf8 EmptyString.
Proof. done. Qed.

Lemma scrub_step s s' r : DecodeRune s = Some (r, s') → scrub s = EncodeRune r +:+ scrub s'.
Proof. intros Hs. unfold scrub. by rewrite (runes_step _ _ _ Hs). Qed.

Lemma scrub_rune r s : ValidRune r = true → scrub (EncodeRune r +:+ s) = EncodeRune r +:+ scrub s.
Proof. intros Hr. apply scrub_step. by apply DecodeRune_EncodeRune. Qed.

Lemma byte_of (n : N) (c : ascii) : n = N_of_ascii c → byte n = c.
Proof. intros ->. apply ascii_N_embedding. Qed.

(** A decoded rune is a single invalid byte, or its encoding stands there. *)
Lemma DecodeRune_split s s' r :
  DecodeRune s = Some (r, s') →
  (r = RuneError ∧ slen s = S (slen s')) ∨ s = EncodeRune r +:+ s'.
Proof.
  intros Hd. pose proof (DecodeRune_valid _ _ _ Hd) as Hv. revert Hd.
  destruct s as [|c0 s1]; [done|]. unfold DecodeRune.
  destruct (N_of_ascii c0 <? RuneSelf)%N eqn:H0.
  { intros [= <- <-]. right. rewrite EncodeRune_ascii by lia. unfold byte.
    by rewrite ascii_N_embedding. }
  unfold EncodeRune. rewrite Hv. clear Hv.
  repeat case_match; intros [= Hr <-]; rune_bounds; try (left; split; done); right;
    repeat case_match; rune_bounds; rewrite ?app_String, ?app_empty_l;
    repeat f_equal; first [symmetry; apply byte_of; lia | exfalso; lia].
Qed.

(** What the encoder writes for a decoded rune. *)
Definition piece (s s' : string) (r : N) : string :=
  if (r <? RuneSelf)%N then quote_ascii r
  else quote_rune r (bool_decide (slen s = S (slen s'))).

Lemma quote_body_fuel n1 n2 s : slen s ≤ n1 → slen s ≤ n2 → quote_body n1 s = quote_body n2 s.
Proof.
  revert n2 s. induction n1 as [|n1 IH]; intros [|n2] s H1 H2; try done.
  - by destruct s; [|simpl in *; lia].
  - by destruct s; [|simpl in *; lia].
  - cbn [quote_body]. destruct (DecodeRune s) as [[r s']|] eqn:Hs; [|done].
    apply DecodeRune_shrinks in Hs. f_equal. apply IH; lia.
Qed.

Lemma quote_body_step s s' r :
  DecodeRune s = Some (r, s') →
  quote_body (slen s) s = piece s s' r +:+ quote_body (slen s') s'.
Proof.
  intros Hs. pose proof (DecodeRune_shrinks _ _ _ Hs) as Hlt.
  destruct (slen s) as [|n] eqn:Hn; [lia|]. cbn [quote_body]. rewrite Hs. unfold piece.
  f_equal. apply quote_body_fuel; lia.
Qed.

(** What reading does after a written rune. *)
Notation read_on r tail n :=
  ('(t, rest) ← str_body n tail; Some (EncodeRune r +:+ t, rest)) (only parsing).

Lemma read_quote_ascii c n tail :
  (N_of_ascii c < RuneSelf)%N →
  str_body (S n) (quote_ascii (N_of_ascii c) +:+ tail) = read_on (N_of_ascii c) tail n.
Proof.
  intros Hc. destruct c as [[] [] [] [] [] [] [] []]; first [exfalso; by vm_compute in Hc | reflexivity].
Qed.

Lemma EncodeRune_head r :
  ValidRune r = true → (RuneSelf <= r)%N →
  ∃ c s, EncodeRune r = String c s ∧ (RuneSelf <= N_of_ascii c)%N.
Proof.
  intros Hv Hr. unfold EncodeRune. rewrite Hv. rune_bounds.
  repeat case_match; try lia; do 2 eexists; (split; [done|]); rewrite N_of_byte by lia; lia.
Qed.

Lemma read_encoded r n tail :
  ValidRune r = true → (RuneSelf <= r)%N →
  str_body (S n) (EncodeRune r +:+ tail) = read_on r tail n.
Proof.
  intros Hv Hr. destruct (EncodeRune_head r Hv Hr) as (c & s & He & Hc).
  pose proof (DecodeRune_EncodeRune r tail Hv) as Hd. rewrite He in Hd |- *.
  rewrite app_String in Hd |- *. cbn [str_body]. rewrite Hd.
  unfold RuneSelf in Hc.
  rewrite bool_decide_eq_false_2 by (intros ->; by vm_compute in Hc).
  rewrite (proj2 (N.ltb_ge _ _)) by lia.
  rewrite bool_decide_eq_false_2 by (intros ->; by vm_compute in Hc).
  cbn [mbind option_bind]. by rewrite He.
Qed.

Lemma read_piece s s' r n tail :
  DecodeRune s = Some (r, s') → str_body (S n) (piece s s' r +:+ tail) = read_on r tail n.
Proof.
  intros Hs. pose proof (DecodeRune_valid _ _ _ Hs) as Hv. unfold piece.
  destruct (r <? RuneSelf)%N eqn:Hr.
  { destruct (DecodeRune_split _ _ _ Hs) as [[-> _]|Hsp]; [done|].
    rewrite <-(N_of_byte r) by (unfold RuneSelf in Hr; lia). apply read_quote_ascii.
    rewrite N_of_byte; unfold RuneSelf in *; lia. }
  apply N.ltb_ge in Hr. unfold quote_rune.
  destruct (bool_decide (r = RuneError) && _) eqn:H1.
  { apply andb_true_iff in H1 as [->%bool_decide_eq_true _]. reflexivity. }
  clear H1. case_bool_decide as H2; [|by apply read_encoded].
  repeat (apply elem_of_cons in H2 as [->|H2]; [reflexivity|]). by apply elem_of_nil in H2.
Qed.

(** Reading a written string gives the string, scrubbed. *)
Lemma read_quote_body s n rest :
  slen (quote_body (slen s) s) < n →
  str_body n (quote_body (slen s) s +:+ String quotation rest) = Some (scrub s, rest).
Proof.
  revert n. induction s as [|s s' r Hs IH] using runes_ind; intros n Hn.
  - destruct n; [lia|]. reflexivity.
  - rewrite (quote_body_step _ _ _ Hs) in Hn |- *. rewrite slength_app in Hn.
    destruct n as [|n]; [lia|]. rewrite sapp_assoc, (read_piece _ _ _ _ _ Hs).
    assert (0 < slen (piece s s' r)).
    { pose proof (read_piece _ _ _ 1 (String quotation EmptyString) Hs) as Hp.
      destruct (piece s s' r); [|simpl; lia]. exfalso. simpl in Hp. simplify_eq.
      destruct (EncodeRune r) eqn:He; [|done]. revert He. unfold EncodeRune. by repeat case_match. }
    rewrite IH by lia. cbn [mbind option_bind]. by rewrite (scrub_step _ _ _ Hs).
Qed.

(** ** Numbers *)

(** What follows a value inside a text that was written: nothing, or a byte that
    cannot continue it. *)
Definition delimited (s : string) : Prop :=
  match s with
  | EmptyString => True
  | String c _ => c ∈ [","%char; "}"%char; "]"%char; ascii_of_N 10]
  end.

Ltac delim_cases H :=
  repeat (apply elem_of_cons in H as [->|H]; [try done|]); try by apply elem_of_nil in H.

Lemma digits_app d rest :
  all_bytes is_digit d = true → delimited rest → digits (d +:+ rest) = (d, rest).
Proof.
  intros Hd Hr. induction d as [|c d IH]; cbn [all_bytes] in Hd.
  - rewrite app_empty_l. destruct rest as [|c rest]; [done|]. simpl in Hr. delim_cases Hr.
  - apply andb_true_iff in Hd as [Hc Hd]. rewrite app_String. cbn [digits].
    by rewrite Hc, IH.
Qed.

Lemma fraction_exponent_none rest :
  delimited rest →
  fraction_part rest = Some (EmptyString, rest) ∧ exponent_part rest = Some (EmptyString, rest).
Proof. destruct rest as [|c rest]; [done|]. intros Hr. simpl in Hr. delim_cases Hr. Qed.

Lemma integer_part_pretty (n : N) rest :
  delimited rest → integer_part (pretty n +:+ rest) = Some (pretty n, rest).
Proof.
  intros Hr. destruct (pretty_N_shape n) as [->|(c & d & -> & H0 & Hc & Hd)]; [done|].
  rewrite app_String. cbn [integer_part]. rewrite bool_decide_eq_false_2 by done.
  unfold digits1. cbn [digits]. by rewrite Hc, digits_app.
Qed.

Lemma number_pretty (z : Z) rest :
  delimited rest → number (pretty z +:+ rest) = Some (pretty z, rest).
Proof.
  intros Hr. destruct (fraction_exponent_none rest Hr) as [Hf He]. unfold number.
  destruct (pretty_Z_cases z) as [n [[-> _]|[-> _]]].
  - destruct (decimal_no_sign n) as (c & s & Hp & H1 & H2). rewrite Hp. rewrite app_String.
    cbn [opt_byte]. rewrite bool_decide_eq_false_2 by set_solver.
    rewrite <-app_String, <-Hp, integer_part_pretty by done. cbn [mbind option_bind].
    rewrite Hf. cbn [mbind option_bind]. rewrite He. cbn [mbind option_bind].
    by rewrite !app_empty_l, app_empty_r.
  - rewrite app_String. cbn [opt_byte]. rewrite bool_decide_eq_true_2 by set_solver.
    rewrite integer_part_pretty by done. cbn [mbind option_bind].
    rewrite Hf. cbn [mbind option_bind]. rewrite He. cbn [mbind option_bind].
    by rewrite !app_empty_l, app_empty_r, app_String, app_empty_l.
Qed.

(** The first byte of an integer starts no other kind of value. *)
Lemma pretty_Z_head (z : Z) :
  ∃ c s, pretty z = String c s ∧ is_ws c = false ∧
    c ∉ [quotation; "{"%char; "["%char; "t"%char; "f"%char; "n"%char].
Proof.
  assert (∀ c, is_digit c = true → is_ws c = false ∧
    c ∉ [quotation; "{"%char; "["%char; "t"%char; "f"%char; "n"%char]) as Hdig.
  { intros c. destruct c as [[] [] [] [] [] [] [] []]; intros Hc; (by vm_compute in Hc) ||
      (split; [reflexivity|]; by apply (bool_decide_unpack _)). }
  destruct (pretty_Z_cases z) as [n [[-> _]|[-> _]]].
  - destruct (pretty_N_shape n) as [->|(c & d & -> & _ & Hc & _)].
    + exists "0"%char, EmptyString. split; [done|]. by apply Hdig.
    + exists c, d. split; [done|]. by apply Hdig.
  - exists "-"%char, (pretty n). split_and!; [done|done|]. by apply (bool_decide_unpack _).
Qed.

(** ** Values *)

(** Induction on a value and the values inside it. *)
Lemma json_nested_ind (P : json → Prop) :
  P JNull → (∀ b, P (JBool b)) → (∀ lit, P (JNum lit)) → (∀ s, P (JStr s)) →
  (∀ l, Forall P l → P (JArr l)) →
  (∀ ms, Forall (λ kv, P kv.2) ms → P (JObj ms)) →
  ∀ v, P v.
Proof.
  intros H1 H2 H3 H4 H5 H6. fix IH 1.
  intros [| | | |l|ms]; [exact H1|apply H2|apply H3|apply H4| |].
  - apply H5. induction l as [|v l IHl]; constructor; [apply IH|exact IHl].
  - apply H6. induction ms as [|[k v] ms IHms]; constructor; [apply IH|exact IHms].
Qed.

(** A value that can stand at nesting [d]: its numbers are integers and it is not
    nested too deep. *)
Inductive writable : N → json → Prop :=
| w_null d : writable d JNull
| w_bool d b : writable d (JBool b)
| w_num d (z : Z) : writable d (JNum (pretty z))
| w_str d s : writable d (JStr s)
| w_arr d l : (d + 1 <= maxNestingDepth)%N → Forall (writable (d + 1)) l → writable d (JArr l)
| w_obj d ms : (d + 1 <= maxNestingDepth)%N → Forall (λ kv, writable (d + 1) kv.2) ms →
    writable d (JObj ms).

(** The value that comes back. *)
Fixpoint scrub_json (v : json) : json :=
  match v with
  | JStr s => JStr (scrub s)
  | JArr l => JArr (map scrub_json l)
  | JObj ms => JObj (map (λ kv : string * json, let (k, v) := kv in (scrub k, scrub_json v)) ms)
  | _ => v
  end.

(** A member and its text. *)
Definition member_text (kv : string * json) : string :=
  let (k, v) := kv in quote k +:+ ":" +:+ print v.
Definition scrub_member (kv : string * json) : string * json :=
  let (k, v) := kv in (scrub k, scrub_json v).

(** [v] is read back wherever it is written. *)
Definition reads_back (v : json) : Prop := ∀ d n rest,
  writable d v → delimited rest → 2 * slen (print v +:+ rest) < n →
  value n d (print v +:+ rest) = Some (scrub_json v, rest).

Lemma quote_app s t : quote s +:+ t = String quotation (quote_body (slen s) s +:+ String quotation t).
Proof. unfold quote. by rewrite app_String, sapp_assoc, app_String, app_empty_l. Qed.

Lemma expect_here c s : is_ws c = false → expect c (String c s) = Some s.
Proof. intros Hc. unfold expect. cbn [skip_ws]. rewrite Hc. by rewrite bool_decide_eq_true_2. Qed.

Lemma expect_other c c' s : is_ws c' = false → c' ≠ c → expect c (String c' s) = None.
Proof. intros Hc Hn. unfold expect. cbn [skip_ws]. rewrite Hc. by rewrite bool_decide_eq_false_2. Qed.

Lemma Join_map_cons {A} (f : A → string) (x y : A) (l : list A) (sep : ascii) :
  Join (map f (x :: y :: l)) sep = f x +:+ String sep (Join (map f (y :: l)) sep).
Proof. done. Qed.

(** One member, and whatever comes after it. *)
Lemma read_member k v d n tail :
  reads_back v → writable d v → delimited tail →
  2 * slen (quote k +:+ ":" +:+ print v +:+ tail) < S n →
  members (S n) d (quote k +:+ ":" +:+ print v +:+ tail) =
  match expect ","%char tail with
  | Some s5 => '(ms, rest) ← members n d s5; Some ((scrub k, scrub_json v) :: ms, rest)
  | None => rest ← expect "}"%char tail; Some ([(scrub k, scrub_json v)], rest)
  end.
Proof.
  intros Hv Hw Ht. rewrite quote_app. change (":" +:+ ?x) with (String ":"%char x).
  intros Hn. cbn [members]. rewrite expect_here by done. cbn [mbind option_bind].
  simpl in Hn. rewrite slength_app in Hn. simpl in Hn.
  rewrite read_quote_body by lia. cbn [mbind option_bind].
  rewrite expect_here by done. cbn [mbind option_bind].
  by rewrite Hv by (done || lia).
Qed.

Lemma read_members ms d n rest :
  ms ≠ [] → Forall (λ kv, reads_back kv.2) ms → Forall (λ kv, writable d kv.2) ms →
  2 * slen (Join (map member_text ms) "," +:+ String "}"%char rest) < n →
  members n d (Join (map member_text ms) "," +:+ String "}"%char rest) =
  Some (map scrub_member ms, rest).
Proof.
  intros Hne Hb. revert n Hne. induction Hb as [|[k v] ms Hv Hb IH]; [done|].
  intros n _ [Hwv Hw]%Forall_cons Hn. destruct n as [|n]; [lia|].
  destruct ms as [|kv ms].
  - cbn [map Join member_text] in Hn |- *. rewrite !sapp_assoc in Hn |- *.
    rewrite read_member; [|done|done|set_solver|done].
    by rewrite expect_other, expect_here by done.
  - rewrite Join_map_cons in Hn |- *. unfold member_text at 1 in Hn. unfold member_text at 1.
    rewrite !sapp_assoc, (app_String ","%char) in Hn |- *.
    rewrite read_member; [|done|done|set_solver|done].
    rewrite expect_here by done. rewrite IH; [done|done|done|].
    repeat first [rewrite !slength_app in Hn | progress cbn [String.length] in Hn].
    rewrite !slength_app. cbn [String.length]. lia.
Qed.

Lemma read_elements l d n rest :
  l ≠ [] → Forall reads_back l → Forall (writable d) l →
  2 * slen (Join (map print l) "," +:+ String "]"%char rest) + 1 < n →
  elements n d (Join (map print l) "," +:+ String "]"%char rest) = Some (map scrub_json l, rest).
Proof.
  intros Hne Hb. revert n Hne. induction Hb as [|v l Hv Hb IH]; [done|].
  intros n _ [Hwv Hw]%Forall_cons Hn. destruct n as [|n]; [lia|].
  destruct l as [|v' l0].
  - cbn [map Join] in Hn |- *. cbn [elements].
    rewrite Hv by (done || set_solver || lia). cbn [mbind option_bind].
    by rewrite expect_other, expect_here by done.
  - rewrite Join_map_cons in Hn |- *.
    rewrite !sapp_assoc, (app_String ","%char) in Hn |- *. cbn [elements].
    rewrite Hv by (done || set_solver || lia). cbn [mbind option_bind].
    rewrite expect_here by done. rewrite IH; [done|done|done|].
    repeat first [rewrite !slength_app in Hn | progress cbn [String.length] in Hn].
    rewrite !slength_app. cbn [String.length]. lia.
Qed.

(** The braces and brackets of the grammar. *)
Lemma value_string n d s :
  value (S n) d (String quotation s) = ('(t, rest) ← str_body n s; Some (JStr t, rest)).
Proof. done. Qed.
Lemma value_object n d s :
  value (S n) d (String "{"%char s) =
  if (maxNestingDepth <? d + 1)%N then None
  else match expect "}"%char s with
       | Some rest => Some (JObj [], rest)
       | None => '(ms, rest) ← members n (d + 1) s; Some (JObj ms, rest)
       end.
Proof. done. Qed.
Lemma value_array n d s :
  value (S n) d (String "["%char s) =
  if (maxNestingDepth <? d + 1)%N then None
  else match expect "]"%char s with
       | Some rest => Some (JArr [], rest)
       | None => '(l, rest) ← elements n (d + 1) s; Some (JArr l, rest)
       end.
Proof. done. Qed.

Lemma print_array l rest :
  print (JArr l) +:+ rest = String "["%char (Join (map print l) "," +:+ String "]"%char rest).
Proof. cbn [print]. rewrite !sapp_assoc. done. Qed.
Lemma print_object ms rest :
  print (JObj ms) +:+ rest = String "{"%char (Join (map member_text ms) "," +:+ String "}"%char rest).
Proof. cbn [print]. rewrite !sapp_assoc. done. Qed.

(** No written value starts with space or a closing bracket. *)
Lemma print_head d v :
  writable d v → ∃ c s, print v = String c s ∧ is_ws c = false ∧ c ≠ "]"%char.
Proof.
  destruct 1 as [|? []|d z| | |]; try (by do 2 eexists; split_and!).
  destruct (pretty_Z_head z) as (c & s & Hz & Hws & Hc). exists c, s. split_and!; [done..|].
  intros ->. destruct (pretty_Z_cases z) as [n [[Hp _]|[Hp _]]]; rewrite Hp in Hz; [|done].
  destruct (pretty_N_shape n) as [Hn|(c' & d' & Hn & _ & Hd & _)]; rewrite Hn in Hz; [done|].
  by simplify_eq.
Qed.

Lemma Join_map_head {A} (f : A → string) (x : A) (l : list A) (sep : ascii) :
  ∃ s, Join (map f (x :: l)) sep = f x +:+ s.
Proof. destruct l as [|y l]; [exists EmptyString; simpl; by rewrite app_empty_r|by eexists]. Qed.

(** Reading a written value gives it back, its strings scrubbed. *)
Lemma print_reads_back v : reads_back v.
Proof.
  induction v as [|b|lit|s|l IHl|ms IHms] using json_nested_ind;
    intros d n rest Hw Hr Hn; (destruct n as [|n]; [lia|]).
  - by destruct rest.
  - by destruct b, rest.
  - inversion Hw as [| |? z| | |]; subst. cbn [print] in *.
    destruct (pretty_Z_head z) as (c & s & Hz & Hws & Hc).
    pose proof (number_pretty z rest Hr) as Hnum. rewrite Hz in Hnum |- *.
    rewrite app_String in Hnum |- *. cbn [value skip_ws]. rewrite Hws.
    rewrite !bool_decide_eq_false_2 by set_solver. rewrite Hnum. cbn [mbind option_bind].
    simpl. by rewrite <-Hz.
  - cbn [print] in *. rewrite quote_app, value_string in *.
    cbn [String.length] in Hn. rewrite slength_app in Hn. rewrite read_quote_body by lia. done.
  - inversion Hw as [| | | |? ? Hd Hl|]; subst. rewrite print_array, value_array in *.
    rewrite (proj2 (N.ltb_ge _ _) Hd). destruct l as [|v l]; [done|].
    destruct (Join_map_head print v l ",") as [s Hs].
    destruct (print_head (d + 1) v) as (c & s' & Hc & Hws & Hne); [by inversion Hl|].
    assert (expect "]"%char (Join (map print (v :: l)) "," +:+ String "]"%char rest) = None) as ->.
    { rewrite Hs, Hc. by apply expect_other. }
    cbn [String.length] in Hn. by rewrite read_elements by (done || lia).
  - inversion Hw as [| | | | |? ? Hd Hms]; subst. rewrite print_object, value_object in *.
    rewrite (proj2 (N.ltb_ge _ _) Hd). destruct ms as [|[k v] ms]; [done|].
    destruct (Join_map_head member_text (k, v) ms ",") as [s Hs].
    assert (expect "}"%char (Join (map member_text ((k, v) :: ms)) "," +:+ String "}"%char rest)
      = None) as ->.
    { rewrite Hs. cbn [member_text]. rewrite !sapp_assoc, quote_app. by apply expect_other. }
    cbn [String.length] in Hn. by rewrite read_members by (done || lia).
Qed.

Lemma parse_print_then v tail :
  writable 0 v → delimited tail → skip_ws tail = EmptyString →
  parse (print v +:+ tail) = Some (scrub_json v).
Proof.
  intros Hw Hd Ht. unfold parse, parse_fuel.
  rewrite (print_reads_back v 0%N _ tail Hw Hd) by lia. cbn [mbind option_bind].
  by rewrite bool_decide_eq_true_2.
Qed.

Lemma parse_print v : writable 0 v → parse (print v) = Some (scrub_json v).
Proof. intros Hw. rewrite <-(app_empty_r (print v)). by apply parse_print_then. Qed.

(** ** Every string that is read is valid UTF-8 *)

Lemma scrub_EncodeRune r s : scrub (EncodeRune r +:+ s) = EncodeRune r +:+ scrub s.
Proof.
  destruct (ValidRune r) eqn:Hr; [by apply scrub_rune|].
  assert (EncodeRune r = EncodeRune RuneError) as ->
    by (unfold EncodeRune; by rewrite Hr).
  by apply scrub_rune.
Qed.

Lemma str_body_valid n s t rest : str_body n s = Some (t, rest) → valid_utf8 t.
Proof.
  unfold valid_utf8. revert s t rest.
  induction n as [|n IH]; intros [|c s] t rest; cbn [str_body]; try done.
  case_match; [by intros [= <- _]|]. case_match; [done|]. read_steps.
  intros [= <- _]. rewrite scrub_EncodeRune. f_equal. eauto.
Qed.

Ltac canonical IHv IHm IHe :=
  repeat match goal with
  | H : str_body _ _ = _ |- _ => apply str_body_valid in H
  | H : value _ _ _ = _ |- _ => apply IHv in H
  | H : members _ _ _ = _ |- _ => apply IHm in H
  | H : elements _ _ _ = _ |- _ => apply IHe in H
  | H : keyword _ _ _ = Some _ |- _ => unfold keyword in H; case_match; [simplify_eq|done]
  end; unfold scrub_member in *; unfold valid_utf8 in *; simpl; try congruence.

Lemma read_canonical n :
  (∀ d s v rest, value n d s = Some (v, rest) → scrub_json v = v) ∧
  (∀ d s ms rest, members n d s = Some (ms, rest) → map scrub_member ms = ms) ∧
  (∀ d s l rest, elements n d s = Some (l, rest) → map scrub_json l = l).
Proof.
  induction n as [|n (IHv & IHm & IHe)]; [done|].
  split_and!.
  - intros d s v rest. cbn [value]. destruct (skip_ws s) as [|c s1]; [done|].
    repeat case_match; read_steps; intros; simplify_eq; canonical IHv IHm IHe.
  - intros d s ms rest. cbn [members]. read_steps.
    case_match; read_steps; intros; simplify_eq; canonical IHv IHm IHe.
  - intros d s l rest. cbn [elements]. read_steps.
    case_match; read_steps; intros; simplify_eq; canonical IHv IHm IHe.
Qed.

Lemma parse_canonical s v : parse s = Some v → scrub_json v = v.
Proof.
  unfold parse, parse_fuel. read_steps. case_match; [|done]. intros [= <-].
  by eapply (proj1 (read_canonical _)).
Qed.
