(* ===== verification/JsonPrefix.v ===== *)
(** * JsonPrefix: a text that was cut is not mistaken for another

    What the parser reads from a text it reads from every extension of it, as
    long as the text does not end inside a number.  So no proper prefix of a
    written object is a JSON text: a datagram that was cut is always refused. *)

From stdpp Require Import gmap strings list pretty.
From Stdlib Require Import ZArith NArith Lia ZifyBool ZifyN Ascii.
From S2P Require Import Prelude GoStrings Strconv Json JsonSpec.

Import Utf8 Bytes.

(** ** Strings *)

Lemma u4_app s u r s' : u4 s = Some (r, s') → u4 (s +:+ u) = Some (r, s' +:+ u).
Proof.
  destruct s as [|c1 [|c2 [|c3 [|c4 s]]]]; simpl; try done.
  destruct (hex_value c1), (hex_value c2), (hex_value c3), (hex_value c4); intros; by simplify_eq/=.
Qed.

Lemma str_body_empty n : str_body n EmptyString = None.
Proof. by destruct n. Qed.

Lemma str_body_one n c x : str_body n (String c EmptyString) = Some x → c = quotation.
Proof.
  destruct n as [|n]; [done|]. cbn [str_body].
  destruct (bool_decide_reflect (c = quotation)); [done|]. case_match; [done|].
  case_match; [by destruct n|]. unfold DecodeRune.
  repeat case_match; cbn [mbind option_bind]; by rewrite str_body_empty.
Qed.

Lemma str_body_two n c1 c2 x :
  str_body n (String c1 (String c2 EmptyString)) = Some x → c1 = quotation ∨ c2 = quotation.
Proof.
  destruct n as [|n]; [done|]. cbn [str_body].
  destruct (bool_decide_reflect (c1 = quotation)); [by left|]. case_match; [done|]. right.
  revert H0. case_match.
  - unfold escape. simpl. repeat case_match; cbn [mbind option_bind]; by rewrite ?str_body_empty.
  - unfold DecodeRune. repeat case_match; cbn [mbind option_bind]; rewrite ?str_body_empty; try done;
      destruct (str_body n (String c2 EmptyString)) eqn:Hs; try done; intros _; by eapply str_body_one.
Qed.

Lemma quotation_no_cont b0 :
  is_second b0 (N_of_ascii quotation) = false ∧ is_cont (N_of_ascii quotation) = false.
Proof. by apply ascii_not_cont. Qed.

(** Decoding a rune does not look beyond a quotation mark. *)
Lemma DecodeRune_app n c s u r s' x :
  DecodeRune (String c s) = Some (r, s') → str_body n s' = Some x →
  DecodeRune (String c s +:+ u) = Some (r, s' +:+ u).
Proof.
  intros Hd Hb. rewrite app_String. revert Hd. unfold DecodeRune.
  destruct (quotation_no_cont (N_of_ascii c)) as [Hq1 Hq2].
  destruct (_ <? _)%N; [by intros [= <- <-]|].
  destruct (in_range 0xC2 0xDF _); [|destruct (in_range 0xE0 0xEF _); [|destruct (in_range 0xF0 0xF4 _)]];
    [..|by intros [= <- <-]]; destruct s as [|c1 [|c2 [|c3 s]]]; rewrite ?app_empty_l, ?app_String;
    try (intros [= <- <-]; by rewrite str_body_empty in Hb);
    try (case_match; by intros [= <- <-]); intros [= <- <-].
  (* too few bytes left: one of them is the quotation mark *)
  - apply str_body_one in Hb as ->. destruct u; [done|]. by rewrite Hq1.
  - apply str_body_one in Hb as ->. destruct u as [|? [|]]; [done..|]. by rewrite Hq1.
  - apply str_body_two in Hb as [->| ->]; (destruct u as [|]; [done|]);
      by rewrite ?Hq1, ?Hq2, ?andb_false_r.
Qed.

(** Nor does an escape, once it is complete. *)
Lemma low_surrogate_app n s u x :
  str_body n s = Some x →
  low_surrogate (s +:+ u) = (λ rs, (rs.1, rs.2 +:+ u)) <$> low_surrogate s.
Proof.
  destruct s as [|c1 [|c2 s]]; [by rewrite str_body_empty|..].
  - intros ->%str_body_one. by destruct u.
  - rewrite !app_String. cbn [low_surrogate].
    destruct (bool_decide_reflect (c1 = backslash)) as [->|]; [|done].
    destruct (bool_decide_reflect (c2 = "u"%char)) as [->|]; [|done]. cbn [andb].
    destruct n as [|n]; [done|]. cbn [str_body].
    rewrite (bool_decide_eq_false_2 (backslash = quotation)), (bool_decide_eq_true_2 (backslash = backslash)) by done.
    change (N_of_ascii backslash <? 32)%N with false. cbv iota.
    destruct (u4 s) as [[r s']|] eqn:Hu; [|unfold escape; simpl; by rewrite Hu].
    intros _. rewrite (u4_app _ u _ _ Hu). cbn [mbind option_bind]. by case_match.
Qed.

Lemma escape_app n s u r s' x :
  escape s = Some (r, s') → str_body n s' = Some x → escape (s +:+ u) = Some (r, s' +:+ u).
Proof.
  destruct s as [|c s]; [done|]. intros He Hb. rewrite app_String. revert He. unfold escape.
  repeat (case_match; [by intros [= <- <-]|]). case_match; [|done].
  destruct (u4 s) as [[r1 rest]|] eqn:Hu; [|done]. rewrite (u4_app _ u _ _ Hu). cbn [mbind option_bind].
  case_match; [|by intros [= <- <-]].
  destruct (in_range 0xD800 0xDBFF r1); [|by intros [= <- <-]].
  destruct (low_surrogate rest) as [[r2 rest2]|] eqn:Hl.
  - intros [= <- <-]. destruct rest as [|c1 [|c2 rest]]; try done. rewrite !app_String. revert Hl.
    cbn [low_surrogate]. case_match; [|done]. destruct (u4 rest) as [[r3 s3]|] eqn:Hu2; [|done].
    rewrite (u4_app _ u _ _ Hu2). cbn [mbind option_bind]. case_match; [|done]. by intros [= <- <-].
  - intros [= <- <-]. by rewrite (low_surrogate_app n rest u x), Hl.
Qed.

Lemma str_body_app n s u t rest :
  str_body n s = Some (t, rest) → str_body n (s +:+ u) = Some (t, rest +:+ u).
Proof.
  revert s t rest. induction n as [|n IH]; intros [|c s] t rest; cbn [str_body]; try done.
  rewrite app_String. cbn [str_body].
  case_match; [by intros [= <- <-]|]. case_match; [done|].
  destruct (if bool_decide (c = backslash) then escape s else DecodeRune (String c s))
    as [[r s2]|] eqn:Hr; [|done]. cbn [mbind option_bind].
  destruct (str_body n s2) as [[t' rest']|] eqn:Hb; [|done]. cbn [mbind option_bind]. intros [= <- <-].
  assert ((if bool_decide (c = backslash) then escape (s +:+ u) else DecodeRune (String c (s +:+ u)))
    = Some (r, s2 +:+ u)) as ->.
  { case_match; [by eapply escape_app|]. rewrite <-app_String. by eapply DecodeRune_app. }
  cbn [mbind option_bind]. by rewrite (IH _ _ _ Hb).
Qed.

(** ** Numbers, keywords and punctuation *)

Lemma digits_ext s u d rest :
  digits s = (d, rest) → rest ≠ EmptyString → digits (s +:+ u) = (d, rest +:+ u).
Proof.
  revert d. induction s as [|c s IH]; intros d; rewrite ?app_String; cbn [digits].
  - by intros [= _ <-].
  - case_match; [|by intros [= <- <-]]. destruct (digits s) as [d' r']. intros [= <- <-] Hr.
    by rewrite (IH d').
Qed.

Lemma digits1_ext s u d rest :
  digits1 s = Some (d, rest) → rest ≠ EmptyString → digits1 (s +:+ u) = Some (d, rest +:+ u).
Proof.
  unfold digits1. destruct (digits s) as [d' r'] eqn:Hd. case_bool_decide; [done|].
  intros [= <- <-] Hr. rewrite (digits_ext _ _ _ _ Hd Hr). by rewrite bool_decide_eq_false_2.
Qed.

Lemma opt_byte_ext cls s u b rest :
  opt_byte cls s = (b, rest) → s ≠ EmptyString → opt_byte cls (s +:+ u) = (b, rest +:+ u).
Proof.
  destruct s as [|c s]; [done|]. rewrite app_String. cbn [opt_byte].
  case_match; by intros [= <- <-].
Qed.

Lemma number_ext s u lit rest :
  number s = Some (lit, rest) → rest ≠ EmptyString → number (s +:+ u) = Some (lit, rest +:+ u).
Proof.
  unfold number. destruct (opt_byte ["-"%char] s) as [m s0] eqn:H0. intros Hn Hr.
  destruct (integer_part s0) as [[i s1]|] eqn:H1; [|done]. cbn [mbind option_bind] in Hn.
  destruct (fraction_part s1) as [[f s2]|] eqn:H2; [|done]. cbn [mbind option_bind] in Hn.
  destruct (exponent_part s2) as [[e s3]|] eqn:H3; [|done]. cbn [mbind option_bind] in Hn. simplify_eq.
  assert (s2 ≠ EmptyString) as Hs2 by (intros ->; vm_compute in H3; congruence).
  assert (s1 ≠ EmptyString) as Hs1 by (intros ->; vm_compute in H2; congruence).
  rewrite (opt_byte_ext _ _ u _ _ H0) by (intros ->; simpl in H0; by simplify_eq).
  assert (integer_part (s0 +:+ u) = Some (i, s1 +:+ u)) as ->.
  { destruct s0 as [|c s0]; [done|]. rewrite app_String. cbn [integer_part] in *.
    destruct (bool_decide (c = "0"%char)); [by simplify_eq|]. rewrite <-app_String. by apply digits1_ext. }
  cbn [mbind option_bind]. unfold fraction_part, exponent_part in *.
  destruct (opt_byte _ s1) as [dot s1'] eqn:Hd. rewrite (opt_byte_ext _ _ u _ _ Hd Hs1).
  assert ((if bool_decide (dot = EmptyString) then Some (EmptyString, s1 +:+ u)
    else '(d, rest) ← digits1 (s1' +:+ u); Some (dot +:+ d, rest)) = Some (f, s2 +:+ u)) as ->.
  { destruct (bool_decide (dot = EmptyString)); [by simplify_eq|]. destruct (digits1 s1') as [[d r]|] eqn:Hd1; [|done].
    cbn [mbind option_bind] in H2. simplify_eq. by rewrite (digits1_ext _ _ _ _ Hd1). }
  cbn [mbind option_bind].
  destruct (opt_byte _ s2) as [e0 s2'] eqn:He. rewrite (opt_byte_ext _ _ u _ _ He Hs2).
  destruct (bool_decide (e0 = EmptyString)); [by simplify_eq|].
  destruct (opt_byte _ s2') as [sg s3'] eqn:Hsg.
  destruct (digits1 s3') as [[d r]|] eqn:Hd2; [|done]. cbn [mbind option_bind] in H3. simplify_eq.
  rewrite (opt_byte_ext _ _ u _ _ Hsg) by (intros ->; simpl in Hsg; by simplify_eq).
  by rewrite (digits1_ext _ _ _ _ Hd2).
Qed.

Lemma skip_ws_app s u : skip_ws s ≠ EmptyString → skip_ws (s +:+ u) = skip_ws s +:+ u.
Proof.
  induction s as [|c s IH]; [done|]. rewrite app_String. cbn [skip_ws]. by case_match.
Qed.

Lemma expect_app c s u s' : expect c s = Some s' → expect c (s +:+ u) = Some (s' +:+ u).
Proof.
  unfold expect. destruct (skip_ws s) as [|c' s1] eqn:Hs; [done|].
  rewrite skip_ws_app by congruence. rewrite Hs, app_String. case_match; [|done]. by intros [= <-].
Qed.

Lemma expect_app_None c s u :
  expect c s = None → skip_ws s ≠ EmptyString → expect c (s +:+ u) = None.
Proof.
  unfold expect. intros He Hs. rewrite skip_ws_app by done.
  destruct (skip_ws s) as [|c' s1]; [done|]. rewrite app_String. by case_match.
Qed.

Lemma expect_nonempty c s s' : expect c s = Some s' → skip_ws s ≠ EmptyString ∧ s ≠ EmptyString.
Proof. unfold expect. intros Hs. split; intros He; [by rewrite He in Hs|by subst s]. Qed.

Lemma keyword_app w v s u x rest :
  keyword w v s = Some (x, rest) → keyword w v (s +:+ u) = Some (x, rest +:+ u).
Proof.
  unfold keyword. destruct (String.prefix w s) eqn:Hp; [|done]. intros [= <- <-].
  revert s Hp. induction w as [|c w IH]; intros s Hp.
  - by destruct s, u.
  - destruct s as [|c' s]; [done|]. rewrite app_String. cbn [String.prefix] in *.
    destruct (ascii_dec c c'); [|done]. specialize (IH s Hp). by case_match.
Qed.

(** ** Values *)

Definition is_number (v : json) : bool := match v with JNum _ => true | _ => false end.

(** What can be read has more than space in it. *)
Lemma members_nonempty n d s x : members n d s = Some x → skip_ws s ≠ EmptyString.
Proof.
  destruct n; [done|]. cbn [members]. destruct (expect quotation s) eqn:E; [|done].
  intros _. exact (proj1 (expect_nonempty _ _ _ E)).
Qed.
Lemma elements_nonempty n d s x : elements n d s = Some x → skip_ws s ≠ EmptyString.
Proof.
  destruct n as [|[|n']]; [done|done|]. cbn [elements value]. by destruct (skip_ws s).
Qed.

(** A successful read, on a longer text. *)
Definition extends {A} (read : string → option (A * string)) (s u : string) : Prop :=
  ∀ x rest, read s = Some (x, rest) → read (s +:+ u) = Some (x, rest +:+ u).

Section values.
Context (n : nat) (u : string).
Context (IHv : ∀ d s v rest, value n d s = Some (v, rest) → is_number v = false ∨ rest ≠ EmptyString →
  value n d (s +:+ u) = Some (v, rest +:+ u)).
Context (IHm : ∀ d s, extends (members n d) s u) (IHe : ∀ d s, extends (elements n d) s u).

Lemma members_app d s : extends (members (S n) d) s u.
Proof.
  intros ms rest. cbn [members].
  destruct (expect quotation s) as [s1|] eqn:E1; [|done]. rewrite (expect_app _ _ u _ E1).
  cbn [mbind option_bind].
  destruct (str_body n s1) as [[k s2]|] eqn:E2; [|done]. rewrite (str_body_app _ _ u _ _ E2).
  cbn [mbind option_bind].
  destruct (expect ":"%char s2) as [s3|] eqn:E3; [|done]. rewrite (expect_app _ _ u _ E3).
  cbn [mbind option_bind].
  destruct (value n d s3) as [[v s4]|] eqn:E4; [|done]. cbn [mbind option_bind].
  destruct (expect ","%char s4) as [s5|] eqn:E5.
  - rewrite (IHv _ _ _ _ E4) by (right; by eapply expect_nonempty). cbn [mbind option_bind].
    rewrite (expect_app _ _ u _ E5).
    destruct (members n d s5) as [[ms' r']|] eqn:E6; [|done]. rewrite (IHm _ _ _ _ E6).
    by intros [= <- <-].
  - destruct (expect "}"%char s4) as [s6|] eqn:E6; [|done]. intros [= <- <-].
    destruct (expect_nonempty _ _ _ E6). rewrite (IHv _ _ _ _ E4) by (by right). cbn [mbind option_bind].
    by rewrite (expect_app_None _ _ _ E5), (expect_app _ _ u _ E6).
Qed.

Lemma elements_app d s : extends (elements (S n) d) s u.
Proof.
  intros l rest. cbn [elements].
  destruct (value n d s) as [[v s4]|] eqn:E4; [|done]. cbn [mbind option_bind].
  destruct (expect ","%char s4) as [s5|] eqn:E5.
  - rewrite (IHv _ _ _ _ E4) by (right; by eapply expect_nonempty). cbn [mbind option_bind].
    rewrite (expect_app _ _ u _ E5).
    destruct (elements n d s5) as [[ms' r']|] eqn:E6; [|done]. rewrite (IHe _ _ _ _ E6).
    by intros [= <- <-].
  - destruct (expect "]"%char s4) as [s6|] eqn:E6; [|done]. intros [= <- <-].
    destruct (expect_nonempty _ _ _ E6). rewrite (IHv _ _ _ _ E4) by (by right). cbn [mbind option_bind].
    by rewrite (expect_app_None _ _ _ E5), (expect_app _ _ u _ E6).
Qed.

Lemma value_app d s v rest :
  value (S n) d s = Some (v, rest) → is_number v = false ∨ rest ≠ EmptyString →
  value (S n) d (s +:+ u) = Some (v, rest +:+ u).
Proof.
  cbn [value]. destruct (skip_ws s) as [|c s1] eqn:Hs; [done|].
  rewrite skip_ws_app, Hs, app_String by congruence. intros Hv Hnum. revert Hv.
  destruct (bool_decide (c = quotation)).
  { destruct (str_body n s1) as [[t r]|] eqn:E; [|done]. rewrite (str_body_app _ _ u _ _ E).
    by intros [= <- <-]. }
  destruct (bool_decide (c = "{"%char)).
  { case_match; [done|]. destruct (expect "}"%char s1) as [r|] eqn:E.
    - rewrite (expect_app _ _ u _ E). by intros [= <- <-].
    - destruct (members n (d + 1) s1) as [[ms r]|] eqn:Em; [|done]. intros [= <- <-].
      rewrite (expect_app_None _ _ _ E) by (by eapply members_nonempty). by rewrite (IHm _ _ _ _ Em). }
  destruct (bool_decide (c = "["%char)).
  { case_match; [done|]. destruct (expect "]"%char s1) as [r|] eqn:E.
    - rewrite (expect_app _ _ u _ E). by intros [= <- <-].
    - destruct (elements n (d + 1) s1) as [[ms r]|] eqn:Em; [|done]. intros [= <- <-].
      rewrite (expect_app_None _ _ _ E) by (by eapply elements_nonempty). by rewrite (IHe _ _ _ _ Em). }
  rewrite <-app_String. repeat (case_match; [by apply keyword_app|]).
  destruct (number (String c s1)) as [[lit r]|] eqn:E; [|done]. intros [= <- <-].
  rewrite (number_ext _ u _ _ E) by (by destruct Hnum). done.
Qed.
End values.

Lemma read_app n u :
  (∀ d s v rest, value n d s = Some (v, rest) → is_number v = false ∨ rest ≠ EmptyString →
     value n d (s +:+ u) = Some (v, rest +:+ u)) ∧
  (∀ d s, extends (members n d) s u) ∧ (∀ d s, extends (elements n d) s u).
Proof.
  induction n as [|n (IHv & IHm & IHe)]; [done|].
  split_and!; [by apply value_app|by apply members_app|by apply elements_app].
Qed.

(** ** No prefix of an object is a JSON text *)

(** The text of an object starts with a brace, and so does every JSON text that
    is a prefix of it. *)
Lemma value_brace n d s v rest : value n d (String "{"%char s) = Some (v, rest) → is_number v = false.
Proof.
  destruct n as [|n]; [done|]. rewrite value_object. repeat case_match; try done; [by intros [= <- _]|].
  destruct (members _ _ _) as [[? ?]|]; [|done]. by intros [= <- _].
Qed.

Lemma prefix_no_parse ms s t :
  writable 0 (JObj ms) → print (JObj ms) = s +:+ t → t ≠ EmptyString → parse s = None.
Proof.
  intros Hw Hp Ht. destruct (parse s) as [v|] eqn:Hs; [exfalso|done].
  unfold parse, parse_fuel in Hs.
  destruct (value _ 0 s) as [[v' rest]|] eqn:Hv; [|done]. cbn [mbind option_bind] in Hs.
  destruct s as [|c s]; [done|].
  assert (c = "{"%char) as ->.
  { pose proof (print_object ms EmptyString) as Ho. rewrite app_empty_r, Hp in Ho.
    by injection Ho. }
  pose proof (value_brace _ _ _ _ _ Hv) as Hnum.
  set (n := S (2 * String.length (print (JObj ms)))).
  assert (value n 0 (String "{"%char s) = Some (v', rest)) as Hv'.
  { rewrite <-Hv. apply parse_fuel_enough; subst n; rewrite ?Hp, ?slength_app; lia. }
  apply (proj1 (read_app n t)) in Hv'; [|by left]. rewrite <-Hp in Hv'.
  pose proof (print_reads_back (JObj ms) 0%N n EmptyString Hw I) as Hr.
  rewrite app_empty_r in Hr. rewrite Hr in Hv' by (subst n; lia). simplify_eq.
  by destruct rest, t.
Qed.

Lemma truncated_struct `{JsonStruct A} (a : A) s t :
  writable 0 (struct_json a) → marshal_struct a = s +:+ t → t ≠ EmptyString →
  unmarshal_struct (A := A) s = Err SyntaxError.
Proof. intros Hw Hm Ht. unfold unmarshal_struct. by rewrite (prefix_no_parse _ s t Hw Hm Ht). Qed.
