(* ===== verification/Message.v ===== *)
(** * Message: the gossip messages and the full-state snapshot (message.go)

    The data of the wire protocol, what encoding/json makes of it, and the calls
    that encode and decode it.  Encoding followed by decoding is the identity on
    valid UTF-8, and whatever decodes is a well-formed message. *)

From stdpp Require Import gmap strings list fin_maps pretty sorting.
From Stdlib Require Import ZArith Lia Ascii.
From S2P Require Import Prelude GoStrings Strconv Json JsonSpec.

#[local] Open Scope joyride_scope.

(** [type RecordAction uint8], with its two constants. *)
Definition RecordAction := Z.
Definition RecordActionAdd : RecordAction := 0%Z.
Definition RecordActionRemove : RecordAction := 1%Z.

Record RecordMessage := mkRecordMessage {
  msg_Hostname : string;
  msg_IP : string;
  msg_Action : RecordAction;
  msg_Timestamp : Z;
  msg_NodeID : string;
}.

Record RecordEntry := mkRecordEntry {
  entry_IP : string;
  entry_Timestamp : Z;
  entry_NodeID : string;
}.

Record FullState := mkFullState {
  state_NodeID : string;
  state_Records : gmap string RecordEntry;
}.

(** [NewFullState]. *)
Definition NewFullState (nodeID : string) : FullState :=
  {| state_NodeID := nodeID; state_Records := ∅ |}.

#[global] Instance RecordMessage_eq_dec : EqDecision RecordMessage.
Proof. solve_decision. Defined.
#[global] Instance RecordEntry_eq_dec : EqDecision RecordEntry.
Proof. solve_decision. Defined.
#[global] Instance FullState_eq_dec : EqDecision FullState.
Proof. solve_decision. Defined.

(** ** The structs as encoding/json sees them, from their tags *)

Definition RecordMessage_fields : list (field RecordMessage) := [
  mkField "h" (λ m, JStr (msg_Hostname m)) (λ v m,
    let? x := store_string v (msg_Hostname m) in
    Ok (mkRecordMessage x (msg_IP m) (msg_Action m) (msg_Timestamp m) (msg_NodeID m)));
  mkField "i" (λ m, JStr (msg_IP m)) (λ v m,
    let? x := store_string v (msg_IP m) in
    Ok (mkRecordMessage (msg_Hostname m) x (msg_Action m) (msg_Timestamp m) (msg_NodeID m)));
  mkField "a" (λ m, JNum (pretty (msg_Action m))) (λ v m,
    let? x := store_uint8 v (msg_Action m) in
    Ok (mkRecordMessage (msg_Hostname m) (msg_IP m) x (msg_Timestamp m) (msg_NodeID m)));
  mkField "t" (λ m, JNum (pretty (msg_Timestamp m))) (λ v m,
    let? x := store_int v (msg_Timestamp m) in
    Ok (mkRecordMessage (msg_Hostname m) (msg_IP m) (msg_Action m) x (msg_NodeID m)));
  mkField "n" (λ m, JStr (msg_NodeID m)) (λ v m,
    let? x := store_string v (msg_NodeID m) in
    Ok (mkRecordMessage (msg_Hostname m) (msg_IP m) (msg_Action m) (msg_Timestamp m) x))].
#[global] Instance RecordMessage_struct : JsonStruct RecordMessage := {|
  fields := RecordMessage_fields;
  zero_value := mkRecordMessage EmptyString EmptyString 0%Z 0%Z EmptyString;
|}.

Definition RecordEntry_fields : list (field RecordEntry) := [
  mkField "i" (λ e, JStr (entry_IP e)) (λ v e,
    let? x := store_string v (entry_IP e) in
    Ok (mkRecordEntry x (entry_Timestamp e) (entry_NodeID e)));
  mkField "t" (λ e, JNum (pretty (entry_Timestamp e))) (λ v e,
    let? x := store_int v (entry_Timestamp e) in
    Ok (mkRecordEntry (entry_IP e) x (entry_NodeID e)));
  mkField "n" (λ e, JStr (entry_NodeID e)) (λ v e,
    let? x := store_string v (entry_NodeID e) in
    Ok (mkRecordEntry (entry_IP e) (entry_Timestamp e) x))].
#[global] Instance RecordEntry_struct : JsonStruct RecordEntry := {|
  fields := RecordEntry_fields;
  zero_value := mkRecordEntry EmptyString 0%Z EmptyString;
|}.

Definition FullState_fields : list (field FullState) := [
  mkField "node" (λ s, JStr (state_NodeID s)) (λ v s,
    let? x := store_string v (state_NodeID s) in Ok (mkFullState x (state_Records s)));
  mkField "records" (λ s, map_json (state_Records s)) (λ v s,
    let? x := store_map v (state_Records s) in Ok (mkFullState (state_NodeID s) x))].
#[global] Instance FullState_struct : JsonStruct FullState := {|
  fields := FullState_fields;
  zero_value := mkFullState EmptyString ∅;
|}.

Section codec.
Context `{JsonCodec RecordMessage} `{JsonCodec FullState}.

(** [func (m *RecordMessage) Encode() ([]byte, error)]. *)
Definition RecordMessage_Encode (m : RecordMessage) := Marshal m.

(** [DecodeRecordMessage]. *)
Definition DecodeRecordMessage (data : string) :=
  match Unmarshal (A := RecordMessage) data with
  | Err err => Err err
  | Ok m => Ok m
  end.

(** [func (s *FullState) Encode() ([]byte, error)]. *)
Definition FullState_Encode (s : FullState) := Marshal s.

(** [DecodeFullState]. *)
Definition DecodeFullState (data : string) :=
  match Unmarshal (A := FullState) data with
  | Err err => Err err
  | Ok s => Ok s
  end.
End codec.


(** ** What survives the wire *)

(** A message whose integers fit their Go types, which is every message the
    program can hold, and the message with its strings scrubbed. *)
Definition uint8 (z : Z) : Prop := (0 ≤ z < 256)%Z.
Definition message_fits (m : RecordMessage) : Prop :=
  uint8 (msg_Action m) ∧ int64 (msg_Timestamp m).
Definition scrub_message (m : RecordMessage) : RecordMessage :=
  mkRecordMessage (scrub (msg_Hostname m)) (scrub (msg_IP m)) (msg_Action m) (msg_Timestamp m)
    (scrub (msg_NodeID m)).

Definition message_ok (m : RecordMessage) : Prop :=
  message_fits m ∧ valid_utf8 (msg_Hostname m) ∧ valid_utf8 (msg_IP m) ∧ valid_utf8 (msg_NodeID m).
Definition entry_ok (e : RecordEntry) : Prop :=
  int64 (entry_Timestamp e) ∧ valid_utf8 (entry_IP e) ∧ valid_utf8 (entry_NodeID e).
Definition state_ok (s : FullState) : Prop :=
  valid_utf8 (state_NodeID s) ∧ map_Forall (λ h e, valid_utf8 h ∧ entry_ok e) (state_Records s).

#[global] Instance message_ok_dec m : Decision (message_ok m).
Proof. unfold message_ok, message_fits, uint8. apply _. Defined.
#[global] Instance entry_ok_dec e : Decision (entry_ok e).
Proof. unfold entry_ok. apply _. Defined.
#[global] Instance state_ok_dec s : Decision (state_ok s).
Proof. unfold state_ok. apply _. Defined.

Lemma store_int_pretty z old : int64 z → store_int (JNum (pretty z)) old = Ok z.
Proof. intros Hz. cbn [store_int]. by rewrite Atoi_pretty. Qed.
Lemma store_uint8_pretty z old : uint8 z → store_uint8 (JNum (pretty z)) old = Ok z.
Proof.
  intros [Hz Hb]. cbn [store_uint8]. rewrite decimal_pretty_Z by done.
  rewrite (proj2 (N.ltb_lt _ _)) by lia. by rewrite Z2N.id.
Qed.

(** Encoding and decoding through the two halves of the codec. *)
Lemma unmarshal_marshal `{JsonStruct A} (a b : A) :
  writable 0 (struct_json a) → store_struct (scrub_json (struct_json a)) zero_value = Ok b →
  unmarshal_struct (marshal_struct a) = Ok b.
Proof. intros Hw Hs. unfold unmarshal_struct, marshal_struct. by rewrite parse_print. Qed.

(** A written message is never the empty text. *)
Lemma marshal_nonempty `{JsonStruct A} (a : A) : marshal_struct a ≠ EmptyString.
Proof. done. Qed.

Lemma RecordMessage_writable (m : RecordMessage) : writable 0 (struct_json m).
Proof. repeat constructor; done. Qed.

Lemma RecordEntry_writable d (e : RecordEntry) :
  (d + 1 <= maxNestingDepth)%N → writable d (struct_json e).
Proof. repeat constructor; done. Qed.

(** [store_members] one member at a time, by the field it names. *)
Lemma store_member `{JsonStruct A} (k : string) v ms (a : A) f :
  find_field k = Some f →
  store_members ((k, v) :: ms) a =
  match f_set f v a with Ok a' => store_members ms a' | Err err => Err err end.
Proof. intros Hf. cbn [store_members]. by rewrite Hf. Qed.

(** Run the fields of a struct on the members written for it. *)
Ltac store_fields :=
  repeat (erewrite store_member by reflexivity; cbn [f_set store_string];
          rewrite ?store_uint8_pretty, ?store_int_pretty by done;
          cbn [msg_Hostname msg_IP msg_Action msg_Timestamp msg_NodeID
               entry_IP entry_Timestamp entry_NodeID state_NodeID state_Records]).

Lemma store_scrubbed_message m :
  message_fits m → store_struct (scrub_json (struct_json m)) zero_value = Ok (scrub_message m).
Proof.
  intros [Ha Ht].
  change (store_members [("h", JStr (scrub (msg_Hostname m))); ("i", JStr (scrub (msg_IP m)));
    ("a", JNum (pretty (msg_Action m))); ("t", JNum (pretty (msg_Timestamp m)));
    ("n", JStr (scrub (msg_NodeID m)))] zero_value = Ok (scrub_message m)).
  by store_fields.
Qed.

Lemma scrub_message_ok m : message_ok m → scrub_message m = m.
Proof. intros (_ & H1 & H2 & H3). destruct m. unfold scrub_message. simpl in *. by rewrite H1, H2, H3. Qed.

Lemma store_entry e :
  entry_ok e → store_struct (scrub_json (struct_json e)) zero_value = Ok e.
Proof.
  intros (Ht & Hi & Hn). change (store_members [("i", JStr (scrub (entry_IP e)));
    ("t", JNum (pretty (entry_Timestamp e))); ("n", JStr (scrub (entry_NodeID e)))] zero_value = Ok e).
  store_fields. rewrite Hi, Hn. by destruct e.
Qed.

(** *** The members of a map *)

Section maps.
Context `{JsonStruct A}.
Context (ok : A → Prop).
Context (store_ok : ∀ a, ok a → store_struct (scrub_json (struct_json a)) zero_value = Ok a).

Lemma store_written_members (l : list (string * A)) (m : gmap string A) :
  Forall (λ kv, valid_utf8 kv.1 ∧ ok kv.2) l →
  store_map_members (map scrub_member ((λ kv, (kv.1, struct_json kv.2)) <$> l)) m =
  Ok (copy_into m l).
Proof.
  intros Hl. revert m. induction Hl as [|[k a] l [Hk Ha] Hl IH]; intros m; [done|].
  cbn [fmap list_fmap map scrub_member fst snd store_map_members]. simpl in Hk, Ha.
  by rewrite store_ok, Hk, IH by done.
Qed.

Lemma store_map_written (m : gmap string A) :
  map_Forall (λ k a, valid_utf8 k ∧ ok a) m → store_map (scrub_json (map_json m)) ∅ = Ok m.
Proof.
  intros Hm. unfold map_json. cbn [scrub_json store_map].
  pose proof (merge_sort_Permutation key_le (map_to_list m)) as Hp.
  etrans; [apply store_written_members|].
  - rewrite Hp. apply map_Forall_to_list in Hm.
    eapply Forall_impl; [exact Hm|]. by intros [k a].
  - f_equal. by apply copy_into_perm.
Qed.

Lemma map_writable d (m : gmap string A) :
  (d + 1 <= maxNestingDepth)%N → (∀ a, writable (d + 1) (struct_json a)) → writable d (map_json m).
Proof. intros Hd Ha. constructor; [done|]. apply Forall_fmap, Forall_true. intros [k a]. apply Ha. Qed.
End maps.

Lemma store_scrubbed_state s :
  state_ok s → store_struct (scrub_json (struct_json s)) zero_value = Ok s.
Proof.
  intros [Hn Hr].
  change (store_members [("node", JStr (scrub (state_NodeID s)));
    ("records", scrub_json (map_json (state_Records s)))] zero_value = Ok s).
  store_fields. rewrite (store_map_written entry_ok store_entry) by done.
  rewrite Hn. by destruct s.
Qed.

Lemma FullState_writable (s : FullState) : writable 0 (struct_json s).
Proof.
  constructor; [done|]. apply Forall_cons; split; [constructor|].
  apply Forall_singleton. apply map_writable; [done|]. intros a. by apply RecordEntry_writable.
Qed.

Lemma decode_encode_message m :
  message_fits m → unmarshal_struct (marshal_struct m) = Ok (scrub_message m).
Proof.
  intros Hm. apply unmarshal_marshal; [apply RecordMessage_writable|].
  by apply store_scrubbed_message.
Qed.

Lemma decode_encode_message_ok m : message_ok m → unmarshal_struct (marshal_struct m) = Ok m.
Proof. intros Hm. rewrite decode_encode_message by apply Hm. by rewrite scrub_message_ok. Qed.

Lemma decode_encode_state s : state_ok s → unmarshal_struct (marshal_struct s) = Ok s.
Proof.
  intros Hs. apply unmarshal_marshal; [apply FullState_writable|]. by apply store_scrubbed_state.
Qed.

(** The codec of the package carries what the program puts into it. *)
#[global] Instance RecordMessage_round_trip : JsonRoundTrip RecordMessage.
Proof.
  refine {| representable := message_ok |}. intros m Hm. eexists. split_and!; [done|done|].
  by apply decode_encode_message_ok.
Defined.

#[global] Instance FullState_round_trip : JsonRoundTrip FullState.
Proof.
  refine {| representable := state_ok |}. intros s Hs. eexists. split_and!; [done|done|].
  by apply decode_encode_state.
Defined.

(** ** What is decoded is well-formed *)

Lemma store_string_valid v old s :
  scrub_json v = v → valid_utf8 old → store_string v old = Ok s → valid_utf8 s.
Proof. destruct v; simpl; intros Hv Ho Hs; simplify_eq; unfold valid_utf8; congruence. Qed.
Lemma store_int_fits v old z : int64 old → store_int v old = Ok z → int64 z.
Proof.
  destruct v; simpl; intros Ho Hs; simplify_eq; [done|].
  destruct (Atoi lit) eqn:Ha; simplify_eq. by eapply Atoi_int64.
Qed.
Lemma store_uint8_fits v old z : uint8 old → store_uint8 v old = Ok z → uint8 z.
Proof.
  destruct v; simpl; intros Ho Hs; simplify_eq; [done|].
  destruct (decimal lit); [|done]. destruct (_ <? _)%N eqn:Hn; simplify_eq.
  apply N.ltb_lt in Hn. unfold uint8. lia.
Qed.

(** An invariant of the fields of a struct is one of what is stored into it. *)
Section invariant.
Context `{JsonStruct A} (P : A → Prop).
Context (zero_ok : P zero_value).
Context (fields_keep : Forall (λ f, ∀ v a a', scrub_json v = v → P a → f_set f v a = Ok a' → P a') fields).

Lemma find_field_keeps k f v a a' :
  find_field k = Some f → scrub_json v = v → P a → f_set f v a = Ok a' → P a'.
Proof.
  intros Hf. rewrite Forall_forall in fields_keep. apply fields_keep. apply list_elem_of_In.
  unfold find_field in Hf. destruct (List.find _ _) eqn:H1 in Hf; simplify_eq;
    by eapply find_some.
Qed.

Lemma store_members_keeps ms a a' :
  map scrub_member ms = ms → P a → store_members ms a = Ok a' → P a'.
Proof.
  revert a. induction ms as [|[k v] ms IH]; intros a Hc Ha; cbn [store_members]; [congruence|].
  injection Hc as Hk Hv Hms. destruct (find_field k) as [f|] eqn:Hf; [|by apply IH].
  destruct (f_set f v a) as [a1|] eqn:Hs; [|done]. apply IH; [done|]. by eapply find_field_keeps.
Qed.

Lemma store_struct_keeps v a a' :
  scrub_json v = v → P a → store_struct v a = Ok a' → P a'.
Proof.
  destruct v as [| | | | |ms]; simpl; intros Hc Ha Hs; simplify_eq; [done|].
  by eapply store_members_keeps.
Qed.

Lemma unmarshal_keeps data a : unmarshal_struct data = Ok a → P a.
Proof.
  unfold unmarshal_struct. destruct (parse data) as [v|] eqn:Hp; [|done].
  apply store_struct_keeps; [by eapply parse_canonical|done].
Qed.

Lemma store_map_members_keeps ms m m' :
  map scrub_member ms = ms → map_Forall (λ k a, valid_utf8 k ∧ P a) m →
  store_map_members ms m = Ok m' → map_Forall (λ k a, valid_utf8 k ∧ P a) m'.
Proof.
  revert m. induction ms as [|[k v] ms IH]; intros m Hc Hm; cbn [store_map_members]; [by intros [= <-]|].
  injection Hc as Hk Hv Hms. destruct (store_struct v zero_value) as [a|] eqn:Hs; [|done].
  apply IH; [done|]. apply map_Forall_insert_2; [|done]. split; [done|].
  by eapply store_struct_keeps.
Qed.
End invariant.

Ltac each_field := repeat (apply Forall_cons; split); [..|by apply Forall_nil].
Ltac keep_fields :=
  repeat match goal with
  | H : match ?r with Ok _ => _ | Err _ => _ end = Ok _ |- _ => destruct r eqn:?; [|done]
  end; simplify_eq; unfold message_ok, message_fits, entry_ok, state_ok in *; simpl in *;
  destruct_and?; split_and?; eauto using store_string_valid, store_int_fits, store_uint8_fits.

Lemma message_fields_keep :
  Forall (λ f : field RecordMessage, ∀ v a a', scrub_json v = v → message_ok a →
    f_set f v a = Ok a' → message_ok a') fields.
Proof. each_field; intros v a a' Hv Ha Hs; simpl in Hs; keep_fields. Qed.

Lemma entry_fields_keep :
  Forall (λ f : field RecordEntry, ∀ v a a', scrub_json v = v → entry_ok a →
    f_set f v a = Ok a' → entry_ok a') fields.
Proof. each_field; intros v a a' Hv Ha Hs; simpl in Hs; keep_fields. Qed.

Lemma message_zero_ok : message_ok zero_value.
Proof. by repeat split. Qed.
Lemma entry_zero_ok : entry_ok zero_value.
Proof. by repeat split. Qed.

Lemma state_zero_ok : state_ok zero_value.
Proof. split; [done|]. apply map_Forall_empty. Qed.

Lemma state_fields_keep :
  Forall (λ f : field FullState, ∀ v a a', scrub_json v = v → state_ok a →
    f_set f v a = Ok a' → state_ok a') fields.
Proof.
  each_field; intros v a a' Hv [Hn Hr] Hs; simpl in Hs; keep_fields.
  destruct v as [| | | | |ms]; simpl in *; simplify_eq; [apply map_Forall_empty|].
  by eapply (store_map_members_keeps entry_ok entry_zero_ok entry_fields_keep).
Qed.

Lemma unmarshal_message_ok data m : unmarshal_struct data = Ok m → message_ok m.
Proof. apply (unmarshal_keeps message_ok message_zero_ok message_fields_keep). Qed.
Lemma unmarshal_state_ok data s : unmarshal_struct data = Ok s → state_ok s.
Proof. apply (unmarshal_keeps state_ok state_zero_ok state_fields_keep). Qed.
