(* ===== verification/Records.v ===== *)
(** * Records: the copy-on-write store of DNS records (docker-cluster/records.go)

    Two maps, each published with an atomic store: [data], from lower-cased
    hostname to IP, and [meta], from hostname to the timestamp and node that
    wrote it last.  Every mutation builds a fresh map under the mutex, so each
    operation below is one function on the pair of maps; [RecordsConc] shows what
    this leaves out. *)

From stdpp Require Import gmap strings list fin_maps.
From Stdlib Require Import ZArith Lia.
From S2P Require Import Prelude GoStrings Message.

Record RecordMeta := mkRecordMeta {
  meta_Timestamp : Z;
  meta_NodeID : string;
}.

(** [RecordMeta{}]: what indexing a Go map with a missing key yields. *)
Definition RecordMeta_zero : RecordMeta :=
  {| meta_Timestamp := 0; meta_NodeID := EmptyString |}.

Record Records := mkRecords {
  data : gmap string string;
  meta : gmap string RecordMeta;
}.

#[global] Instance RecordMeta_eq_dec : EqDecision RecordMeta.
Proof. solve_decision. Defined.
#[global] Instance Records_eq_dec : EqDecision Records.
Proof. solve_decision. Defined.

Lemma Records_eq (r1 r2 : Records) : data r1 = data r2 → meta r1 = meta r2 → r1 = r2.
Proof. destruct r1, r2; simpl; congruence. Qed.

(** [NewRecords]. *)
Definition NewRecords : Records := {| data := ∅; meta := ∅ |}.

(** The tests of AddWithMeta and RemoveWithMeta on an existing entry: it stays
    when its timestamp is larger, or equal with a node ID that is not smaller. *)
Definition existing_wins (existing : RecordMeta) (timestamp : Z) (nodeID : string) : bool :=
  bool_decide (timestamp < meta_Timestamp existing)%Z
  || (bool_decide (meta_Timestamp existing = timestamp)
      && String.leb nodeID (meta_NodeID existing)).

Section operations.
Context `{UnicodeCase}.

(** [func (r *Records) Add(hostname, ip string)]. *)
Definition Add (r : Records) (hostname ip : string) : Records :=
  let hostname := ToLower hostname in
  let current := data r in
  let newData := <[hostname := ip]> (range_copy current) in
  {| data := newData; meta := meta r |}.

(** [func (r *Records) Remove(hostname string)]. *)
Definition Remove (r : Records) (hostname : string) : Records :=
  let hostname := ToLower hostname in
  let current := data r in
  match current !! hostname with
  | None => r
  | Some _ => {| data := range_copy_except hostname current; meta := meta r |}
  end.

(** [func (r *Records) Lookup(hostname string) (ip string, found bool)]. *)
Definition Lookup (r : Records) (hostname : string) : option string :=
  data r !! ToLower hostname.

(** [func (r *Records) GetAll() map[string]string]. *)
Definition GetAll (r : Records) : gmap string string := range_copy (data r).

(** [func (r *Records) Count() int]. *)
Definition Count (r : Records) : nat := size (data r).

(** [func (r *Records) AddWithMeta(hostname, ip string, timestamp int64, nodeID string) bool]. *)
Definition AddWithMeta (r : Records) (hostname ip : string) (timestamp : Z)
    (nodeID : string) : bool * Records :=
  let hostname := ToLower hostname in
  let currentMeta := meta r in
  let accept :=
    let newData := <[hostname := ip]> (range_copy (data r)) in
    let newMeta := <[hostname := {| meta_Timestamp := timestamp; meta_NodeID := nodeID |}]>
                     (range_copy currentMeta) in
    (true, {| data := newData; meta := newMeta |}) in
  match currentMeta !! hostname with
  | Some existing => if existing_wins existing timestamp nodeID then (false, r) else accept
  | None => accept
  end.

(** [func (r *Records) RemoveWithMeta(hostname string, timestamp int64, nodeID string) bool]. *)
Definition RemoveWithMeta (r : Records) (hostname : string) (timestamp : Z)
    (nodeID : string) : bool * Records :=
  let hostname := ToLower hostname in
  match data r !! hostname with
  | None => (false, r)
  | Some _ =>
      let drop :=
        (true, {| data := range_copy_except hostname (data r);
                  meta := range_copy_except hostname (meta r) |}) in
      match meta r !! hostname with
      | Some existing => if existing_wins existing timestamp nodeID then (false, r) else drop
      | None => drop
      end
  end.

(** [func (r *Records) GetAllWithMeta() map[string]RecordEntry]: a host with no
    metadata gets the zero [RecordMeta]. *)
Definition with_meta (currentMeta : gmap string RecordMeta) (hostname ip : string) : RecordEntry :=
  let m := default RecordMeta_zero (currentMeta !! hostname) in
  {| entry_IP := ip; entry_Timestamp := meta_Timestamp m; entry_NodeID := meta_NodeID m |}.
Definition GetAllWithMeta (r : Records) : gmap string RecordEntry :=
  foldl (λ result kv, <[kv.1 := with_meta (meta r) kv.1 kv.2]> result) ∅
    (map_to_list (data r)).

(** [func (r *Records) ApplyMessage(msg *RecordMessage) bool]. *)
Definition ApplyMessage (r : Records) (msg : RecordMessage) : bool * Records :=
  if bool_decide (msg_Action msg = RecordActionAdd) then
    AddWithMeta r (msg_Hostname msg) (msg_IP msg) (msg_Timestamp msg) (msg_NodeID msg)
  else if bool_decide (msg_Action msg = RecordActionRemove) then
    RemoveWithMeta r (msg_Hostname msg) (msg_Timestamp msg) (msg_NodeID msg)
  else (false, r).

(** [func (r *Records) GetMeta(hostname string) (RecordMeta, bool)]. *)
Definition GetMeta (r : Records) (hostname : string) : RecordMeta * bool :=
  match meta r !! ToLower hostname with
  | Some m => (m, true)
  | None => (RecordMeta_zero, false)
  end.

(** ** Well-formed stores *)

(** Keys are normalized: lower-casing changes none of them. *)
Definition normal_keys {A} (m : gmap string A) : Prop :=
  map_Forall (λ k _, ToLower k = k) m.
Definition records_wf (r : Records) : Prop :=
  normal_keys (data r) ∧ normal_keys (meta r).
End operations.

(** ** The last-write-wins order on metadata *)

(** Older-or-equal: by timestamp, ties by the byte order of the node IDs. *)
Definition meta_le (m1 m2 : RecordMeta) : Prop :=
  (meta_Timestamp m1 < meta_Timestamp m2)%Z ∨
  meta_Timestamp m1 = meta_Timestamp m2 ∧ String.le (meta_NodeID m1) (meta_NodeID m2).

#[global] Instance meta_le_dec : RelDecision meta_le.
Proof. intros m1 m2. unfold meta_le. apply _. Defined.

#[global] Instance meta_le_po : PartialOrder meta_le.
Proof.
  split; [split|].
  - intros m. right. split; [done|]. reflexivity.
  - intros m1 m2 m3 [?|[? Hs]] [?|[? Hs']]; unfold meta_le; try (left; lia).
    right. split; [lia|]. by trans (meta_NodeID m2).
  - intros [t1 n1] [t2 n2] [?|[? Hs]] [?|[? Hs']]; simpl in *; try lia.
    subst. f_equal. by apply (anti_symm String.le).
Qed.

#[global] Instance meta_le_total : Total meta_le.
Proof.
  intros m1 m2. unfold meta_le.
  destruct (Z.lt_trichotomy (meta_Timestamp m1) (meta_Timestamp m2)) as [?|[?|?]]; auto.
  destruct (total String.le (meta_NodeID m1) (meta_NodeID m2)); auto.
Qed.

Lemma existing_wins_spec (existing : RecordMeta) (ts : Z) (node : string) :
  existing_wins existing ts node = bool_decide (meta_le (mkRecordMeta ts node) existing).
Proof.
  apply eq_true_iff_eq. unfold existing_wins, meta_le, String.le. simpl.
  rewrite orb_true_iff, andb_true_iff, !bool_decide_eq_true, Is_true_true.
  naive_solver.
Qed.

Lemma meta_not_le (m1 m2 : RecordMeta) : ¬ meta_le m1 m2 → meta_le m2 m1.
Proof. destruct (total meta_le m1 m2); naive_solver. Qed.

(** An update stamped [m] for key [k] is stale: the store knows an entry that is
    at least as new. *)
Definition stale (r : Records) (k : string) (m : RecordMeta) : Prop :=
  match meta r !! k with Some e => meta_le m e | None => False end.

#[global] Instance stale_dec (r : Records) (k : string) (m : RecordMeta) :
  Decision (stale r k m).
Proof. unfold stale. destruct (meta r !! k); apply _. Defined.

(** ** What each operation computes *)

Section equations.
Context `{UnicodeCase}.
Implicit Types (r : Records) (h ip n : string) (t : Z).

Lemma Add_eq r h ip :
  Add r h ip = {| data := <[ToLower h := ip]> (data r); meta := meta r |}.
Proof. unfold Add. by rewrite range_copy_id. Qed.

Lemma Remove_eq r h :
  Remove r h = {| data := delete (ToLower h) (data r); meta := meta r |}.
Proof.
  unfold Remove. destruct (data r !! ToLower h) eqn:Hh.
  - by rewrite range_copy_except_delete.
  - rewrite delete_id by done. by destruct r.
Qed.

Lemma AddWithMeta_eq r h ip t n :
  AddWithMeta r h ip t n =
    if decide (stale r (ToLower h) (mkRecordMeta t n)) then (false, r)
    else (true, {| data := <[ToLower h := ip]> (data r);
                   meta := <[ToLower h := mkRecordMeta t n]> (meta r) |}).
Proof.
  unfold AddWithMeta. rewrite !range_copy_id.
  destruct (decide (stale r _ _)) as [Hs|Hs]; unfold stale in Hs;
    destruct (meta r !! ToLower h) as [e|]; try done;
    rewrite existing_wins_spec; by case_bool_decide.
Qed.

Lemma RemoveWithMeta_eq r h t n :
  RemoveWithMeta r h t n =
    if decide (is_Some (data r !! ToLower h) ∧ ¬ stale r (ToLower h) (mkRecordMeta t n))
    then (true, {| data := delete (ToLower h) (data r);
                   meta := delete (ToLower h) (meta r) |})
    else (false, r).
Proof.
  unfold RemoveWithMeta. rewrite !range_copy_except_delete.
  destruct (decide (_ ∧ _)) as [[[ip ->] Hs]|Hs].
  - unfold stale in Hs. destruct (meta r !! ToLower h) as [e|]; [|done].
    rewrite existing_wins_spec. by case_bool_decide.
  - destruct (data r !! ToLower h) as [ip|]; [|done].
    apply not_and_l in Hs as [[]|Hs]; [by eexists|]. apply dec_stable in Hs.
    unfold stale in Hs. destruct (meta r !! ToLower h) as [e|]; [|done].
    rewrite existing_wins_spec. by case_bool_decide.
Qed.

Lemma GetAllWithMeta_eq r :
  GetAllWithMeta r = map_imap (λ h ip, Some (with_meta (meta r) h ip)) (data r).
Proof.
  unfold GetAllWithMeta.
  assert (∀ (f : string → string → RecordEntry) l acc,
    foldl (λ result kv, <[kv.1 := f kv.1 kv.2]> result) acc l =
    copy_into acc ((λ kv, (kv.1, f kv.1 kv.2)) <$> l)) as ->.
  { intros f l. unfold copy_into. induction l as [|kv l IH]; intros acc; simpl; auto. }
  rewrite copy_into_spec by apply fst_map_to_list_NoDup.
  rewrite (right_id_L ∅ (∪)). apply map_eq. intros k. apply option_eq. intros e.
  rewrite <-elem_of_list_to_map by apply fst_map_to_list_NoDup.
  rewrite list_elem_of_fmap, map_lookup_imap, bind_Some.
  setoid_rewrite <-elem_of_map_to_list. split.
  - intros ([k' ip] & [= -> ->] & Hin). eauto.
  - intros (ip & Hin & [= <-]). by exists (k, ip).
Qed.

Lemma GetAllWithMeta_lookup r k :
  GetAllWithMeta r !! k = with_meta (meta r) k <$> data r !! k.
Proof. rewrite GetAllWithMeta_eq, map_lookup_imap. by destruct (data r !! k). Qed.
End equations.

(** ** The store as seen by its clients *)

(** Every mutation a client can make. *)
Inductive records_op :=
| OpAdd (hostname ip : string)
| OpRemove (hostname : string)
| OpAddWithMeta (hostname ip : string) (timestamp : Z) (nodeID : string)
| OpRemoveWithMeta (hostname : string) (timestamp : Z) (nodeID : string)
| OpApplyMessage (msg : RecordMessage).

Definition run_op `{UnicodeCase} (r : Records) (o : records_op) : Records :=
  match o with
  | OpAdd h ip => Add r h ip
  | OpRemove h => Remove r h
  | OpAddWithMeta h ip t n => (AddWithMeta r h ip t n).2
  | OpRemoveWithMeta h t n => (RemoveWithMeta r h t n).2
  | OpApplyMessage m => (ApplyMessage r m).2
  end.

Definition run_ops `{UnicodeCase} (r : Records) (l : list records_op) : Records :=
  foldl run_op r l.

Section clients.
Context `{UnicodeCase}.
Implicit Types (r : Records) (h ip n : string) (t : Z).

Lemma normal_insert {A} (m : gmap string A) h (x : A) :
  normal_keys m → normal_keys (<[ToLower h := x]> m).
Proof. intros Hm. by apply map_Forall_insert_2; [apply ToLower_idem|]. Qed.

Lemma normal_delete {A} (m : gmap string A) (k : string) :
  normal_keys m → normal_keys (delete k m).
Proof. apply map_Forall_delete. Qed.

Lemma AddWithMeta_wf r h ip t n : records_wf r → records_wf (AddWithMeta r h ip t n).2.
Proof.
  intros [Hd Hm]. rewrite AddWithMeta_eq. case_decide; [done|].
  split; simpl; by apply normal_insert.
Qed.

Lemma RemoveWithMeta_wf r h t n : records_wf r → records_wf (RemoveWithMeta r h t n).2.
Proof.
  intros [Hd Hm]. rewrite RemoveWithMeta_eq. case_decide; [|done].
  split; simpl; by apply normal_delete.
Qed.

#[local] Hint Resolve AddWithMeta_wf RemoveWithMeta_wf : joyride.

Lemma ApplyMessage_wf r m : records_wf r → records_wf (ApplyMessage r m).2.
Proof.
  unfold ApplyMessage. repeat case_bool_decide; auto with joyride.
Qed.

Lemma Add_wf r h ip : records_wf r → records_wf (Add r h ip).
Proof. intros [Hd Hm]. rewrite Add_eq. split; simpl; [by apply normal_insert|done]. Qed.

Lemma Remove_wf r h : records_wf r → records_wf (Remove r h).
Proof. intros [Hd Hm]. rewrite Remove_eq. split; simpl; [by apply normal_delete|done]. Qed.

#[local] Hint Resolve Add_wf Remove_wf ApplyMessage_wf : joyride.

Lemma run_op_wf r o : records_wf r → records_wf (run_op r o).
Proof.
  destruct o; simpl; auto with joyride.
Qed.

Lemma NewRecords_wf : records_wf NewRecords.
Proof. split; apply map_Forall_empty. Qed.

Lemma run_ops_wf r (l : list records_op) : records_wf r → records_wf (run_ops r l).
Proof. revert r. induction l as [|o l IH]; simpl; auto using run_op_wf with joyride. Qed.

(** C22: The keys of both maps stay lower-cased whatever sequence of operations
    runs on a new store, so the stored key of a host is always the one that
    Lookup and GetMeta compute from any spelling of its name. *)
Theorem reachable_keys_lower (l : list records_op) :
  let r := run_ops NewRecords l in
  records_wf r ∧
  ∀ k ip, data r !! k = Some ip → Lookup r k = Some ip.
Proof.
  pose proof (run_ops_wf NewRecords l NewRecords_wf) as Hwf. split; [done|].
  intros k ip Hk. unfold Lookup. by rewrite (proj1 Hwf k ip Hk).
Qed.

Lemma Lookup_Add r h ip h' :
  Lookup (Add r h ip) h' = if decide (ToLower h = ToLower h') then Some ip else Lookup r h'.
Proof. rewrite Add_eq. unfold Lookup. simpl. apply lookup_insert. Qed.

Lemma Lookup_Remove r h h' :
  Lookup (Remove r h) h' = if decide (ToLower h = ToLower h') then None else Lookup r h'.
Proof. rewrite Remove_eq. unfold Lookup. simpl. apply lookup_delete. Qed.

(** Add and Remove are the updates of a map keyed by the lower-cased name:
    they change the answer of Lookup for the spellings of that name and for no
    other, they leave all metadata alone, and Count and GetAll follow. *)
Theorem Add_Remove_functional r h ip :
  (∀ h', Lookup (Add r h ip) h' =
     if decide (ToLower h = ToLower h') then Some ip else Lookup r h') ∧
  (∀ h', Lookup (Remove r h) h' =
     if decide (ToLower h = ToLower h') then None else Lookup r h') ∧
  meta (Add r h ip) = meta r ∧ meta (Remove r h) = meta r ∧
  Count (Add r h ip) = (if decide (is_Some (Lookup r h)) then Count r else S (Count r)) ∧
  Count (Remove r h) = (if decide (is_Some (Lookup r h)) then pred (Count r) else Count r) ∧
  GetAll (Remove (Add r h ip) h) = delete (ToLower h) (GetAll r).
Proof.
  split_and!.
  - apply Lookup_Add.
  - apply Lookup_Remove.
  - by rewrite Add_eq.
  - by rewrite Remove_eq.
  - rewrite Add_eq. unfold Count, Lookup. simpl. rewrite map_size_insert.
    by destruct (data r !! ToLower h) eqn:E; case_decide; naive_solver.
  - rewrite Remove_eq. unfold Count, Lookup. simpl. rewrite map_size_delete.
    by destruct (data r !! ToLower h) eqn:E; case_decide; naive_solver.
  - rewrite Remove_eq, Add_eq. unfold GetAll. rewrite !range_copy_id. simpl.
    apply delete_insert_eq.
Qed.
End clients.

#[export] Hint Resolve AddWithMeta_wf RemoveWithMeta_wf ApplyMessage_wf Add_wf Remove_wf
  NewRecords_wf run_ops_wf : joyride.

Section lww_operations.
Context `{UnicodeCase}.
Implicit Types (r : Records) (h ip n : string) (t : Z).

(** C20: AddWithMeta is a last-write-wins update.  It reports true exactly when
    no entry at least as new is stored (newer timestamp wins, equal timestamps
    are decided by the larger node ID); then the name resolves to the new IP
    with the new metadata, and otherwise the whole store is unchanged; no other
    name is affected in either case. *)
Theorem AddWithMeta_lww r h ip t n :
  let (ok, r') := AddWithMeta r h ip t n in
  (ok = true ↔ ∀ e, GetMeta r h = (e, true) → ¬ meta_le (mkRecordMeta t n) e) ∧
  (ok = true → Lookup r' h = Some ip ∧ GetMeta r' h = (mkRecordMeta t n, true)) ∧
  (ok = false → r' = r) ∧
  (∀ h', ToLower h ≠ ToLower h' → Lookup r' h' = Lookup r h' ∧ GetMeta r' h' = GetMeta r h').
Proof.
  rewrite AddWithMeta_eq. unfold GetMeta.
  destruct (decide (stale r (ToLower h) _)) as [Hs|Hs]; unfold stale in Hs;
    split_and!; try done.
  - destruct (meta r !! ToLower h) as [e|]; [|done]. split; [done|].
    intros Hall. by destruct (Hall e).
  - split; [|done]. intros _ e He.
    destruct (meta r !! ToLower h) as [e'|]; by simplify_eq.
  - intros _. unfold Lookup. simpl. by rewrite !lookup_insert_eq.
  - intros h' Hne. unfold Lookup. simpl. by rewrite !lookup_insert_ne.
Qed.

(** C21: RemoveWithMeta succeeds exactly on a name that resolves and whose
    metadata, if any, is older than the removal; it then drops the record and
    its metadata, and otherwise changes nothing; other names are unaffected. *)
Theorem RemoveWithMeta_lww r h t n :
  let (ok, r') := RemoveWithMeta r h t n in
  (ok = true ↔ is_Some (Lookup r h) ∧
     ∀ e, GetMeta r h = (e, true) → ¬ meta_le (mkRecordMeta t n) e) ∧
  (ok = true → Lookup r' h = None ∧ GetMeta r' h = (RecordMeta_zero, false)) ∧
  (ok = false → r' = r) ∧
  (∀ h', ToLower h ≠ ToLower h' → Lookup r' h' = Lookup r h' ∧ GetMeta r' h' = GetMeta r h').
Proof.
  rewrite RemoveWithMeta_eq. unfold GetMeta, Lookup.
  destruct (decide (_ ∧ _)) as [[Hd Hs]|Hs]; unfold stale in Hs; split_and!; try done.
  - split; [|done]. intros _. split; [done|]. intros e He.
    destruct (meta r !! ToLower h) as [e'|]; by simplify_eq.
  - intros _. simpl. by rewrite !lookup_delete_eq.
  - intros h' Hne. simpl. by rewrite !lookup_delete_ne.
  - split; [done|]. intros [Hd Hall]. destruct Hs. split; [done|].
    intros Hst. destruct (meta r !! ToLower h) as [e|]; [by apply (Hall e)|done].
Qed.

(** The snapshot sent to peers lists exactly the hosts that resolve, each
    with its IP and its metadata; a host that was added without metadata is
    sent with timestamp zero and an empty node ID. *)
Theorem GetAllWithMeta_snapshot r k :
  GetAllWithMeta r !! k =
    ip ← data r !! k;
    Some match meta r !! k with
         | Some m => mkRecordEntry ip (meta_Timestamp m) (meta_NodeID m)
         | None => mkRecordEntry ip 0 EmptyString
         end.
Proof.
  rewrite GetAllWithMeta_lookup. destruct (data r !! k) as [ip|]; [|done].
  simpl. unfold with_meta. by destruct (meta r !! k).
Qed.
End lww_operations.
