(* ===== verification/Lww.v ===== *)
(** * Lww: last-write-wins replication of the records

    The abstract object behind AddWithMeta: a map from host to a stamped
    address, where an update keeps the later of the stored and the incoming
    entry.  The store refines it ([adds_refine_lww]); from the refinement
    follow the convergence of replicas that see the same additions in any
    order, and the exact limits of the guarantee for removals. *)

From stdpp Require Import gmap strings list fin_maps sorting.
From Stdlib Require Import ZArith Lia.
From S2P Require Import Prelude GoStrings Message Records.

(** ** The abstract map *)

Definition entry : Type := RecordMeta * string.
Abbreviation lwwmap := (gmap string entry).

(** Of two entries the one with the later stamp; the first on equal stamps. *)
Definition later (old new : entry) : entry :=
  if decide (meta_le new.1 old.1) then old else new.

Definition later_opt (old : option entry) (new : entry) : option entry :=
  Some match old with Some o => later o new | None => new end.

Definition lww_put (L : lwwmap) (ke : string * entry) : lwwmap :=
  partial_alter (λ o, later_opt o ke.2) ke.1 L.

Definition lww_join (L1 L2 : lwwmap) : lwwmap :=
  union_with (λ e1 e2, Some (later e1 e2)) L1 L2.

(** ** The concrete side *)

(** The messages one replica applies, in delivery order. *)
Definition apply_all `{UnicodeCase} (r : Records) (l : list RecordMessage) : Records :=
  foldl (λ r m, (ApplyMessage r m).2) r l.

(** Every record carries metadata and the other way round: the stores that only
    ApplyMessage has written. *)
Definition paired (r : Records) : Prop := dom (data r) = dom (meta r).

(** The abstract value of a store. *)
Definition view (r : Records) : lwwmap := map_zip (meta r) (data r).

Definition is_add (m : RecordMessage) : Prop := msg_Action m = RecordActionAdd.
Definition stamp (m : RecordMessage) : RecordMeta :=
  {| meta_Timestamp := msg_Timestamp m; meta_NodeID := msg_NodeID m |}.
Definition keyed `{UnicodeCase} (m : RecordMessage) : string * entry :=
  (ToLower (msg_Hostname m), (stamp m, msg_IP m)).

(** One stamp, one address: two additions for the same host with the same stamp
    carry the same IP (a node uses a timestamp for a host once). *)
Definition one_ip_per_stamp (l : list (string * entry)) : Prop :=
  ∀ k e1 e2, (k, e1) ∈ l → (k, e2) ∈ l → e1.1 = e2.1 → e1 = e2.

(** ** The best of a list of entries *)

Definition best (o : option entry) (l : list entry) : option entry := foldl later_opt o l.

Lemma later_spec (e1 e2 : entry) :
  (later e1 e2 = e1 ∨ later e1 e2 = e2) ∧
  meta_le e1.1 (later e1 e2).1 ∧ meta_le e2.1 (later e1 e2).1.
Proof.
  unfold later. case_decide as Hle.
  - split; [auto|]. split; [reflexivity|done].
  - split; [auto|]. split; [by apply meta_not_le|reflexivity].
Qed.

Lemma best_Some_inv (o : option entry) (l : list entry) (e : entry) :
  best o l = Some e →
  e ∈ option_list o ++ l ∧ ∀ e', e' ∈ option_list o ++ l → meta_le e'.1 e.1.
Proof.
  revert o. induction l as [|x l IH]; intros o Hb; simpl in *.
  - subst o. simpl. split; [set_solver|]. intros e' ->%list_elem_of_singleton. reflexivity.
  - apply IH in Hb as [Hin Hmax]. destruct o as [o|]; simpl in *; [|done].
    destruct (later_spec o x) as ([Ho|Hx] & Hle1 & Hle2).
    + rewrite Ho in *. split; [set_solver|]. intros e' Hin'.
      assert (meta_le o.1 e.1) by (apply Hmax; set_solver).
      apply elem_of_cons in Hin' as [->|[->|?]%elem_of_cons]; [done|by etrans|].
      apply Hmax. set_solver.
    + rewrite Hx in *. split; [set_solver|]. intros e' Hin'.
      assert (meta_le x.1 e.1) by (apply Hmax; set_solver).
      apply elem_of_cons in Hin' as [->|[->|?]%elem_of_cons]; [by etrans|done|].
      apply Hmax. set_solver.
Qed.

Lemma best_is_Some (o : option entry) (l : list entry) :
  is_Some (best o l) ↔ is_Some o ∨ l ≠ [].
Proof.
  revert o. induction l as [|x l IH]; intros o; simpl.
  - naive_solver.
  - rewrite IH. unfold later_opt. naive_solver.
Qed.

(** The best entry depends only on the set of entries, when stamps determine
    entries. *)
Lemma best_same (o1 o2 : option entry) (l1 l2 : list entry) :
  (∀ e, e ∈ option_list o1 ++ l1 ↔ e ∈ option_list o2 ++ l2) →
  (∀ e1 e2, e1 ∈ option_list o1 ++ l1 → e2 ∈ option_list o1 ++ l1 →
     e1.1 = e2.1 → e1 = e2) →
  best o1 l1 = best o2 l2.
Proof.
  intros Hset Huniq.
  destruct (best o1 l1) as [e1|] eqn:H1, (best o2 l2) as [e2|] eqn:H2; [|exfalso..|done].
  - apply best_Some_inv in H1 as [Hin1 Hmax1]. apply best_Some_inv in H2 as [Hin2 Hmax2].
    f_equal. apply Huniq; [done|by apply Hset|].
    apply (anti_symm meta_le); [by apply Hmax2, Hset|by apply Hmax1, Hset].
  - apply best_Some_inv in H1 as [Hin%Hset _].
    assert (is_Some (best o2 l2)) as [? [=]%(eq_trans (eq_sym H2))].
    apply best_is_Some. destruct o2; [eauto|]. right. intros ->. set_solver.
  - apply best_Some_inv in H2 as [Hin%Hset _].
    assert (is_Some (best o1 l1)) as [? [=]%(eq_trans (eq_sym H1))].
    apply best_is_Some. destruct o1; [eauto|]. right. intros ->. set_solver.
Qed.

(** ** Folding puts *)

(** The entries a list of keyed entries holds for one key. *)
Definition entries_of (k : string) (l : list (string * entry)) : list entry :=
  (filter (λ ke, ke.1 = k) l).*2.

Lemma elem_of_entries_of (k : string) (l : list (string * entry)) (e : entry) :
  e ∈ entries_of k l ↔ (k, e) ∈ l.
Proof.
  unfold entries_of. rewrite list_elem_of_fmap. split.
  - intros ([k' e'] & -> & [Hk Hin]%list_elem_of_filter). simpl in *. by subst.
  - intros Hin. exists (k, e). by rewrite list_elem_of_filter.
Qed.

Lemma foldl_put_lookup (L : lwwmap) (l : list (string * entry)) (k : string) :
  foldl lww_put L l !! k = best (L !! k) (entries_of k l).
Proof.
  revert L. induction l as [|[k' e] l IH]; intros L; [done|]. simpl. rewrite IH.
  unfold entries_of. rewrite filter_cons. simpl. unfold lww_put. simpl.
  destruct (decide (k' = k)) as [->|]; simpl.
  - by rewrite lookup_partial_alter_eq.
  - by rewrite lookup_partial_alter_ne.
Qed.

(** Two folds over the same set of entries give the same map. *)
Lemma foldl_put_same (l1 l2 : list (string * entry)) :
  (∀ ke, ke ∈ l1 ↔ ke ∈ l2) → one_ip_per_stamp l1 →
  foldl lww_put ∅ l1 = foldl lww_put ∅ l2.
Proof.
  intros Hset Huniq. apply map_eq. intros k. rewrite !foldl_put_lookup, lookup_empty.
  apply best_same; simpl.
  - intros e. by rewrite !elem_of_entries_of.
  - intros e1 e2. rewrite !elem_of_entries_of. apply Huniq.
Qed.

(** What a listing of a map, in any order, holds for one key. *)
Lemma entries_of_listing (L : lwwmap) (l : list (string * entry)) (k : string) :
  l ≡ₚ map_to_list L → entries_of k l = option_list (L !! k).
Proof.
  intros Hl. assert (entries_of k l ≡ₚ option_list (L !! k)) as Hperm.
  { apply NoDup_Permutation.
    - unfold entries_of. apply NoDup_fmap_2_strong.
      + intros [k1 e1] [k2 e2] [? _]%list_elem_of_filter [? _]%list_elem_of_filter ?.
        simpl in *. by subst.
      + apply NoDup_filter. rewrite Hl. apply NoDup_map_to_list.
    - destruct (L !! k); simpl; repeat constructor; set_solver.
    - intros e. rewrite elem_of_entries_of, Hl, elem_of_map_to_list.
      destruct (L !! k); simpl; set_solver. }
  destruct (L !! k); simpl in *;
    [by apply Permutation_singleton_r in Hperm|by apply Permutation_nil_r in Hperm].
Qed.

(** Putting every entry of a map, in any order, joins it. *)
Lemma foldl_put_join (L1 L2 : lwwmap) (l : list (string * entry)) :
  l ≡ₚ map_to_list L2 → foldl lww_put L1 l = lww_join L1 L2.
Proof.
  intros Hl. apply map_eq. intros k. rewrite foldl_put_lookup.
  unfold lww_join. rewrite lookup_union_with.
  rewrite (entries_of_listing L2) by done. by destruct (L1 !! k), (L2 !! k).
Qed.

(** ** Refinement *)

Section refinement.
Context `{UnicodeCase}.
Implicit Types (r : Records) (m : RecordMessage) (l : list RecordMessage).

Lemma view_lookup r k :
  paired r → view r !! k = (λ ip, (default RecordMeta_zero (meta r !! k), ip)) <$> data r !! k.
Proof.
  intros Hp. unfold view. rewrite map_lookup_zip_with.
  pose proof (Hp : dom (data r) = dom (meta r)) as Hd.
  destruct (data r !! k) as [ip|] eqn:Hk, (meta r !! k) as [e|] eqn:He; try done.
  apply elem_of_dom_2 in Hk. rewrite Hd in Hk. apply elem_of_dom in Hk as [? ?]. congruence.
Qed.

Lemma paired_None r k : paired r → data r !! k = None ↔ meta r !! k = None.
Proof. intros Hp. by rewrite <-!not_elem_of_dom, Hp. Qed.

(** A paired store is determined by its abstract value. *)
Lemma view_inj r1 r2 : paired r1 → paired r2 → view r1 = view r2 → r1 = r2.
Proof.
  intros Hp1 Hp2 Hv. apply Records_eq; apply map_eq; intros k;
    pose proof (f_equal (lookup k) Hv) as Hk;
    rewrite !view_lookup in Hk by done;
    pose proof (paired_None r1 k Hp1); pose proof (paired_None r2 k Hp2);
    destruct (data r1 !! k), (data r2 !! k), (meta r1 !! k), (meta r2 !! k);
    naive_solver.
Qed.

(** Every record carries metadata, but metadata may outlive its record: the
    stores of a clustered node whose watcher has removed records itself. *)
Definition stamped r : Prop := dom (data r) ⊆ dom (meta r).

Lemma paired_stamped r : paired r → stamped r.
Proof. unfold paired, stamped. by intros ->. Qed.

(** The stamp a record is sent under: the zero one where it has none. *)
Definition stamp_at r (k : string) : RecordMeta := default RecordMeta_zero (meta r !! k).

Lemma view_at r k :
  stamped r → view r !! k = (λ ip, (stamp_at r k, ip)) <$> data r !! k.
Proof.
  intros Hs. unfold view, stamp_at. rewrite map_lookup_zip_with.
  destruct (data r !! k) as [ip|] eqn:Hk, (meta r !! k) as [e|] eqn:He; try done.
  apply elem_of_dom_2, Hs, elem_of_dom in Hk as [? ?]. congruence.
Qed.

Lemma stamped_at r k : stamped r → is_Some (data r !! k) → meta r !! k = Some (stamp_at r k).
Proof.
  intros Hs Hd%elem_of_dom%Hs%elem_of_dom. unfold stamp_at. by destruct Hd as [e ->].
Qed.

(** [r'] holds a record for [k] and [r] none, but [r] holds on to a stamp for it
    that is no earlier. *)
Definition shadowed r r' (k : string) : Prop :=
  data r !! k = None ∧ is_Some (data r' !! k) ∧ stale r k (stamp_at r' k).

#[global] Instance shadowed_dec r r' k : Decision (shadowed r r' k).
Proof. unfold shadowed. apply _. Defined.

Lemma paired_not_shadowed r r' k : paired r → ¬ shadowed r r' k.
Proof.
  intros Hp (Hd & _ & Hs). apply (paired_None r k Hp) in Hd. unfold stale in Hs. by rewrite Hd in Hs.
Qed.

Lemma NewRecords_paired : paired NewRecords.
Proof. unfold paired. simpl. by rewrite !dom_empty_L. Qed.

Lemma AddWithMeta_paired r h ip t n : paired r → paired (AddWithMeta r h ip t n).2.
Proof.
  intros Hp. rewrite AddWithMeta_eq. case_decide; [done|].
  unfold paired. simpl. by rewrite !dom_insert_L, Hp.
Qed.

Lemma RemoveWithMeta_paired r h t n : paired r → paired (RemoveWithMeta r h t n).2.
Proof.
  intros Hp. rewrite RemoveWithMeta_eq. case_decide; [|done].
  unfold paired. simpl. by rewrite !dom_delete_L, Hp.
Qed.

#[local] Hint Resolve NewRecords_paired AddWithMeta_paired RemoveWithMeta_paired : joyride.

Lemma ApplyMessage_paired r m : paired r → paired (ApplyMessage r m).2.
Proof.
  unfold ApplyMessage. repeat case_bool_decide; auto with joyride.
Qed.

#[local] Hint Resolve ApplyMessage_paired : joyride.

Lemma apply_all_paired r l : paired r → paired (apply_all r l).
Proof. revert r. induction l as [|m l IH]; simpl; auto with joyride. Qed.

#[local] Hint Resolve apply_all_paired : joyride.

Lemma AddWithMeta_view r h ip t n :
  paired r →
  view (AddWithMeta r h ip t n).2 = lww_put (view r) (ToLower h, (mkRecordMeta t n, ip)).
Proof.
  intros Hp. pose proof (AddWithMeta_paired r h ip t n Hp) as Hp'.
  apply map_eq. intros k. rewrite view_lookup by done.
  unfold lww_put. simpl. rewrite AddWithMeta_eq in *.
  pose proof (paired_None r (ToLower h) Hp) as Hnone.
  destruct (decide (k = ToLower h)) as [->|Hne].
  - rewrite lookup_partial_alter_eq, view_lookup by done.
    case_decide as Hs; unfold stale in Hs; simpl.
    + destruct (meta r !! ToLower h) as [e|] eqn:He; [|done].
      destruct (data r !! ToLower h) as [ip'|] eqn:Hd; [|naive_solver]. simpl.
      unfold later_opt, later. simpl. by rewrite decide_True.
    + rewrite !lookup_insert_eq. simpl.
      destruct (data r !! ToLower h) as [ip'|] eqn:Hd; [|done]. simpl.
      destruct (meta r !! ToLower h) as [e|] eqn:He; [|naive_solver]. simpl.
      unfold later_opt, later. simpl. by rewrite decide_False.
  - rewrite lookup_partial_alter_ne, view_lookup by done.
    case_decide; simpl; [done|]. by rewrite !lookup_insert_ne.
Qed.

Lemma ApplyMessage_add_view r m :
  paired r → is_add m → view (ApplyMessage r m).2 = lww_put (view r) (keyed m).
Proof.
  intros Hp Ha. unfold ApplyMessage. rewrite bool_decide_eq_true_2 by done.
  by rewrite AddWithMeta_view.
Qed.

Lemma apply_adds_view r l :
  paired r → Forall is_add l → view (apply_all r l) = foldl lww_put (view r) (keyed <$> l).
Proof.
  intros Hp Hall. revert r Hp. induction Hall as [|m l Hm _ IH]; intros r Hp; [done|].
  simpl. rewrite IH by auto with joyride. by rewrite ApplyMessage_add_view.
Qed.

(** What additions do to one key of any store, paired or not: each entry for
    the key is taken unless the stamp held for it is no earlier. *)
Abbreviation cell := (option RecordMeta * option string)%type.
Definition cell_at r (k : string) : cell := (meta r !! k, data r !! k).
Definition receive (c : cell) (e : entry) : cell :=
  match c.1 with
  | Some held => if decide (meta_le e.1 held) then c else (Some e.1, Some e.2)
  | None => (Some e.1, Some e.2)
  end.

Lemma receive_at r k (e : entry) :
  receive (cell_at r k) e =
    if decide (stale r k e.1) then cell_at r k else (Some e.1, Some e.2).
Proof.
  unfold receive, cell_at. destruct (decide (stale r k e.1)) as [Hs|Hs]; unfold stale in Hs; simpl;
    destruct (meta r !! k); try done; by case_decide.
Qed.

Lemma apply_add_cell r m k :
  is_add m → cell_at (ApplyMessage r m).2 k =
    if decide (ToLower (msg_Hostname m) = k) then receive (cell_at r k) (stamp m, msg_IP m)
    else cell_at r k.
Proof.
  intros Ha. unfold ApplyMessage. rewrite bool_decide_eq_true_2, AddWithMeta_eq by done.
  fold (stamp m). rewrite receive_at. unfold cell_at. simpl.
  destruct (decide (ToLower (msg_Hostname m) = k)) as [<-|Hne]; case_decide; try done; simpl.
  - by rewrite !lookup_insert_eq.
  - by rewrite !lookup_insert_ne.
Qed.

Lemma apply_adds_cell r l k :
  Forall is_add l →
  cell_at (apply_all r l) k = foldl receive (cell_at r k) (entries_of k (keyed <$> l)).
Proof.
  intros Hl. revert r. induction Hl as [|m l Hm _ IH]; intros r; [done|].
  change (apply_all r (m :: l)) with (apply_all (ApplyMessage r m).2 l).
  rewrite IH, apply_add_cell by done. unfold entries_of. rewrite fmap_cons, filter_cons. simpl.
  by case_decide.
Qed.


Lemma NewRecords_view : view NewRecords = ∅.
Proof. unfold view. simpl. apply map_zip_with_empty. Qed.

Lemma Lookup_view r h : paired r → Lookup r h = snd <$> view r !! ToLower h.
Proof.
  intros Hp. unfold Lookup. rewrite view_lookup by done. by destruct (data r !! _).
Qed.

(** C4: Convergence.  Two replicas that start empty and receive the same set of
    additions end in the same state, whatever the order and however often each
    message is delivered, provided a stamp is used for one address only; in that
    state every host resolves to the address with the largest stamp (timestamp,
    then node ID), and to nothing if it was never added. *)
Theorem adds_converge l1 l2 :
  Forall is_add l1 → (∀ m, m ∈ l1 ↔ m ∈ l2) → one_ip_per_stamp (keyed <$> l1) →
  apply_all NewRecords l1 = apply_all NewRecords l2 ∧
  (∀ h, match Lookup (apply_all NewRecords l1) h with
        | Some ip => ∃ m, m ∈ l1 ∧ ToLower (msg_Hostname m) = ToLower h ∧ msg_IP m = ip ∧
            ∀ m', m' ∈ l1 → ToLower (msg_Hostname m') = ToLower h →
              meta_le (stamp m') (stamp m)
        | None => ∀ m, m ∈ l1 → ToLower (msg_Hostname m) ≠ ToLower h
        end).
Proof.
  intros Hadd Hset Huniq.
  assert (Forall is_add l2) as Hadd2.
  { rewrite Forall_forall in *. intros m Hm. by apply Hadd, Hset. }
  split.
  - apply view_inj; [auto with joyride..|].
    rewrite !apply_adds_view, NewRecords_view by auto with joyride.
    apply foldl_put_same; [|done]. intros ke. rewrite !list_elem_of_fmap. by setoid_rewrite Hset.
  - intros h. rewrite Lookup_view by auto with joyride.
    rewrite apply_adds_view, NewRecords_view, foldl_put_lookup, lookup_empty
      by auto with joyride.
    destruct (best None _) as [e|] eqn:Hb; simpl.
    + apply best_Some_inv in Hb as [Hin Hmax]. simpl in *.
      apply elem_of_entries_of, list_elem_of_fmap in Hin as (m & [= Hk ->] & Hin).
      exists m. split_and!; [done..|]. intros m' Hm' Hk'.
      apply (Hmax (stamp m', msg_IP m')). apply elem_of_entries_of, list_elem_of_fmap.
      exists m'. unfold keyed. by rewrite Hk'.
    + intros m Hm Hk. apply eq_None_not_Some in Hb. apply Hb, best_is_Some. right.
      assert ((stamp m, msg_IP m) ∈ entries_of (ToLower h) (keyed <$> l1)) as Hin.
      { apply elem_of_entries_of, list_elem_of_fmap. exists m. unfold keyed. by rewrite Hk. }
      intros Hnil. rewrite Hnil in Hin. by apply elem_of_nil in Hin.
Qed.
End refinement.

#[export] Hint Resolve NewRecords_paired AddWithMeta_paired RemoveWithMeta_paired
  ApplyMessage_paired apply_all_paired : joyride.

(** ** Removals *)

Section removals.
Context `{UnicodeCase}.
Implicit Types (r : Records) (m : RecordMessage) (l : list RecordMessage) (h : string).

Definition is_remove m : Prop := msg_Action m = RecordActionRemove.
Definition about h m : Prop := ToLower (msg_Hostname m) = ToLower h.

#[global] Instance about_dec h m : Decision (about h m).
Proof. unfold about. apply _. Defined.

(** What the sender of the last message about [h] meant it to resolve to. *)
Definition intended h l : option string :=
  m ← last (filter (about h) l);
  if decide (msg_Action m = RecordActionAdd) then Some (msg_IP m) else None.

(** Messages about one host arrive in the order of their stamps. *)
Definition in_order l : Prop :=
  StronglySorted (λ m1 m2, about (msg_Hostname m1) m2 → ¬ meta_le (stamp m2) (stamp m1)) l.

Lemma Lookup_AddWithMeta_fresh r h ip t n h' :
  ¬ stale r (ToLower h) (mkRecordMeta t n) →
  Lookup (AddWithMeta r h ip t n).2 h' =
    if decide (ToLower h = ToLower h') then Some ip else Lookup r h'.
Proof.
  intros Hs. rewrite AddWithMeta_eq, decide_False by done.
  unfold Lookup. simpl. apply lookup_insert.
Qed.

Lemma Lookup_RemoveWithMeta_fresh r h t n h' :
  ¬ stale r (ToLower h) (mkRecordMeta t n) →
  Lookup (RemoveWithMeta r h t n).2 h' =
    if decide (ToLower h = ToLower h') then None else Lookup r h'.
Proof.
  intros Hs. rewrite RemoveWithMeta_eq. unfold Lookup.
  destruct (decide (_ ∧ _)) as [_|Hno]; simpl; [apply lookup_delete|].
  case_decide as Heq; [|done]. rewrite <-Heq. apply eq_None_not_Some. tauto.
Qed.

(** Metadata in a store built from messages is the stamp of one of them. *)
Lemma apply_all_meta l k e :
  meta (apply_all NewRecords l) !! k = Some e →
  ∃ m, m ∈ l ∧ ToLower (msg_Hostname m) = k ∧ stamp m = e.
Proof.
  induction l as [|m l IH] using rev_ind; [done|].
  unfold apply_all in *. rewrite foldl_app. simpl.
  set (r := foldl _ NewRecords l) in *. unfold ApplyMessage. intros Hk.
  assert (meta r !! k = Some e ∨ ToLower (msg_Hostname m) = k ∧ stamp m = e) as [Hr|Hm].
  { repeat case_bool_decide; [..|by left].
    - rewrite AddWithMeta_eq in Hk. case_decide; simpl in Hk; [by left|].
      apply lookup_insert_Some in Hk. naive_solver.
    - rewrite RemoveWithMeta_eq in Hk. case_decide; simpl in Hk; [|by left].
      apply lookup_delete_Some in Hk. naive_solver. }
  - destruct (IH Hr) as (m' & ? & ?). exists m'. rewrite elem_of_app. auto.
  - exists m. rewrite elem_of_app, list_elem_of_singleton. auto.
Qed.

Lemma in_order_intended l h :
  Forall (λ m, is_add m ∨ is_remove m) l → in_order l →
  Lookup (apply_all NewRecords l) h = intended h l.
Proof.
  induction l as [|m l IH] using rev_ind; intros Hk Hord; [done|].
  apply Forall_app in Hk as [Hk [Hm _]%Forall_cons].
  apply StronglySorted_app in Hord as (Hlast & Hord & _).
  specialize (IH Hk Hord). unfold intended in *. rewrite filter_app, filter_cons, filter_nil.
  unfold apply_all in *. rewrite foldl_app. simpl.
  set (r := foldl _ NewRecords l) in *.
  assert (¬ stale r (ToLower (msg_Hostname m)) (stamp m)) as Hfresh.
  { unfold stale. destruct (meta r !! _) as [e|] eqn:He; [|tauto].
    apply apply_all_meta in He as (m' & Hin & Hh & <-).
    apply (Hlast m' m); [done|by apply list_elem_of_singleton|by unfold about; rewrite Hh]. }
  unfold ApplyMessage. destruct Hm as [Ha|Hr].
  - rewrite bool_decide_eq_true_2, Lookup_AddWithMeta_fresh by done.
    destruct (decide (about h m)); [|by rewrite decide_False, app_nil_r by done].
    rewrite decide_True, last_snoc by done. simpl. by rewrite decide_True.
  - unfold is_remove in Hr. rewrite Hr. simpl. rewrite Lookup_RemoveWithMeta_fresh by done.
    destruct (decide (about h m)); [|by rewrite decide_False, app_nil_r by done].
    rewrite decide_True, last_snoc by done. simpl. by rewrite Hr.
Qed.

(** C23: When the messages about each host are delivered in the order of their
    stamps, additions and removals together behave as their senders mean them:
    a host resolves to the address of the last message about it, or to nothing
    if that message is a removal or there is none. *)
Theorem in_order_delivery l h :
  Forall (λ m, is_add m ∨ is_remove m) l → in_order l →
  Lookup (apply_all NewRecords l) h = intended h l.
Proof. apply in_order_intended. Qed.

(** C33: Without that order removals do not last.  A removal that takes effect
    leaves no trace, so an addition that is no later than the removal and arrives
    after it, such as another copy of the very addition it removed, is accepted
    and the removed host resolves again. *)
Theorem late_add_resurrects r h add remove ip :
  is_add add → is_remove remove → about h add → about h remove →
  meta_le (stamp add) (stamp remove) →
  Lookup r h = Some ip → ¬ stale r (ToLower h) (stamp remove) →
  let r' := (ApplyMessage r remove).2 in
  Lookup r' h = None ∧
  (ApplyMessage r' add).1 = true ∧ Lookup (ApplyMessage r' add).2 h = Some (msg_IP add).
Proof.
  intros Ha Hr Hha Hhr _ Hl Hs r'.
  assert (r' = mkRecords (delete (ToLower h) (data r)) (delete (ToLower h) (meta r))) as ->.
  { unfold r', ApplyMessage. unfold is_remove in Hr. rewrite Hr. simpl.
    rewrite RemoveWithMeta_eq, Hhr, decide_True; [done|]. split; [by eexists|done]. }
  unfold ApplyMessage. rewrite bool_decide_eq_true_2, AddWithMeta_eq, Hha by done.
  rewrite decide_False.
  - unfold Lookup. simpl. by rewrite lookup_delete_eq, lookup_insert_eq.
  - unfold stale. simpl. rewrite lookup_delete_eq. tauto.
Qed.
End removals.

(** ** Joining two maps *)

(** No two entries of the maps share host and stamp but not the address. *)
Definition compatible (L1 L2 : lwwmap) : Prop :=
  ∀ k e1 e2, L1 !! k = Some e1 → L2 !! k = Some e2 → e1.1 = e2.1 → e1 = e2.

Lemma later_idem (e : entry) : later e e = e.
Proof. unfold later. by rewrite decide_True. Qed.

Lemma later_comm (e1 e2 : entry) : (e1.1 = e2.1 → e1 = e2) → later e1 e2 = later e2 e1.
Proof.
  intros Heq. unfold later. repeat case_decide; [|done..|].
  - apply Heq. by apply (anti_symm meta_le).
  - by destruct (total meta_le e1.1 e2.1).
Qed.

Lemma later_assoc (e1 e2 e3 : entry) : later (later e1 e2) e3 = later e1 (later e2 e3).
Proof.
  unfold later.
  destruct (decide (meta_le e2.1 e1.1)) as [H21|H21],
    (decide (meta_le e3.1 e2.1)) as [H32|H32].
  - assert (meta_le e3.1 e1.1) by by trans e2.1. by rewrite !decide_True by done.
  - done.
  - by repeat case_decide.
  - rewrite decide_False; [done|].
    intros H31. destruct H32. etrans; [exact H31|]. by apply meta_not_le.
Qed.

Lemma lww_join_idem (L : lwwmap) : lww_join L L = L.
Proof.
  apply map_eq. intros k. unfold lww_join. rewrite lookup_union_with.
  destruct (L !! k); simpl; by rewrite ?later_idem.
Qed.

Lemma lww_join_comm (L1 L2 : lwwmap) :
  compatible L1 L2 → lww_join L1 L2 = lww_join L2 L1.
Proof.
  intros Hc. apply map_eq. intros k. unfold lww_join. rewrite !lookup_union_with.
  destruct (L1 !! k) eqn:H1, (L2 !! k) eqn:H2; simpl; try done.
  f_equal. apply later_comm. eauto.
Qed.

Lemma lww_join_assoc (L1 L2 L3 : lwwmap) :
  lww_join (lww_join L1 L2) L3 = lww_join L1 (lww_join L2 L3).
Proof.
  apply map_eq. intros k. unfold lww_join. rewrite !lookup_union_with.
  destruct (L1 !! k), (L2 !! k), (L3 !! k); simpl; try done. by rewrite later_assoc.
Qed.

(** ** Evaluations at concrete messages *)

Module LwwExamples.
#[local] Existing Instance latin1_case.

Definition add_old := mkRecordMessage "App.example.com" "10.0.0.1" RecordActionAdd 5 "node-b".
Definition add_new := mkRecordMessage "app.EXAMPLE.com" "10.0.0.2" RecordActionAdd 9 "node-a".
Definition del_new := mkRecordMessage "app.example.com" "" RecordActionRemove 9 "node-a".

Ltac two_messages :=
  intros ? ? ?; rewrite !fmap_cons, !fmap_nil, !elem_of_cons, !elem_of_nil;
  intros [?|[?|[]]] [?|[?|[]]] ?; unfold keyed in *; simplify_eq/=; congruence.


Lemma adds_converge_witness :
  apply_all NewRecords [add_old; add_new] = apply_all NewRecords [add_new; add_old; add_new] ∧
  Lookup (apply_all NewRecords [add_old; add_new]) "APP.example.com" = Some "10.0.0.2".
Proof.
  split; [|by vm_compute].
  refine (proj1 (adds_converge [add_old; add_new] [add_new; add_old; add_new] _ _ _)).
  - repeat constructor.
  - intros m. rewrite !elem_of_cons, !elem_of_nil. tauto.
  - two_messages.
Defined.

Lemma in_order_delivery_witness :
  Lookup (apply_all NewRecords [add_old; del_new]) "app.example.com" = None.
Proof.
  rewrite (in_order_delivery [add_old; del_new] "app.example.com").
  - by vm_compute.
  - constructor; [by left|]. constructor; [by right|constructor].
  - repeat constructor. intros _ [Hlt|[Heq _]]; by vm_compute in *.
Defined.

(** The addition arrives once more after its removal. *)
Lemma late_add_resurrects_witness :
  Lookup (apply_all NewRecords [add_old; del_new]) "app.example.com" = None ∧
  Lookup (apply_all NewRecords [add_old; del_new; add_old]) "app.example.com" = Some "10.0.0.1".
Proof.
  destruct (late_add_resurrects (apply_all NewRecords [add_old]) "app.example.com" add_old del_new
    "10.0.0.1") as (H1 & _ & H2); [done|done|by_computation..| |split; [exact H1|exact H2]].
  by_computation.
Defined.
End LwwExamples.
