(* ===== verification/RecordsConc.v ===== *)
(** * RecordsConc: the record store under concurrency
    (docker-cluster/records.go)

    [Records] treats a method as one step.  Here a method is the program the
    source has: it takes the mutex, loads and stores the two atomic values, and
    releases it; readers load without the mutex.  A configuration is the shared
    memory with a pool of such programs, and any thread may take the next step.

    The mutations are linearized by the mutex and every read of one map is a read
    of the store between two mutations.  GetAllWithMeta reads the two maps in two
    loads, and can pair an address with the stamp of its successor. *)

From stdpp Require Import gmap strings list fin_maps relations.
From Stdlib Require Import ZArith Lia.
From S2P Require Import Prelude GoStrings Message Records.

(** ** Programs *)

Inductive res :=
| RUnit
| RBool (b : bool)
| RLookup (o : option string)
| RAll (m : gmap string string)
| RCount (n : nat)
| REntries (m : gmap string RecordEntry)
| RMeta (m : RecordMeta * bool).

(** [r.mu.Lock()], [r.mu.Unlock()], and [Load] and [Store] of [r.data] and
    [r.meta]. *)
Inductive prog :=
| Ret (x : res)
| Lock (k : prog)
| Unlock (k : prog)
| LoadData (k : gmap string string → prog)
| LoadMeta (k : gmap string RecordMeta → prog)
| StoreData (d : gmap string string) (k : prog)
| StoreMeta (m : gmap string RecordMeta) (k : prog).

Section conc.
Context `{UnicodeCase}.

(** The methods; [defer r.mu.Unlock()] runs before each return. *)
Definition Add_prog (hostname ip : string) : prog :=
  let hostname := ToLower hostname in
  Lock (LoadData (λ current,
    StoreData (<[hostname := ip]> (range_copy current)) (Unlock (Ret RUnit)))).

Definition Remove_prog (hostname : string) : prog :=
  let hostname := ToLower hostname in
  Lock (LoadData (λ current,
    match current !! hostname with
    | None => Unlock (Ret RUnit)
    | Some _ => StoreData (range_copy_except hostname current) (Unlock (Ret RUnit))
    end)).

Definition Lookup_prog (hostname : string) : prog :=
  let hostname := ToLower hostname in
  LoadData (λ current, Ret (RLookup (current !! hostname))).

Definition GetAll_prog : prog := LoadData (λ current, Ret (RAll (range_copy current))).

Definition Count_prog : prog := LoadData (λ current, Ret (RCount (size current))).

Definition AddWithMeta_prog (hostname ip : string) (timestamp : Z) (nodeID : string) : prog :=
  let hostname := ToLower hostname in
  Lock (LoadMeta (λ currentMeta,
    let accept :=
      LoadData (λ currentData,
        StoreData (<[hostname := ip]> (range_copy currentData))
          (StoreMeta (<[hostname := mkRecordMeta timestamp nodeID]> (range_copy currentMeta))
            (Unlock (Ret (RBool true))))) in
    match currentMeta !! hostname with
    | Some existing =>
        if existing_wins existing timestamp nodeID then Unlock (Ret (RBool false)) else accept
    | None => accept
    end)).

Definition RemoveWithMeta_prog (hostname : string) (timestamp : Z) (nodeID : string) : prog :=
  let hostname := ToLower hostname in
  Lock (LoadData (λ currentData,
    match currentData !! hostname with
    | None => Unlock (Ret (RBool false))
    | Some _ =>
        LoadMeta (λ currentMeta,
          let drop :=
            StoreData (range_copy_except hostname currentData)
              (StoreMeta (range_copy_except hostname currentMeta) (Unlock (Ret (RBool true)))) in
          match currentMeta !! hostname with
          | Some existing =>
              if existing_wins existing timestamp nodeID then Unlock (Ret (RBool false)) else drop
          | None => drop
          end)
    end)).

(** The loop of GetAllWithMeta over what its two loads returned. *)
Definition entries (currentData : gmap string string) (currentMeta : gmap string RecordMeta)
    : gmap string RecordEntry := GetAllWithMeta (mkRecords currentData currentMeta).
Definition GetAllWithMeta_prog : prog :=
  LoadData (λ currentData, LoadMeta (λ currentMeta, Ret (REntries (entries currentData currentMeta)))).

Definition ApplyMessage_prog (msg : RecordMessage) : prog :=
  if bool_decide (msg_Action msg = RecordActionAdd) then
    AddWithMeta_prog (msg_Hostname msg) (msg_IP msg) (msg_Timestamp msg) (msg_NodeID msg)
  else if bool_decide (msg_Action msg = RecordActionRemove) then
    RemoveWithMeta_prog (msg_Hostname msg) (msg_Timestamp msg) (msg_NodeID msg)
  else Ret (RBool false).

Definition GetMeta_prog (hostname : string) : prog :=
  let hostname := ToLower hostname in
  LoadMeta (λ currentMeta,
    Ret (RMeta match currentMeta !! hostname with
               | Some m => (m, true)
               | None => (RecordMeta_zero, false)
               end)).

(** ** The calls a goroutine can make, and what each does in one step *)

Inductive op :=
| OpAdd (hostname ip : string)
| OpRemove (hostname : string)
| OpLookup (hostname : string)
| OpGetAll
| OpCount
| OpGetAllWithMeta
| OpApplyMessage (msg : RecordMessage)
| OpGetMeta (hostname : string).

#[global] Instance op_eq_dec : EqDecision op.
Proof. solve_decision. Defined.

Definition prog_of (o : op) : prog :=
  match o with
  | OpAdd h ip => Add_prog h ip
  | OpRemove h => Remove_prog h
  | OpLookup h => Lookup_prog h
  | OpGetAll => GetAll_prog
  | OpCount => Count_prog
  | OpGetAllWithMeta => GetAllWithMeta_prog
  | OpApplyMessage m => ApplyMessage_prog m
  | OpGetMeta h => GetMeta_prog h
  end.

Definition spec (o : op) (r : Records) : res * Records :=
  match o with
  | OpAdd h ip => (RUnit, Add r h ip)
  | OpRemove h => (RUnit, Remove r h)
  | OpLookup h => (RLookup (Lookup r h), r)
  | OpGetAll => (RAll (GetAll r), r)
  | OpCount => (RCount (Count r), r)
  | OpGetAllWithMeta => (REntries (GetAllWithMeta r), r)
  | OpApplyMessage m => let (b, r') := ApplyMessage r m in (RBool b, r')
  | OpGetMeta h => (RMeta (GetMeta r h), r)
  end.

(** The calls that take the mutex. *)
Definition locks (o : op) : bool :=
  match o with
  | OpAdd _ _ | OpRemove _ => true
  | OpApplyMessage m =>
      bool_decide (msg_Action m = RecordActionAdd) || bool_decide (msg_Action m = RecordActionRemove)
  | _ => false
  end.

(** ** Interleaving *)

Record config := mkConfig {
  c_store : Records;
  c_lock : option nat;
  c_threads : list prog;
}.

Definition init (r : Records) (ops : list op) : config := mkConfig r None (prog_of <$> ops).

(** One thread does its next operation; [Lock] waits until the mutex is free. *)
Inductive step : config → config → Prop :=
| step_lock r ts i k :
    ts !! i = Some (Lock k) → step (mkConfig r None ts) (mkConfig r (Some i) (<[i := k]> ts))
| step_unlock r l ts i k :
    ts !! i = Some (Unlock k) → step (mkConfig r l ts) (mkConfig r None (<[i := k]> ts))
| step_load_data r l ts i k :
    ts !! i = Some (LoadData k) → step (mkConfig r l ts) (mkConfig r l (<[i := k (data r)]> ts))
| step_load_meta r l ts i k :
    ts !! i = Some (LoadMeta k) → step (mkConfig r l ts) (mkConfig r l (<[i := k (meta r)]> ts))
| step_store_data r l ts i d k :
    ts !! i = Some (StoreData d k) →
    step (mkConfig r l ts) (mkConfig (mkRecords d (meta r)) l (<[i := k]> ts))
| step_store_meta r l ts i m k :
    ts !! i = Some (StoreMeta m k) →
    step (mkConfig r l ts) (mkConfig (mkRecords (data r) m) l (<[i := k]> ts)).

(** ** A program alone *)

Fixpoint run_alone (p : prog) (r : Records) : res * Records :=
  match p with
  | Ret x => (x, r)
  | Lock k | Unlock k => run_alone k r
  | LoadData k => run_alone (k (data r)) r
  | LoadMeta k => run_alone (k (meta r)) r
  | StoreData d k => run_alone k (mkRecords d (meta r))
  | StoreMeta m k => run_alone k (mkRecords (data r) m)
  end.

(** [p] can run on from [r], alone and with the mutex, to the result and store
    [out], storing nothing but the maps of [out], and releasing the mutex last. *)
Fixpoint ends (p : prog) (r : Records) (out : res * Records) : Prop :=
  match p with
  | Unlock k => k = Ret out.1 ∧ r = out.2
  | LoadData k => ends (k (data r)) r out
  | LoadMeta k => ends (k (meta r)) r out
  | StoreData d k => d = data out.2 ∧ ends k (mkRecords d (meta r)) out
  | StoreMeta m k => m = meta out.2 ∧ ends k (mkRecords (data r) m) out
  | Ret _ | Lock _ => False
  end.
End conc.

Section proofs.
Context `{UnicodeCase}.
Implicit Types (o : op) (r : Records) (p : prog).

(** ** Programs against the functions of [Records] *)

Lemma locks_ends o :
  locks o = true → ∃ k, prog_of o = Lock k ∧ ∀ r, ends k r (spec o r).
Proof.
  destruct o as [h ip|h| | | | |m|]; simpl; try done; intros Hl.
  - eexists. split; [done|]. intros r. by simpl.
  - eexists. split; [done|]. intros r. simpl. unfold Remove. by destruct (data r !! ToLower h).
  - unfold ApplyMessage_prog, ApplyMessage. destruct (bool_decide (_ = RecordActionAdd)).
    + eexists. split; [done|]. intros r. simpl. unfold AddWithMeta.
      destruct (meta r !! _) as [e|]; [destruct (existing_wins _ _ _)|]; simpl; by split_and?.
    + simpl in Hl. rewrite Hl. eexists. split; [done|]. intros r. simpl. unfold RemoveWithMeta.
      destruct (data r !! _); [|by destruct r]. simpl.
      destruct (meta r !! _) as [e|]; [destruct (existing_wins _ _ _)|]; simpl; by split_and?.
Qed.

Lemma ends_run_alone p r out : ends p r out → run_alone p r = out.
Proof.
  revert r. induction p as [x|k IH|k IH|k IH|k IH|d k IH|m k IH]; intros r; simpl; try done.
  - intros [-> ->]. simpl. by destruct out.
  - apply IH.
  - apply IH.
  - intros [_ Hk]. by apply IH.
  - intros [_ Hk]. by apply IH.
Qed.

(** Run without interference, the locking, loading and storing program of every
    method computes what the function of [Records] computes in one step, its
    result and the store it leaves. *)
Lemma methods_run_alone o r : run_alone (prog_of o) r = spec o r.
Proof.
  destruct (locks o) eqn:Hl.
  - destruct (locks_ends o Hl) as (k & -> & Hk). simpl. by apply ends_run_alone.
  - destruct o as [h ip|h| | | | |m|]; try done; try by destruct r.
    simpl in Hl |- *. unfold ApplyMessage_prog, ApplyMessage.
    apply orb_false_iff in Hl as [-> ->]. done.
Qed.

(** The readers: one load, or GetAllWithMeta, or nothing to do. *)
Lemma reader_shape o :
  locks o = false → o ≠ OpGetAllWithMeta →
  (∃ k, prog_of o = LoadData k ∧ ∀ r, k (data r) = Ret (spec o r).1) ∨
  (∃ k, prog_of o = LoadMeta k ∧ ∀ r, k (meta r) = Ret (spec o r).1) ∨
  (∀ r, prog_of o = Ret (spec o r).1).
Proof.
  destruct o as [h ip|h| | | | |m|]; try done; intros Hl Hne;
    [left; by eexists..| |right; left; by eexists].
  right. right. intros r. simpl in Hl |- *. unfold ApplyMessage_prog, ApplyMessage.
  by apply orb_false_iff in Hl as [-> ->].
Qed.

(** ** The order of the mutations *)

Context (r0 : Records) (ops : list op).

(** The store after the calls of the threads [order], one after the other. *)
Definition call (r : Records) (i : nat) : Records :=
  match ops !! i with Some o => (spec o r).2 | None => r end.
Definition after (order : list nat) : Records := foldl call r0 order.

Lemma after_snoc order i o : ops !! i = Some o → after (order ++ [i]) = (spec o (after order)).2.
Proof. intros Ho. unfold after. rewrite foldl_app. simpl. unfold call. by rewrite Ho. Qed.

(** What a thread that has not taken the mutex may be doing, given the order so
    far. *)
Definition reading (o : op) (order : list nat) (p : prog) : Prop :=
  match o with
  | OpGetAllWithMeta =>
      (∃ n, n ≤ length order ∧
        p = LoadMeta (λ m, Ret (REntries (entries (data (after (take n order))) m)))) ∨
      (∃ n m, n ≤ S m ∧ n ≤ length order ∧ m ≤ length order ∧
        p = Ret (REntries (entries (data (after (take n order))) (meta (after (take m order))))))
  | _ => ∃ n, n ≤ length order ∧ p = Ret (spec o (after (take n order))).1
  end.

Definition thread_ok (c : config) (order : list nat) (i : nat) (o : op) (p : prog) : Prop :=
  if locks o then
    (i ∉ order ∧ p = prog_of o) ∨
    (c_lock c = Some i ∧ ∃ before, order = before ++ [i] ∧
      ends p (c_store c) (spec o (after before))) ∨
    (c_lock c ≠ Some i ∧ ∃ before behind, order = before ++ i :: behind ∧
      p = Ret (spec o (after before)).1)
  else p = prog_of o ∨ reading o order p.

(** The store lies between the last two mutations, and at the last one when the
    mutex is free. *)
Definition store_ok (c : config) (order : list nat) : Prop :=
  match c_lock c with
  | None => c_store c = after order
  | Some i => ∃ before, order = before ++ [i] ∧
      (data (c_store c) = data (after before) ∨ data (c_store c) = data (after order)) ∧
      (meta (c_store c) = meta (after before) ∨ meta (c_store c) = meta (after order))
  end.

Record inv (c : config) (order : list nat) : Prop := {
  inv_nodup : NoDup order;
  inv_locks : Forall (λ i, ∃ o, ops !! i = Some o ∧ locks o = true) order;
  inv_length : length (c_threads c) = length ops;
  inv_store : store_ok c order;
  inv_threads : ∀ i o p, ops !! i = Some o → c_threads c !! i = Some p → thread_ok c order i o p;
}.

Lemma init_inv : inv (init r0 ops) [].
Proof.
  split; simpl; [constructor|constructor|by rewrite length_fmap|done|].
  intros i o p Ho Hp. rewrite list_lookup_fmap, Ho in Hp. simplify_eq/=.
  unfold thread_ok. destruct (locks o); left; [|done]. split; [apply not_elem_of_nil|done].
Qed.

(** Each map of the store is that of some prefix of the order, one of the last
    two. *)
Lemma store_prefix c order :
  store_ok c order →
  (∃ n, n ≤ length order ≤ S n ∧ data (c_store c) = data (after (take n order))) ∧
  (∃ n, n ≤ length order ≤ S n ∧ meta (c_store c) = meta (after (take n order))).
Proof.
  unfold store_ok. destruct (c_lock c) as [i|].
  - intros (before & -> & Hd & Hm). rewrite length_app. simpl. split.
    + destruct Hd as [Hd|Hd]; [exists (length before)|exists (length before + 1)];
        (split; [lia|]); rewrite Hd; [by rewrite take_app_length|by rewrite take_ge by (rewrite length_app; simpl; lia)].
    + destruct Hm as [Hm|Hm]; [exists (length before)|exists (length before + 1)];
        (split; [lia|]); rewrite Hm; [by rewrite take_app_length|by rewrite take_ge by (rewrite length_app; simpl; lia)].
  - intros ->. split; exists (length order); (split; [lia|]); by rewrite firstn_all.
Qed.

(** *** Preservation *)

Lemma reading_grows o order extra p : reading o order p → reading o (order ++ extra) p.
Proof.
  unfold reading. assert (∀ n, n ≤ length order → after (take n (order ++ extra)) = after (take n order))
    as Ht by (intros n Hn; by rewrite take_app_le).
  assert (length order ≤ length (order ++ extra)) by (rewrite length_app; lia).
  destruct o; try (intros (n & Hn & ->); exists n; rewrite Ht by done; split; [lia|done]).
  intros [(n & Hn & ->)|(n & m & Hnm & Hn & Hm & ->)]; [left|right].
  - exists n. rewrite Ht by done. split; [lia|done].
  - exists n, m. rewrite !Ht by done. split_and!; [lia..|done].
Qed.

(** A thread that does not hold the mutex is not disturbed by the others. *)
Lemma thread_ok_other c c' order extra j o p :
  c_lock c ≠ Some j → c_lock c' ≠ Some j → j ∉ extra →
  thread_ok c order j o p → thread_ok c' (order ++ extra) j o p.
Proof.
  intros Hc Hc' Hj. unfold thread_ok. destruct (locks o).
  - intros [[Hno ->]|[[Hl _]|(_ & before & behind & -> & ->)]]; [left| |right; right].
    + split; [|done]. rewrite elem_of_app. tauto.
    + done.
    + split; [done|]. exists before, (behind ++ extra). by rewrite <-app_assoc.
  - intros [->|Hr]; [by left|right; by apply reading_grows].
Qed.

(** The invariant after thread [i] has moved to [k]. *)
Lemma inv_move c c' order extra i k :
  inv c order → c_threads c' = <[i := k]> (c_threads c) →
  NoDup (order ++ extra) → Forall (λ i, ∃ o, ops !! i = Some o ∧ locks o = true) (order ++ extra) →
  store_ok c' (order ++ extra) →
  (∀ j, j ≠ i → c_lock c ≠ Some j ∧ c_lock c' ≠ Some j ∧ j ∉ extra) →
  (∀ o, ops !! i = Some o → thread_ok c' (order ++ extra) i o k) →
  inv c' (order ++ extra).
Proof.
  intros Hi Ht Hnd Hl Hs Hother Hk. split; [done|done| |done|].
  - rewrite Ht, length_insert. apply Hi.
  - intros j o p Ho. rewrite Ht, list_lookup_insert_Some.
    intros [(-> & -> & _)|[Hne Hp]]; [by apply Hk|].
    destruct (Hother j) as (H1 & H2 & H3); [done|].
    apply (thread_ok_other c); [done..|]. by apply (inv_threads _ _ Hi).
Qed.

(** A reader has no business with the mutex or a store. *)
Lemma reader_next o order p :
  locks o = false → p = prog_of o ∨ reading o order p →
  match p with Ret _ | LoadData _ | LoadMeta _ => True | _ => False end.
Proof.
  intros Hl [->|Hr].
  - destruct (decide (o = OpGetAllWithMeta)) as [->|Hne]; [done|].
    destruct (reader_shape o Hl Hne) as [(k & -> & _)|[(k & -> & _)|Hx]]; [done..|].
    by rewrite (Hx r0).
  - destruct o; try (destruct Hr as (n & _ & ->); done).
    by destruct Hr as [(n & _ & ->)|(n & m & _ & _ & _ & ->)].
Qed.

(** Who can be about to take the mutex, and who about to use it. *)
Lemma at_lock c order i o k :
  thread_ok c order i o (Lock k) → locks o = true ∧ i ∉ order ∧ prog_of o = Lock k.
Proof.
  unfold thread_ok. destruct (locks o) eqn:Hl.
  - intros [[? ?]|[(_ & b & _ & [])|(_ & b & b' & _ & ?)]]; done.
  - intros Hr. by apply (reader_next o order (Lock k)) in Hr.
Qed.

Lemma at_mutex c order i o p :
  thread_ok c order i o p →
  match p with Unlock _ | StoreData _ _ | StoreMeta _ _ => True | _ => False end →
  locks o = true ∧ c_lock c = Some i ∧
    ∃ before, order = before ++ [i] ∧ ends p (c_store c) (spec o (after before)).
Proof.
  unfold thread_ok. destruct (locks o) eqn:Hl; intros Hp Hm.
  - destruct Hp as [[_ ->]|[[? ?]|(_ & b & b' & _ & ->)]]; [|done|done].
    by destruct (locks_ends o Hl) as (k & Hk & _); rewrite Hk in Hm.
  - apply (reader_next o order p Hl) in Hp. by destruct p.
Qed.

(** A load of a thread that holds the mutex. *)
Lemma load_holder c order i o p p' :
  inv c order → c_threads c !! i = Some p → ops !! i = Some o → locks o = true →
  (∀ out, ends p (c_store c) out → ends p' (c_store c) out) →
  (∀ x, p ≠ Ret x) → (∀ k, p ≠ Lock k) →
  inv (mkConfig (c_store c) (c_lock c) (<[i := p']> (c_threads c))) order.
Proof.
  intros Hi Hp Ho Hl He Hr Hk. rewrite <-(app_nil_r order). pose proof (inv_threads _ _ Hi i o p Ho Hp) as Ht.
  unfold thread_ok in Ht. rewrite Hl in Ht.
  destruct Ht as [[_ ->]|[(Hlk & before & -> & Hends)|(_ & b & b' & _ & ->)]].
  - destruct (locks_ends o Hl) as (k & Hpk & _). by destruct (Hk k).
  - apply (inv_move c _ _ [] i p'); rewrite ?app_nil_r; try apply Hi; try done.
    + intros j Hj. simpl. rewrite Hlk. split_and!; [congruence..|apply not_elem_of_nil].
    + intros o' Ho'. simplify_eq. unfold thread_ok. rewrite Hl. right. left. simpl. eauto.
  - naive_solver.
Qed.

(** A load of a reader. *)
Lemma load_reader c order i o p p' :
  inv c order → c_threads c !! i = Some p → ops !! i = Some o → locks o = false →
  (thread_ok c order i o p → reading o order p') →
  inv (mkConfig (c_store c) (c_lock c) (<[i := p']> (c_threads c))) order.
Proof.
  intros Hi Hp Ho Hl Hr. pose proof (inv_threads _ _ Hi i o p Ho Hp) as Ht.
  split; simpl; [apply Hi|apply Hi|rewrite length_insert; apply Hi|apply Hi|].
  intros j o' q Ho'. rewrite list_lookup_insert_Some. intros [(-> & -> & _)|[Hne Hq]].
  - simplify_eq. unfold thread_ok. rewrite Hl. auto.
  - exact (inv_threads _ _ Hi j o' q Ho' Hq).
Qed.

Lemma read_data c order i o k :
  inv c order → ops !! i = Some o → locks o = false →
  thread_ok c order i o (LoadData k) → reading o order (k (data (c_store c))).
Proof.
  intros Hi Ho Hl. unfold thread_ok. rewrite Hl. intros Hp.
  destruct (store_prefix c order (inv_store _ _ Hi)) as [(n & Hn & Hd) _].
  destruct (decide (o = OpGetAllWithMeta)) as [->|Hne].
  - destruct Hp as [[= ->]|[(? & _ & ?)|(? & ? & _ & _ & _ & ?)]]; [|done..].
    left. exists n. split; [lia|]. by rewrite Hd.
  - destruct Hp as [Hp|Hp].
    + destruct (reader_shape o Hl Hne) as [(k' & Hk & Hx)|[(k' & Hk & _)|Hx]]; [|congruence|].
      * rewrite Hk in Hp. simplify_eq. rewrite Hd, Hx.
        destruct o; try done; exists n; (split; [lia|done]).
      * by rewrite (Hx r0) in Hp.
    + destruct o; try done; by destruct Hp as (? & _ & ?).
Qed.

Lemma read_meta c order i o k :
  inv c order → ops !! i = Some o → locks o = false →
  thread_ok c order i o (LoadMeta k) → reading o order (k (meta (c_store c))).
Proof.
  intros Hi Ho Hl. unfold thread_ok. rewrite Hl. intros Hp.
  destruct (store_prefix c order (inv_store _ _ Hi)) as [_ (n & Hn & Hm)].
  destruct (decide (o = OpGetAllWithMeta)) as [->|Hne].
  - destruct Hp as [?|[(n' & Hn' & [= ->])|(? & ? & _ & _ & _ & ?)]]; [done| |done].
    right. exists n', n. rewrite Hm. split_and!; [lia..|done].
  - destruct Hp as [Hp|Hp].
    + destruct (reader_shape o Hl Hne) as [(k' & Hk & _)|[(k' & Hk & Hx)|Hx]]; [congruence| |].
      * rewrite Hk in Hp. simplify_eq. rewrite Hm, Hx.
        destruct o; try done; exists n; (split; [lia|done]).
      * by rewrite (Hx r0) in Hp.
    + destruct o; try done; by destruct Hp as (? & _ & ?).
Qed.

(** A store by the thread that holds the mutex. *)
Lemma store_holder c order i o p k r' :
  inv c order → c_threads c !! i = Some p → ops !! i = Some o →
  match p with StoreData _ _ | StoreMeta _ _ => True | _ => False end →
  (∀ out, ends p (c_store c) out → ends k r' out ∧
    (data r' = data (c_store c) ∨ data r' = data out.2) ∧
    (meta r' = meta (c_store c) ∨ meta r' = meta out.2)) →
  inv (mkConfig r' (c_lock c) (<[i := k]> (c_threads c))) order.
Proof.
  intros Hi Hp Ho Hst He.
  destruct (at_mutex c order i o p) as (Hl & Hlk & before & -> & Hends);
    [by apply (inv_threads _ _ Hi)|by destruct p|].
  destruct (He _ Hends) as (Hends' & Hd & Hm).
  pose proof (inv_store _ _ Hi) as Hs. unfold store_ok in Hs. rewrite Hlk in Hs.
  destruct Hs as (before' & Heq & Hd0 & Hm0). apply app_inj_tail in Heq as [<- _].
  rewrite <-(app_nil_r (before ++ [i])).
  apply (inv_move c _ _ [] i k); rewrite ?app_nil_r; [done|done|apply Hi|apply Hi| | |].
  - unfold store_ok. simpl. rewrite Hlk. exists before. rewrite (after_snoc _ _ o) in * by done.
    split_and!; [done|destruct Hd as [->| ->]; tauto|destruct Hm as [->| ->]; tauto].
  - intros j Hj. simpl. rewrite Hlk. split_and!; [congruence..|apply not_elem_of_nil].
  - intros o' Ho'. simplify_eq. unfold thread_ok. rewrite Hl. right. left. simpl. eauto.
Qed.

Lemma step_inv c c' order : inv c order → step c c' → ∃ extra, inv c' (order ++ extra).
Proof.
  intros Hi Hs.
  assert (∀ i p, c_threads c !! i = Some p → ∃ o, ops !! i = Some o ∧ thread_ok c order i o p) as Hown.
  { intros i p Hp. destruct (lookup_lt_is_Some_2 ops i) as [o Ho].
    { rewrite <-(inv_length _ _ Hi). by eapply lookup_lt_Some. }
    exists o. split; [done|]. by apply (inv_threads _ _ Hi). }
  destruct Hs as [r ts i k Hp|r l ts i k Hp|r l ts i k Hp|r l ts i k Hp|r l ts i d k Hp|r l ts i m k Hp];
    destruct (Hown i _ Hp) as (o & Ho & Ht).
  - (* Lock *)
    destruct (at_lock _ _ _ _ _ Ht) as (Hl & Hno & Hk).
    destruct (locks_ends o Hl) as (k' & Hk' & Hends). rewrite Hk in Hk'. simplify_eq.
    pose proof (inv_store _ _ Hi) as Hst. unfold store_ok in Hst. simpl in Hst. subst r.
    exists [i]. eapply (inv_move _ _ order [i] i k'); [done|done| | | | |].
    + apply NoDup_app. split_and!; [apply Hi|set_solver|apply NoDup_singleton].
    + apply Forall_app. split; [apply Hi|]. apply Forall_singleton. eauto.
    + unfold store_ok. simpl. exists order. auto.
    + intros j Hj. simpl. split_and!; [done|congruence|set_solver].
    + intros o' Ho'. simplify_eq. unfold thread_ok. rewrite Hl. right. left. simpl. eauto.
  - (* Unlock *)
    destruct (at_mutex _ _ _ _ _ Ht I) as (Hl & Hlk & before & -> & -> & Hr). simpl in Hlk, Hr. subst l r.
    exists []. eapply (inv_move _ _ (before ++ [i]) [] i); [done|done|..]; rewrite ?app_nil_r;
      [apply Hi|apply Hi| | |].
    + unfold store_ok. simpl. by rewrite (after_snoc _ _ o).
    + intros j Hj. simpl. split_and!; [congruence|done|apply not_elem_of_nil].
    + intros o' Ho'. simplify_eq. unfold thread_ok. rewrite Hl. right. right. split; [done|].
      by exists before, [].
  - (* loads *)
    exists []. rewrite app_nil_r. destruct (locks o) eqn:Hl.
    + by eapply (load_holder (mkConfig r l ts)).
    + eapply (load_reader (mkConfig r l ts)); [done..|]. by apply (read_data (mkConfig r l ts)).
  - exists []. rewrite app_nil_r. destruct (locks o) eqn:Hl.
    + by eapply (load_holder (mkConfig r l ts)).
    + eapply (load_reader (mkConfig r l ts)); [done..|]. by apply (read_meta (mkConfig r l ts)).
  - (* stores *)
    exists []. rewrite app_nil_r. eapply (store_holder (mkConfig r l ts)); [done..|].
    intros out [-> He]. simpl. auto.
  - exists []. rewrite app_nil_r. eapply (store_holder (mkConfig r l ts)); [done..|].
    intros out [-> He]. simpl. auto.
Qed.

Lemma reachable_inv c : rtc step (init r0 ops) c → ∃ order, inv c order.
Proof.
  intros Hrun. assert (∃ order, inv (init r0 ops) order) as H0 by (exists []; apply init_inv).
  induction Hrun as [c|c1 c2 c3 Hs _ IH]; [done|]. apply IH.
  destruct H0 as [order Hi]. destruct (step_inv _ _ _ Hi Hs) as [extra ?]. eauto.
Qed.

(** C2: The store is linearizable.  However goroutines interleave their calls,
    there is one order of the mutations such that the store, whenever the mutex
    is free, is the result of making them one after the other, and every
    mutation returned what it returns in that order.  A call that reads one map
    (Lookup, GetAll, Count, GetMeta) returned what it returns between two of
    them; GetAllWithMeta paired the addresses after [n] mutations with the
    metadata after [m], where the metadata is at most one mutation behind. *)
Theorem concurrent_calls_linearize c :
  rtc step (init r0 ops) c →
  ∃ order, NoDup order ∧
    (c_lock c = None → c_store c = after order) ∧
    ∀ i o x, ops !! i = Some o → c_threads c !! i = Some (Ret x) →
      if locks o then ∃ before behind, order = before ++ i :: behind ∧ x = (spec o (after before)).1
      else if bool_decide (o = OpGetAllWithMeta) then
        ∃ n m, n ≤ S m ∧ n ≤ length order ∧ m ≤ length order ∧
          x = REntries (entries (data (after (take n order))) (meta (after (take m order))))
      else ∃ n, n ≤ length order ∧ x = (spec o (after (take n order))).1.
Proof.
  intros [order Hi]%reachable_inv. exists order. split_and!; [apply Hi| |].
  - intros Hl. pose proof (inv_store _ _ Hi) as Hs. unfold store_ok in Hs. by rewrite Hl in Hs.
  - intros i o x Ho Hx. pose proof (inv_threads _ _ Hi i o _ Ho Hx) as Ht. unfold thread_ok in Ht.
    destruct (locks o) eqn:Hl.
    + destruct Ht as [[_ Hp]|[(_ & b & _ & [])|(_ & b & b' & ? & [= ->])]]; [|by eauto].
      destruct (locks_ends o Hl) as (k & Hk & _). congruence.
    + case_bool_decide as Hg; [subst o|].
      * destruct Ht as [?|[(? & _ & ?)|(n & m & ? & ? & ? & [= ->])]]; [done..|]. eauto 10.
      * destruct Ht as [Hp|Hp].
        -- exists 0. split; [lia|]. destruct (reader_shape o Hl Hg) as [(k & Hk & _)|[(k & Hk & _)|Hr]];
             [congruence..|]. specialize (Hr (after (take 0 order))). congruence.
        -- destruct o; try done; destruct Hp as (n & ? & [= ->]); eauto.
Qed.

(** *** Termination *)

(** Whether a call has returned, and whether it will after at most [n] operations
    of its thread. *)
Definition returned (p : prog) : bool := match p with Ret _ => true | _ => false end.
Fixpoint within (n : nat) (p : prog) : Prop :=
  match p, n with
  | Ret _, _ => True
  | Lock k, S n | Unlock k, S n | StoreData _ k, S n | StoreMeta _ k, S n => within n k
  | LoadData k, S n => ∀ d, within n (k d)
  | LoadMeta k, S n => ∀ m, within n (k m)
  | _, O => False
  end.

(** The longest method, AddWithMeta, has two loads and two stores between taking
    and releasing the mutex. *)
Lemma prog_of_within o : within 6 (prog_of o).
Proof.
  destruct o as [h ip|h| | | | |m|]; try done; unfold prog_of.
  - unfold Remove_prog. intros d. by destruct (d !! _).
  - unfold ApplyMessage_prog. destruct (bool_decide _); [|destruct (bool_decide _); [|done]].
    + unfold AddWithMeta_prog. intros m'. destruct (m' !! _); [by destruct (existing_wins _ _ _)|done].
    + unfold RemoveWithMeta_prog. intros d. destruct (d !! _); [|done].
      intros m'. destruct (m' !! _); [by destruct (existing_wins _ _ _)|done].
Qed.

Lemma sum_list_step (ns : list nat) i n :
  ns !! i = Some (S n) → S (sum_list (<[i := n]> ns)) = sum_list ns.
Proof.
  revert i. induction ns as [|x ns IH]; intros [|i]; simpl; [done..| |].
  - intros [= ->]. done.
  - intros Hi. rewrite <-(IH i Hi). lia.
Qed.

Lemma step_within c c' ns :
  Forall2 within ns (c_threads c) → step c c' →
  ∃ ns', Forall2 within ns' (c_threads c') ∧ S (sum_list ns') = sum_list ns.
Proof.
  intros Hw Hs.
  assert (∀ i p p', c_threads c !! i = Some p → returned p = false →
    c_threads c' = <[i := p']> (c_threads c) → (∀ n, within (S n) p → within n p') →
    ∃ ns', Forall2 within ns' (c_threads c') ∧ S (sum_list ns') = sum_list ns) as Hmove.
  { intros i p p' Hp Hr -> Hn. destruct (Forall2_lookup_r _ _ _ _ _ Hw Hp) as (x & Hx & Hwx).
    destruct x as [|n]; [by destruct p|]. exists (<[i := n]> ns).
    split; [|by apply sum_list_step]. apply Forall2_insert; auto. }
  destruct Hs; eapply Hmove; try done; intros n Hn; simpl in Hn; try done; apply Hn.
Qed.

Lemma nsteps_within n c c' ns :
  Forall2 within ns (c_threads c) → nsteps step n c c' → n ≤ sum_list ns.
Proof.
  intros Hw Hn. revert ns Hw. induction Hn as [|n c1 c2 c3 Hs _ IH]; intros ns Hw; [lia|].
  destruct (step_within _ _ _ Hw Hs) as (ns' & Hw' & Hsum). specialize (IH _ Hw'). lia.
Qed.

(** A thread that is inside a call and does not wait for the mutex can go on. *)
Lemma can_step r l ts i p :
  ts !! i = Some p → returned p = false → (∀ k, p = Lock k → l = None) →
  ∃ c', step (mkConfig r l ts) c'.
Proof.
  intros Hp Hr Hk. destruct p as [|k| | | | |]; [done|rewrite (Hk k eq_refl); eexists; by eapply step_lock|..];
    eexists; first [by eapply step_unlock|by eapply step_load_data|by eapply step_load_meta
                   |by eapply step_store_data|by eapply step_store_meta].
Qed.

(** C18: Every call returns.  A run of any number of concurrent calls takes at
    most six steps per call, and while some call has not returned some thread can
    take a step: the mutex is never left locked and never waited for in a circle. *)
Theorem calls_return n c :
  nsteps step n (init r0 ops) c →
  n ≤ 6 * length ops ∧
  (Forall (λ p, returned p = true) (c_threads c) ∨ ∃ c', step c c').
Proof.
  intros Hn. split.
  { transitivity (sum_list (replicate (length ops) 6)).
    - apply (nsteps_within n (init r0 ops) c); [|done]. simpl. clear. induction ops as [|o l IH]; simpl; constructor;
        [apply prog_of_within|apply IH].
    - clear. induction (length ops); simpl; lia. }
  destruct (reachable_inv c) as [order Hi]; [apply rtc_nsteps; eauto|]. destruct c as [r l ts]. simpl.
  destruct (decide (Forall (λ p, returned p = true) ts)) as [|Hall]; [by left|right].
  destruct l as [i|].
  - pose proof (inv_store _ _ Hi) as (before & Heq & _).
    pose proof (inv_locks _ _ Hi) as Hl. rewrite Heq, Forall_app, Forall_singleton in Hl.
    destruct Hl as [_ (o & Ho & Hl)].
    destruct (lookup_lt_is_Some_2 ts i) as [p Hp].
    { pose proof (inv_length _ _ Hi) as Hlen. simpl in Hlen. rewrite Hlen. by eapply lookup_lt_Some. }
    pose proof (inv_threads _ _ Hi i o p Ho Hp) as Ht. unfold thread_ok in Ht. rewrite Hl in Ht.
    destruct Ht as [[Hno _]|[(_ & b & _ & He)|[? _]]]; [set_solver| |done].
    apply (can_step r (Some i) ts i p Hp); [by destruct p|by intros k ->].
  - apply not_Forall_Exists, Exists_exists in Hall as (p & [i Hp]%list_elem_of_lookup & Hr);
      [|intros ?; apply _].
    apply (can_step r None ts i p Hp); [by apply not_true_is_false|done].
Qed.
End proofs.

(** ** The theorems at concrete inputs *)

Module ConcExamples.
#[local] Existing Instance latin1_case.

Definition calls : list op := [OpAdd "App" "10.0.0.1"; OpLookup "APP"; OpGetAllWithMeta].

(** The reader of both maps starts before the addition and Lookup runs inside it. *)
Definition ended : config :=
  mkConfig (Add NewRecords "App" "10.0.0.1") None
    [Ret RUnit; Ret (RLookup (Some "10.0.0.1")); Ret (REntries ∅)].

Lemma ended_reached : nsteps step 7 (init NewRecords calls) ended.
Proof.
  eapply nsteps_l; [by eapply (step_load_data _ _ _ 2)|].
  eapply nsteps_l; [by eapply (step_lock _ _ 0)|].
  eapply nsteps_l; [by eapply (step_load_data _ _ _ 0)|].
  eapply nsteps_l; [by eapply (step_store_data _ _ _ 0)|].
  eapply nsteps_l; [by eapply (step_load_data _ _ _ 1)|].
  eapply nsteps_l; [by eapply (step_unlock _ _ _ 0)|].
  eapply nsteps_l; [by eapply (step_load_meta _ _ _ 2)|].
  apply nsteps_O.
Qed.

Lemma concurrent_calls_linearize_witness :
  ∃ order, NoDup order ∧ Add NewRecords "App" "10.0.0.1" = after NewRecords calls order ∧
    ∃ n, n ≤ length order ∧
      RLookup (Some "10.0.0.1") = (spec (OpLookup "APP") (after NewRecords calls (take n order))).1.
Proof.
  destruct (concurrent_calls_linearize NewRecords calls ended) as (order & Hnd & Hs & Hr).
  - apply rtc_nsteps. exists 7. exact ended_reached.
  - exists order. split_and!; [exact Hnd|exact (Hs eq_refl)|].
    exact (Hr 1 (OpLookup "APP") (RLookup (Some "10.0.0.1")) eq_refl eq_refl).
Defined.

Lemma calls_return_witness :
  7 ≤ 6 * length calls ∧
  (Forall (λ p, returned p = true) (c_threads ended) ∨ ∃ c', step ended c').
Proof. exact (calls_return NewRecords calls 7 ended ended_reached). Defined.
End ConcExamples.
