(* ===== verification/Delegate.v ===== *)
(** * Delegate: gossip callbacks of a cluster node (docker-cluster/delegate.go)

    The delegate owns a bounded channel of decoded messages and a broadcast
    queue, and shares the record store with the watcher and the DNS handler.
    memberlist calls NotifyMsg, LocalState and MergeRemoteState; a goroutine
    per Start (processMessages) drains the channel into the store. *)

From stdpp Require Import gmap strings list fin_maps relations.
From Stdlib Require Import ZArith Lia.
From S2P Require Import Prelude GoStrings Json Message Records Lww.

(** [type broadcast struct], the delegate's implementation of memberlist's
    Broadcast interface. *)
Record broadcast := mkBroadcast { b_data : string }.
Definition Invalidates (b other : broadcast) : bool := false.
Definition Message (b : broadcast) : string := b_data b.

(** memberlist's TransmitLimitedQueue, of which the delegate uses two
    operations. *)
Class TransmitLimitedQueue := {
  queue : Type;
  NewQueue : nat → queue;                          (* RetransmitMult *)
  QueueBroadcast : queue → broadcast → queue;
  Queue_GetBroadcasts : queue → Z → Z → list string * queue;
}.

Section delegate.
Context `{UnicodeCase} `{TransmitLimitedQueue}.
Context `{!JsonCodec RecordMessage} `{!JsonCodec FullState}.

(** Where a goroutine of processMessages is: at the head of its loop, about to
    read [d.ctx], or blocked in the [select] on the Done channel of the context it
    read and on the message channel. *)
Inductive goroutine := Looping | Waiting (ctx : nat).

(** [d_contexts]: the contexts that Start has made, in order, and whether each is
    done; [d.ctx] and [d.cancel] are those of the last, nil if there is none.
    [d_goroutines]: the running goroutines, which the wait group counts. *)
Record ClusterDelegate := mkClusterDelegate {
  d_nodeID : string;
  d_broadcasts : queue;
  d_msgChan : list RecordMessage;
  d_contexts : list bool;
  d_goroutines : list goroutine;
}.
Definition d_ctx (d : ClusterDelegate) : option nat :=
  match length (d_contexts d) with 0 => None | S c => Some c end.
Definition d_wg (d : ClusterDelegate) : nat := length (d_goroutines d).

Definition msgChanBufferSize : nat := 256.

Definition NewClusterDelegate (nodeID : string) : ClusterDelegate := {|
  d_nodeID := nodeID;
  d_broadcasts := NewQueue 3;
  d_msgChan := [];
  d_contexts := [];
  d_goroutines := [];
|}.

Definition set_chan (d : ClusterDelegate) (c : list RecordMessage) : ClusterDelegate :=
  mkClusterDelegate (d_nodeID d) (d_broadcasts d) c (d_contexts d) (d_goroutines d).
Definition set_broadcasts (d : ClusterDelegate) (q : queue) : ClusterDelegate :=
  mkClusterDelegate (d_nodeID d) q (d_msgChan d) (d_contexts d) (d_goroutines d).
Definition set_contexts (d : ClusterDelegate) (cs : list bool) : ClusterDelegate :=
  mkClusterDelegate (d_nodeID d) (d_broadcasts d) (d_msgChan d) cs (d_goroutines d).
Definition set_goroutines (d : ClusterDelegate) (gs : list goroutine) : ClusterDelegate :=
  mkClusterDelegate (d_nodeID d) (d_broadcasts d) (d_msgChan d) (d_contexts d) gs.

(** [func (d *ClusterDelegate) NodeMeta(limit int) []byte]: nil. *)
Definition NodeMeta (d : ClusterDelegate) (limit : Z) : string := EmptyString.

(** [func (d *ClusterDelegate) NotifyMsg(data []byte)]: the send is
    non-blocking, and drops the message when the channel is full. *)
Definition NotifyMsg (d : ClusterDelegate) (data : string) : ClusterDelegate :=
  if bool_decide (String.length data = 0) then d
  else match DecodeRecordMessage data with
       | Err _ => d
       | Ok msg =>
           if bool_decide (length (d_msgChan d) < msgChanBufferSize)
           then set_chan d (d_msgChan d ++ [msg]) else d
       end.

(** [func (d *ClusterDelegate) GetBroadcasts(overhead, limit int) [][]byte]. *)
Definition GetBroadcasts (d : ClusterDelegate) (overhead limit : Z)
    : list string * ClusterDelegate :=
  let (out, q) := Queue_GetBroadcasts (d_broadcasts d) overhead limit in
  (out, set_broadcasts d q).

(** [func (d *ClusterDelegate) LocalState(join bool) []byte]; nil is empty. *)
Definition LocalState (d : ClusterDelegate) (r : Records) (join : bool) : string :=
  let allRecords := GetAllWithMeta r in
  let state := {| state_NodeID := d_nodeID d; state_Records := allRecords |} in
  match FullState_Encode state with
  | Err _ => EmptyString
  | Ok data => data
  end.

(** The message MergeRemoteState builds from one entry. *)
Definition entry_message (hostname : string) (e : RecordEntry) : RecordMessage := {|
  msg_Hostname := hostname;
  msg_IP := entry_IP e;
  msg_Action := RecordActionAdd;
  msg_Timestamp := entry_Timestamp e;
  msg_NodeID := entry_NodeID e;
|}.

(** [func (d *ClusterDelegate) MergeRemoteState(buf []byte, join bool)]: its
    effect on the shared store, [rng] being the order of the [range]. *)
Definition MergeRemoteState (rng : gmap string RecordEntry → list (string * RecordEntry))
    (d : ClusterDelegate) (r : Records) (buf : string) (join : bool) : Records :=
  if bool_decide (String.length buf = 0) then r
  else match DecodeFullState buf with
       | Err _ => r
       | Ok state =>
           foldl (λ r he, (ApplyMessage r (entry_message he.1 he.2)).2) r
             (rng (state_Records state))
       end.

(** [func (d *ClusterDelegate) BroadcastRecord(msg *RecordMessage)]. *)
Definition BroadcastRecord (d : ClusterDelegate) (msg : RecordMessage) : ClusterDelegate :=
  match RecordMessage_Encode msg with
  | Err _ => d
  | Ok data => set_broadcasts d (QueueBroadcast (d_broadcasts d) (mkBroadcast data))
  end.

(** [func (d *ClusterDelegate) Start(ctx context.Context)]: a context of its own,
    under a parent that is not done, and a goroutine. *)
Definition Start (d : ClusterDelegate) : ClusterDelegate :=
  set_goroutines (set_contexts d (d_contexts d ++ [false])) (d_goroutines d ++ [Looping]).

(** The part of [Stop] before it waits: cancel, if there is a cancel function,
    which ends the last context.  [wg.Wait] returns when [d_wg] is zero. *)
Definition Stop_cancel (d : ClusterDelegate) : ClusterDelegate :=
  match d_ctx d with
  | None => d
  | Some c => set_contexts d (<[c := true]> (d_contexts d))
  end.

(** The turns of the loop of processMessages, for the [i]-th goroutine: it enters
    the [select] with the context it reads there; the context is done and it
    returns; or it takes the head of the channel and applies it.  When both are
    ready the [select] takes either. *)
Inductive process_step : ClusterDelegate * Records → ClusterDelegate * Records → Prop :=
| process_select d r i c :
    d_goroutines d !! i = Some Looping → d_ctx d = Some c →
    process_step (d, r) (set_goroutines d (<[i := Waiting c]> (d_goroutines d)), r)
| process_done d r i c :
    d_goroutines d !! i = Some (Waiting c) → d_contexts d !! c = Some true →
    process_step (d, r) (set_goroutines d (delete i (d_goroutines d)), r)
| process_msg d r i c msg rest :
    d_goroutines d !! i = Some (Waiting c) → d_msgChan d = msg :: rest →
    process_step (d, r)
      (set_goroutines (set_chan d rest) (<[i := Looping]> (d_goroutines d)), (ApplyMessage r msg).2).

(** The calls memberlist and the manager make while the goroutines run. *)
Inductive call_step : ClusterDelegate * Records → ClusterDelegate * Records → Prop :=
| cs_merge rng d r b j :
    range_order rng → call_step (d, r) (d, MergeRemoteState rng d r b j)
| cs_broadcast d r m : call_step (d, r) (BroadcastRecord d m, r)
| cs_get d r o l : call_step (d, r) ((GetBroadcasts d o l).2, r)
| cs_written d r r' : call_step (d, r) (d, r').

(** A run of a delegate, with the number of steps its goroutines take and of
    messages that reach NotifyMsg in between.  [cs_written] stands for everybody
    else who writes the store. *)
Inductive delegate_run : ClusterDelegate * Records → nat → nat → ClusterDelegate * Records → Prop :=
| run_nil s : delegate_run s 0 0 s
| run_process s p k s1 s2 :
    delegate_run s p k s1 → process_step s1 s2 → delegate_run s (S p) k s2
| run_notify s p k d r b :
    delegate_run s p k (d, r) → delegate_run s p (S k) (NotifyMsg d b, r)
| run_call s p k s1 s2 :
    delegate_run s p k s1 → call_step s1 s2 → delegate_run s p k s2.

(** ** Starting and stopping *)

Lemma NotifyMsg_spec d b :
  ∃ l, NotifyMsg d b = set_chan d (d_msgChan d ++ l) ∧ length l ≤ 1.
Proof.
  assert (d = set_chan d (d_msgChan d ++ [])) as Hd by (rewrite app_nil_r; by destruct d).
  unfold NotifyMsg. case_bool_decide; [exists []; split; [done|simpl; lia]|].
  destruct (DecodeRecordMessage b) as [m|]; [|exists []; split; [done|simpl; lia]].
  case_bool_decide; [by exists [m]|exists []; split; [done|simpl; lia]].
Qed.

(** The calls leave the channel, the contexts and the goroutines alone. *)
Lemma call_step_keeps s s' :
  call_step s s' →
  d_msgChan s'.1 = d_msgChan s.1 ∧ d_contexts s'.1 = d_contexts s.1 ∧
  d_goroutines s'.1 = d_goroutines s.1.
Proof.
  intros [rng d r b j|d r m|d r o l|d r r']; simpl; [done| | |done].
  - unfold BroadcastRecord. by destruct (RecordMessage_Encode m).
  - unfold GetBroadcasts. by destruct (Queue_GetBroadcasts _ o l).
Qed.

(** The goroutines can only be at the head of the loop or wait on the last
    context: what a single Start leads to. *)
Definition one_context d : Prop :=
  length (d_contexts d) = 1 ∧ Forall (λ g, g = Looping ∨ g = Waiting 0) (d_goroutines d).

Lemma Start_one_context nodeID : one_context (Start (NewClusterDelegate nodeID)).
Proof. split; [done|]. repeat constructor. Qed.

Lemma Stop_one_context d :
  one_context d → one_context (Stop_cancel d) ∧ d_contexts (Stop_cancel d) = [true] ∧
  d_msgChan (Stop_cancel d) = d_msgChan d ∧ d_goroutines (Stop_cancel d) = d_goroutines d.
Proof.
  intros [Hc Hg]. unfold Stop_cancel, d_ctx. rewrite Hc. simpl.
  destruct (d_contexts d) as [|b [|]] eqn:Hcs; simplify_eq/=. by split_and!.
Qed.

Lemma process_step_one_context s s' :
  process_step s s' → one_context s.1 → one_context s'.1 ∧ d_contexts s'.1 = d_contexts s.1.
Proof.
  intros [d r i c Hi Hctx|d r i c Hi Hdone|d r i c msg rest Hi Hch] [Hc Hg]; simpl in *; (split; [|done]);
    (split; [done|]); simpl.
  - apply Forall_insert; [done|]. unfold d_ctx in Hctx. rewrite Hc in Hctx. simplify_eq. by right.
  - by apply Forall_delete.
  - apply Forall_insert; [done|by left].
Qed.

(** What the goroutines have left to do: two steps for a message, two for a
    goroutine at the head of its loop and one for a waiting one. *)
Definition goroutine_steps (g : goroutine) : nat := match g with Looping => 2 | Waiting _ => 1 end.
Definition process_measure d : nat :=
  2 * length (d_msgChan d) + sum_list (goroutine_steps <$> d_goroutines d).

Lemma sum_steps_insert gs i g g' :
  gs !! i = Some g →
  sum_list (goroutine_steps <$> <[i := g']> gs) + goroutine_steps g =
  sum_list (goroutine_steps <$> gs) + goroutine_steps g'.
Proof.
  revert i. induction gs as [|g1 gs IH]; intros [|i] Hi; simplify_eq/=; [lia|].
  specialize (IH i Hi). lia.
Qed.
Lemma sum_steps_delete gs i g :
  gs !! i = Some g →
  sum_list (goroutine_steps <$> delete i gs) + goroutine_steps g = sum_list (goroutine_steps <$> gs).
Proof.
  revert i. induction gs as [|g1 gs IH]; intros [|i] Hi; simplify_eq/=; [lia|].
  specialize (IH i Hi). lia.
Qed.

Lemma sum_steps_bound gs : sum_list (goroutine_steps <$> gs) ≤ 2 * length gs.
Proof. induction gs as [|[] gs IH]; csimpl; lia. Qed.

(** Every step of a goroutine uses one up. *)
Lemma process_step_measure s s' :
  process_step s s' → S (process_measure s'.1) = process_measure s.1.
Proof.
  unfold process_measure. intros [d r i c Hi|d r i c Hi|d r i c msg rest Hi Hch]; simpl.
  - pose proof (sum_steps_insert _ i _ (Waiting c) Hi) as Hs. simpl in Hs. lia.
  - pose proof (sum_steps_delete _ i _ Hi) as Hs. simpl in Hs. lia.
  - pose proof (sum_steps_insert _ i _ Looping Hi) as Hs. simpl in Hs. rewrite Hch. simpl. lia.
Qed.

Lemma delegate_run_inv s p k s' :
  delegate_run s p k s' → one_context s.1 →
  one_context s'.1 ∧ d_contexts s'.1 = d_contexts s.1 ∧
  p + process_measure s'.1 ≤ process_measure s.1 + 2 * k.
Proof.
  induction 1 as [s|s p k s1 s2 _ IH Hs|s p k d r b _ IH|s p k s1 s2 _ IH Hs]; intros H1;
    [split_and!; [done|done|lia]|..]; destruct (IH H1) as (Hone & Hc & Hm); clear IH.
  - destruct (process_step_one_context s1 s2 Hs Hone) as [Hone2 Hc2].
    apply process_step_measure in Hs. split_and!; [done|congruence|lia].
  - destruct (NotifyMsg_spec d b) as (l & Hn & Hlen). simpl in *. rewrite Hn.
    split_and!; [done|done|]. unfold process_measure in *. simpl in *. rewrite length_app. lia.
  - destruct (call_step_keeps s1 s2 Hs) as (E1 & E2 & E3). unfold one_context, process_measure in *.
    rewrite E1, E2, E3. split; [exact Hone|by split].
Qed.

(** A goroutine whose context is done can leave without taking a message. *)
Lemma can_leave gs d r :
  d_contexts d = [true] → d_goroutines d = gs → Forall (λ g, g = Looping ∨ g = Waiting 0) gs →
  rtc process_step (d, r) (set_goroutines d [], r).
Proof.
  revert d. induction gs as [|g gs IH]; intros d Hc Hg Hall.
  { destruct d; simpl in *; subst. apply rtc_refl. }
  apply Forall_cons in Hall as [Hg1 Hall].
  assert (∀ d', d_contexts d' = [true] → d_goroutines d' = Waiting 0 :: gs →
    set_goroutines d' [] = set_goroutines d [] → rtc process_step (d', r) (set_goroutines d [], r)) as Hw.
  { intros d' Hc' Hg' Heq. eapply rtc_l.
    - apply (process_done d' r 0 0); [by rewrite Hg'|by rewrite Hc'].
    - rewrite Hg'. simpl. rewrite <-Heq. by apply (IH (set_goroutines d' gs)). }
  destruct Hg1 as [->| ->]; [|by apply Hw].
  eapply rtc_l.
  - apply (process_select d r 0 0); [by rewrite Hg|]. unfold d_ctx. by rewrite Hc.
  - rewrite Hg. by apply Hw.
Qed.

(** C35: Stop returns.  A delegate that was started once and has run for however
    long is stopped, while memberlist still delivers messages and everybody else
    still writes the store.  From then on its goroutine takes at most two steps of
    its own, two for each message that was queued and two for each that still
    arrives; as long as it runs it can take a step, and it can always leave
    without applying another message, which brings the wait group Stop waits for
    to zero. *)
Theorem Stop_returns nodeID r0 p0 k0 d r p k s :
  delegate_run (Start (NewClusterDelegate nodeID), r0) p0 k0 (d, r) →
  delegate_run (Stop_cancel d, r) p k s →
  p ≤ 2 * length (d_msgChan d) + 2 * d_wg d + 2 * k ∧
  (d_wg s.1 ≠ 0 → ∃ s', process_step s s') ∧
  ∃ s', rtc process_step s s' ∧ d_wg s'.1 = 0 ∧ s'.2 = s.2 ∧ (∀ s'', ¬ process_step s' s'').
Proof.
  intros Hrun Hstop.
  destruct (delegate_run_inv _ _ _ _ Hrun (Start_one_context nodeID)) as (Hone & _ & _).
  destruct (Stop_one_context d Hone) as (Hone1 & Hc & Hch & Hgs).
  destruct (delegate_run_inv _ _ _ _ Hstop Hone1) as ([_ Hg] & Hc' & Hm). simpl in Hc', Hm.
  rewrite Hc in Hc'. destruct s as [ds rs]. simpl in *.
  pose proof (can_leave _ ds rs Hc' eq_refl Hg) as Hleave. split_and!.
  - unfold process_measure in Hm. rewrite Hch, Hgs in Hm. unfold d_wg.
    pose proof (sum_steps_bound (d_goroutines d)). lia.
  - intros Hne. apply rtc_inv in Hleave as [Heq|(s1 & Hs & _)]; [|by exists s1].
    destruct Hne. injection Heq as Heq. by rewrite Heq.
  - exists (set_goroutines ds [], rs). split_and!; [done..|].
    intros s'' Hs. inversion Hs; simplify_eq/=.
Qed.

(** A second Start leaves the first goroutine waiting on a context that nothing
    cancels any more: when no message arrives, only the second one returns and
    Stop waits for good. *)
Lemma second_start_waits nodeID r :
  ∃ d1 d2, rtc process_step (Start (NewClusterDelegate nodeID), r) (d1, r) ∧
    rtc process_step (Stop_cancel (Start d1), r) (d2, r) ∧
    d_wg d2 = 1 ∧ ∀ s', ¬ process_step (d2, r) s'.
Proof.
  eexists _, _. split_and!.
  - eapply rtc_once. by apply (process_select _ r 0 0).
  - eapply rtc_l; [by apply (process_select _ r 1 1)|]. simpl.
    eapply rtc_once. by apply (process_done _ r 1 1).
  - done.
  - intros s' Hs. inversion Hs as [? ? [|i] ? Hi|? ? [|i] ? Hi Hd|]; by simplify_eq/=.
Qed.

(** ** Over the wire *)

Section wire.
Context `{!JsonRoundTrip RecordMessage} `{!JsonRoundTrip FullState}.

(** A message queued for broadcast on one node is what NotifyMsg queues for
    processing on another: the bytes handed to memberlist decode to the message
    itself. *)
Theorem broadcast_received d d' msg :
  representable msg → length (d_msgChan d') < msgChanBufferSize →
  ∃ bytes,
    BroadcastRecord d msg =
      set_broadcasts d (QueueBroadcast (d_broadcasts d) (mkBroadcast bytes)) ∧
    NotifyMsg d' bytes = set_chan d' (d_msgChan d' ++ [msg]).
Proof.
  intros Hrep Hlen. destruct (Unmarshal_Marshal msg Hrep) as (b & Hm & Hne & Hu).
  exists b. unfold BroadcastRecord, RecordMessage_Encode, NotifyMsg, DecodeRecordMessage.
  rewrite Hm, Hu. split; [done|].
  rewrite bool_decide_eq_false_2 by (by destruct b). by rewrite bool_decide_eq_true_2.
Qed.

Definition snapshot (d : ClusterDelegate) (r : Records) : FullState :=
  {| state_NodeID := d_nodeID d; state_Records := GetAllWithMeta r |}.

Lemma entry_message_keyed k r ip :
  paired r → data r !! k = Some ip → ToLower k = k →
  ∃ e, view r !! k = Some e ∧ keyed (entry_message k (with_meta (meta r) k ip)) = (k, e).
Proof.
  intros Hp Hk Hl. rewrite view_lookup, Hk by done. eexists. split; [done|].
  unfold keyed, stamp, with_meta. simpl. rewrite Hl. by destruct (default _ _).
Qed.

Lemma snapshot_keyed rng r :
  range_order rng → paired r → records_wf r →
  (λ he, keyed (entry_message he.1 he.2)) <$> rng (GetAllWithMeta r) ≡ₚ map_to_list (view r).
Proof.
  intros Hr Hp [Hwf _]. rewrite (Hr _).
  assert (∀ k e, GetAllWithMeta r !! k = Some e →
            ∃ e', view r !! k = Some e' ∧ keyed (entry_message k e) = (k, e')) as Hkey.
  { intros k e. rewrite GetAllWithMeta_lookup. destruct (data r !! k) as [ip|] eqn:Hk; [|done].
    intros [= <-]. apply entry_message_keyed; [done..|]. by apply (Hwf k ip). }
  apply NoDup_Permutation.
  - apply NoDup_fmap_2_strong; [|apply NoDup_map_to_list].
    intros [k1 e1] [k2 e2] H1%elem_of_map_to_list H2%elem_of_map_to_list. simpl.
    destruct (Hkey _ _ H1) as (? & _ & ->), (Hkey _ _ H2) as (? & _ & ->).
    intros [= -> _]. congruence.
  - apply NoDup_map_to_list.
  - intros [k e]. rewrite list_elem_of_fmap, elem_of_map_to_list. split.
    + intros ([k' e'] & Heq & Hin%elem_of_map_to_list). simpl in *.
      destruct (Hkey _ _ Hin) as (e'' & Hv & Hk). rewrite Hk in Heq. by simplify_eq.
    + intros Hv. pose proof Hv as Hv'. rewrite view_lookup in Hv' by done.
      destruct (data r !! k) as [ip|] eqn:Hk; [|done].
      assert (GetAllWithMeta r !! k = Some (with_meta (meta r) k ip)) as Hg
        by by rewrite GetAllWithMeta_lookup, Hk.
      exists (k, with_meta (meta r) k ip). rewrite elem_of_map_to_list. split; [|done].
      destruct (Hkey _ _ Hg) as (e'' & Hv'' & Hke). cbn [fst snd]. rewrite Hke. congruence.
Qed.

Lemma MergeRemoteState_snapshot rng d d2 r1 r2 join :
  representable (snapshot d2 r2) →
  MergeRemoteState rng d r1 (LocalState d2 r2 join) join =
    apply_all r1 ((λ he, entry_message he.1 he.2) <$> rng (GetAllWithMeta r2)).
Proof.
  intros Hrep. destruct (Unmarshal_Marshal _ Hrep) as (b & Hm & Hne & Hu).
  unfold MergeRemoteState, LocalState, FullState_Encode. fold (snapshot d2 r2). rewrite Hm.
  rewrite bool_decide_eq_false_2 by (by destruct b).
  unfold DecodeFullState. rewrite Hu. unfold apply_all. simpl.
  generalize (rng (GetAllWithMeta r2)). intros l. revert r1.
  induction l as [|he l IH]; intros r1; simpl; [done|]. apply IH.
Qed.

Lemma merge_view rng d d2 r1 r2 join :
  range_order rng → representable (snapshot d2 r2) →
  paired r1 → paired r2 → records_wf r2 →
  let r := MergeRemoteState rng d r1 (LocalState d2 r2 join) join in
  paired r ∧ view r = lww_join (view r1) (view r2).
Proof.
  intros Hr Hrep Hp1 Hp2 Hwf r. subst r. rewrite MergeRemoteState_snapshot by done.
  split; [auto with joyride|].
  rewrite apply_adds_view; [|done|by apply Forall_fmap, Forall_true].
  apply foldl_put_join. rewrite <-list_fmap_compose. by apply snapshot_keyed.
Qed.

(** What merging does to one key, of any stores. *)
Lemma merge_cell rng d d2 r1 r2 join k :
  range_order rng → representable (snapshot d2 r2) → records_wf r2 →
  cell_at (MergeRemoteState rng d r1 (LocalState d2 r2 join) join) k =
    match data r2 !! k with
    | Some ip => if decide (stale r1 k (stamp_at r2 k)) then cell_at r1 k
                 else (Some (stamp_at r2 k), Some ip)
    | None => cell_at r1 k
    end.
Proof.
  intros Hr Hrep [Hwf _]. rewrite MergeRemoteState_snapshot by done.
  rewrite apply_adds_cell by (by apply Forall_fmap, Forall_true).
  rewrite (entries_of_listing ((λ e, (mkRecordMeta (entry_Timestamp e) (entry_NodeID e), entry_IP e))
    <$> GetAllWithMeta r2)).
  - rewrite lookup_fmap, GetAllWithMeta_lookup. destruct (data r2 !! k) as [ip|]; [|done]. simpl.
    rewrite receive_at. unfold with_meta. fold (stamp_at r2 k). simpl. by destruct (stamp_at r2 k).
  - rewrite <-list_fmap_compose, map_to_list_fmap, (Hr _).
    match goal with |- ?l1 ≡ₚ ?l2 => assert (l1 = l2) as ->; [|done] end. apply list_fmap_ext.
    intros i [h e] Hi%list_elem_of_lookup_2%elem_of_map_to_list. simpl.
    rewrite GetAllWithMeta_lookup in Hi. destruct (data r2 !! h) as [ip|] eqn:Hh; [|done].
    unfold keyed, stamp. simpl. by rewrite (Hwf h ip Hh).
Qed.

Lemma cell_eq r1 r2 : (∀ k, cell_at r1 k = cell_at r2 k) → r1 = r2.
Proof. intros Hc. apply Records_eq; apply map_eq; intros k; by injection (Hc k). Qed.

(** C8: What merging a peer's state, as sent by its LocalState, does to each host,
    in whatever order the decoded map is visited and whatever the two stores are
    (the peer's host names lower-cased and its state encodable, as those of a
    running node are): the peer's record and stamp are taken over unless the store holds
    a stamp for the host that is no earlier, even one without a record; nothing
    else changes, and merging the same state again changes nothing.  Where the
    records and the stamps of both stores are for the same hosts, this is the
    join of the two last-write-wins maps. *)
Theorem merge_is_join rng d d2 r1 r2 join :
  range_order rng → representable (snapshot d2 r2) → records_wf r2 →
  let merged := MergeRemoteState rng d r1 (LocalState d2 r2 join) join in
  (∀ h, let e := (GetMeta r2 h).1 in
     match Lookup r2 h with
     | Some ip =>
         if decide (stale r1 (ToLower h) e)
         then Lookup merged h = Lookup r1 h ∧ GetMeta merged h = GetMeta r1 h
         else Lookup merged h = Some ip ∧ GetMeta merged h = (e, true)
     | None => Lookup merged h = Lookup r1 h ∧ GetMeta merged h = GetMeta r1 h
     end) ∧
  MergeRemoteState rng d merged (LocalState d2 r2 join) join = merged ∧
  (paired r1 → paired r2 → paired merged ∧ view merged = lww_join (view r1) (view r2)).
Proof.
  intros Hr Hrep Hwf merged. split_and!.
  - intros h. pose proof (merge_cell rng d d2 r1 r2 join (ToLower h) Hr Hrep Hwf) as Hc.
    fold merged in Hc. unfold cell_at in Hc. unfold Lookup, GetMeta, stamp_at in *.
    destruct (data r2 !! ToLower h) as [ip|]; [|by injection Hc as -> ->].
    destruct (meta r2 !! ToLower h) as [e|]; simpl in *;
      (case_decide; injection Hc as -> ->; by split).
  - apply cell_eq. intros k. rewrite merge_cell by done.
    destruct (data r2 !! k) as [ip|] eqn:Hd; [|done]. case_decide as Hs; [done|].
    pose proof (merge_cell rng d d2 r1 r2 join k Hr Hrep Hwf) as Hc. fold merged in Hc.
    rewrite Hd in Hc. unfold stale in Hs. case_decide as Hs1.
    + injection Hc as Hm _. by rewrite Hm in Hs.
    + injection Hc as Hm _. rewrite Hm in Hs. by destruct Hs.
  - intros Hp1 Hp2. by apply (merge_view rng d d2 r1 r2 join).
Qed.

(** What the exchange of two full states does to one key. *)
Lemma push_pull_key rng1 rng2 d1 d2 r1 r2 join k :
  range_order rng1 → range_order rng2 →
  representable (snapshot d1 r1) → representable (snapshot d2 r2) →
  records_wf r1 → records_wf r2 → stamped r1 → stamped r2 → compatible (view r1) (view r2) →
  let merged1 := MergeRemoteState rng1 d1 r1 (LocalState d2 r2 join) join in
  let merged2 := MergeRemoteState rng2 d2 r2 (LocalState d1 r1 join) join in
  data merged1 !! k = data merged2 !! k ↔ ¬ shadowed r1 r2 k ∧ ¬ shadowed r2 r1 k.
Proof.
  intros Hr1 Hr2 Hrep1 Hrep2 Hwf1 Hwf2 Hs1 Hs2 Hc merged1 merged2.
  pose proof (merge_cell rng1 d1 d2 r1 r2 join k Hr1 Hrep2 Hwf2) as Hc1.
  pose proof (merge_cell rng2 d2 d1 r2 r1 join k Hr2 Hrep1 Hwf1) as Hc2.
  fold merged1 in Hc1. fold merged2 in Hc2.
  specialize (Hc k).
  rewrite !view_at in Hc by done. unfold shadowed.
  pose proof (stamped_at r1 k Hs1) as He1. pose proof (stamped_at r2 k Hs2) as He2.
  unfold cell_at in Hc1, Hc2.
  destruct (data r1 !! k) as [ip1|], (data r2 !! k) as [ip2|]; simpl in *.
  + specialize (Hc _ _ eq_refl eq_refl). simpl in Hc.
    specialize (He1 ltac:(done)). specialize (He2 ltac:(done)).
    split; [by intros _; split; intros [? _]|intros _].
    destruct (decide (stale r1 k _)) as [Hl1|Hl1], (decide (stale r2 k _)) as [Hl2|Hl2];
      injection Hc1 as _ ->; injection Hc2 as _ ->; try done;
      unfold stale in Hl1, Hl2; rewrite He1 in Hl1; rewrite He2 in Hl2.
    * assert (stamp_at r1 k = stamp_at r2 k) as Heq by by apply (anti_symm meta_le).
      specialize (Hc Heq). congruence.
    * destruct (total meta_le (stamp_at r1 k) (stamp_at r2 k)); contradiction.
  + injection Hc1 as _ ->. case_decide; injection Hc2 as _ ->; (split; [|try done]).
    * done.
    * intros [_ []]. by split_and!.
    * intros _. split; [by intros [? _]|by intros (_ & _ & ?)].
  + injection Hc2 as _ ->. case_decide; injection Hc1 as _ ->; (split; [|try done]).
    * done.
    * intros [[] _]. by split_and!.
    * intros _. split; [by intros (_ & _ & ?)|by intros [? _]].
  + injection Hc1 as _ ->. injection Hc2 as _ ->. split; [|done]. intros _.
    split; by intros (_ & [? ?] & _).
Qed.

(** C5: Push/pull synchronization.  Two nodes whose records all carry stamps, none
    of which stands for two addresses, exchange their full states (encodable, host
    names lower-cased), each merging the snapshot the other took before the
    exchange.  Then they answer alike for exactly those hosts that neither of them
    shadows: a node shadows a host if it has no record for it but still holds a
    stamp, as after it saw its own container stop, that is no earlier than the
    other node's.  If the records and the stamps of both nodes are for the same
    hosts, their stores end up equal. *)
Theorem push_pull_converges rng1 rng2 d1 d2 r1 r2 join :
  range_order rng1 → range_order rng2 →
  representable (snapshot d1 r1) → representable (snapshot d2 r2) →
  records_wf r1 → records_wf r2 → stamped r1 → stamped r2 → compatible (view r1) (view r2) →
  let merged1 := MergeRemoteState rng1 d1 r1 (LocalState d2 r2 join) join in
  let merged2 := MergeRemoteState rng2 d2 r2 (LocalState d1 r1 join) join in
  (∀ h, Lookup merged1 h = Lookup merged2 h ↔
     ¬ shadowed r1 r2 (ToLower h) ∧ ¬ shadowed r2 r1 (ToLower h)) ∧
  (paired r1 → paired r2 → merged1 = merged2).
Proof.
  intros Hr1 Hr2 Hrep1 Hrep2 Hwf1 Hwf2 Hs1 Hs2 Hc merged1 merged2. split.
  - intros h. by apply push_pull_key.
  - intros Hp1 Hp2. destruct (merge_view rng1 d1 d2 r1 r2 join) as [Hp Hv]; [done..|].
    destruct (merge_view rng2 d2 d1 r2 r1 join) as [Hp' Hv']; [done..|].
    apply view_inj; [done..|]. unfold merged1, merged2. rewrite Hv, Hv'. by apply lww_join_comm.
Qed.


(** C34: A removal does not survive an exchange with a peer that has not seen it:
    the node that removed the host keeps no metadata for it, so merging the
    peer's state puts the removed record back. *)
Theorem merge_undoes_removal rng d d2 r h ip e join :
  range_order rng → representable (snapshot d2 r) → paired r → records_wf r →
  view r !! ToLower h = Some (e, ip) →
  let removed := (RemoveWithMeta r h (meta_Timestamp e + 1) (meta_NodeID e)).2 in
  Lookup removed h = None ∧
  MergeRemoteState rng d removed (LocalState d2 r join) join = r.
Proof.
  intros Hr Hrep Hp Hwf Hv removed.
  assert (removed = mkRecords (delete (ToLower h) (data r)) (delete (ToLower h) (meta r)))
    as Hrem.
  { subst removed. rewrite RemoveWithMeta_eq, decide_True; [done|].
    rewrite view_lookup in Hv by done. destruct (data r !! ToLower h) as [ip'|]; [|done].
    simplify_eq/=. split; [done|]. unfold stale.
    destruct (meta r !! ToLower h) as [e|]; [|tauto]. intros [?|[? _]]; simpl in *; lia. }
  assert (paired removed) as Hpr by (unfold removed; auto with joyride).
  split; [rewrite Hrem; unfold Lookup; simpl; apply lookup_delete_eq|].
  destruct (merge_view rng d d2 removed r join) as [Hpm Hvm]; [done..|].
  apply view_inj; [done..|]. rewrite Hvm. apply map_eq. intros k.
  unfold lww_join. rewrite lookup_union_with, (view_lookup removed), view_lookup by done.
  rewrite Hrem. simpl. rewrite !lookup_delete. case_decide; simpl.
  - by destruct (data r !! k).
  - destruct (data r !! k); simpl; [|done]. by rewrite later_idem.
Qed.
End wire.
End delegate.

(** ** Evaluations *)

(** A queue that hands out everything once, for evaluating the models. *)
Definition list_queue : TransmitLimitedQueue := {|
  queue := list broadcast;
  NewQueue _ := [];
  QueueBroadcast q b := q ++ [b];
  Queue_GetBroadcasts q _ _ := (Message <$> q, []);
|}.

Module DelegateExamples.
Import LwwExamples.
#[local] Existing Instance latin1_case.
#[local] Existing Instance list_queue.

Definition node_a : ClusterDelegate := Start (NewClusterDelegate "node-a").
Definition node_b : ClusterDelegate := Start (NewClusterDelegate "node-b").
Definition wire (m : RecordMessage) : string :=
  match RecordMessage_Encode m with Ok b => b | Err _ => "" end.
Definition queued : ClusterDelegate := NotifyMsg (NotifyMsg node_a (wire add_old)) (wire add_new).
Definition store_a : Records := (ApplyMessage NewRecords add_new).2.
Definition store_b : Records := (ApplyMessage NewRecords add_old).2.

(** Started, with two messages queued and its goroutine waiting. *)
Lemma queued_run : delegate_run (Start (NewClusterDelegate "node-a"), NewRecords) 0 2 (queued, NewRecords).
Proof.
  unfold queued. generalize (wire add_old), (wire add_new). intros b1 b2.
  apply run_notify, run_notify, run_nil.
Qed.

(** A third message arrives after the cancellation. *)
Lemma Stop_returns_witness :
  let d := NotifyMsg (Stop_cancel queued) (wire add_old) in
  d_wg d = 1 ∧ length (d_msgChan d) = 3 ∧ 0 ≤ 2 * 2 + 2 * 1 + 2 * 1 ∧
  (∃ s', process_step (d, NewRecords) s') ∧
  ∃ s', rtc process_step (d, NewRecords) s' ∧ d_wg s'.1 = 0 ∧ s'.2 = NewRecords.
Proof.
  assert (delegate_run (Stop_cancel queued, NewRecords) 0 1
    (NotifyMsg (Stop_cancel queued) (wire add_old), NewRecords)) as Hrun.
  { generalize (wire add_old). intros b. apply run_notify, run_nil. }
  destruct (Stop_returns "node-a" NewRecords 0 2 queued NewRecords 0 1 _ queued_run Hrun)
    as (H1 & H2 & s' & H3 & H4 & H5 & _).
  cbv zeta. split_and!; [by vm_compute|by vm_compute|lia|apply H2; by vm_compute|].
  exists s'. split_and!; [exact H3|exact H4|exact H5].
Defined.

Definition full : ClusterDelegate := set_chan node_b (replicate 256 add_old).


Lemma broadcast_received_witness :
  ∃ bytes,
    BroadcastRecord node_a add_new =
      set_broadcasts node_a (QueueBroadcast (d_broadcasts node_a) (mkBroadcast bytes)) ∧
    NotifyMsg node_b bytes = set_chan node_b [add_new].
Proof. apply (broadcast_received node_a node_b add_new); [by_computation|]. vm_compute. lia. Defined.

Lemma rng_any : range_order (map_to_list (K := string) (A := RecordEntry)).
Proof. by intros m. Qed.

Lemma store_paired m : paired (ApplyMessage NewRecords m).2.
Proof. auto with joyride. Qed.
Lemma store_wf m : records_wf (ApplyMessage NewRecords m).2.
Proof. auto with joyride. Qed.

Lemma merge_is_join_witness :
  let merged := MergeRemoteState map_to_list node_b store_b (LocalState node_a store_a true) true in
  MergeRemoteState map_to_list node_b merged (LocalState node_a store_a true) true = merged ∧
  view merged = lww_join (view store_b) (view store_a) ∧
  Lookup merged "app.example.com" = Some "10.0.0.2".
Proof.
  destruct (merge_is_join map_to_list node_b node_a store_b store_a true) as (_ & H1 & H2);
    [by intros m|by_computation|apply store_wf|].
  split_and!; [exact H1| |by vm_compute]. apply H2; apply store_paired.
Defined.

(** Node [b] has seen its own container stop and still holds the stamp: it
    shadows the record of node [a], whose stamp is older. *)
Definition stopped_b : Records := Remove (ApplyMessage NewRecords add_new).2 "app.example.com".

Lemma push_pull_converges_witness :
  Lookup (MergeRemoteState map_to_list node_a store_b (LocalState node_b stopped_b false) false)
    "app.example.com" ≠
  Lookup (MergeRemoteState map_to_list node_b stopped_b (LocalState node_a store_b false) false)
    "app.example.com".
Proof.
  destruct (push_pull_converges map_to_list map_to_list node_a node_b store_b stopped_b false)
    as [Hp _]; [by intros m|by intros m|by_computation|by_computation|apply store_wf| | | | |].
  - apply Remove_wf, store_wf.
  - by_computation.
  - by_computation.
  - intros k e1 e2 _ H2. exfalso. revert H2.
    assert (view stopped_b = ∅) as -> by (apply (bool_decide_unpack _); by vm_compute). done.
  - intros Heq. destruct (proj1 (Hp "app.example.com") Heq) as [_ Hns].
    destruct Hns. by_computation.
Defined.

Lemma merge_undoes_removal_witness :
  Lookup (RemoveWithMeta store_a "app.example.com" 10 "node-a").2 "app.example.com" = None ∧
  MergeRemoteState map_to_list node_a
    (RemoveWithMeta store_a "app.example.com" 10 "node-a").2
    (LocalState node_b store_a false) false = store_a.
Proof.
  apply (merge_undoes_removal map_to_list node_a node_b store_a "app.example.com" "10.0.0.2"
    (stamp add_new) false);
    first [apply rng_any | apply store_paired | apply store_wf | by_computation | by vm_compute].
Defined.
End DelegateExamples.
