(* ===== verification/Wire.v ===== *)
(** * Wire: what the nodes of a cluster exchange, byte for byte

    The delegate's theorems are proved against the interface of a codec; here
    the codec is package encoding/json as modelled in [Json].  Messages and full
    states survive encoding and decoding, whatever decodes is well-formed, and a
    store that is fed by decoded messages and valid addresses can always be sent,
    and is received exactly as it is.  A message without any field is accepted. *)

From stdpp Require Import gmap strings list fin_maps relations pretty.
From Stdlib Require Import ZArith NArith Lia Ascii.
From S2P Require Import Prelude GoStrings Strconv Json JsonSpec JsonPrefix Message Records Lww Delegate.

(** ** Messages *)

(** C9: Encoding a message never fails, and decoding the bytes gives the message
    back, with every invalid byte of its strings replaced by U+FFFD; so a message
    in valid UTF-8 arrives unchanged, for every time stamp and action. *)
Theorem message_round_trip m :
  message_fits m →
  ∃ b, RecordMessage_Encode m = Ok b ∧ DecodeRecordMessage b = Ok (scrub_message m) ∧
    (valid_utf8 (msg_Hostname m) ∧ valid_utf8 (msg_IP m) ∧ valid_utf8 (msg_NodeID m) →
     DecodeRecordMessage b = Ok m).
Proof.
  intros Hm. exists (marshal_struct m). unfold DecodeRecordMessage. simpl.
  rewrite decode_encode_message by done. split_and!; [done|done|].
  intros Hv. by rewrite scrub_message_ok by (by split).
Qed.

Lemma state_received s : state_ok s → DecodeFullState (marshal_struct s) = Ok s.
Proof. intros Hs. unfold DecodeFullState. simpl. by rewrite decode_encode_state. Qed.

(** The same for a full state in valid UTF-8: every record arrives under its
    host name with its address, stamp and node. *)
Theorem state_round_trip s :
  state_ok s → ∃ b, FullState_Encode s = Ok b ∧ DecodeFullState b = Ok s.
Proof.
  intros Hs. exists (marshal_struct s). split; [done|]. by apply state_received.
Qed.

(** C16: Whatever bytes arrive, a message or state that decodes is well-formed: its
    strings are valid UTF-8, its action is an uint8 and its stamps are int64
    values, so it can be encoded again and decodes to itself. *)
Theorem decoded_well_formed data :
  (∀ m, DecodeRecordMessage data = Ok m → message_ok m ∧
     ∃ b, RecordMessage_Encode m = Ok b ∧ DecodeRecordMessage b = Ok m) ∧
  (∀ s, DecodeFullState data = Ok s → state_ok s ∧
     ∃ b, FullState_Encode s = Ok b ∧ DecodeFullState b = Ok s).
Proof.
  unfold DecodeRecordMessage, DecodeFullState, RecordMessage_Encode, FullState_Encode. simpl. split.
  - intros m Hm. destruct (unmarshal_struct data) as [m'|] eqn:Hu; [|done]. simplify_eq.
    apply unmarshal_message_ok in Hu. split; [done|]. eexists. split; [done|].
    by rewrite decode_encode_message_ok.
  - intros s Hs. destruct (unmarshal_struct data) as [s'|] eqn:Hu; [|done]. simplify_eq.
    apply unmarshal_state_ok in Hu. split; [done|]. eexists. split; [done|].
    by rewrite decode_encode_state.
Qed.

(** C27: A message or state that was cut short never decodes, wherever the cut is:
    the bytes that are left are a syntax error, not another message. *)
Theorem truncated_rejected m s kept lost :
  lost ≠ EmptyString →
  (RecordMessage_Encode m = Ok (kept +:+ lost) → DecodeRecordMessage kept = Err SyntaxError) ∧
  (FullState_Encode s = Ok (kept +:+ lost) → DecodeFullState kept = Err SyntaxError).
Proof.
  intros Hl. unfold DecodeRecordMessage, DecodeFullState. simpl. split.
  - intros [= Hm]. by rewrite (truncated_struct m kept lost (RecordMessage_writable m) Hm Hl).
  - intros [= Hs]. by rewrite (truncated_struct s kept lost (FullState_writable s) Hs Hl).
Qed.

(** ** Stores that can be sent *)

Section stores.
Context `{UnicodeCase} `{TransmitLimitedQueue}.

Definition records_ok (r : Records) : Prop :=
  map_Forall (λ h ip, valid_utf8 h ∧ valid_utf8 ip) (data r) ∧
  map_Forall (λ _ m, int64 (meta_Timestamp m) ∧ valid_utf8 (meta_NodeID m)) (meta r).

Lemma valid_ascii_cons c s :
  (N_of_ascii c < Utf8.RuneSelf)%N → valid_utf8 s → valid_utf8 (String c s).
Proof.
  intros Hc Hs. unfold valid_utf8, scrub in *. rewrite runes_ascii_cons by done.
  rewrite encode_all_cons, Hs, EncodeRune_ascii by done. unfold Utf8.byte.
  by rewrite ascii_N_embedding.
Qed.

(** Lower-casing leaves nothing invalid: its slow path re-encodes the runes. *)
Lemma ToLower_valid_utf8 s : valid_utf8 (ToLower s).
Proof.
  rewrite ToLower_Map. unfold Map, valid_utf8, scrub. f_equal. apply runes_encode_all.
  rewrite Forall_fmap. eapply Forall_impl; [apply runes_valid|]. apply unicode_ToLower_valid.
Qed.

Lemma NewRecords_ok : records_ok NewRecords.
Proof. split; apply map_Forall_empty. Qed.

Lemma Add_ok r h ip : records_ok r → valid_utf8 ip → records_ok (Add r h ip).
Proof.
  intros [Hd Hm] Hip. rewrite Add_eq. split; [|done]. apply map_Forall_insert_2; [|done].
  split; [apply ToLower_valid_utf8|done].
Qed.

Lemma Remove_ok r h : records_ok r → records_ok (Remove r h).
Proof. intros [Hd Hm]. rewrite Remove_eq. split; [by apply map_Forall_delete|done]. Qed.

Lemma AddWithMeta_ok r h ip t n :
  records_ok r → valid_utf8 ip → int64 t → valid_utf8 n → records_ok (AddWithMeta r h ip t n).2.
Proof.
  intros [Hd Hm] Hip Ht Hn. rewrite AddWithMeta_eq. case_decide; [done|].
  split; simpl; (apply map_Forall_insert_2; [|done]); [|done]. split; [apply ToLower_valid_utf8|done].
Qed.

Lemma RemoveWithMeta_ok r h t n : records_ok r → records_ok (RemoveWithMeta r h t n).2.
Proof.
  intros [Hd Hm]. rewrite RemoveWithMeta_eq. case_decide; [|done].
  split; by apply map_Forall_delete.
Qed.

Lemma ApplyMessage_ok r m : records_ok r → message_ok m → records_ok (ApplyMessage r m).2.
Proof.
  intros Hr ([_ Ht] & _ & Hi & Hn). unfold ApplyMessage.
  repeat case_match; auto using AddWithMeta_ok, RemoveWithMeta_ok.
Qed.

Lemma MergeRemoteState_ok rng d r buf join :
  range_order rng → records_ok r → records_ok (MergeRemoteState rng d r buf join).
Proof.
  intros Hr Hok. unfold MergeRemoteState. case_match; [done|].
  destruct (DecodeFullState buf) as [s|] eqn:Hs; [|done].
  unfold DecodeFullState in Hs. simpl in Hs.
  destruct (unmarshal_struct buf) as [s'|] eqn:Hu; simplify_eq.
  apply unmarshal_state_ok in Hu as [_ Hall].
  assert (Forall (λ he, message_ok (entry_message he.1 he.2)) (rng (state_Records s))) as Hms.
  { rewrite (Hr _). apply Forall_forall. intros [h e] Hin%elem_of_map_to_list.
    destruct (Hall h e Hin) as (Hh & Ht & Hi & Hn). repeat split; done || apply Ht. }
  revert r Hok. induction Hms as [|he l Hhe _ IH]; intros r Hok; simpl; [done|].
  apply IH. by apply ApplyMessage_ok.
Qed.

(** *** Everything that writes the store of a node *)

(** The watcher and its callback with addresses and names in valid UTF-8, and
    whatever bytes the other nodes send. *)
Inductive store_step : Records → Records → Prop :=
| st_add r h ip : valid_utf8 ip → store_step r (Add r h ip)
| st_remove r h : store_step r (Remove r h)
| st_local r m : message_ok m → store_step r (ApplyMessage r m).2
| st_received r bytes m :
    DecodeRecordMessage bytes = Ok m → store_step r (ApplyMessage r m).2
| st_merge r rng d buf join :
    range_order rng → store_step r (MergeRemoteState rng d r buf join).

Lemma store_step_ok r r' : records_ok r → store_step r r' → records_ok r'.
Proof.
  intros Hr Hs. destruct Hs as [? h ip Hip|? h|? m Hm|? b m Hm|? rng d buf join Hrng].
  - by apply Add_ok.
  - by apply Remove_ok.
  - by apply ApplyMessage_ok.
  - apply ApplyMessage_ok; [done|]. unfold DecodeRecordMessage in Hm. simpl in Hm.
    destruct (unmarshal_struct b) as [m'|] eqn:Hu; simplify_eq.
    by eapply unmarshal_message_ok.
  - by apply MergeRemoteState_ok.
Qed.

Lemma snapshot_ok d r : valid_utf8 (d_nodeID d) → records_ok r → state_ok (snapshot d r).
Proof.
  intros Hn [Hd Hm]. split; [done|]. intros h e. simpl. rewrite GetAllWithMeta_lookup.
  destruct (data r !! h) as [ip|] eqn:Hh; [|done]. intros [= <-].
  destruct (Hd h ip Hh) as [Hv Hip]. split; [done|]. unfold with_meta, entry_ok. simpl.
  destruct (meta r !! h) as [m|] eqn:Hmh; simpl.
  - destruct (Hm h m Hmh). by split_and!.
  - by split_and!.
Qed.

(** C10: A node can always tell the others what it knows.  Whatever bytes it has
    received and whatever the watcher has written, its LocalState decodes on the
    other side to exactly its records with their metadata. *)
Theorem local_state_received r d join :
  rtc store_step NewRecords r → valid_utf8 (d_nodeID d) →
  DecodeFullState (LocalState d r join) = Ok (snapshot d r).
Proof.
  intros Hrun Hn. assert (records_ok r) as Hr.
  { assert (records_ok NewRecords) as Hnew by apply NewRecords_ok. revert Hnew.
    induction Hrun as [|r1 r2 r3 Hs _ IH]; [done|]. intros H1. by apply IH, (store_step_ok r1). }
  apply (state_received (snapshot d r)). by apply snapshot_ok.
Qed.

(** ** A message that says nothing *)

Lemma store_no_members `{JsonStruct A} ms (a : A) :
  Forall (λ kv, find_field (A := A) kv.1 = None) ms → store_members ms a = Ok a.
Proof. induction 1 as [|[k v] ms Hk _ IH]; [done|]. cbn [store_members]. simpl in Hk. by rewrite Hk. Qed.

(** C39: Nothing of a message is required.  A JSON null, or an object with none of
    the message's fields, such as any other protocol's packet, is taken for an
    addition of the empty host name at time zero, and puts a record for the empty
    name into a store that has none. *)
Theorem fieldless_message_accepted d data v r :
  parse data = Some v →
  v = JNull ∨ (∃ ms, v = JObj ms ∧ Forall (λ kv, find_field (A := RecordMessage) kv.1 = None) ms) →
  length (d_msgChan d) < msgChanBufferSize → meta r !! EmptyString = None →
  ∃ msg, NotifyMsg d data = set_chan d (d_msgChan d ++ [msg]) ∧
    Lookup (ApplyMessage r msg).2 EmptyString = Some EmptyString.
Proof.
  intros Hp Hv Hlen Hr. exists zero_value. split.
  - assert (DecodeRecordMessage data = Ok zero_value) as Hdec.
    { unfold DecodeRecordMessage. simpl. unfold unmarshal_struct. rewrite Hp.
      destruct Hv as [->|(ms & -> & Hms)]; [done|]. cbn [store_struct]. by rewrite store_no_members. }
    unfold NotifyMsg. rewrite Hdec, bool_decide_eq_false_2 by (by destruct data).
    by rewrite bool_decide_eq_true_2.
  - unfold ApplyMessage. simpl. rewrite AddWithMeta_eq, decide_False.
    + unfold Lookup. simpl. apply lookup_insert_eq.
    + unfold stale. change (ToLower EmptyString) with EmptyString. rewrite Hr. tauto.
Qed.
End stores.

(** ** The theorems at concrete inputs *)

Module WireExamples.
Import LwwExamples.
#[local] Existing Instance latin1_case.
#[local] Existing Instance list_queue.

(** A host name with an umlaut, a quotation mark and an invalid byte. *)
Definition odd_name : string :=
  String (ascii_of_N 0xC3) (String (ascii_of_N 0xBC) (String (ascii_of_N 34)
    (String (ascii_of_N 0xFF) "<x>"))).
Definition odd_message : RecordMessage :=
  mkRecordMessage odd_name "10.0.0.1" RecordActionRemove (- 2 ^ 63) "node-a".

Lemma message_round_trip_witness :
  ∃ b, RecordMessage_Encode odd_message = Ok b ∧
    DecodeRecordMessage b = Ok (scrub_message odd_message) ∧
    scrub_message odd_message ≠ odd_message.
Proof.
  destruct (message_round_trip odd_message) as (b & H1 & H2 & _).
  { split; by apply (bool_decide_unpack _). }
  exists b. split_and!; [exact H1|exact H2|]. by_computation.
Defined.

Definition state : FullState :=
  mkFullState "node-a" {[ "app.lan" := mkRecordEntry "10.0.0.1" 7 "node-a";
                          "db.lan" := mkRecordEntry "10.0.0.2" (2 ^ 63 - 1) "node-b" ]}.

Lemma state_round_trip_witness :
  ∃ b, FullState_Encode state = Ok b ∧ DecodeFullState b = Ok state.
Proof. apply (state_round_trip state). by_computation. Defined.

Definition got : RecordMessage := mkRecordMessage "app.lan" EmptyString RecordActionAdd 12 EmptyString.
(** The text [{"H":"app.lan","x":[],"t":12,"n":null}]. *)
Definition foreign_text : string :=
  print (JObj [("H", JStr "app.lan"); ("x", JArr []); ("t", JNum "12"); ("n", JNull)]).

Lemma decoded_well_formed_witness :
  DecodeRecordMessage foreign_text = Ok got ∧
  ∃ b, RecordMessage_Encode got = Ok b ∧ DecodeRecordMessage b = Ok got.
Proof.
  assert (DecodeRecordMessage foreign_text = Ok got) as Hg by (by vm_compute).
  split; [exact Hg|]. exact (proj2 (proj1 (decoded_well_formed foreign_text) got Hg)).
Defined.

Definition text : string := marshal_struct got.

Lemma truncated_rejected_witness :
  DecodeRecordMessage (String.substring 0 20 text) = Err SyntaxError.
Proof.
  apply (truncated_rejected got state (String.substring 0 20 text)
    (String.substring 20 (String.length text - 20) text)); [by vm_compute|].
  by vm_compute.
Defined.

Lemma local_state_received_witness :
  DecodeFullState (LocalState (NewClusterDelegate "node-b") (Add NewRecords "App.lan" "10.0.0.9") true)
  = Ok (mkFullState "node-b" {[ "app.lan" := mkRecordEntry "10.0.0.9" 0 EmptyString ]}).
Proof.
  rewrite (local_state_received (Add NewRecords "App.lan" "10.0.0.9") (NewClusterDelegate "node-b") true).
  - apply (f_equal Ok). by_computation.
  - apply rtc_once, st_add. by_computation.
  - by_computation.
Defined.

Lemma fieldless_message_accepted_witness :
  ∃ msg, NotifyMsg (NewClusterDelegate "node-b") "{}" =
      set_chan (NewClusterDelegate "node-b") [msg] ∧
    Lookup (ApplyMessage NewRecords msg).2 EmptyString = Some EmptyString.
Proof.
  apply (fieldless_message_accepted (NewClusterDelegate "node-b") "{}" (JObj []) NewRecords).
  - by vm_compute.
  - right. exists []. split; [done|constructor].
  - vm_compute. lia.
  - done.
Defined.
End WireExamples.
