(* ===== verification/Watcher.v ===== *)
(** * Watcher: following the containers of the Docker daemon
    (docker-cluster/docker_watcher.go)

    The watcher keeps, per container, the hostnames it has published, and
    writes them into the shared record store.  The store is reached through the
    class [RecordsWorld]: the callback may act on more of the node than the
    records (with clustering it also queues broadcasts), so every operation
    threads the whole shared world.  What the Docker client and the clock return
    are arguments of the operations. *)

From stdpp Require Import gmap strings list fin_maps.
From Stdlib Require Import ZArith NArith Lia Ascii.
From S2P Require Import Prelude GoStrings Message Records.

(** What the watcher needs of the world it shares: a record store inside it. *)
Class RecordsWorld (W : Type) := {
  get_records : W → Records;
  set_records : Records → W → W;
  get_set_records : ∀ r w, get_records (set_records r w) = r;
  set_set_records : ∀ r r' w, set_records r (set_records r' w) = set_records r w;
  set_get_records : ∀ w, set_records (get_records w) w = w;
}.

(** A bare store is the world of a node without clustering. *)
#[export, refine] Instance records_world : RecordsWorld Records := {|
  get_records r := r;
  set_records r _ := r;
|}.
Proof. all: done. Defined.

(** The two fields of Docker's [container.Summary] the watcher reads. *)
Record Summary := mkSummary { sum_ID : string; sum_Labels : gmap string string }.

(** The fields of an [events.Message] the watcher reads. *)
Record EventMessage := mkEventMessage { ev_Action : string; ev_ActorID : string }.

(** One firing of the [select] of consumeEvents: the context is done; a receive
    from the error channel (the error, nil or not, and whether the channel was
    open); a receive from the message channel, with what the daemon and the
    clock will answer while the event is handled. *)
Inductive stream_event (E A : Type) :=
| EvCtxDone
| EvErr (err : option E) (ok : bool)
| EvMessage (event : EventMessage) (ok : bool) (answer : A).
Arguments EvCtxDone {E A}.
Arguments EvErr {E A} _ _.
Arguments EvMessage {E A} _ _ _.

(** The error consumeEvents returns: nil, io.EOF or the stream's error. *)
Inductive stream_result (E : Type) := StreamNil | StreamEOF | StreamErr (e : E).
Arguments StreamNil {E}.
Arguments StreamEOF {E}.
Arguments StreamErr {E} _.

(** [truncateID]. *)
Definition truncateID (id : string) (maxLen : nat) : string :=
  if bool_decide (String.length id ≤ maxLen) then id else String.substring 0 maxLen id.

(** [const second] and the two durations of watchLoop, in nanoseconds. *)
Definition time_Second : Z := 1000000000.
Definition maxBackoff : Z := 5 * 60 * time_Second.

(** [nextBackoff]; a Duration is an int64. *)
Definition nextBackoff (current max : Z) : Z :=
  let next := wrap64 (current * 2) in
  if bool_decide (max < next)%Z then max else next.

Section watcher.
Context `{UnicodeCase} (IsDomainName : string → bool) {E : Type} `{RecordsWorld W}.

(** [type RecordChangeCallback func(hostname, ip string, added bool, timestamp int64)]. *)
Definition RecordChangeCallback : Type := string → string → bool → Z → W → W.

(** [dw_client]: whether the client is set. *)
Record DockerWatcher := mkDockerWatcher {
  dw_dockerSocket : string;
  dw_hostIP : string;
  dw_labels : list string;
  dw_callback : option RecordChangeCallback;
  dw_client : bool;
  dw_running : bool;
  dw_ctx_done : bool;
  dw_wg : nat;
  dw_containers : gmap string (list string);
}.

Definition NewDockerWatcher (dockerSocket hostIP : string) (labels : list string)
    : DockerWatcher :=
  mkDockerWatcher dockerSocket hostIP labels None false false false 0 ∅.

Definition set_containers (cs : gmap string (list string)) (dw : DockerWatcher) : DockerWatcher :=
  mkDockerWatcher (dw_dockerSocket dw) (dw_hostIP dw) (dw_labels dw) (dw_callback dw)
    (dw_client dw) (dw_running dw) (dw_ctx_done dw) (dw_wg dw) cs.
Definition set_client (c : bool) (dw : DockerWatcher) : DockerWatcher :=
  mkDockerWatcher (dw_dockerSocket dw) (dw_hostIP dw) (dw_labels dw) (dw_callback dw)
    c (dw_running dw) (dw_ctx_done dw) (dw_wg dw) (dw_containers dw).

(** [dw.wg.Done()], deferred by watchLoop. *)
Definition wg_Done (dw : DockerWatcher) : DockerWatcher :=
  mkDockerWatcher (dw_dockerSocket dw) (dw_hostIP dw) (dw_labels dw) (dw_callback dw)
    (dw_client dw) (dw_running dw) (dw_ctx_done dw) (pred (dw_wg dw)) (dw_containers dw).

(** [func (dw *DockerWatcher) SetCallback(cb RecordChangeCallback)]. *)
Definition SetCallback (cb : RecordChangeCallback) (dw : DockerWatcher) : DockerWatcher :=
  mkDockerWatcher (dw_dockerSocket dw) (dw_hostIP dw) (dw_labels dw) (Some cb)
    (dw_client dw) (dw_running dw) (dw_ctx_done dw) (dw_wg dw) (dw_containers dw).

(** *** Hostnames *)

(** The byte switch of isValidHostname. *)
Definition hostname_byte (c : ascii) : bool :=
  let b := N_of_ascii c in
  Utf8.in_range 97 122 b || Utf8.in_range 65 90 b || Utf8.in_range 48 57 b
  || bool_decide (c = "-"%char) || bool_decide (c = "."%char).

(** [isValidHostname]; [dns.IsDomainName] is miekg/dns's. *)
Definition isValidHostname (name : string) : bool :=
  if bool_decide (String.length name = 0) || bool_decide (253 < String.length name) then false
  else if negb (all_bytes hostname_byte name) then false
  else IsDomainName name.

(** The inner loop body of extractHostnames on its [seen] and [hostnames]. *)
Definition extract_part (st : gset string * list string) (part : string)
    : gset string * list string :=
  let hostname := TrimSpace part in
  if bool_decide (hostname = EmptyString) || bool_decide (hostname ∈ st.1) then st
  else if negb (isValidHostname hostname) then st
  else ({[hostname]} ∪ st.1, st.2 ++ [hostname]).

Definition extract_label (labels : gmap string string)
    (st : gset string * list string) (labelName : string) : gset string * list string :=
  match labels !! labelName with
  | None => st
  | Some value => foldl extract_part st (Split value ",")
  end.

(** [func (dw *DockerWatcher) extractHostnames(labels map[string]string) []string]. *)
Definition extractHostnames (dw : DockerWatcher) (labels : gmap string string) : list string :=
  (foldl (extract_label labels) (∅, []) (dw_labels dw)).2.

(** *** Updating one container *)

Definition rec_Add (hostname ip : string) (w : W) : W :=
  set_records (Add (get_records w) hostname ip) w.
Definition rec_Remove (hostname : string) (w : W) : W :=
  set_records (Remove (get_records w) hostname) w.

(** [for _, h := range hostnames { cb(h, ip, added, ts) }]. *)
Definition notify_all (cb : RecordChangeCallback) (ip : string) (added : bool) (ts : Z)
    (hostnames : list string) (w : W) : W :=
  foldl (λ w h, cb h ip added ts w) w hostnames.

(** [func (dw *DockerWatcher) updateContainer(containerID string, newHostnames []string)],
    [now] being the clock at the callback. *)
Definition updateContainer (dw : DockerWatcher) (w : W) (containerID : string)
    (newHostnames : list string) (now : Z) : DockerWatcher * W :=
  let oldHostnames := default [] (dw_containers dw !! containerID) in
  let dw := set_containers (<[containerID := newHostnames]> (dw_containers dw)) dw in
  let oldSet : gset string := list_to_set oldHostnames in
  let newSet : gset string := list_to_set newHostnames in
  let '(w, removed) :=
    foldl (λ '(w, removed) h,
      if bool_decide (h ∈ newSet) then (w, removed) else (rec_Remove h w, removed ++ [h]))
      (w, []) oldHostnames in
  let '(w, added) :=
    foldl (λ '(w, added) h,
      if bool_decide (h ∈ oldSet) then (w, added)
      else (rec_Add h (dw_hostIP dw) w, added ++ [h]))
      (w, []) newHostnames in
  match dw_callback dw with
  | None => (dw, w)
  | Some cb =>
      (dw, notify_all cb (dw_hostIP dw) true now added
             (notify_all cb EmptyString false now removed w))
  end.

(** *** Containers coming and going *)

(** [func (dw *DockerWatcher) applyContainerSummary(summary container.Summary) bool]. *)
Definition applyContainerSummary (dw : DockerWatcher) (w : W) (summary : Summary) (now : Z)
    : bool * (DockerWatcher * W) :=
  let hostnames := extractHostnames dw (sum_Labels summary) in
  if bool_decide (length hostnames = 0) then (false, (dw, w))
  else (true, updateContainer dw w (sum_ID summary) hostnames now).

(** [func (dw *DockerWatcher) applyContainerInspect(containerID string, info
    container.InspectResponse) []string]; [config] is the Config pointer's labels. *)
Definition applyContainerInspect (dw : DockerWatcher) (w : W) (containerID : string)
    (config : option (gmap string string)) (now : Z) : list string * (DockerWatcher * W) :=
  match config with
  | None => ([], (dw, w))
  | Some labels =>
      let hostnames := extractHostnames dw labels in
      if bool_decide (0 < length hostnames)
      then (hostnames, updateContainer dw w containerID hostnames now)
      else (hostnames, (dw, w))
  end.

(** What the environment answers while one event is handled: the result of
    ContainerInspect (the labels behind the Config pointer) and the clock. *)
Record daemon_answer := mkAnswer {
  ans_inspect : result E (option (gmap string string));
  ans_now : Z;
}.

(** [func (dw *DockerWatcher) handleContainerStart(containerID string)];
    [inspect] is what ContainerInspect answers. *)
Definition handleContainerStart (dw : DockerWatcher) (w : W) (containerID : string)
    (inspect : result E (option (gmap string string))) (now : Z) : DockerWatcher * W :=
  if negb (dw_client dw) then (dw, w)
  else match inspect with
       | Err _ => (dw, w)
       | Ok config => (applyContainerInspect dw w containerID config now).2
       end.

(** [func (dw *DockerWatcher) handleContainerStop(containerID string)]. *)
Definition handleContainerStop (dw : DockerWatcher) (w : W) (containerID : string) (now : Z)
    : DockerWatcher * W :=
  match dw_containers dw !! containerID with
  | None => (dw, w)
  | Some hostnames =>
      let dw := set_containers (delete containerID (dw_containers dw)) dw in
      let w := foldl (λ w h, rec_Remove h w) w hostnames in
      match dw_callback dw with
      | None => (dw, w)
      | Some cb => (dw, notify_all cb EmptyString false now hostnames w)
      end
  end.

(** [func (dw *DockerWatcher) handleEvent(event events.Message)]. *)
Definition handleEvent (event : EventMessage) (answer : daemon_answer)
    (s : DockerWatcher * W) : DockerWatcher * W :=
  if bool_decide (ev_Action event = "start") then
    handleContainerStart s.1 s.2 (ev_ActorID event) (ans_inspect answer) (ans_now answer)
  else if bool_decide (ev_Action event = "stop") || bool_decide (ev_Action event = "die") then
    handleContainerStop s.1 s.2 (ev_ActorID event) (ans_now answer)
  else s.

(** The loop of syncContainers over the listed containers, each with the clock
    reading when it is processed; it collects the IDs that have hostnames. *)
Definition sync_apply (dw : DockerWatcher) (w : W) (items : list (Summary * Z))
    : gset string * (DockerWatcher * W) :=
  foldl (λ '(seen, (dw, w)) '(c, now),
    let '(ok, s) := applyContainerSummary dw w c now in
    (if ok then {[sum_ID c]} ∪ seen else seen, s)) (∅, (dw, w)) items.

(** Its loop over the tracked containers, which drops the ones not seen. *)
Definition sync_prune (seen : gset string) (dw : DockerWatcher) (w : W)
    (tracked : list (string * list string)) : DockerWatcher * W * list string :=
  foldl (λ '(dw, w, removed) '(id, hostnames),
    if bool_decide (id ∈ seen) then (dw, w, removed)
    else (set_containers (delete id (dw_containers dw)) dw,
          foldl (λ w h, rec_Remove h w) w hostnames, removed ++ hostnames))
    (dw, w, []) tracked.

(** [func (dw *DockerWatcher) syncContainers() error]; [listing] is what
    ContainerList answers, [rng] the order of the second loop, [now] the clock at
    the callback. *)
Definition syncContainers (rng : gmap string (list string) → list (string * list string))
    (dw : DockerWatcher) (w : W) (listing : result E (list (Summary * Z))) (now : Z)
    : result E (DockerWatcher * W) :=
  if negb (dw_client dw) then Ok (dw, w)
  else match listing with
       | Err err => Err err
       | Ok items =>
           let '(seen, (dw, w)) := sync_apply dw w items in
           let '(dw, w, removedHostnames) := sync_prune seen dw w (rng (dw_containers dw)) in
           if bool_decide (0 < length removedHostnames) then
             match dw_callback dw with
             | None => Ok (dw, w)
             | Some cb => Ok (dw, notify_all cb EmptyString false now removedHostnames w)
             end
           else Ok (dw, w)
       end.

(** [consumeEvents], over the sequence of firings of its [select]: the result
    and the state, or no result while it still waits for the next firing. *)
Fixpoint consumeEvents {A S : Type} (handle : EventMessage → A → S → S)
    (firings : list (stream_event E A)) (s : S) : option (stream_result E) * S :=
  match firings with
  | [] => (None, s)
  | EvCtxDone :: _ => (Some StreamNil, s)
  | EvErr err ok :: _ =>
      (Some match ok, err with
            | true, Some e => StreamErr e
            | _, _ => StreamEOF
            end, s)
  | EvMessage event ok answer :: rest =>
      if negb ok then (Some StreamEOF, s)
      else consumeEvents handle rest (handle event answer s)
  end.

(** [func (dw *DockerWatcher) watchEvents() error]. *)
Definition watchEvents (firings : list (stream_event E daemon_answer))
    (dw : DockerWatcher) (w : W) : option (stream_result E) * (DockerWatcher * W) :=
  if negb (dw_client dw) then (Some StreamNil, (dw, w))
  else consumeEvents handleEvent firings (dw, w).

(** *** The connection loop *)

(** [func (dw *DockerWatcher) Start(ctx context.Context) error]. *)
Definition DockerWatcher_Start (dw : DockerWatcher) : DockerWatcher :=
  if dw_running dw then dw
  else mkDockerWatcher (dw_dockerSocket dw) (dw_hostIP dw) (dw_labels dw) (dw_callback dw)
         (dw_client dw) true false (S (dw_wg dw)) (dw_containers dw).

(** [func (dw *DockerWatcher) Stop()], up to the wait and after it. *)
Definition DockerWatcher_Stop_cancel (dw : DockerWatcher) : DockerWatcher :=
  if negb (dw_running dw) then dw
  else mkDockerWatcher (dw_dockerSocket dw) (dw_hostIP dw) (dw_labels dw) (dw_callback dw)
         (dw_client dw) false true (dw_wg dw) (dw_containers dw).
Definition closeClient (dw : DockerWatcher) : DockerWatcher := set_client false dw.

(** [func (dw *DockerWatcher) connect() error]: creating the client or the ping
    can fail, and the client is set only when both succeed. *)
Inductive connect_outcome := NewClientFails (e : E) | PingFails (e : E) | Connected.
Definition connect (o : connect_outcome) (dw : DockerWatcher) : result E DockerWatcher :=
  match o with
  | NewClientFails e => Err e
  | PingFails e => Err e
  | Connected => Ok (set_client true dw)
  end.

(** What the environment does during one turn of watchLoop. *)
Record turn := mkTurn {
  t_ctx_done : bool;
  t_connect : connect_outcome;
  t_listing : result E (list (Summary * Z));
  t_rng : gmap string (list string) → list (string * list string);
  t_now : Z;
  t_firings : list (stream_event E daemon_answer);
}.

(** How a turn ends: the goroutine returns; it goes on, after calling [sleep]
    with a duration (cut short when the context is cancelled) or not; or it is
    still inside watchEvents. *)
Inductive turn_end :=
| LoopReturns
| LoopGoesOn (slept : option Z) (backoff : Z)
| LoopWaits.

(** One turn of [func (dw *DockerWatcher) watchLoop()]. *)
Definition watch_turn (t : turn) (dw : DockerWatcher) (w : W) (backoff : Z)
    : turn_end * (DockerWatcher * W) :=
  if t_ctx_done t then (LoopReturns, (wg_Done dw, w))
  else match connect (t_connect t) dw with
       | Err _ => (LoopGoesOn (Some backoff) (nextBackoff backoff maxBackoff), (dw, w))
       | Ok dw =>
           let backoff := time_Second in
           match syncContainers (t_rng t) dw w (t_listing t) (t_now t) with
           | Err _ =>
               (LoopGoesOn (Some backoff) (nextBackoff backoff maxBackoff), (closeClient dw, w))
           | Ok (dw, w) =>
               match watchEvents (t_firings t) dw w with
               | (None, s) => (LoopWaits, s)
               | (Some StreamNil, s) => (LoopGoesOn None backoff, s)
               | (Some _, (dw, w)) =>
                   (LoopGoesOn (Some backoff) (nextBackoff backoff maxBackoff),
                    (closeClient dw, w))
               end
           end
       end.

(** The loop over a sequence of turns, with the list of its sleeps. *)
Fixpoint watchLoop (turns : list turn) (dw : DockerWatcher) (w : W) (backoff : Z)
    : list (option Z) * (DockerWatcher * W) :=
  match turns with
  | [] => ([], (dw, w))
  | t :: turns =>
      match watch_turn t dw w backoff with
      | (LoopGoesOn slept backoff, (dw, w)) =>
          let (l, s) := watchLoop turns dw w backoff in (slept :: l, s)
      | (_, s) => ([], s)
      end
  end.
End watcher.
