(* ===== verification/WatcherSpec.v ===== *)
(** * WatcherSpec: what the Docker watcher guarantees

    Extraction of hostnames from labels, the diff of updateContainer, the
    invariant that ties the record store to the tracked containers, its limits
    when containers share a name, and the pacing of the connection loop. *)

From stdpp Require Import gmap strings list fin_maps.
From Stdlib Require Import ZArith NArith Lia Ascii.
From S2P Require Import Prelude GoStrings Message Records Watcher.

(** ** Hostnames from labels *)

Section extraction.
Context `{UnicodeCase} (IsDomainName : string → bool) `{RecordsWorld W}.
Implicit Types (st : gset string * list string) (labels : gmap string string).
Implicit Types (dw : DockerWatcher (W := W)).
Abbreviation valid := (isValidHostname IsDomainName).

Lemma valid_not_empty (h : string) : valid h = true → h ≠ EmptyString.
Proof. by intros Hv ->. Qed.

Lemma valid_syntax (h : string) :
  valid h = true →
  1 ≤ String.length h ≤ 253 ∧ all_bytes hostname_byte h = true ∧ IsDomainName h = true.
Proof.
  unfold isValidHostname. destruct (_ || _) eqn:Hlen; [done|].
  apply orb_false_iff in Hlen as [?%bool_decide_eq_false ?%bool_decide_eq_false].
  destruct (all_bytes hostname_byte h); simpl; [|done]. intros ->. split_and!; [lia|lia|done..].
Qed.

(** The loop state: [seen] is the set of the collected names, which are valid
    and distinct. *)
Definition extract_ok st : Prop :=
  st.1 = list_to_set st.2 ∧ NoDup st.2 ∧ Forall (λ h, valid h = true) st.2.

Lemma extract_part_ok st part :
  extract_ok st →
  extract_ok (extract_part IsDomainName st part) ∧
  ∀ h, h ∈ (extract_part IsDomainName st part).2 ↔
    h ∈ st.2 ∨ TrimSpace part = h ∧ valid h = true.
Proof.
  intros (Hseen & Hnd & Hv). unfold extract_part. destruct st as [seen hs]. simpl in *.
  destruct (bool_decide_reflect (TrimSpace part = EmptyString)) as [He|He]; simpl.
  { split; [done|]. intros h. split; [auto|]. intros [?|[<- Hval]]; [done|].
    by apply valid_not_empty in Hval. }
  destruct (bool_decide_reflect (TrimSpace part ∈ seen)) as [Hs|Hs]; simpl.
  { split; [done|]. intros h. split; [auto|]. intros [?|[<- Hval]]; [done|].
    subst seen. by rewrite elem_of_list_to_set in Hs. }
  destruct (valid (TrimSpace part)) eqn:Hval; simpl.
  - split; [|intros h; rewrite elem_of_app, list_elem_of_singleton; naive_solver].
    unfold extract_ok. simpl. split_and!.
    + subst seen. rewrite list_to_set_app_L. simpl. set_solver.
    + apply NoDup_app. split_and!; [done| |apply NoDup_singleton].
      intros x Hx ->%list_elem_of_singleton. apply Hs. subst seen. by apply elem_of_list_to_set.
    + by apply Forall_app_2; [|constructor].
  - split; [done|]. intros h. split; [auto|]. intros [?|[<- Hval']]; [done|congruence].
Qed.

Lemma extract_parts_ok st (parts : list string) :
  extract_ok st →
  extract_ok (foldl (extract_part IsDomainName) st parts) ∧
  ∀ h, h ∈ (foldl (extract_part IsDomainName) st parts).2 ↔
    h ∈ st.2 ∨ ∃ part, part ∈ parts ∧ TrimSpace part = h ∧ valid h = true.
Proof.
  revert st. induction parts as [|p parts IH]; intros st Hok; simpl.
  { split; [done|]. set_solver. }
  destruct (extract_part_ok st p Hok) as [Hok' Hin]. destruct (IH _ Hok') as [Hok'' Hin'].
  split; [done|]. intros h. rewrite Hin', Hin. setoid_rewrite elem_of_cons. naive_solver.
Qed.

Lemma extract_labels_ok labels st (names : list string) :
  extract_ok st →
  extract_ok (foldl (extract_label IsDomainName labels) st names) ∧
  ∀ h, h ∈ (foldl (extract_label IsDomainName labels) st names).2 ↔
    h ∈ st.2 ∨ ∃ name value part, name ∈ names ∧ labels !! name = Some value ∧
      part ∈ Split value "," ∧ TrimSpace part = h ∧ valid h = true.
Proof.
  revert st. induction names as [|n names IH]; intros st Hok; simpl.
  { split; [done|]. set_solver. }
  assert (extract_ok (extract_label IsDomainName labels st n) ∧
    ∀ h, h ∈ (extract_label IsDomainName labels st n).2 ↔
      h ∈ st.2 ∨ ∃ value part, labels !! n = Some value ∧
        part ∈ Split value "," ∧ TrimSpace part = h ∧ valid h = true) as [Hok' Hin].
  { unfold extract_label. destruct (labels !! n) as [v|]; [|naive_solver].
    destruct (extract_parts_ok st (Split v ",") Hok) as [Hok' Hin].
    split; [done|]. intros h. rewrite Hin. naive_solver. }
  destruct (IH _ Hok') as [Hok'' Hin']. split; [done|].
  intros h. rewrite Hin', Hin. setoid_rewrite elem_of_cons. naive_solver.
Qed.

(** C24: extractHostnames yields, without repetition, exactly the trimmed
    comma-separated pieces of the configured labels that are valid hostnames;
    each of them is 1 to 253 bytes of letters, digits, hyphens and dots and a
    domain name, so no other label content reaches the record store. *)
Theorem extractHostnames_spec dw labels :
  let hs := extractHostnames IsDomainName dw labels in
  NoDup hs ∧
  (∀ h, h ∈ hs ↔ ∃ name value part, name ∈ dw_labels dw ∧ labels !! name = Some value ∧
     part ∈ Split value "," ∧ TrimSpace part = h ∧ isValidHostname IsDomainName h = true) ∧
  (∀ h, h ∈ hs → 1 ≤ String.length h ≤ 253 ∧ all_bytes hostname_byte h = true ∧
     IsDomainName h = true).
Proof.
  destruct (extract_labels_ok labels (∅, []) (dw_labels dw)) as [(_ & Hnd & Hv) Hin].
  { split_and!; [done|constructor|constructor]. }
  split_and!; [done| |].
  - intros h. unfold extractHostnames. rewrite Hin. set_solver.
  - intros h Hh. apply valid_syntax. rewrite Forall_forall in Hv. by apply Hv.
Qed.
End extraction.

(** ** The diff of updateContainer *)

Section diff.
Context `{UnicodeCase} `{RecordsWorld W}.
Implicit Types (dw : DockerWatcher (W := W)) (w : W) (r : Records) (l hs : list string).

Definition removes w l : W := foldl (λ w h, rec_Remove h w) w l.
Definition adds (ip : string) w l : W := foldl (λ w h, rec_Add h ip w) w l.

(** Names of the first list that are not in the second. *)
Definition minus l1 l2 : list string := filter (λ h, h ∉ l2) l1.

Lemma remove_loop (keep : gset string) w l acc :
  foldl (λ '(w, removed) h,
    if bool_decide (h ∈ keep) then (w, removed) else (rec_Remove h w, removed ++ [h]))
    (w, acc) l =
  (removes w (filter (λ h, h ∉ keep) l), acc ++ filter (λ h, h ∉ keep) l).
Proof.
  revert w acc. induction l as [|h l IH]; intros w acc; simpl; [by rewrite app_nil_r|].
  rewrite filter_cons. destruct (decide (h ∈ keep)).
  - rewrite bool_decide_eq_true_2, decide_False by naive_solver. apply IH.
  - rewrite bool_decide_eq_false_2, decide_True, IH by done. by rewrite <-app_assoc.
Qed.

Lemma add_loop (known : gset string) ip w l acc :
  foldl (λ '(w, added) h,
    if bool_decide (h ∈ known) then (w, added) else (rec_Add h ip w, added ++ [h]))
    (w, acc) l =
  (adds ip w (filter (λ h, h ∉ known) l), acc ++ filter (λ h, h ∉ known) l).
Proof.
  revert w acc. induction l as [|h l IH]; intros w acc; simpl; [by rewrite app_nil_r|].
  rewrite filter_cons. destruct (decide (h ∈ known)).
  - rewrite bool_decide_eq_true_2, decide_False by naive_solver. apply IH.
  - rewrite bool_decide_eq_false_2, decide_True, IH by done. by rewrite <-app_assoc.
Qed.

Lemma filter_list_to_set l1 l2 :
  filter (λ h, h ∉ (list_to_set l2 : gset string)) l1 = minus l1 l2.
Proof. apply list_filter_iff. intros h. by rewrite elem_of_list_to_set. Qed.

(** The world after one update, and what the callback is told. *)
Definition tell dw (now : Z) (removed added : list string) w : W :=
  match dw_callback dw with
  | None => w
  | Some cb => notify_all cb (dw_hostIP dw) true now added
                 (notify_all cb EmptyString false now removed w)
  end.

Lemma updateContainer_eq dw w id new now :
  let old := default [] (dw_containers dw !! id) in
  updateContainer dw w id new now =
    (set_containers (<[id := new]> (dw_containers dw)) dw,
     tell dw now (minus old new) (minus new old)
       (adds (dw_hostIP dw) (removes w (minus old new)) (minus new old))).
Proof.
  unfold updateContainer, tell. rewrite remove_loop. simpl. rewrite add_loop. simpl.
  rewrite !filter_list_to_set. by destruct (dw_callback dw).
Qed.

Lemma get_removes w l : get_records (removes w l) = foldl Remove (get_records w) l.
Proof.
  revert w. induction l as [|h l IH]; intros w; simpl; [done|].
  rewrite IH. unfold rec_Remove. by rewrite get_set_records.
Qed.

Lemma get_adds ip w l :
  get_records (adds ip w l) = foldl (λ r h, Add r h ip) (get_records w) l.
Proof.
  revert w. induction l as [|h l IH]; intros w; simpl; [done|].
  rewrite IH. unfold rec_Add. by rewrite get_set_records.
Qed.

Lemma data_removes r l k :
  data (foldl Remove r l) !! k = if decide (k ∈ ToLower <$> l) then None else data r !! k.
Proof.
  revert r. induction l as [|h l IH]; intros r; [done|]. cbn [foldl].
  rewrite IH, Remove_eq, fmap_cons. simpl. rewrite lookup_delete.
  destruct (decide (k ∈ ToLower <$> l)) as [Hin|Hin].
  - by rewrite decide_True by set_solver.
  - destruct (decide (ToLower h = k)) as [<-|Hne].
    + by rewrite decide_True by set_solver.
    + rewrite decide_False; [done|]. intros [->|?]%elem_of_cons; auto.
Qed.

Lemma data_adds ip r l k :
  data (foldl (λ r h, Add r h ip) r l) !! k =
    if decide (k ∈ ToLower <$> l) then Some ip else data r !! k.
Proof.
  revert r. induction l as [|h l IH]; intros r; [done|]. cbn [foldl].
  rewrite IH, Add_eq, fmap_cons. simpl. rewrite lookup_insert.
  destruct (decide (k ∈ ToLower <$> l)) as [Hin|Hin].
  - by rewrite decide_True by set_solver.
  - destruct (decide (ToLower h = k)) as [<-|Hne].
    + by rewrite decide_True by set_solver.
    + rewrite decide_False; [done|]. intros [->|?]%elem_of_cons; auto.
Qed.

Lemma meta_removes r l : meta (foldl Remove r l) = meta r.
Proof.
  revert r. induction l as [|h l IH]; intros r; [done|]. cbn [foldl].
  by rewrite IH, Remove_eq.
Qed.

Lemma meta_adds ip r l : meta (foldl (λ r h, Add r h ip) r l) = meta r.
Proof.
  revert r. induction l as [|h l IH]; intros r; [done|]. cbn [foldl].
  by rewrite IH, Add_eq.
Qed.

Lemma elem_of_minus h l1 l2 : h ∈ minus l1 l2 ↔ h ∈ l1 ∧ h ∉ l2.
Proof. unfold minus. rewrite list_elem_of_filter. tauto. Qed.

(** updateContainer publishes the difference between the container's old and
    new hostnames.  Before the callback runs, the names that are new resolve to
    the host IP, the names that are gone resolve to nothing, every other name
    keeps its answer, and no metadata changes; then the callback is told of the
    removed names and after them of the added ones, all with the same timestamp,
    and the container is tracked with its new names. *)
Theorem updateContainer_diff dw w id new now :
  let old := default [] (dw_containers dw !! id) in
  let removed := filter (λ h, h ∉ new) old in
  let added := filter (λ h, h ∉ old) new in
  ∃ w',
    updateContainer dw w id new now =
      (set_containers (<[id := new]> (dw_containers dw)) dw,
       match dw_callback dw with
       | None => w'
       | Some cb => foldl (λ w h, cb h (dw_hostIP dw) true now w)
                      (foldl (λ w h, cb h EmptyString false now w) w' removed) added
       end) ∧
    meta (get_records w') = meta (get_records w) ∧
    ∀ h, Lookup (get_records w') h =
      if decide (ToLower h ∈ ToLower <$> added) then Some (dw_hostIP dw)
      else if decide (ToLower h ∈ ToLower <$> removed) then None
      else Lookup (get_records w) h.
Proof.
  intros old removed added. exists (adds (dw_hostIP dw) (removes w removed) added).
  split_and!.
  - by rewrite updateContainer_eq.
  - by rewrite get_adds, meta_adds, get_removes, meta_removes.
  - intros h. unfold Lookup. by rewrite get_adds, data_adds, get_removes, data_removes.
Qed.
End diff.

(** ** The store mirrors the tracked containers *)

Section mirror.
Context `{UnicodeCase} `{RecordsWorld W}.
Implicit Types (dw : DockerWatcher (W := W)) (w : W) (cs : gmap string (list string)).

(** Some tracked container has a hostname with the lower-cased form [k]. *)
Definition published cs (k : string) : Prop :=
  ∃ id hs h, cs !! id = Some hs ∧ h ∈ hs ∧ ToLower h = k.

(** The store answers the host IP for the published names and nothing else. *)
Definition mirrors dw w : Prop :=
  ∀ k ip, data (get_records w) !! k = Some ip ↔ ip = dw_hostIP dw ∧ published (dw_containers dw) k.

(** Every name belongs to one container, and is spelled one way in it. *)
Definition owned (owner : string → string) (id : string) (hs : list string) : Prop :=
  (∀ h, h ∈ hs → owner (ToLower h) = id) ∧
  (∀ h1 h2, h1 ∈ hs → h2 ∈ hs → ToLower h1 = ToLower h2 → h1 = h2).
Lemma owned_alt owner id hs :
  Forall (λ h, owner (ToLower h) = id) hs ∧
  Forall (λ h1, Forall (λ h2, ToLower h1 = ToLower h2 → h1 = h2) hs) hs ↔ owned owner id hs.
Proof.
  unfold owned. rewrite !Forall_forall. setoid_rewrite Forall_forall.
  split; intros [H1 H2]; split; eauto.
Qed.
#[global] Instance owned_dec owner id hs : Decision (owned owner id hs).
Proof.
  refine (cast_if (decide (Forall (λ h, owner (ToLower h) = id) hs ∧
    Forall (λ h1, Forall (λ h2, ToLower h1 = ToLower h2 → h1 = h2) hs) hs)));
    [by apply owned_alt|by rewrite <-owned_alt].
Defined.
Definition all_owned (owner : string → string) cs : Prop := map_Forall (owned owner) cs.

Definition watcher_inv (owner : string → string) (s : DockerWatcher (W := W) * W) : Prop :=
  dw_callback s.1 = None ∧ mirrors s.1 s.2 ∧ all_owned owner (dw_containers s.1).

Lemma data_updated dw w id new now k :
  dw_callback dw = None →
  let old := default [] (dw_containers dw !! id) in
  data (get_records (updateContainer dw w id new now).2) !! k =
    if decide (k ∈ ToLower <$> minus new old) then Some (dw_hostIP dw)
    else if decide (k ∈ ToLower <$> minus old new) then None
    else data (get_records w) !! k.
Proof.
  intros Hcb old. rewrite updateContainer_eq. unfold tell. simpl. rewrite Hcb.
  by rewrite get_adds, data_adds, get_removes, data_removes.
Qed.

(** The plain way to update a container: withdraw all its old names and publish
    all its new ones. *)
Definition rebuild (ip : string) (r : Records) (old new : list string) : Records :=
  foldl (λ r h, Add r h ip) (foldl Remove r old) new.

(** C17: The incremental update of a container, without clustering and with the
    names it keeps resolving to the host IP, leaves the same answers as withdrawing
    all its old names and publishing all its new ones, exactly when no name it
    keeps differs only in case from one it drops (and from none it adds); where one
    does, dropping the one spelling takes the record of the other with it. *)
Theorem update_equals_rebuild dw w id new now :
  dw_callback dw = None →
  let old := default [] (dw_containers dw !! id) in
  (∀ h, h ∈ old → h ∈ new → Lookup (get_records w) h = Some (dw_hostIP dw)) →
  (∀ h, Lookup (get_records (updateContainer dw w id new now).2) h =
        Lookup (rebuild (dw_hostIP dw) (get_records w) old new) h) ↔
  (∀ kept dropped, kept ∈ old → kept ∈ new → dropped ∈ old → dropped ∉ new →
     ToLower kept = ToLower dropped → ∃ added, added ∈ new ∧ added ∉ old ∧ ToLower added = ToLower kept).
Proof.
  intros Hcb old Hkept.
  assert (∀ (l : list string) k, k ∈ ToLower <$> l ↔ ∃ h, h ∈ l ∧ ToLower h = k) as Hkeys.
  { intros l k. rewrite list_elem_of_fmap. naive_solver. }
  unfold Lookup, rebuild in *.
  pose proof (λ k, data_updated dw w id new now k Hcb) as Hu. fold old in Hu.
  assert (∀ k, data (foldl (λ r h, Add r h (dw_hostIP dw)) (foldl Remove (get_records w) old) new) !! k =
    if decide (k ∈ ToLower <$> new) then Some (dw_hostIP dw)
    else if decide (k ∈ ToLower <$> old) then None else data (get_records w) !! k) as Hr
    by (intros k; by rewrite data_adds, data_removes).
  setoid_rewrite Hu. setoid_rewrite Hr. split.
  - intros Heq kept dropped Hk1 Hk2 Hd1 Hd2 Hkd. specialize (Heq kept).
    rewrite (decide_True (P := ToLower kept ∈ ToLower <$> new)) in Heq by (apply Hkeys; eauto).
    destruct (decide (ToLower kept ∈ ToLower <$> minus new old)) as [Hin|_].
    + apply Hkeys in Hin as (h & [? ?]%elem_of_minus & ?). eauto.
    + rewrite decide_True in Heq; [done|]. apply Hkeys. exists dropped. by rewrite elem_of_minus.
  - intros Hcase h. destruct (decide (ToLower h ∈ ToLower <$> minus new old)) as [Hin|Hno].
    { rewrite decide_True; [done|]. apply Hkeys in Hin as (h' & [? _]%elem_of_minus & ?). apply Hkeys. eauto. }
    assert (∀ h', h' ∈ new → ToLower h' = ToLower h → h' ∈ old) as Hold.
    { intros h' Hn Hk. destruct (decide (h' ∈ old)); [done|]. destruct Hno. apply Hkeys.
      exists h'. by rewrite elem_of_minus. }
    destruct (decide (ToLower h ∈ ToLower <$> new)) as [(kept & Hn & Hk)%Hkeys|Hnew].
    + pose proof (Hold kept Hn Hk) as Ho. rewrite decide_False; [by rewrite <-Hk; apply Hkept|].
      intros (dropped & [Hd1 Hd2]%elem_of_minus & Hdk)%Hkeys.
      destruct (Hcase kept dropped) as (added & Ha1 & Ha2 & Hak); [done..|congruence|].
      apply Ha2, Hold; [done|congruence].
    + apply decide_ext. rewrite !Hkeys. setoid_rewrite elem_of_minus. split; [naive_solver|].
      intros (h' & Ho & Hk). exists h'. split; [|done]. split; [done|]. intros Hn.
      apply Hnew, Hkeys. eauto.
Qed.

Lemma published_insert owner cs id new k :
  all_owned owner cs →
  let old := default [] (cs !! id) in
  published (<[id := new]> cs) k ↔
    k ∈ ToLower <$> minus new old ∨
    k ∉ ToLower <$> minus old new ∧ published cs k.
Proof.
  intros Hown old.
  assert (∀ h, h ∈ old → cs !! id = Some old) as Hold.
  { subst old. intros h. destruct (cs !! id); simpl; [done|]. by intros ?%elem_of_nil. }
  setoid_rewrite list_elem_of_fmap. setoid_rewrite elem_of_minus. split.
  - intros (id' & hs & h & Hid & Hin & Hk).
    apply lookup_insert_Some in Hid as [[<- <-]|[Hne Hid]].
    + destruct (decide (h ∈ old)) as [Ho|Ho]; [right|left; by exists h].
      split; [|by exists id, old, h; eauto].
      intros (h2 & Hk2 & Hin2 & Hnew2). destruct Hnew2.
      destruct (Hown id old (Hold h Ho)) as [_ Huniq].
      by rewrite <-(Huniq h h2) by congruence.
    + right. split; [|by exists id', hs, h].
      intros (h2 & Hk2 & Hin2 & _). apply Hne.
      rewrite <-(proj1 (Hown id old (Hold h2 Hin2)) h2 Hin2).
      rewrite <-(proj1 (Hown id' hs Hid) h Hin). congruence.
  - intros [(h & -> & Hin & _)|[Hno (id' & hs & h & Hid & Hin & <-)]].
    + exists id, new, h. by rewrite lookup_insert_eq.
    + destruct (decide (id' = id)) as [->|Hne].
      * assert (hs = old) as -> by (subst old; by rewrite Hid).
        exists id, new, h. rewrite lookup_insert_eq. split_and!; [done| |done].
        destruct (decide (h ∈ new)); [done|]. destruct Hno. by exists h.
      * exists id', hs, h. by rewrite lookup_insert_ne.
Qed.

Lemma updateContainer_inv owner dw w id new now :
  watcher_inv owner (dw, w) → owned owner id new →
  watcher_inv owner (updateContainer dw w id new now).
Proof.
  intros (Hcb & Hm & Hown) Hnew.
  destruct (updateContainer dw w id new now) as [dw' w'] eqn:Hu.
  assert (dw' = set_containers (<[id := new]> (dw_containers dw)) dw) as ->.
  { rewrite updateContainer_eq in Hu. by simplify_eq. }
  split_and!; simpl; [done| |by apply map_Forall_insert_2].
  intros k ip. simpl in *. rewrite (published_insert owner) by done.
  replace w' with (updateContainer dw w id new now).2 by (by rewrite Hu).
  rewrite data_updated by done. specialize (Hm k ip).
  repeat case_decide; naive_solver.
Qed.

Lemma published_delete owner cs id hs k :
  all_owned owner cs → cs !! id = Some hs →
  published (delete id cs) k ↔ k ∉ ToLower <$> hs ∧ published cs k.
Proof.
  intros Hown Hhs. setoid_rewrite list_elem_of_fmap. split.
  - intros (id' & hs' & h & [Hne Hid]%lookup_delete_Some & Hin & Hk).
    split; [|by exists id', hs', h]. intros (h2 & Hk2 & Hin2). apply Hne.
    rewrite <-(proj1 (Hown id hs Hhs) h2 Hin2), <-(proj1 (Hown id' hs' Hid) h Hin). congruence.
  - intros [Hno (id' & hs' & h & Hid & Hin & <-)]. exists id', hs', h. split_and!; [|done..].
    apply lookup_delete_Some. split; [|done]. intros ->. destruct Hno.
    simplify_eq. by exists h.
Qed.

Lemma drop_container_inv owner dw w id hs :
  watcher_inv owner (dw, w) → dw_containers dw !! id = Some hs →
  watcher_inv owner (set_containers (delete id (dw_containers dw)) dw, removes w hs).
Proof.
  intros (Hcb & Hm & Hown) Hhs. simpl in *. split_and!; simpl; [done| |by apply map_Forall_delete].
  intros k ip. simpl. rewrite (published_delete owner _ _ hs) by done.
  rewrite get_removes, data_removes. specialize (Hm k ip). case_decide; naive_solver.
Qed.

Lemma handleContainerStop_inv owner dw w id now :
  watcher_inv owner (dw, w) → watcher_inv owner (handleContainerStop dw w id now).
Proof.
  intros Hinv. unfold handleContainerStop.
  destruct (dw_containers dw !! id) as [hs|] eqn:Hhs; [|done].
  pose proof (drop_container_inv owner dw w id hs Hinv Hhs) as Hinv'.
  simpl. by rewrite (proj1 Hinv : dw_callback dw = None).
Qed.
End mirror.

(** ** Synchronization *)

Section sync.
Context `{UnicodeCase} (IsDomainName : string → bool) {E : Type} `{RecordsWorld W}.
Implicit Types (dw : DockerWatcher (W := W)) (w : W) (s : DockerWatcher (W := W) * W).
Implicit Types (items : list (Summary * Z)) (lbls : list string).

(** The hostnames of a container under the configured labels. *)
Definition names lbls (labels : gmap string string) : list string :=
  (foldl (extract_label IsDomainName labels) (∅, []) lbls).2.

(** What a listing says should be tracked: the named containers. *)
Definition listed_step lbls (cs : gmap string (list string)) (it : Summary * Z) :=
  match names lbls (sum_Labels it.1) with
  | [] => cs
  | hs => <[sum_ID it.1 := hs]> cs
  end.
Definition listed lbls items : gmap string (list string) := foldl (listed_step lbls) ∅ items.

Lemma updateContainer_fst dw w id new now :
  (updateContainer dw w id new now).1 = set_containers (<[id := new]> (dw_containers dw)) dw.
Proof. by rewrite updateContainer_eq. Qed.

Lemma applyContainerSummary_fst dw w c now :
  let '(ok, s) := applyContainerSummary IsDomainName dw w c now in
  s.1 = set_containers (listed_step (dw_labels dw) (dw_containers dw) (c, now)) dw ∧
  ok = bool_decide (names (dw_labels dw) (sum_Labels c) ≠ []).
Proof.
  unfold applyContainerSummary, listed_step. simpl.
  fold (names (dw_labels dw) (sum_Labels c)).
  change (extractHostnames IsDomainName dw (sum_Labels c))
    with (names (dw_labels dw) (sum_Labels c)).
  destruct (names (dw_labels dw) (sum_Labels c)) as [|h hs]; simpl.
  - split; [by destruct dw|done].
  - split; [by rewrite updateContainer_fst|done].
Qed.

(** The ids a listing gives names to. *)
Definition named_ids lbls items : gset string :=
  list_to_set ((λ it, sum_ID it.1) <$>
    filter (λ it, names lbls (sum_Labels it.1) ≠ []) items).

Lemma sync_apply_fold (seen : gset string) dw w items :
  let '(seen', s) := foldl (λ '(seen, (dw, w)) '(c, now),
    let '(ok, s) := applyContainerSummary IsDomainName dw w c now in
    (if (ok : bool) then {[sum_ID c]} ∪ seen else seen, s)) (seen, (dw, w)) items in
  s.1 = set_containers (foldl (listed_step (dw_labels dw)) (dw_containers dw) items) dw ∧
  seen' = seen ∪ named_ids (dw_labels dw) items.
Proof.
  revert seen dw w. induction items as [|[c now] items IH]; intros seen dw w.
  { simpl. split; [by destruct dw|]. unfold named_ids. set_solver. }
  cbn [foldl]. pose proof (applyContainerSummary_fst dw w c now) as Hc.
  destruct (applyContainerSummary IsDomainName dw w c now) as [ok [dw1 w1]].
  simpl in Hc. destruct Hc as [-> ->].
  match goal with |- context [foldl ?f (?sn, (?d, w1)) items] => specialize (IH sn d w1) end.
  destruct (foldl _ _ items) as [seen' s']. simpl in IH. destruct IH as [Hs ->].
  split; [by rewrite Hs; destruct dw|].
  unfold named_ids. rewrite filter_cons. simpl.
  destruct (decide (names (dw_labels dw) (sum_Labels c) ≠ [])).
  - rewrite bool_decide_eq_true_2 by done. simpl. set_solver.
  - by rewrite bool_decide_eq_false_2 by done.
Qed.

Lemma sync_apply_fst dw w items :
  let '(seen, s) := sync_apply IsDomainName dw w items in
  s.1 = set_containers (foldl (listed_step (dw_labels dw)) (dw_containers dw) items) dw ∧
  seen = named_ids (dw_labels dw) items.
Proof.
  pose proof (sync_apply_fold ∅ dw w items) as Hs. unfold sync_apply.
  destruct (foldl _ _ items) as [seen s]. destruct Hs as [? Hseen]. split; [done|].
  by rewrite Hseen, (left_id_L ∅ (∪)).
Qed.

Lemma listed_lookup lbls cs items id :
  foldl (listed_step lbls) cs items !! id =
    if decide (id ∈ named_ids lbls items) then listed lbls items !! id else cs !! id.
Proof.
  unfold listed. induction items as [|it items IH] using rev_ind.
  { simpl. by rewrite decide_False. }
  rewrite !foldl_app. cbn [foldl]. unfold named_ids in *.
  rewrite filter_app, fmap_app, list_to_set_app_L. unfold listed_step at 1 3.
  destruct (names lbls (sum_Labels it.1)) as [|h hs] eqn:Hn.
  - rewrite filter_cons_False by (rewrite Hn; by intros []).
    simpl. rewrite (right_id_L ∅ (∪)). apply IH.
  - rewrite filter_cons_True by (by rewrite Hn).
    simpl. rewrite (right_id_L ∅ (∪)), !lookup_insert.
    destruct (decide (sum_ID it.1 = id)) as [<-|]; [by rewrite decide_True by set_solver|].
    rewrite IH. apply decide_ext. set_solver.
Qed.

Lemma listed_named lbls items id :
  id ∉ named_ids lbls items → listed lbls items !! id = None.
Proof.
  unfold listed. intros Hno. rewrite listed_lookup. by rewrite decide_False.
Qed.

(** Every listed entry comes from one of the items. *)
Lemma listed_inv lbls items id hs :
  listed lbls items !! id = Some hs →
  ∃ it, it ∈ items ∧ sum_ID it.1 = id ∧ names lbls (sum_Labels it.1) = hs ∧ hs ≠ [].
Proof.
  unfold listed. induction items as [|it items IH] using rev_ind; [done|].
  rewrite foldl_app. cbn [foldl]. unfold listed_step at 1.
  setoid_rewrite elem_of_app. setoid_rewrite list_elem_of_singleton.
  destruct (names lbls (sum_Labels it.1)) as [|h hs'] eqn:Hn.
  - intros Hl. destruct (IH Hl) as (it' & ? & ?). exists it'. auto.
  - rewrite lookup_insert. case_decide as Hid.
    + intros [= <-]. exists it. auto.
    + intros Hl. destruct (IH Hl) as (it' & ? & ?). exists it'. auto.
Qed.

(** The pruning loop from any accumulated state. *)
Definition prune_step (seen : gset string) (acc : DockerWatcher (W := W) * W * list string)
    (p : string * list string) : DockerWatcher (W := W) * W * list string :=
  let '(dw, w, removed) := acc in
  if bool_decide (p.1 ∈ seen) then (dw, w, removed)
  else (set_containers (delete p.1 (dw_containers dw)) dw, removes w p.2, removed ++ p.2).

Lemma sync_prune_steps seen dw w l : sync_prune seen dw w l = foldl (prune_step seen) (dw, w, []) l.
Proof.
  unfold sync_prune. generalize (dw, w, @nil string). induction l as [|[id hs] l IH]; intros acc.
  - done.
  - cbn [foldl]. rewrite IH. by destruct acc as [[? ?] ?].
Qed.

Lemma prune_containers seen acc l id :
  let acc' := foldl (prune_step seen) acc l in
  acc'.1.1 = set_containers (dw_containers acc'.1.1) acc.1.1 ∧
  dw_containers acc'.1.1 !! id =
    if decide (id ∈ l.*1 ∧ id ∉ seen) then None else dw_containers acc.1.1 !! id.
Proof.
  revert acc. induction l as [|[id' hs] l IH]; intros [[dw w] rem].
  { cbn [foldl fst snd]. split; [by destruct dw|]. rewrite decide_False; [done|].
    by intros [?%elem_of_nil _]. }
  cbn [foldl prune_step fst snd].
  destruct (bool_decide_reflect (id' ∈ seen)) as [Hs|Hs].
  - destruct (IH (dw, w, rem)) as [H1 H2]. split; [done|]. rewrite H2.
    apply decide_ext. rewrite fmap_cons. set_solver.
  - destruct (IH (set_containers (delete id' (dw_containers dw)) dw, removes w hs, rem ++ hs))
      as [H1 H2].
    split; [rewrite H1 at 1; done|]. rewrite H2. simpl. rewrite lookup_delete.
    destruct (decide (id ∈ l.*1 ∧ id ∉ seen)) as [?|Hno]; [by rewrite decide_True by set_solver|].
    destruct (decide (id' = id)) as [->|]; [by rewrite decide_True by set_solver|].
    rewrite decide_False; [done|]. set_solver.
Qed.

(** A successful synchronization runs both loops. *)
Lemma syncContainers_Ok rng dw w items now s :
  dw_client dw = true →
  syncContainers IsDomainName rng dw w (@Ok E _ items) now = Ok s →
  let a := sync_apply IsDomainName dw w items in
  let p := foldl (prune_step a.1) (a.2.1, a.2.2, []) (rng (dw_containers a.2.1)) in
  s.1 = p.1.1 ∧ (dw_callback dw = None → s.2 = p.1.2).
Proof.
  intros Hcl. unfold syncContainers. rewrite Hcl. simpl.
  pose proof (sync_apply_fst dw w items) as Hfst.
  destruct (sync_apply IsDomainName dw w items) as [seen [dw1 w1]]. simpl in *.
  destruct Hfst as [-> _]. rewrite sync_prune_steps.
  match goal with |- context [foldl ?f ?a ?l] =>
    pose proof (prune_containers seen a l EmptyString) as [Hp _];
    destruct (foldl f a l) as [[dw2 w2] rem] eqn:Hf end.
  simpl in *. assert (dw_callback dw2 = dw_callback dw) as -> by (by rewrite Hp).
  destruct (bool_decide _), (dw_callback dw); intros [= <-]; done.
Qed.

Lemma syncContainers_containers rng dw w items now s :
  range_order rng → dw_client dw = true →
  syncContainers IsDomainName rng dw w (@Ok E _ items) now = Ok s →
  dw_containers s.1 = listed (dw_labels dw) items.
Proof.
  intros Hr Hcl Hs. destruct (syncContainers_Ok _ _ _ _ _ _ Hcl Hs) as [-> _].
  pose proof (sync_apply_fst dw w items) as Hfst.
  destruct (sync_apply IsDomainName dw w items) as [seen [dw1 w1]]. simpl in *.
  destruct Hfst as [-> ->]. simpl. apply map_eq. intros id.
  match goal with |- dw_containers (foldl ?f ?a ?l).1.1 !! _ = _ =>
    destruct (prune_containers (named_ids (dw_labels dw) items) a l id) as [_ ->] end.
  cbn [fst snd set_containers dw_containers]. rewrite listed_lookup.
  destruct (decide (id ∈ named_ids (dw_labels dw) items)) as [Hn|Hn].
  - by rewrite decide_False by tauto.
  - rewrite listed_named by done. case_decide as Hd; [done|].
    apply eq_None_not_Some. intros Hin. apply Hd. split; [|done].
    apply range_order_keys; [done|]. rewrite listed_lookup. by rewrite decide_False.
Qed.

Lemma listed_item lbls items it :
  NoDup ((λ it, sum_ID it.1) <$> items) → it ∈ items →
  names lbls (sum_Labels it.1) ≠ [] →
  listed lbls items !! sum_ID it.1 = Some (names lbls (sum_Labels it.1)).
Proof.
  unfold listed. induction items as [|it' items IH] using rev_ind; [by intros _ ?%elem_of_nil|].
  rewrite fmap_app, foldl_app. intros (Hnd & Hdis & _)%NoDup_app Hin Hne. cbn [foldl].
  apply elem_of_app in Hin as [Hin| ->%list_elem_of_singleton].
  - specialize (IH Hnd Hin Hne). unfold listed_step at 1.
    destruct (names lbls (sum_Labels it'.1)); [done|].
    rewrite lookup_insert_ne; [done|]. intros Heq.
    apply (Hdis (sum_ID it.1)); [apply list_elem_of_fmap; eauto|].
    rewrite <-Heq. by left.
  - unfold listed_step at 1. destruct (names lbls (sum_Labels it'.1)); [done|].
    by rewrite lookup_insert_eq.
Qed.

(** After a successful synchronization with a connected daemon the watcher
    tracks exactly the listed containers that have hostnames, each with the
    hostnames of its labels, whatever was tracked before and whatever order the
    tracked containers are visited in: a container that is gone, or that the
    listing shows without names, is forgotten. *)
Theorem syncContainers_tracks rng dw w items now s :
  range_order rng → dw_client dw = true →
  NoDup ((λ it, sum_ID it.1) <$> items) →
  syncContainers IsDomainName rng dw w (@Ok E _ items) now = Ok s →
  ∀ id hs, dw_containers s.1 !! id = Some hs ↔
    hs ≠ [] ∧ ∃ it, it ∈ items ∧ sum_ID it.1 = id ∧
      extractHostnames IsDomainName dw (sum_Labels it.1) = hs.
Proof.
  intros Hr Hcl Hnd Hs id hs.
  rewrite (syncContainers_containers rng dw w items now s Hr Hcl Hs). split.
  - intros (it & ? & ? & ? & ?)%listed_inv. split; [done|]. by exists it.
  - intros (Hne & it & Hin & <- & <-). by apply listed_item.
Qed.
End sync.
