(* ===== verification/WatchLoop.v ===== *)
(** * WatchLoop: the Docker watcher over its whole life

    Synchronization and events keep the store a mirror of the tracked
    containers as long as no two containers share a name; what is lost when they
    do; the pacing of the connection loop; starting and stopping. *)

From stdpp Require Import gmap strings list fin_maps.
From Stdlib Require Import ZArith NArith Lia Ascii.
From S2P Require Import Prelude GoStrings Message Records Watcher WatcherSpec.

(** ** The mirror over a run of the loop *)

Section loop.
Context `{UnicodeCase} (IsDomainName : string → bool) {E : Type} `{RecordsWorld W}.
Variable owner : string → string.
Variables (lbls : list string) (hostIP : string).
Implicit Types (dw : DockerWatcher (W := W)) (w : W) (s : DockerWatcher (W := W) * W).
Implicit Types (items : list (Summary * Z)) (t : turn (E := E)).
Abbreviation names := (names IsDomainName lbls).

(** The invariant of the loop: the mirror, under the configured labels. *)
Definition loop_inv s : Prop :=
  watcher_inv owner s ∧ dw_labels s.1 = lbls ∧ dw_hostIP s.1 = hostIP.

(** Inputs in which every name belongs to one container. *)
Definition item_owned (it : Summary * Z) : Prop :=
  owned owner (sum_ID it.1) (names (sum_Labels it.1)).
Definition firing_owned (f : stream_event E (daemon_answer (E := E))) : Prop :=
  match f with
  | EvMessage event _ (mkAnswer (Ok (Some labels)) _) => owned owner (ev_ActorID event) (names labels)
  | _ => True
  end.
Definition turn_owned t : Prop :=
  range_order (t_rng t) ∧
  match t_listing t with Ok items => Forall item_owned items | Err _ => True end ∧
  Forall firing_owned (t_firings t).

Lemma set_client_inv c dw w : loop_inv (dw, w) → loop_inv (set_client c dw, w).
Proof. by destruct dw. Qed.

#[local] Hint Resolve set_client_inv : joyride.

Lemma update_loop_inv dw w id labels now :
  loop_inv (dw, w) → owned owner id (names labels) →
  loop_inv (updateContainer dw w id (names labels) now).
Proof.
  intros [Hinv Hl] Ho. split; [by apply updateContainer_inv|].
  by rewrite updateContainer_eq.
Qed.

Lemma summary_inv dw w c now :
  loop_inv (dw, w) → item_owned (c, now) →
  loop_inv (applyContainerSummary IsDomainName dw w c now).2.
Proof.
  intros Hinv Ho. unfold applyContainerSummary, extractHostnames.
  assert (dw_labels dw = lbls) as -> by apply (proj2 Hinv). case_bool_decide; try done.
    by apply update_loop_inv.
Qed.

Lemma sync_apply_inv dw w items :
  loop_inv (dw, w) → Forall item_owned items →
  loop_inv (sync_apply IsDomainName dw w items).2.
Proof.
  unfold sync_apply. generalize (∅ : gset string) as seen. revert dw w.
  induction items as [|[c now] items IH]; intros dw w seen Hinv Hit; [done|].
  apply Forall_cons in Hit as [Hc Hit]. cbn [foldl].
  pose proof (summary_inv dw w c now Hinv Hc) as Hinv'.
  destruct (applyContainerSummary IsDomainName dw w c now) as [ok [dw1 w1]]. by apply IH.
Qed.

(** Pruning needs what it ranges over to be tracked. *)
Lemma prune_inv seen dw w rem (l : list (string * list string)) :
  loop_inv (dw, w) → NoDup l.*1 → (∀ p, p ∈ l → dw_containers dw !! p.1 = Some p.2) →
  loop_inv (foldl (prune_step seen) (dw, w, rem) l).1.
Proof.
  revert dw w rem. induction l as [|[id hs] l IH]; intros dw w rem Hinv Hnd Hl; [done|].
  apply NoDup_cons in Hnd as [Hid Hnd]. cbn [foldl prune_step fst snd].
  case_bool_decide; [apply IH; [done..|]; intros p Hp; apply Hl; by right|].
  apply IH; [|done|].
  - destruct Hinv as [Hinv ?]. split; [|done]. apply drop_container_inv; [done|].
    apply (Hl (id, hs)). by left.
  - intros p Hp. cbn [set_containers dw_containers]. rewrite lookup_delete_ne.
    + apply Hl. by right.
    + intros ->. apply Hid. apply list_elem_of_fmap. by exists p.
Qed.

Lemma sync_inv rng dw w items now s :
  range_order rng → dw_client dw = true → loop_inv (dw, w) → Forall item_owned items →
  syncContainers IsDomainName rng dw w (@Ok E _ items) now = Ok s → loop_inv s.
Proof.
  intros Hr Hcl Hinv Hit Hs.
  destruct (syncContainers_Ok IsDomainName _ _ _ _ _ _ Hcl Hs) as [Hs1 Hs2].
  pose proof (sync_apply_inv dw w items Hinv Hit) as Ha.
  destruct (sync_apply IsDomainName dw w items) as [seen [dw1 w1]]. cbn [fst snd] in *.
  specialize (Hs2 (proj1 (proj1 Hinv))).
  assert (NoDup (rng (dw_containers dw1)).*1) as Hnd.
  { rewrite (Hr _). apply NoDup_fst_map_to_list. }
  pose proof (prune_inv seen dw1 w1 [] _ Ha Hnd) as Hp.
  destruct s as [dw' w']. cbn [fst snd] in *. subst dw' w'.
  rewrite <-surjective_pairing. apply Hp. intros [id hs] Hin. rewrite (Hr _) in Hin.
  by apply elem_of_map_to_list.
Qed.

Lemma event_inv event ok answer s :
  loop_inv s → firing_owned (EvMessage event ok answer) →
  loop_inv (handleEvent IsDomainName event answer s).
Proof.
  destruct s as [dw w], answer as [inspect now]. intros Hinv Ho. unfold handleEvent. cbn.
  case_bool_decide.
  - unfold handleContainerStart. destruct (dw_client dw); [|done]. simpl.
    destruct inspect as [[labels|]|]; [|done..]. unfold applyContainerInspect, extractHostnames.
    assert (dw_labels dw = lbls) as -> by apply (proj2 Hinv). case_bool_decide; try done.
    by apply update_loop_inv.
  - destruct (_ || _); [|done]. destruct Hinv as [Hinv Hl].
    split; [by apply handleContainerStop_inv|].
    unfold handleContainerStop. by repeat case_match.
Qed.

Lemma consume_inv firings s :
  loop_inv s → Forall firing_owned firings →
  loop_inv (consumeEvents (handleEvent IsDomainName) firings s).2.
Proof.
  revert s. induction firings as [|f firings IH]; intros s Hinv Hf; [done|].
  apply Forall_cons in Hf as [Hf Hfs]. destruct f as [|err ok|event ok answer]; [done..|].
  simpl. destruct ok; [|done]. simpl. apply IH; [|done]. by apply (event_inv _ true).
Qed.

Lemma turn_inv t dw w backoff :
  loop_inv (dw, w) → turn_owned t →
  loop_inv (watch_turn IsDomainName t dw w backoff).2.
Proof.
  intros Hinv (Hr & Hlist & Hf). unfold watch_turn. destruct (t_ctx_done t); [by destruct dw|].
  destruct (t_connect t); simpl; [done..|].
  pose proof (set_client_inv true dw w Hinv) as Hinv1.
  destruct (t_listing t) as [items|e] eqn:Ht; [|auto with joyride].
  destruct (syncContainers _ _ _ _ _ _) as [[dw1 w1]|e] eqn:Hs; [|auto with joyride].
  pose proof (sync_inv _ (set_client true dw) _ _ _ _ Hr eq_refl Hinv1 Hlist Hs) as Hinv2.
  unfold watchEvents. destruct (dw_client dw1); [|done]. simpl.
  pose proof (consume_inv (t_firings t) (dw1, w1) Hinv2 Hf) as Hc.
  destruct (consumeEvents _ _ _) as [[[]|] [dw2 w2]]; auto with joyride.
Qed.

Lemma watchLoop_inv turns dw w backoff :
  loop_inv (dw, w) → Forall turn_owned turns →
  loop_inv (watchLoop IsDomainName turns dw w backoff).2.
Proof.
  revert dw w backoff. induction turns as [|t turns IH]; intros dw w backoff Hinv Ht; [done|].
  apply Forall_cons in Ht as [Ht Hts]. simpl. pose proof (turn_inv t dw w backoff Hinv Ht) as Hi.
  destruct (watch_turn _ t dw w backoff) as [[|slept b|] [dw1 w1]]; [done| |done].
  specialize (IH dw1 w1 b Hi Hts). by destruct (watchLoop _ turns dw1 w1 b).
Qed.
End loop.

(** C1: Over every run of the watch loop of a watcher without clustering, whatever
    the daemon and the clock answer and wherever the run is cut, the record store
    answers the host IP for exactly the names of the tracked containers and
    nothing for any other name, provided no two containers (and no two spellings
    in one container) share a name: failed connections, failed listings, lost
    event streams and reconnections never leave a stale or a missing record. *)
Theorem watchLoop_mirrors `{UnicodeCase} (IsDomainName : string → bool) {E : Type}
    `{RecordsWorld W} owner socket hostIP lbls (w : W) (turns : list (turn (E := E))) backoff :
  data (get_records w) = ∅ →
  Forall (turn_owned IsDomainName owner lbls) turns →
  let s := (watchLoop IsDomainName turns (NewDockerWatcher socket hostIP lbls) w backoff).2 in
  ∀ h ip, Lookup (get_records s.2) h = Some ip ↔
    ip = hostIP ∧ ∃ id hs h', dw_containers s.1 !! id = Some hs ∧ h' ∈ hs ∧ ToLower h' = ToLower h.
Proof.
  intros Hempty Hturns s.
  destruct (watchLoop_inv IsDomainName owner lbls hostIP turns
    (NewDockerWatcher socket hostIP lbls) w backoff) as ((_ & Hm & _) & _ & Hip); [|done|].
  { split_and!; [|done..]. split_and!; [done| |by apply map_Forall_empty].
    intros k ip. cbn [fst snd]. rewrite Hempty, lookup_empty. split; [done|].
    by intros (_ & id & hs & h & Hl & _). }
  intros h ip. rewrite <-Hip. apply Hm.
Qed.

(** C19: A watcher without a callback, whose store answers for exactly its tracked
    containers, synchronizes with a connected daemon whose listing has distinct
    container ids, and every name belongs to one container (and has one spelling in
    it) among the tracked and the listed ones together.  Then a name resolves, to
    the host IP, exactly when a listed container carries it in its labels. *)
Theorem sync_resolves `{UnicodeCase} (IsDomainName : string → bool) {E : Type}
    `{RecordsWorld W} owner rng (dw : DockerWatcher (W := W)) (w : W)
    (items : list (Summary * Z)) now s :
  range_order rng → dw_client dw = true → watcher_inv owner (dw, w) →
  Forall (item_owned IsDomainName owner (dw_labels dw)) items →
  NoDup ((λ it, sum_ID it.1) <$> items) →
  syncContainers IsDomainName rng dw w (@Ok E _ items) now = Ok s →
  ∀ h ip, Lookup (get_records s.2) h = Some ip ↔
    ip = dw_hostIP dw ∧ ∃ it h', it ∈ items ∧
      h' ∈ extractHostnames IsDomainName dw (sum_Labels it.1) ∧ ToLower h' = ToLower h.
Proof.
  intros Hr Hcl Hinv Hit Hnd Hs h ip.
  assert (loop_inv owner (dw_labels dw) (dw_hostIP dw) (dw, w)) as Hl by done.
  destruct (sync_inv IsDomainName owner _ _ rng dw w items now s Hr Hcl Hl Hit Hs)
    as ((_ & Hm & _) & _ & Hip).
  unfold Lookup. rewrite (Hm (ToLower h) ip), Hip.
  rewrite (syncContainers_containers IsDomainName rng dw w items now s Hr Hcl Hs).
  split; intros [-> Hx]; (split; [done|]); revert Hx.
  - intros (id & hs & h' & Hid & Hin & Hk).
    apply listed_inv in Hid as (it & ? & _ & <- & _). by exists it, h'.
  - intros (it & h' & Hi & Hin & Hk).
    exists (sum_ID it.1), (names IsDomainName (dw_labels dw) (sum_Labels it.1)), h'.
    split_and!; [|done..]. apply listed_item; [done..|]. intros Hn. unfold names in Hn.
    unfold extractHostnames in Hin. rewrite Hn in Hin. by apply elem_of_nil in Hin.
Qed.

(** ** Names shared by containers *)

Section shared.
Context `{UnicodeCase} (IsDomainName : string → bool) {E : Type} `{RecordsWorld W}.
Implicit Types (dw : DockerWatcher (W := W)) (w : W) (s : DockerWatcher (W := W) * W).
Implicit Types (items : list (Summary * Z)).

(** A callback that publishes no other name than the one it is given: it makes
    [k] resolve only when it is told that a name with this key was added. *)
Definition names_only (k : string) (cb : RecordChangeCallback (W := W)) : Prop :=
  ∀ h ip (added : bool) ts w, (added = true → ToLower h ≠ k) →
    data (get_records w) !! k = None → data (get_records (cb h ip added ts w)) !! k = None.
Definition callback_ok (k : string) dw : Prop :=
  match dw_callback dw with Some cb => names_only k cb | None => True end.

(** [id] is tracked with names [hs] and [k] does not resolve. *)
Definition lost (k id : string) (hs : list string) s : Prop :=
  callback_ok k s.1 ∧ dw_containers s.1 !! id = Some hs ∧
  data (get_records s.2) !! k = None.

(** Labels under which [id] has the names [hs] and nobody else has [k]. *)
Definition same_names (lbls : list string) (k id : string) (hs : list string)
    (cid : string) (labels : gmap string string) : Prop :=
  let hs' := (foldl (extract_label IsDomainName labels) (∅, []) lbls).2 in
  (cid = id → hs' = hs) ∧ (cid ≠ id → k ∉ ToLower <$> hs').

Definition firing_keeps (lbls : list string) (k id : string) (hs : list string)
    (f : stream_event E (daemon_answer (E := E))) : Prop :=
  match f with
  | EvMessage event _ (mkAnswer inspect _) =>
      (ev_ActorID event = id → ev_Action event ≠ "stop" ∧ ev_Action event ≠ "die") ∧
      match inspect with
      | Ok (Some labels) => same_names lbls k id hs (ev_ActorID event) labels
      | _ => True
      end
  | _ => True
  end.

(** Inputs of the loop in which [id] goes on running with its names: every
    listing of a connected turn shows it, no event stops it, and [k] is nobody else's name. *)
Definition keeps_running (lbls : list string) (k id : string) (hs : list string) (t : turn (E := E)) : Prop :=
  match t_connect t, t_listing t with
  | Connected, Ok items => Forall (λ it, same_names lbls k id hs (sum_ID it.1) (sum_Labels it.1)) items ∧
                           ∃ it, it ∈ items ∧ sum_ID it.1 = id
  | _, _ => True
  end ∧
  Forall (firing_keeps lbls k id hs) (t_firings t).

Lemma notify_lost k cb ip (added : bool) ts hs w :
  names_only k cb → (added = true → k ∉ ToLower <$> hs) → data (get_records w) !! k = None →
  data (get_records (notify_all cb ip added ts hs w)) !! k = None.
Proof.
  intros Hcb. unfold notify_all. revert w. induction hs as [|h hs IH]; intros w Ha Hk; [done|].
  cbn [foldl]. apply IH; [intros Hadd; specialize (Ha Hadd); set_solver|].
  apply Hcb; [|done]. intros Hadd. specialize (Ha Hadd). set_solver.
Qed.

Lemma update_lost k id hs dw w id' new now :
  lost k id hs (dw, w) → (id' = id → new = hs) → (id' ≠ id → k ∉ ToLower <$> new) →
  lost k id hs (updateContainer dw w id' new now).
Proof.
  intros (Hcb & Hid & Hk) Hsame Hother. simpl in *. rewrite updateContainer_eq.
  split_and!; cbn [fst snd]; [done| |].
  - simpl. rewrite lookup_insert. case_decide; [|done]. f_equal. auto.
  - set (old := default [] _).
    assert (k ∉ ToLower <$> minus new old) as Hnew.
    { subst old. intros (h & -> & [Hh Hold]%elem_of_minus)%list_elem_of_fmap.
      destruct (decide (id' = id)) as [->|Hne].
      - rewrite Hid in Hold. simpl in Hold. by rewrite Hsame in Hh.
      - apply (Hother Hne). by apply list_elem_of_fmap_2. }
    assert (data (get_records (adds (dw_hostIP dw) (removes w (minus old new)) (minus new old))) !! k = None)
      as Hw.
    { rewrite get_adds, data_adds, decide_False by done. rewrite get_removes, data_removes. by case_decide. }
    unfold tell, callback_ok in *. destruct (dw_callback dw) as [cb|]; [|done].
    apply notify_lost; [done|done|]. by apply notify_lost.
Qed.

Lemma updateContainer_labels dw w id new now :
  dw_labels (updateContainer dw w id new now).1 = dw_labels dw.
Proof. by rewrite updateContainer_eq. Qed.

Lemma sync_apply_lost k id hs dw w items :
  lost k id hs (dw, w) →
  Forall (λ it, same_names (dw_labels dw) k id hs (sum_ID it.1) (sum_Labels it.1)) items →
  lost k id hs (sync_apply IsDomainName dw w items).2.
Proof.
  unfold sync_apply. generalize (∅ : gset string) as seen. revert dw w.
  induction items as [|[c now] items IH]; intros dw w seen Hl Hit; [done|].
  apply Forall_cons in Hit as [[Hc1 Hc2] Hit]. cbn [foldl fst] in *.
  unfold applyContainerSummary at 2. fold (extractHostnames IsDomainName dw (sum_Labels c)) in *.
  case_bool_decide; [by apply IH|].
  pose proof (update_lost k id hs dw w (sum_ID c) _ now Hl Hc1 Hc2) as Hl'.
  destruct (updateContainer dw w _ _ now) as [dw1 w1] eqn:Hu. apply IH; [done|].
  by rewrite <-(updateContainer_labels dw w (sum_ID c) (extractHostnames IsDomainName dw (sum_Labels c)) now),
    Hu in Hit.
Qed.

Lemma prune_data_None seen acc l k :
  data (get_records acc.1.2) !! k = None →
  data (get_records (foldl (prune_step seen) acc l).1.2) !! k = None.
Proof.
  revert acc. induction l as [|[id hs] l IH]; intros [[dw w] rem] Hk; [done|].
  cbn [foldl prune_step fst snd]. case_bool_decide; apply IH; [done|]. cbn [fst snd] in *.
  rewrite get_removes, data_removes. by case_decide.
Qed.

(** Pruning a container removes its names, whoever else carries them. *)
Lemma prune_drops_names seen acc l k id hs :
  (id, hs) ∈ l → id ∉ seen → k ∈ ToLower <$> hs →
  data (get_records (foldl (prune_step seen) acc l).1.2) !! k = None.
Proof.
  revert acc. induction l as [|[id' hs'] l IH]; intros [[dw w] rem] Hin Hs Hk;
    [by apply elem_of_nil in Hin|].
  cbn [foldl]. apply elem_of_cons in Hin as [[= <- <-]|Hin]; [|by apply IH].
  apply prune_data_None. cbn [prune_step fst snd]. rewrite bool_decide_eq_false_2 by done.
  cbn [fst snd]. rewrite get_removes, data_removes. by rewrite decide_True.
Qed.

Lemma prune_lost k id hs seen acc l :
  lost k id hs acc.1 → id ∈ seen → lost k id hs (foldl (prune_step seen) acc l).1.
Proof.
  revert acc. induction l as [|[id' hs'] l IH]; intros [[dw w] rem] Hl Hs; [done|].
  cbn [foldl prune_step fst snd]. case_bool_decide as Hseen; apply IH; try done.
  destruct Hl as (Hcb & Hid & Hk). cbn [fst snd] in *. split_and!; [done| |].
  - simpl. rewrite lookup_delete_ne; [done|]. by intros ->.
  - simpl. rewrite get_removes, data_removes. by case_decide.
Qed.

Lemma sync_lost rng k id hs dw w items now s :
  hs ≠ [] → lost k id hs (dw, w) →
  Forall (λ it, same_names (dw_labels dw) k id hs (sum_ID it.1) (sum_Labels it.1)) items →
  (∃ it, it ∈ items ∧ sum_ID it.1 = id) →
  syncContainers IsDomainName rng dw w (@Ok E _ items) now = Ok s →
  lost k id hs s ∧ dw_labels s.1 = dw_labels dw.
Proof.
  intros Hne Hl Hit (it & Hin & Hid). unfold syncContainers.
  destruct (dw_client dw); [|intros [= <-]; by split]. simpl.
  pose proof (sync_apply_lost k id hs dw w items Hl Hit) as Ha.
  pose proof (sync_apply_fst IsDomainName dw w items) as Hfst.
  destruct (sync_apply IsDomainName dw w items) as [seen [dw1 w1]]. simpl in Ha, Hfst.
  destruct Hfst as [Hdw1 Hseen]. rewrite sync_prune_steps.
  assert (id ∈ seen) as Hs.
  { rewrite Hseen. unfold named_ids. rewrite elem_of_list_to_set, list_elem_of_fmap. exists it.
    split; [done|]. apply list_elem_of_filter. split; [|done]. unfold names.
    rewrite (proj1 (proj1 (Forall_forall _ _) Hit it Hin) Hid). done. }
  pose proof (prune_lost k id hs seen (dw1, w1, []) (rng (dw_containers dw1)) Ha Hs) as Hp.
  pose proof (proj1 (prune_containers IsDomainName seen (dw1, w1, []) (rng (dw_containers dw1)) EmptyString)) as Hlb.
  destruct (foldl (prune_step seen) _ _) as [[dw2 w2] rem]. cbn [fst snd] in *.
  assert (dw_labels dw2 = dw_labels dw) as Hlbl by (by rewrite Hlb, Hdw1).
  destruct Hp as (Hcb & Hid2 & Hk). cbn [fst snd] in *.
  case_bool_decide; [|intros [= <-]; by split_and!].
  unfold callback_ok in Hcb. destruct (dw_callback dw2) as [cb|] eqn:Hc; intros [= <-].
  - split; [|done]. unfold lost, callback_ok. cbn [fst snd]. rewrite Hc.
    split_and!; [done|done|]. by apply notify_lost.
  - split; [|done]. unfold lost, callback_ok. cbn [fst snd]. by rewrite Hc.
Qed.

(** Stopping another container leaves [k] unresolvable, or makes it so. *)
Lemma stop_lost k id hs dw w id' now :
  callback_ok k dw → dw_containers dw !! id = Some hs → id' ≠ id →
  data (get_records w) !! k = None ∨
    (∃ hs', dw_containers dw !! id' = Some hs' ∧ k ∈ ToLower <$> hs') →
  lost k id hs (handleContainerStop dw w id' now) ∧
  dw_labels (handleContainerStop dw w id' now).1 = dw_labels dw.
Proof.
  intros Hcb Hid Hne Hk. unfold handleContainerStop.
  destruct (dw_containers dw !! id') as [hs'|] eqn:Hid'; [|destruct Hk as [|(? & ? & _)]; by simplify_eq].
  cbn [dw_callback set_containers]. fold (removes w hs').
  assert (data (get_records (removes w hs')) !! k = None) as Hw.
  { rewrite get_removes, data_removes. case_decide; [done|].
    destruct Hk as [|(? & ? & ?)]; by simplify_eq. }
  unfold callback_ok in Hcb. destruct (dw_callback dw) as [cb|] eqn:Hc; (split; [|done]);
    unfold lost, callback_ok; cbn [fst snd dw_callback set_containers dw_containers]; rewrite Hc;
    (split_and!; [done|by rewrite lookup_delete_ne|]); [by apply notify_lost|done].
Qed.

Lemma consume_lost k id hs (firings : list (stream_event E (daemon_answer (E := E)))) s :
  lost k id hs s →
  Forall (firing_keeps (dw_labels s.1) k id hs) firings →
  lost k id hs (consumeEvents (E := E) (handleEvent IsDomainName) firings s).2 ∧
  dw_labels (consumeEvents (E := E) (handleEvent IsDomainName) firings s).2.1 = dw_labels s.1.
Proof.
  revert s. induction firings as [|f firings IH]; intros s Hl Hf; [done|].
  apply Forall_cons in Hf as [Hf Hfs]. destruct f as [|err ok|event ok [inspect now]]; [done..|].
  simpl. destruct ok; [|done]. simpl. destruct Hf as [Hrun Hins].
  assert (lost k id hs (handleEvent IsDomainName event (mkAnswer (E := E) inspect now) s) ∧
    dw_labels (handleEvent IsDomainName event (mkAnswer (E := E) inspect now) s).1 = dw_labels s.1) as [Hl' Hlb].
  { destruct s as [dw w]. unfold handleEvent. cbn [fst snd ans_inspect ans_now] in *. case_bool_decide.
    - unfold handleContainerStart. destruct (dw_client dw); [|done]. simpl.
      destruct inspect as [[labels|]|]; [|done..]. unfold applyContainerInspect.
      case_bool_decide; [|done]. destruct Hins as [Hin1 Hin2].
      split; [by apply update_lost|]. apply updateContainer_labels.
    - destruct (bool_decide (ev_Action event = "stop") || bool_decide (ev_Action event = "die")) eqn:Hact; [|done].
      destruct Hl as (Hcb & Hid & Hk). apply stop_lost; [done|done| |by left]. intros Heq. destruct (Hrun Heq) as [Hs Hd].
      by rewrite !bool_decide_eq_false_2 in Hact. }
  rewrite <-Hlb. apply IH; [done|]. by rewrite Hlb.
Qed.

Lemma turn_lost k id hs t dw w backoff :
  hs ≠ [] → lost k id hs (dw, w) → keeps_running (dw_labels dw) k id hs t →
  lost k id hs (watch_turn IsDomainName t dw w backoff).2 ∧
  dw_labels (watch_turn IsDomainName t dw w backoff).2.1 = dw_labels dw.
Proof.
  intros Hne Hl [Hlist Hf]. unfold watch_turn. destruct (t_ctx_done t); [done|].
  destruct (t_connect t); simpl; [done..|].
  destruct (t_listing t) as [items|e]; [|by unfold syncContainers].
  destruct (syncContainers _ _ _ _ _ _) as [[dw1 w1]|e] eqn:Hs; [|done].
  destruct Hlist as [Hit Hin].
  destruct (sync_lost (t_rng t) k id hs (set_client true dw) w items (t_now t) (dw1, w1)) as [Hl1 Hlb1];
    [done..|]. simpl in Hlb1. unfold watchEvents. destruct (dw_client dw1); [|done]. simpl.
  rewrite <-Hlb1 in Hf. destruct (consume_lost k id hs (t_firings t) (dw1, w1) Hl1 Hf) as [Hl2 Hlb2].
  destruct (consumeEvents _ _ _) as [[[]|] [dw2 w2]]; (split; [done|]); cbn in *; congruence.
Qed.

Lemma watchLoop_lost k id hs turns dw w backoff :
  hs ≠ [] → lost k id hs (dw, w) → Forall (keeps_running (dw_labels dw) k id hs) turns →
  lost k id hs (watchLoop IsDomainName turns dw w backoff).2.
Proof.
  intros Hne. revert dw w backoff. induction turns as [|t turns IH]; intros dw w backoff Hl Ht; [done|].
  apply Forall_cons in Ht as [Ht Hts]. simpl.
  destruct (turn_lost k id hs t dw w backoff Hne Hl Ht) as [Hl1 Hlb].
  destruct (watch_turn _ t dw w backoff) as [[|slept b|] [dw1 w1]]; [done| |done]. cbn [fst snd] in *.
  rewrite <-Hlb in Hts. specialize (IH dw1 w1 b Hl1 Hts).
  by destruct (watchLoop IsDomainName turns dw1 w1 b).
Qed.

(** C31: When two tracked containers carry the same name, stopping either of them
    removes the record although the other still runs and is still tracked; and
    however long the watch loop then runs, through failed connections, lost
    streams, synchronizations and events, the name stays unresolvable as long as
    the other container goes on running with its names and no further container
    claims this one.  With clustering too, provided the callback publishes
    only the names it is given, as the manager's does. *)
Theorem shared_name_lost dw w id1 id2 hs1 hs2 h now turns backoff :
  callback_ok (ToLower h) dw → id1 ≠ id2 →
  dw_containers dw !! id1 = Some hs1 → dw_containers dw !! id2 = Some hs2 →
  ToLower h ∈ ToLower <$> hs1 → ToLower h ∈ ToLower <$> hs2 →
  Forall (keeps_running (dw_labels dw) (ToLower h) id2 hs2) turns →
  let s := handleContainerStop dw w id1 now in
  let s' := (watchLoop IsDomainName turns s.1 s.2 backoff).2 in
  Lookup (get_records s.2) h = None ∧ dw_containers s.1 !! id2 = Some hs2 ∧
  Lookup (get_records s'.2) h = None ∧ dw_containers s'.1 !! id2 = Some hs2.
Proof.
  intros Hcb Hne H1 H2 Hh1 Hh2 Ht s s'.
  assert (lost (ToLower h) id2 hs2 s ∧ dw_labels s.1 = dw_labels dw) as [Hl Hlb].
  { apply stop_lost; [done..|]. right. by exists hs1. }
  assert (hs2 ≠ []) as Hne2 by (intros ->; by apply elem_of_nil in Hh2).
  destruct (watchLoop_lost (ToLower h) id2 hs2 turns s.1 s.2 backoff Hne2) as (_ & Hid & Hk).
  { by rewrite <-surjective_pairing. }
  { by rewrite Hlb. }
  destruct Hl as (_ & Hid0 & Hk0). by split_and!.
Qed.

(** C32: A container that was recreated under a new id while the event stream was
    down loses its record at the next synchronization: the listing publishes the
    name for the new container, and dropping the old container removes it again,
    although the new container is tracked with it. *)
Theorem recreated_container_lost rng dw w items now s old hs it h :
  range_order rng → dw_callback dw = None → dw_client dw = true →
  dw_containers dw !! old = Some hs → ToLower h ∈ ToLower <$> hs →
  (∀ it', it' ∈ items → sum_ID it'.1 ≠ old) →
  NoDup ((λ it, sum_ID it.1) <$> items) → it ∈ items →
  h ∈ extractHostnames IsDomainName dw (sum_Labels it.1) →
  syncContainers IsDomainName rng dw w (@Ok E _ items) now = Ok s →
  Lookup (get_records s.2) h = None ∧
  dw_containers s.1 !! sum_ID it.1 = Some (extractHostnames IsDomainName dw (sum_Labels it.1)).
Proof.
  intros Hr Hcb Hcl Hold Hh Hgone Hnd Hit Hin Hs.
  rewrite (syncContainers_containers IsDomainName rng dw w items now s Hr Hcl Hs). split.
  - destruct (syncContainers_Ok IsDomainName _ _ _ _ _ _ Hcl Hs) as [_ Hs2].
    unfold Lookup. rewrite (Hs2 Hcb). pose proof (sync_apply_fst IsDomainName dw w items) as Ha.
    destruct (sync_apply IsDomainName dw w items) as [seen [dw1 w1]]. cbn [fst snd] in *.
    destruct Ha as [-> ->]. assert (old ∉ named_ids IsDomainName (dw_labels dw) items) as Hno.
    { unfold named_ids. rewrite elem_of_list_to_set, list_elem_of_fmap.
      intros (it' & -> & [_ ?]%list_elem_of_filter). by apply (Hgone it'). }
    apply (prune_drops_names _ _ _ _ old hs); [|done..].
    rewrite (Hr _). apply elem_of_map_to_list. simpl. rewrite listed_lookup.
    by rewrite decide_False.
  - apply listed_item; [done..|]. intros Hn. unfold names in Hn.
    unfold extractHostnames in Hin. rewrite Hn in Hin. by apply elem_of_nil in Hin.
Qed.
End shared.

(** ** Pacing of the connection loop *)

Section pacing.
Context `{UnicodeCase} (IsDomainName : string → bool) {E : Type} `{RecordsWorld W}.
Implicit Types (dw : DockerWatcher (W := W)) (w : W) (t : turn (E := E)).
Open Scope Z_scope.

Definition in_bounds (d : Z) : Prop := time_Second ≤ d ≤ maxBackoff.

(** Below the maximum the doubling never leaves an int64. *)
Lemma nextBackoff_eq d : in_bounds d → nextBackoff d maxBackoff = Z.min (2 * d) maxBackoff.
Proof.
  unfold in_bounds, nextBackoff, maxBackoff, time_Second. intros Hd.
  rewrite wrap64_id by (unfold int64; lia). case_bool_decide; lia.
Qed.

Lemma nextBackoff_in d : in_bounds d → in_bounds (nextBackoff d maxBackoff).
Proof. intros Hd. rewrite nextBackoff_eq by done. unfold in_bounds, maxBackoff, time_Second in *. lia. Qed.

Lemma second_in : in_bounds time_Second.
Proof. unfold in_bounds, maxBackoff, time_Second. lia. Qed.

(** How one turn can go on. *)
Lemma turn_goes_on t dw w b slept b' s :
  watch_turn IsDomainName t dw w b = (LoopGoesOn slept b', s) →
  t_ctx_done t = false ∧
  (t_connect t ≠ Connected ∧ slept = Some b ∧ b' = nextBackoff b maxBackoff ∧ s = (dw, w) ∨
   t_connect t = Connected ∧
   (slept = Some time_Second ∧ b' = nextBackoff time_Second maxBackoff ∧ dw_client s.1 = false ∨
    slept = None ∧ b' = time_Second)).
Proof.
  unfold watch_turn. destruct (t_ctx_done t); [done|]. intros Ht. split; [done|]. revert Ht.
  destruct (t_connect t); simpl; [intros [= <- <- <-]; by left..|].
  destruct (syncContainers _ _ _ _ _ _) as [[dw1 w1]|e]; [|intros [= <- <- <-]; right; auto].
  destruct (watchEvents _ _ _ _) as [[[]|] [dw2 w2]]; intros [= <- <- <-]; right; auto.
Qed.

(** Every sleep of the watch loop lasts at least one second and at most five
    minutes, over any run from its first backoff: the doubling neither passes the
    maximum nor overflows an int64. *)
Theorem watchLoop_sleep_bounds (turns : list (turn (E := E))) dw w :
  Forall (λ slept, match slept with
                   | Some d => 1000000000 ≤ d ≤ 300 * 1000000000
                   | None => True
                   end) (watchLoop IsDomainName turns dw w time_Second).1.
Proof.
  generalize second_in. generalize time_Second at 1 2 as b. intros b. revert b dw w.
  induction turns as [|t turns IH]; intros b dw w Hb; simpl; [constructor|].
  destruct (watch_turn IsDomainName t dw w b) as [[|slept b'|] [dw1 w1]] eqn:Ht; [constructor| |constructor].
  apply turn_goes_on in Ht as (_ & Ht). assert (in_bounds b') as Hb'.
  { destruct Ht as [(_ & _ & -> & _)|(_ & [(_ & -> & _)|[_ ->]])];
      auto using nextBackoff_in, second_in. }
  specialize (IH b' dw1 w1 Hb'). destruct (watchLoop _ turns dw1 w1 b') as [l s].
  simpl in *. constructor; [|done].
  destruct Ht as [(_ & -> & _)|(_ & [(-> & _)|[-> _]])]; [apply Hb|apply second_in|done].
Qed.

(** While the daemon cannot be reached the loop sleeps 1, 2, 4, ... seconds, up
    to five minutes, and changes neither the tracked containers nor the records:
    the names published before the daemon went away keep resolving. *)
Theorem unreachable_daemon_backs_off (turns : list (turn (E := E))) dw w :
  Forall (λ t, t_ctx_done t = false ∧ t_connect t ≠ Connected) turns →
  watchLoop IsDomainName turns dw w time_Second =
    ((λ n : nat, Some (Z.min (2 ^ Z.of_nat n * time_Second) maxBackoff)) <$> seq 0 (length turns),
     (dw, w)).
Proof.
  assert (∀ k b, Forall (λ t, t_ctx_done t = false ∧ t_connect t ≠ Connected) turns →
    b = Z.min (2 ^ Z.of_nat k * time_Second) maxBackoff →
    watchLoop IsDomainName turns dw w b =
    ((λ n : nat, Some (Z.min (2 ^ Z.of_nat n * time_Second) maxBackoff)) <$> seq k (length turns),
     (dw, w))) as Hgen; [|intros Ht; by apply Hgen].
  induction turns as [|t turns IH]; intros k b Ht Hb; [done|].
  apply Forall_cons in Ht as [[Hctx Hc] Hts]. cbn [watchLoop].
  assert (watch_turn IsDomainName t dw w b =
    (LoopGoesOn (Some b) (nextBackoff b maxBackoff), (dw, w))) as ->.
  { unfold watch_turn. rewrite Hctx. by destruct (t_connect t). }
  assert (1 ≤ 2 ^ Z.of_nat k) by (pose proof (Z.pow_pos_nonneg 2 (Z.of_nat k)); lia).
  rewrite (IH (S k)); [by subst b|done|]. rewrite nextBackoff_eq.
  - subst b. rewrite Nat2Z.inj_succ, Z.pow_succ_r by lia.
    unfold maxBackoff, time_Second. lia.
  - subst b. unfold in_bounds, maxBackoff, time_Second. lia.
Qed.

(** Once the daemon answers the ping the backoff starts over: a failed listing
    or a lost event stream is retried after exactly one second, however many such
    failures came before, with the client closed; and a turn goes on without
    sleeping only when the context was cancelled during it. *)
Theorem connected_turn_pacing t dw w b slept b' s :
  t_connect t = Connected →
  watch_turn IsDomainName t dw w b = (LoopGoesOn slept b', s) →
  slept = Some 1000000000 ∧ dw_client s.1 = false ∨
  slept = None ∧ EvCtxDone ∈ t_firings t.
Proof.
  intros Hc Ht. destruct (turn_goes_on _ _ _ _ _ _ _ Ht) as (Hctx & [[]|(_ & [(-> & _ & ?)|[-> _]])]);
    [done|by left|right; split; [done|]].
  revert Ht. unfold watch_turn. rewrite Hctx, Hc. simpl.
  destruct (syncContainers _ _ _ _ _ _) as [[dw1 w1]|e] eqn:Hs; [|done].
  assert (dw_client dw1 = true) as Hcl.
  { destruct (t_listing t) as [items|]; [|done].
    pose proof (syncContainers_Ok IsDomainName _ (set_client true dw) _ _ _ _ eq_refl Hs) as [Hs1 _].
    cbn [fst] in Hs1. rewrite Hs1.
    pose proof (sync_apply_fst IsDomainName (set_client true dw) w items) as Ha.
    destruct (sync_apply _ _ _ _) as [seen [dw2 w2]]. cbn [fst snd] in *.
    rewrite (proj1 (prune_containers IsDomainName seen (dw2, w2, [])
      (t_rng t (dw_containers dw2)) EmptyString)).
    simpl. by destruct Ha as [-> _]. }
  unfold watchEvents. rewrite Hcl. simpl. generalize (dw1, w1) as s0.
  induction (t_firings t) as [|f fs IH]; intros s0; [done|].
  destruct f as [|err ok|ev ok ans]; simpl.
  - intros _. by left.
  - destruct ok, err, s0; done.
  - destruct ok, s0; simpl; [|done]. intros Hr. right. by eapply IH.
Qed.
End pacing.

(** consumeEvents handles the messages in the order they arrive, each once,
    until the first cancellation, error or closed channel; it returns nil on
    cancellation, the stream's error when there is one, and io.EOF when either
    channel is closed or delivers nil; whatever would come after is not handled. *)
Theorem consumeEvents_dispatch {E A S : Type} (handle : EventMessage → A → S → S)
    (msgs : list (EventMessage * A)) (last : stream_event E A) rest (s : S) :
  (∀ ev a, last ≠ EvMessage ev true a) →
  consumeEvents handle (((λ p, EvMessage p.1 true p.2) <$> msgs) ++ last :: rest) s =
    (Some match last with
          | EvCtxDone => StreamNil
          | EvErr (Some e) true => StreamErr e
          | _ => StreamEOF
          end,
     foldl (λ s p, handle p.1 p.2 s) s msgs).
Proof.
  intros Hlast. revert s. induction msgs as [|[ev a] msgs IH]; intros s; simpl.
  - destruct last as [|[] []|ev [] a]; try done. by destruct (Hlast ev a).
  - apply IH.
Qed.

(** ** The theorems at concrete inputs *)

Module WatcherExamples.
#[local] Existing Instance latin1_case.

Definition any_name (_ : string) : bool := true.
Definition label : string := "coredns.host.name".
Definition web : Summary * Z := (mkSummary "c1" {[label := "Web.lan, api.lan,,bad_name"]}, 1%Z).
Definition db : Summary * Z := (mkSummary "c2" {[label := "db.lan"]}, 2%Z).
(** The database recreated under a new id. *)
Definition db' : Summary * Z := (mkSummary "c3" {[label := "db.lan"]}, 3%Z).
Definition owner (k : string) : string :=
  if bool_decide (k ∈ ["web.lan"; "api.lan"]) then "c1" else "c2".
Definition start : DockerWatcher (W := Records) :=
  set_client true (NewDockerWatcher "" "10.0.0.1" [label]).
Definition both : DockerWatcher (W := Records) * Records :=
  (sync_apply any_name start NewRecords [web; db]).2.
(** Two containers that carry the same name. *)
Definition twins : DockerWatcher (W := Records) * Records :=
  (sync_apply any_name start NewRecords [db; db']).2.
Definition event (action id : string) (labels : gmap string string)
    : stream_event string (daemon_answer (E := string)) :=
  EvMessage (mkEventMessage action id) true (mkAnswer (Ok (Some labels)) 7%Z).
Definition up : turn (E := string) :=
  mkTurn false Connected (Ok [web]) map_to_list 5%Z
    [event "start" "c2" {[label := "db.lan"]}; event "die" "c1" ∅; EvErr (Some "lost") true].
Definition down : turn (E := string) :=
  mkTurn false (PingFails "no daemon") (Ok []) map_to_list 5%Z [].

Lemma rng_containers : range_order (map_to_list (K := string) (A := list string)).
Proof. by intros m. Qed.

Lemma syncContainers_tracks_witness :
  ∃ s, syncContainers any_name map_to_list twins.1 twins.2 (@Ok string _ [web; db]) 9%Z = Ok s ∧
    (dw_containers s.1 !! "c1" = Some ["Web.lan"; "api.lan"] ↔
     ["Web.lan"; "api.lan"] ≠ [] ∧ ∃ it, it ∈ [web; db] ∧ sum_ID it.1 = "c1" ∧
       extractHostnames any_name twins.1 (sum_Labels it.1) = ["Web.lan"; "api.lan"]).
Proof.
  eexists. split; [vm_compute; reflexivity|].
  eapply (syncContainers_tracks any_name (E := string) map_to_list twins.1 twins.2 [web; db] 9%Z).
  - apply rng_containers.
  - done.
  - apply (bool_decide_unpack _). by vm_compute.
  - vm_compute. reflexivity.
Defined.

Ltac owned_by_computation :=
  repeat (apply Forall_cons; split); try exact (Forall_nil_2 _); try exact I;
  apply (bool_decide_unpack (owned owner _ _)); by vm_compute.

(** Both containers of [up] have the owner's names. *)
Lemma up_owned : turn_owned any_name owner [label] up.
Proof.
  split_and!; [apply rng_containers| |]; unfold up; cbn [t_listing t_firings];
    owned_by_computation.
Qed.

Lemma watchLoop_mirrors_witness :
  let s := (watchLoop any_name [down; up; down]
              (NewDockerWatcher "" "10.0.0.1" [label]) NewRecords time_Second).2 in
  Lookup (get_records s.2) "DB.lan" = Some "10.0.0.1" ∧ Lookup (get_records s.2) "web.lan" = None ∧
  (Lookup (get_records s.2) "DB.lan" = Some "10.0.0.1" ↔ "10.0.0.1" = "10.0.0.1" ∧
     ∃ id hs h', dw_containers s.1 !! id = Some hs ∧ h' ∈ hs ∧ ToLower h' = ToLower "DB.lan").
Proof.
  split_and!; [by vm_compute..|].
  refine (watchLoop_mirrors any_name (E := string) (W := Records) owner "" "10.0.0.1" [label]
    NewRecords [down; up; down] time_Second eq_refl _ "DB.lan" "10.0.0.1").
  assert (turn_owned any_name owner [label] down) by (split_and!; [apply rng_containers|constructor..]).
  repeat (apply Forall_cons; split); [done|apply up_owned|done|exact (Forall_nil_2 _)].
Defined.

Lemma both_inv : watcher_inv owner both.
Proof.
  apply (sync_apply_inv any_name owner [label] "10.0.0.1").
  - split_and!; [|done..]. split_and!; [done| |by apply map_Forall_empty].
    intros k ip. split; [done|]. by intros (_ & id & hs & h & ? & _).
  - owned_by_computation.
Qed.

Lemma sync_resolves_witness :
  ∃ s, syncContainers any_name map_to_list both.1 both.2 (@Ok string _ [db]) 9%Z = Ok s ∧
    (Lookup (get_records s.2) "db.lan" = Some "10.0.0.1" ↔ "10.0.0.1" = dw_hostIP both.1 ∧
      ∃ it h', it ∈ [db] ∧ h' ∈ extractHostnames any_name both.1 (sum_Labels it.1) ∧
        ToLower h' = ToLower "db.lan").
Proof.
  eexists. split; [vm_compute; reflexivity|].
  eapply (sync_resolves any_name (E := string) owner map_to_list both.1 both.2 [db] 9%Z).
  - apply rng_containers.
  - done.
  - rewrite <-surjective_pairing. apply both_inv.
  - owned_by_computation.
  - apply NoDup_singleton.
  - vm_compute. reflexivity.
Defined.

(** The survivor is listed again, and started again, over two connections. *)
Definition goes_on : turn (E := string) :=
  mkTurn false Connected (Ok [db']) map_to_list 9%Z
    [event "start" "c3" {[label := "db.lan"]}; event "die" "c9" ∅; EvErr (Some "lost") true].

Lemma goes_on_keeps : keeps_running any_name [label] "db.lan" "c3" ["db.lan"] goes_on.
Proof.
  split.
  - split; [|by exists db'; split; [left|]].
    apply Forall_singleton. split; [by intros _; vm_compute|]. by intros [].
  - repeat apply Forall_cons_2; try exact (Forall_nil_2 _); try exact I.
    + split; [done|]. split; [by intros _; vm_compute|by intros []].
    + split; [done|]. split; [done|]. intros _. by_computation.
Qed.

Lemma shared_name_lost_witness :
  let s := handleContainerStop twins.1 twins.2 "c2" 8%Z in
  let s' := (watchLoop any_name [down; goes_on; goes_on] s.1 s.2 time_Second).2 in
  Lookup (get_records twins.2) "db.lan" = Some "10.0.0.1" ∧
  Lookup (get_records s'.2) "db.lan" = None ∧ dw_containers s'.1 !! "c3" = Some ["db.lan"].
Proof.
  split; [by vm_compute|].
  apply (shared_name_lost any_name (E := string) twins.1 twins.2 "c2" "c3" ["db.lan"] ["db.lan"]
    "db.lan" 8%Z [down; goes_on; goes_on] time_Second).
  - exact I.
  - done.
  - by vm_compute.
  - by vm_compute.
  - by_computation.
  - by_computation.
  - repeat apply Forall_cons_2; [|exact goes_on_keeps..|exact (Forall_nil_2 _)].
    split; [exact I|exact (Forall_nil_2 _)].
Defined.

(** A container that carries a name in two spellings and then in one. *)
Definition spelled : DockerWatcher (W := Records) * Records :=
  updateContainer start NewRecords "c1" ["App.lan"; "app.lan"] 1%Z.

Lemma update_equals_rebuild_witness :
  ¬ (∀ h, Lookup (get_records (updateContainer spelled.1 spelled.2 "c1" ["app.lan"] 2%Z).2) h =
          Lookup (rebuild "10.0.0.1" (get_records spelled.2) ["App.lan"; "app.lan"] ["app.lan"]) h).
Proof.
  intros Heq.
  destruct (proj1 (update_equals_rebuild spelled.1 spelled.2 "c1" ["app.lan"] 2%Z eq_refl
    ltac:(intros h _ ->%list_elem_of_singleton; by vm_compute)) Heq "app.lan" "App.lan")
    as (added & ->%list_elem_of_singleton & Hno & _); [by_computation..|].
  apply Hno. by_computation.
Defined.

Lemma recreated_container_lost_witness :
  ∃ s, syncContainers any_name map_to_list both.1 both.2 (@Ok string _ [web; db']) 9%Z = Ok s ∧
    Lookup (get_records both.2) "db.lan" = Some "10.0.0.1" ∧ Lookup (get_records s.2) "db.lan" = None ∧
    dw_containers s.1 !! "c3" = Some ["db.lan"].
Proof.
  eexists. split_and!; [vm_compute; reflexivity|by vm_compute| |by vm_compute].
  eapply (recreated_container_lost any_name (E := string) map_to_list both.1 both.2 [web; db'] 9%Z
    _ "c2" ["db.lan"] db' "db.lan"); try done.
  - apply rng_containers.
  - apply (bool_decide_unpack _). by vm_compute.
  - by intros it [->|[->|?%elem_of_nil]%elem_of_cons]%elem_of_cons.
  - apply (bool_decide_unpack _). by vm_compute.
  - by right; left.
  - apply (bool_decide_unpack _). by vm_compute.
Defined.

Lemma unreachable_daemon_backs_off_witness :
  watchLoop any_name (replicate 11 down) both.1 both.2 time_Second =
    ((λ n : nat, Some (Z.min (2 ^ Z.of_nat n * time_Second) maxBackoff)) <$> seq 0 11, both).
Proof.
  apply (unreachable_daemon_backs_off any_name (replicate 11 down) both.1 both.2).
  by apply Forall_replicate.
Defined.

Lemma connected_turn_pacing_witness :
  ∃ s, watch_turn any_name up both.1 both.2 maxBackoff =
         (LoopGoesOn (Some 1000000000%Z) 2000000000, s) ∧
    (Some 1000000000%Z = Some 1000000000%Z ∧ dw_client s.1 = false ∨
     Some 1000000000%Z = None ∧ EvCtxDone ∈ t_firings up).
Proof.
  eexists. split; [vm_compute; reflexivity|].
  eapply (connected_turn_pacing any_name up both.1 both.2 maxBackoff); [done|].
  vm_compute. reflexivity.
Defined.

Lemma consumeEvents_dispatch_witness :
  consumeEvents (E := string) (λ ev (a : unit) s, s ++ [ev_ActorID ev])
    [EvMessage (mkEventMessage "start" "c1") true (); EvMessage (mkEventMessage "die" "c2") true ();
     EvErr None true; EvMessage (mkEventMessage "start" "c3") true ()] [] =
  (Some StreamEOF, ["c1"; "c2"]).
Proof.
  apply (consumeEvents_dispatch (λ ev (a : unit) s, s ++ [ev_ActorID ev])
    [(mkEventMessage "start" "c1", ()); (mkEventMessage "die" "c2", ())] (EvErr None true)
    [EvMessage (mkEventMessage "start" "c3") true ()] []). done.
Defined.
End WatcherExamples.
