(* ===== verification/NetIP.v ===== *)
(** * NetIP: the part of Go's package net the DNS handlers use

    [net.ParseIP] (through netip.ParseAddr: the dotted-quad scanner, the
    colon-separated scanner with its ellipsis, embedded IPv4 tail and zone) and
    [IP.To4].  An address is a list of bytes, of length 16 when ParseIP yields
    it; a failed parse is [None], as every error ends in a nil IP. *)

From stdpp Require Import gmap strings list.
From Stdlib Require Import NArith Lia Ascii.
From S2P Require Import Prelude GoStrings.

#[local] Open Scope N_scope.

(** ** The parser *)

Definition is_digit (c : ascii) : bool := Utf8.in_range 48 57 (N_of_ascii c).
Definition dot : ascii := "."%char.
Definition colon : ascii := ":"%char.
Definition percent : ascii := "%"%char.

(** [parseIPv4Fields]: [prev] is the byte before [s] in the field text, [fields]
    the octets stored so far, [val] and [digLen] the current octet. *)
Fixpoint parseIPv4Fields (s : string) (prev : option ascii) (fields : list N)
    (val digLen : N) : option (list N) :=
  match s with
  | EmptyString => if bool_decide (length fields < 3)%nat then None else Some (fields ++ [val])
  | String c rest =>
      if is_digit c then
        if (digLen =? 1) && (val =? 0) then None
        else
          let val := val * 10 + (N_of_ascii c - 48) in
          if 255 <? val then None else parseIPv4Fields rest (Some c) fields val (digLen + 1)
      else if bool_decide (c = dot) then
        if bool_decide (prev = None) || bool_decide (rest = EmptyString)
           || bool_decide (prev = Some dot) then None
        else if bool_decide (length fields = 3%nat) then None
        else parseIPv4Fields rest (Some c) (fields ++ [val]) 0 0
      else None
  end.

Definition hex_value (c : ascii) : option N :=
  let b := N_of_ascii c in
  if Utf8.in_range 48 57 b then Some (b - 48)
  else if Utf8.in_range 97 102 b then Some (b - 97 + 10)
  else if Utf8.in_range 65 70 b then Some (b - 65 + 10)
  else None.

(** The scan of one hexadecimal group: the number of digits, its value and the
    rest of the text. *)
Fixpoint hex_group (s : string) (off : nat) (acc : N) : option (nat * N * string) :=
  match s with
  | EmptyString => Some (off, acc, s)
  | String c rest =>
      match hex_value c with
      | None => Some (off, acc, s)
      | Some v =>
          let acc := acc * 16 + v in
          if bool_decide (3 < off)%nat then None
          else if 65535 <? acc then None
          else hex_group rest (S off) acc
      end
  end.

(** The loop of parseIPv6 over the groups.  [ip] holds the bytes stored so far
    and [ellipsis] the place of a double colon; the loop stops when 16 bytes are
    stored, so it turns at most eight times. *)
Fixpoint parse_groups (turns : nat) (s : string) (ip : list N) (ellipsis : option nat)
    : option (string * list N * option nat) :=
  match turns with
  | O => Some (s, ip, ellipsis)
  | S turns =>
      match hex_group s 0 0 with
      | None => None
      | Some (off, acc, rest) =>
          if bool_decide (off = 0%nat) then None
          else
            let stored := ip ++ [acc / 256; acc mod 256] in
            match rest with
            | EmptyString => Some (EmptyString, stored, ellipsis)
            | String c rest =>
                if bool_decide (c = dot) then
                  if bool_decide (ellipsis = None) && negb (bool_decide (length ip = 12%nat)) then None
                  else if bool_decide (16 < length ip + 4)%nat then None
                  else match parseIPv4Fields s None [] 0 0 with
                       | None => None
                       | Some quad => Some (EmptyString, ip ++ quad, ellipsis)
                       end
                else if negb (bool_decide (c = colon)) then None
                else match rest with
                     | EmptyString => None
                     | String c2 rest2 =>
                         if bool_decide (c2 = colon) then
                           match ellipsis with
                           | Some _ => None
                           | None =>
                               let ellipsis := Some (length stored) in
                               if bool_decide (rest2 = EmptyString)
                               then Some (EmptyString, stored, ellipsis)
                               else parse_groups turns rest2 stored ellipsis
                           end
                         else parse_groups turns rest stored ellipsis
                     end
            end
      end
  end.

(** After the loop: all text used, and the ellipsis expanded to 16 bytes. *)
Definition finish_groups (st : string * list N * option nat) : option (list N) :=
  let '(s, ip, ellipsis) := st in
  if negb (bool_decide (s = EmptyString)) then None
  else if bool_decide (length ip < 16)%nat then
    match ellipsis with
    | None => None
    | Some e => Some (take e ip ++ replicate (16 - length ip) 0 ++ drop e ip)
    end
  else match ellipsis with
       | None => Some ip
       | Some _ => None
       end.

(** [parseIPv6] on the text before the zone. *)
Definition parse_unzoned (s : string) : option (list N) :=
  match s with
  | String c1 (String c2 rest) =>
      if bool_decide (c1 = colon) && bool_decide (c2 = colon) then
        if bool_decide (rest = EmptyString) then Some (replicate 16 0)
        else match parse_groups 8 rest [] (Some 0%nat) with
             | None => None
             | Some st => finish_groups st
             end
      else match parse_groups 8 s [] None with
           | None => None
           | Some st => finish_groups st
           end
  | _ => match parse_groups 8 s [] None with
         | None => None
         | Some st => finish_groups st
         end
  end.

(** [parseIPv6]: the address and its zone, empty when there is none. *)
Definition parseIPv6 (s : string) : option (list N * string) :=
  match SplitN2 s percent with
  | [text; zone] =>
      if bool_decide (zone = EmptyString) then None
      else (λ ip, (ip, zone)) <$> parse_unzoned text
  | _ => (λ ip, (ip, EmptyString)) <$> parse_unzoned s
  end.

(** [netip.ParseAddr] followed by As16: the first dot, colon or percent sign
    decides the form. *)
Definition mapped_prefix : list N := replicate 10 0 ++ [255; 255].
Fixpoint ParseAddr_scan (tail s : string) : option (list N * string) :=
  match tail with
  | EmptyString => None
  | String c rest =>
      if bool_decide (c = dot) then
        (λ quad, (mapped_prefix ++ quad, EmptyString)) <$> parseIPv4Fields s None [] 0 0
      else if bool_decide (c = colon) then parseIPv6 s
      else if bool_decide (c = percent) then None
      else ParseAddr_scan rest s
  end.

(** [net.ParseIP]. *)
Definition ParseIP (s : string) : option (list N) :=
  match ParseAddr_scan s s with
  | Some (ip, zone) => if bool_decide (zone = EmptyString) then Some ip else None
  | None => None
  end.

(** [IP.To4]. *)
Definition To4 (ip : list N) : option (list N) :=
  if bool_decide (length ip = 4%nat) then Some ip
  else if bool_decide (length ip = 16%nat) && bool_decide (take 12 ip = mapped_prefix)
  then Some (drop 12 ip)
  else None.

(** [net.ParseIP(ip)] and the guard of both handlers: the four bytes of an IPv4
    address, or nothing. *)
Definition ParseIPv4 (s : string) : option (list N) := ParseIP s ≫= To4.

Example parse_quad : ParseIPv4 "192.168.1.20" = Some [192; 168; 1; 20].
Proof. reflexivity. Qed.
Example parse_leading_zero : ParseIPv4 "192.168.01.20" = None.
Proof. reflexivity. Qed.
Example parse_too_big : ParseIPv4 "192.168.1.256" = None.
Proof. reflexivity. Qed.
Example parse_mapped : ParseIPv4 "::ffff:10.0.0.1" = Some [10; 0; 0; 1].
Proof. reflexivity. Qed.
Example parse_mapped_hex : ParseIPv4 "::FFFF:a00:1" = Some [10; 0; 0; 1].
Proof. reflexivity. Qed.
Example parse_v6 : ParseIPv4 "fe80::1" = None.
Proof. reflexivity. Qed.
Example parse_v6_full : ParseIP "1:2:3:4:5:6:7:8" = Some [0;1;0;2;0;3;0;4;0;5;0;6;0;7;0;8].
Proof. reflexivity. Qed.
Example parse_v6_ell : ParseIP "1:2::7:8" = Some [0;1;0;2;0;0;0;0;0;0;0;0;0;7;0;8].
Proof. reflexivity. Qed.
Example parse_zone : ParseIP "fe80::1%eth0" = None.
Proof. reflexivity. Qed.

(** ** Dotted quads *)

(** The decimal text of an octet, and of an address. *)
Definition digit (n : N) : string := String (ascii_of_N (48 + n)) EmptyString.
Definition octet_string (n : N) : string :=
  if n <? 10 then digit n
  else if n <? 100 then digit (n / 10) +:+ digit (n mod 10)
  else digit (n / 100) +:+ digit (n / 10 mod 10) +:+ digit (n mod 10).
Definition quad_string (octets : list N) : string := Join (octet_string <$> octets) dot.

Definition octet (n : N) : Prop := n < 256.

(** What has been read of the current octet. *)
Definition partial (p : string) (val digLen : N) : Prop :=
  p = EmptyString ∧ val = 0 ∧ digLen = 0 ∨
  octet val ∧ p = octet_string val ∧ digLen = N.of_nat (String.length p).

Definition octets_upto (n : nat) : list N := N.of_nat <$> seq 0 n.
Lemma octets_upto_elem n k : n < N.of_nat k → n ∈ octets_upto k.
Proof.
  intros Hn. apply list_elem_of_fmap. exists (N.to_nat n). rewrite N2Nat.id.
  split; [done|]. apply elem_of_seq. lia.
Qed.

(** A decidable statement about an octet is checked on all of them. *)
Lemma octet_check (f : N → bool) :
  forallb f (octets_upto 256) = true → ∀ n, octet n → f n = true.
Proof.
  intros Hf n Hn. rewrite forallb_forall in Hf. apply Hf. apply list_elem_of_In.
  by apply octets_upto_elem.
Qed.

Lemma is_digit_inv c :
  is_digit c = true → ∃ d, d < 10 ∧ String c EmptyString = digit d ∧ N_of_ascii c - 48 = d.
Proof.
  unfold is_digit. rewrite in_range_iff. intros Hc. exists (N_of_ascii c - 48).
  split_and!; [lia| |done]. unfold digit. do 2 f_equal.
  replace (48 + (N_of_ascii c - 48)) with (N_of_ascii c) by lia. by rewrite ascii_N_embedding.
Qed.

Definition push_ok (val : N) : bool :=
  forallb (λ d, (val =? 0) || (255 <? val * 10 + d)
     || bool_decide (octet_string val +:+ digit d = octet_string (val * 10 + d)))
    (octets_upto 10).

(** Appending a digit to a partial octet. *)
Lemma partial_push p val digLen d :
  partial p val digLen → d < 10 → ((digLen =? 1) && (val =? 0)) = false → val * 10 + d < 256 →
  partial (p +:+ digit d) (val * 10 + d) (digLen + 1).
Proof.
  intros [(-> & -> & ->)|(Ho & -> & ->)] Hd Hz Hlt.
  { right. change (0 * 10 + d) with d in *. unfold octet, octet_string.
    by rewrite (proj2 (N.ltb_lt d 10)). }
  assert (push_ok val = true) as Hp by (revert Ho; apply octet_check; by vm_compute).
  unfold push_ok in Hp. rewrite forallb_forall in Hp.
  specialize (Hp d). rewrite <-list_elem_of_In in Hp.
  specialize (Hp (octets_upto_elem d 10 Hd)).
  apply orb_true_iff in Hp as [[Hv|Hv]%orb_true_iff|Hp%bool_decide_eq_true].
  - apply N.eqb_eq in Hv as ->. by vm_compute in Hz.
  - apply N.ltb_lt in Hv. lia.
  - right. split; [done|]. split; [done|]. rewrite slength_app. simpl. lia.
Qed.

Lemma octet_string_not_empty val : octet_string val ≠ EmptyString.
Proof. unfold octet_string, digit. by repeat case_match. Qed.

Lemma quad_string_not_empty n q : quad_string (n :: q) ≠ EmptyString.
Proof.
  pose proof (octet_string_not_empty n). unfold quad_string. destruct q; simpl; [done|].
  by destruct (octet_string n).
Qed.

Definition at_start (prev : option ascii) : Prop := prev = None ∨ prev = Some dot.

Lemma is_digit_not_dot c : is_digit c = true → c ≠ dot.
Proof. by intros Hc ->. Qed.

(** Every text the scanner accepts is the decimal text of four octets. *)
Lemma parseIPv4Fields_sound s prev fields val digLen fs p :
  partial p val digLen → (p = EmptyString ↔ at_start prev) →
  (s ≠ EmptyString ∨ p ≠ EmptyString) → (length fields ≤ 3)%nat →
  parseIPv4Fields s prev fields val digLen = Some fs →
  ∃ more, fs = fields ++ more ∧ length fs = 4%nat ∧ Forall octet more ∧
    p +:+ s = quad_string more ∧ more ≠ [].
Proof.
  revert prev fields val digLen p.
  induction s as [|c s IH]; intros prev fields val digLen p Hp Hprev Hne Hlen; simpl.
  { case_bool_decide; [done|]. intros [= <-].
    destruct Hp as [(-> & _ & _)|(Ho & -> & _)]; [by destruct Hne|].
    exists [val]. rewrite length_app. split_and!; [done|simpl; lia|by repeat constructor| |done].
    by rewrite app_empty_r. }
  destruct (is_digit c) eqn:Hc.
  - destruct (_ && _) eqn:Hz; [done|]. destruct (is_digit_inv c Hc) as (d & Hd & Hcd & ->).
    destruct (255 <? val * 10 + d) eqn:Hv; [done|]. apply N.ltb_ge in Hv. intros Hs.
    destruct (IH (Some c) fields (val * 10 + d) (digLen + 1) (p +:+ digit d))
      as (more & ? & ? & ? & Heq & ?); [|  |by right; destruct p|done..|].
    + apply partial_push; [done..|lia].
    + split; [by destruct p|]. intros [?|[=]]; [done|]. subst c. by apply is_digit_not_dot in Hc.
    + exists more. split_and!; [done..| |done]. by rewrite <-Heq, <-Hcd, sapp_assoc.
  - case_bool_decide as Hdot; [|done]. subst c.
    destruct (_ || _ || _) eqn:Hst; [done|].
    apply orb_false_iff in Hst as [[H1%bool_decide_eq_false H2%bool_decide_eq_false]%orb_false_iff
      H3%bool_decide_eq_false].
    case_bool_decide as H4; [done|]. intros Hs.
    destruct Hp as [(Hp & _ & _)|(Ho & -> & _)]; [by apply Hprev in Hp as []|].
    destruct (IH (Some dot) (fields ++ [val]) 0 0 EmptyString)
      as (more & -> & Hl & Hmore & Heq & Hnil); [by left|by split; [right|]|by left| |done|].
    { rewrite length_app. simpl. lia. }
    exists (val :: more). rewrite <-app_assoc in Hl |- *. split_and!; [done..|by constructor| |done].
    destruct more as [|m more]; [done|]. unfold quad_string in *. cbn [fmap list_fmap Join] in *.
    by rewrite <-Heq.
Qed.

(** The decimal text of an octet: one to three digits. *)
Lemma is_digit_digit d : d < 10 → is_digit (ascii_of_N (48 + d)) = true.
Proof.
  intros Hd. unfold is_digit. rewrite in_range_iff, N_ascii_embedding; lia.
Qed.

Lemma digit_value d : d < 10 → N_of_ascii (ascii_of_N (48 + d)) - 48 = d.
Proof. intros Hd. rewrite N_ascii_embedding; lia. Qed.

(** One digit of the scanner. *)
Lemma scan_digit d t prev fields val digLen :
  d < 10 → ((digLen =? 1) && (val =? 0)) = false → val * 10 + d < 256 →
  parseIPv4Fields (digit d +:+ t) prev fields val digLen =
  parseIPv4Fields t (Some (ascii_of_N (48 + d))) fields (val * 10 + d) (digLen + 1).
Proof.
  intros Hd Hz Hlt. change (digit d +:+ t) with (String (ascii_of_N (48 + d)) t).
  cbn [parseIPv4Fields]. rewrite is_digit_digit, Hz, digit_value by done.
  by rewrite (proj2 (N.ltb_ge 255 (val * 10 + d))) by lia.
Qed.

Lemma scan_octet n t prev fields :
  octet n → ∃ c digLen, is_digit c = true ∧
    parseIPv4Fields (octet_string n +:+ t) prev fields 0 0 =
    parseIPv4Fields t (Some c) fields n digLen.
Proof.
  unfold octet. intros Hn. unfold octet_string.
  pose proof (N.div_mod n 10 ltac:(done)) as H10. pose proof (N.mod_lt n 10 ltac:(done)).
  pose proof (N.div_mod (n / 10) 10 ltac:(done)) as H100.
  pose proof (N.mod_lt (n / 10) 10 ltac:(done)).
  assert (n / 100 = n / 10 / 10) as -> by (by rewrite N.Div0.div_div).
  destruct (n <? 10) eqn:H1; [apply N.ltb_lt in H1|apply N.ltb_ge in H1;
    destruct (n <? 100) eqn:H2; [apply N.ltb_lt in H2|apply N.ltb_ge in H2]];
    rewrite ?sapp_assoc; eexists _, _; (split; [apply (is_digit_digit (n mod 10)); lia|]).
  - rewrite scan_digit by (done || lia). rewrite (N.mod_small n 10) by done. done.
  - rewrite !scan_digit; [|lia|apply andb_false_intro2, N.eqb_neq; lia|lia|lia|done|lia].
    f_equal; lia.
  - rewrite !scan_digit;
      [|lia|apply andb_false_intro1; done|lia|lia|apply andb_false_intro2, N.eqb_neq; lia|lia|lia|done|lia].
    f_equal; lia.
Qed.

Lemma parseIPv4Fields_complete q prev fields :
  Forall octet q → (length fields + length q = 4)%nat → q ≠ [] →
  parseIPv4Fields (quad_string q) prev fields 0 0 = Some (fields ++ q).
Proof.
  revert prev fields. induction q as [|n q IH]; intros prev fields Ho Hlen Hne; [done|].
  apply Forall_cons in Ho as [Hn Ho]. destruct q as [|m q].
  - change (quad_string [n]) with (octet_string n). destruct (scan_octet n EmptyString prev fields Hn) as (c & l & _ & Hs).
    rewrite app_empty_r in Hs. rewrite Hs. simpl in *. rewrite bool_decide_eq_false_2 by lia. done.
  - change (quad_string (n :: m :: q)) with (octet_string n +:+ String dot (quad_string (m :: q))).
    destruct (scan_octet n (String dot (quad_string (m :: q))) prev fields Hn) as (c & l & Hc & ->).
    cbn [parseIPv4Fields]. change (is_digit dot) with false.
    rewrite (bool_decide_eq_true_2 (dot = dot)) by done. cbn match.
    rewrite (bool_decide_eq_false_2 (Some c = None)) by done.
    rewrite (bool_decide_eq_false_2 (Some c = Some dot))
      by (intros [= ->]; by apply is_digit_not_dot in Hc).
    rewrite (bool_decide_eq_false_2 (length fields = 3%nat)) by (simpl in *; lia).
    rewrite (bool_decide_eq_false_2 (quad_string (m :: q) = EmptyString))
      by apply quad_string_not_empty.
    cbn [orb]. rewrite IH; [by rewrite <-app_assoc|done| |done].
    rewrite length_app. simpl in *. lia.
Qed.

(** *** The choice of the form *)

Lemma scan_no_colon tail s r :
  has_byte colon tail = false → ParseAddr_scan tail s = Some r →
  ∃ quad, parseIPv4Fields s None [] 0 0 = Some quad ∧ r = (mapped_prefix ++ quad, EmptyString).
Proof.
  induction tail as [|c tail IH]; [done|]. rewrite has_byte_cons.
  intros [Hc%bool_decide_eq_false Ht]%orb_false_iff. cbn [ParseAddr_scan].
  rewrite (bool_decide_eq_false_2 (c = colon)) by done.
  case_bool_decide; [|case_bool_decide; [done|auto]].
  destruct (parseIPv4Fields s None [] 0 0) as [quad|]; [|done]. intros Hr.
  injection Hr as <-. eauto.
Qed.

Lemma scan_past_digits n t s :
  octet n → ParseAddr_scan (octet_string n +:+ t) s = ParseAddr_scan t s.
Proof.
  intros Hn. assert (all_bytes is_digit (octet_string n) = true) as Hd.
  { revert n Hn. apply octet_check. by vm_compute. }
  induction (octet_string n) as [|c l IH]; [done|]. simpl in Hd.
  apply andb_true_iff in Hd as [Hc Hl]. rewrite app_String. cbn [ParseAddr_scan].
  rewrite !bool_decide_eq_false_2; [by apply IH|..]; by intros ->.
Qed.

Lemma To4_mapped q : length q = 4%nat → To4 (mapped_prefix ++ q) = Some q.
Proof.
  intros Hq. unfold To4. rewrite length_app, Hq. simpl. done.
Qed.

(** Without a colon, the guard of the handlers accepts exactly the canonical
    dotted quads, and yields their octets. *)
Lemma ParseIPv4_dotted s q :
  has_byte colon s = false →
  ParseIPv4 s = Some q ↔ length q = 4%nat ∧ Forall octet q ∧ s = quad_string q.
Proof.
  intros Hcol. unfold ParseIPv4, ParseIP. split.
  - destruct (ParseAddr_scan s s) as [[ip zone]|] eqn:Hs; [|done].
    destruct (scan_no_colon s s _ Hcol Hs) as (quad & Hq & [-> ->]%pair_equal_spec).
    rewrite bool_decide_eq_true_2 by done. cbn [mbind option_bind].
    assert (s ≠ EmptyString) as Hne by (by intros ->).
    destruct (parseIPv4Fields_sound s None [] 0 0 quad EmptyString)
      as (more & -> & Hl & Ho & Heq & _); [by left|by split; [left|]|by left|simpl; lia|done|].
    change ([] ++ more) with more in *. rewrite app_empty_l in Heq.
    rewrite To4_mapped by done. by intros [= <-].
  - intros (Hl & Ho & ->). assert (parseIPv4Fields (quad_string q) None [] 0 0 = Some q) as Hp.
    { apply (parseIPv4Fields_complete q None []); [done|done|by destruct q]. }
    destruct q as [|n1 [|n2 q]]; [done..|]. apply Forall_cons in Ho as [Hn1 _].
    change (quad_string (n1 :: n2 :: q)) with
      (octet_string n1 +:+ String dot (quad_string (n2 :: q))) at 1.
    rewrite scan_past_digits by done. cbn [ParseAddr_scan].
    rewrite bool_decide_eq_true_2 by done. rewrite Hp. cbn [fmap option_fmap option_map].
    rewrite bool_decide_eq_true_2 by done. cbn [mbind option_bind]. by apply To4_mapped.
Qed.

(** The dotted text of four octets has no colon. *)
Lemma octet_string_no_colon n : octet n → has_byte colon (octet_string n) = false.
Proof.
  intros Hn. apply negb_true_iff. revert n Hn. apply octet_check. by vm_compute.
Qed.

Lemma has_byte_app b s t : has_byte b (s +:+ t) = has_byte b s || has_byte b t.
Proof.
  induction s as [|c s IH]; [done|]. rewrite app_String, !has_byte_cons, IH. by rewrite orb_assoc.
Qed.

Lemma quad_string_no_colon q : Forall octet q → has_byte colon (quad_string q) = false.
Proof.
  induction q as [|n q IH]; intros Ho; [done|]. apply Forall_cons in Ho as [Hn Ho].
  destruct q as [|m q]; [by apply octet_string_no_colon|].
  change (quad_string (n :: m :: q)) with (octet_string n +:+ String dot (quad_string (m :: q))).
  rewrite has_byte_app, octet_string_no_colon, has_byte_cons by done. by apply IH.
Qed.

Lemma ParseIPv4_quad q : length q = 4%nat → Forall octet q → ParseIPv4 (quad_string q) = Some q.
Proof. intros Hl Ho. by apply ParseIPv4_dotted; [apply quad_string_no_colon|]. Qed.
