(* ===== verification/Dns.v ===== *)
(** * Dns: what the handlers use of miekg/dns and CoreDNS

    Messages, the request view of CoreDNS, the response writer, the fallthrough
    zones and the plugin chain belong to libraries; the handlers are written
    against the interfaces below.  [DnsMsgLaws] states the documented behaviour
    of messages the theorems rely on, and [plain_msg] shows that it can hold. *)

From stdpp Require Import gmap strings list.
From Stdlib Require Import NArith Lia.
From S2P Require Import Prelude.

(** The constants of package dns the handlers name. *)
Definition TypeA : N := 1.
Definition TypeAAAA : N := 28.
Definition ClassINET : N := 1.
Definition RcodeSuccess : N := 0.
Definition RcodeServerFailure : N := 2.
Definition RcodeNameError : N := 3.

(** [dns.A] with its header. *)
Record dns_A := mk_dns_A {
  Hdr_Name : string;
  Hdr_Rrtype : N;
  Hdr_Class : N;
  Hdr_Ttl : N;
  A_A : list N;
}.

(** [dns.Msg] ([new_Msg] is [new(dns.Msg)]) and the view of a query by
    [request.Request]. *)
Class DnsMsg (Msg : Type) := {
  new_Msg : Msg;
  SetReply : Msg → Msg → Msg;
  SetRcode : Msg → Msg → N → Msg;
  set_Authoritative : bool → Msg → Msg;
  set_Answer : list dns_A → Msg → Msg;
  msg_Id : Msg → N;
  Rcode : Msg → N;
  Authoritative : Msg → bool;
  Answer : Msg → list dns_A;
  state_Name : Msg → string;
  state_QName : Msg → string;
  state_QType : Msg → N;
}.

(** A reply carries the id of the request and leaves the receiver's answer
    section and authoritative bit alone; setting a field sets that field. *)
Class DnsMsgLaws (Msg : Type) `{DnsMsg Msg} : Prop := {
  new_Answer : Answer (new_Msg (Msg := Msg)) = [];
  new_Authoritative : Authoritative (new_Msg (Msg := Msg)) = false;
  SetReply_Id m r : msg_Id (SetReply m r) = msg_Id r;
  SetReply_Rcode m r : Rcode (SetReply m r) = RcodeSuccess;
  SetReply_Answer m r : Answer (SetReply m r) = Answer m;
  SetReply_Authoritative m r : Authoritative (SetReply m r) = Authoritative m;
  SetRcode_Id m r c : msg_Id (SetRcode m r c) = msg_Id r;
  SetRcode_Rcode m r c : Rcode (SetRcode m r c) = c;
  SetRcode_Answer m r c : Answer (SetRcode m r c) = Answer m;
  set_Authoritative_Id b m : msg_Id (set_Authoritative b m) = msg_Id m;
  set_Authoritative_Rcode b m : Rcode (set_Authoritative b m) = Rcode m;
  set_Authoritative_Answer b m : Answer (set_Authoritative b m) = Answer m;
  Authoritative_set b m : Authoritative (set_Authoritative b m) = b;
  set_Answer_Id l m : msg_Id (set_Answer l m) = msg_Id m;
  set_Answer_Rcode l m : Rcode (set_Answer l m) = Rcode m;
  set_Answer_Authoritative l m : Authoritative (set_Answer l m) = Authoritative m;
  Answer_set l m : Answer (set_Answer l m) = l;
}.

#[export] Hint Rewrite @new_Answer @new_Authoritative @SetReply_Id @SetReply_Rcode
  @SetReply_Answer @SetReply_Authoritative @SetRcode_Id @SetRcode_Rcode @SetRcode_Answer
  @set_Authoritative_Id @set_Authoritative_Rcode @set_Authoritative_Answer @Authoritative_set
  @set_Answer_Id @set_Answer_Rcode @set_Answer_Authoritative @Answer_set
  using typeclasses eauto : dnsmsg.

(** Messages with just the observed fields. *)
Record plain := mkPlain {
  p_id : N; p_name : string; p_qtype : N; p_rcode : N; p_aa : bool; p_answer : list dns_A;
}.

Definition plain_msg : DnsMsg plain := {|
  new_Msg := mkPlain 0 EmptyString 0 0 false [];
  SetReply m r := mkPlain (p_id r) (p_name r) (p_qtype r) 0 (p_aa m) (p_answer m);
  SetRcode m r c := mkPlain (p_id r) (p_name r) (p_qtype r) c (p_aa m) (p_answer m);
  set_Authoritative b m := mkPlain (p_id m) (p_name m) (p_qtype m) (p_rcode m) b (p_answer m);
  set_Answer l m := mkPlain (p_id m) (p_name m) (p_qtype m) (p_rcode m) (p_aa m) l;
  msg_Id := p_id;
  Rcode := p_rcode;
  Authoritative := p_aa;
  Answer := p_answer;
  state_Name := p_name;
  state_QName := p_name;
  state_QType := p_qtype;
|}.

Lemma plain_msg_laws : @DnsMsgLaws plain plain_msg.
Proof. by split. Qed.
