(* ===== verification/DockerCluster.v ===== *)
(** * DockerCluster: answering DNS queries from the record store
    (docker-cluster/docker_cluster.go)

    [ServeDNS] with its fallback [handleUnknown], as state passing over the
    response writer; what writing a message and the rest of the plugin chain do
    are arguments. *)

From stdpp Require Import gmap strings list.
From Stdlib Require Import ZArith NArith Lia Ascii.
From S2P Require Import Prelude GoStrings Message Records Watcher WatcherSpec WatchLoop NetIP Dns.

(** [type UnknownAction int]. *)
Inductive UnknownAction := ActionDrop | ActionNXDomain.

Section handler.
Context `{UnicodeCase} {Msg F Wr E : Type} `{DnsMsg Msg}.
Variable WriteMsg : Wr → Msg → option E * Wr.
Variable Through : F → string → bool.
(** [plugin.NextOrFailure] with the next handler of the chain. *)
Variable NextOrFailure : string → Wr → Msg → (N * option E) * Wr.

(** [type DockerCluster struct], with the contents of its record store at the
    query; the watcher and the cluster manager are modelled apart. *)
Record DockerCluster := mkDockerCluster {
  dc_Records : Records;
  dc_TTL : N;
  dc_Fall : F;
  dc_UnknownAction : UnknownAction;
}.

(** [func (dc *DockerCluster) Name() string]. *)
Definition DockerCluster_Name : string := "docker-cluster".

(** [if err := w.WriteMsg(m); err != nil { return dns.RcodeServerFailure, err };
    return code, nil]. *)
Definition write_or_fail (w : Wr) (m : Msg) (code : N) : (N * option E) * Wr :=
  match WriteMsg w m with
  | (Some err, w) => ((RcodeServerFailure, Some err), w)
  | (None, w) => ((code, None), w)
  end.

(** [handleUnknown]. *)
Definition handleUnknown (dc : DockerCluster) (w : Wr) (r : Msg) : (N * option E) * Wr :=
  if Through (dc_Fall dc) (state_Name r) then NextOrFailure DockerCluster_Name w r
  else match dc_UnknownAction dc with
       | ActionNXDomain =>
           write_or_fail w (SetRcode new_Msg r RcodeNameError) RcodeNameError
       | ActionDrop => ((RcodeSuccess, None), w)
       end.

(** The name the store is asked for. *)
Definition query_name (r : Msg) : string := TrimSuffix (ToLower (state_Name r)) ".".

(** [ServeDNS]. *)
Definition DockerCluster_ServeDNS (dc : DockerCluster) (w : Wr) (r : Msg) : (N * option E) * Wr :=
  let qname := query_name r in
  let found := Lookup (dc_Records dc) qname in
  if bool_decide (state_QType r = TypeAAAA) && bool_decide (is_Some found) then
    write_or_fail w (SetReply new_Msg r) RcodeSuccess
  else if negb (bool_decide (state_QType r = TypeA)) then handleUnknown dc w r
  else match found with
       | None => handleUnknown dc w r
       | Some ip =>
           match ParseIPv4 ip with
           | None => handleUnknown dc w r
           | Some parsedIP =>
               let a := mk_dns_A (state_QName r) TypeA ClassINET (dc_TTL dc) parsedIP in
               let m := set_Authoritative true (SetReply new_Msg r) in
               write_or_fail w (set_Answer (Answer m ++ [a]) m) RcodeSuccess
           end
       end.
End handler.

(** ** The name a query asks for *)

Section names.
Context `{UnicodeCase} {Msg : Type} `{DnsMsg Msg}.
Implicit Types (r : Msg) (h : string).

Definition dot_string : string := String "." EmptyString.

Lemma ToLower_dot s : ToLower (s +:+ dot_string) = ToLower s +:+ dot_string.
Proof. by apply ToLower_snoc. Qed.

(** The normalized name is in lower case already. *)
Lemma query_name_lower r : ToLower (query_name r) = query_name r.
Proof.
  unfold query_name. change "."%string with dot_string.
  destruct (TrimSuffix_cases (ToLower (state_Name r)) dot_string) as [Hs| ->];
    [|apply ToLower_idem].
  set (p := TrimSuffix _ _) in *. pose proof (ToLower_idem (state_Name r)) as Hi.
  rewrite Hs, ToLower_dot in Hi. apply (f_equal (λ s, TrimSuffix s dot_string)) in Hi.
  by rewrite !TrimSuffix_app in Hi.
Qed.

(** A query spells a name with its final dot, in any case. *)
Lemma query_name_fqdn r h : ToLower (state_Name r) = ToLower (h +:+ dot_string) → query_name r = ToLower h.
Proof.
  intros Hn. unfold query_name. change "."%string with dot_string.
  rewrite Hn, ToLower_dot. apply TrimSuffix_app.
Qed.
End names.

(** ** What the handler answers *)

Section answers.
Context `{UnicodeCase} {Msg F Wr E : Type} `{DnsMsgLaws Msg}.
Variable WriteMsg : Wr → Msg → option E * Wr.
Variable Through : F → string → bool.
Variable NextOrFailure : string → Wr → Msg → (N * option E) * Wr.
Context `{RecordsWorld W}.
Implicit Types (dc : DockerCluster (F := F)) (w : Wr) (r : Msg).
Implicit Types (dw : DockerWatcher (W := W)) (world : W).
Abbreviation ServeDNS := (DockerCluster_ServeDNS WriteMsg Through NextOrFailure).
Abbreviation unknown := (handleUnknown WriteMsg Through NextOrFailure).

(** Some tracked container carries the queried name. *)
Definition asked_for dw r : Prop :=
  ∃ id hs h, dw_containers dw !! id = Some hs ∧ h ∈ hs ∧ ToLower h = query_name r.

Lemma lookup_asked owner dw world r :
  watcher_inv owner (dw, world) → asked_for dw r →
  Lookup (get_records world) (query_name r) = Some (dw_hostIP dw).
Proof.
  intros (_ & Hm & _) (id & hs & h & Hid & Hin & Hh). unfold Lookup. rewrite query_name_lower.
  apply Hm. split; [done|]. by exists id, hs, h.
Qed.

Lemma lookup_not_asked owner dw world r :
  watcher_inv owner (dw, world) → ¬ asked_for dw r →
  Lookup (get_records world) (query_name r) = None.
Proof.
  intros (_ & Hm & _) Hno. unfold Lookup. rewrite query_name_lower.
  destruct (data (get_records world) !! query_name r) as [ip|] eqn:Hd; [|done].
  apply Hm in Hd as [_ (id & hs & h & ? & ? & ?)]. destruct Hno. by exists id, hs, h.
Qed.

(** C3: While the store mirrors the tracked containers and the host IP is a dotted
    quad, an A query for a tracked container's name, in any letter case and with
    its final dot, is answered by one authoritative NOERROR reply to that query
    with exactly one A record: the queried name, the configured TTL and the four
    octets of the host IP.  A query for any other name never gets an answer of
    this plugin's own: it falls to handleUnknown, whatever its type. *)
Theorem tracked_name_answered owner dw world dc w r q :
  watcher_inv owner (dw, world) → dc_Records dc = get_records world →
  dw_hostIP dw = quad_string q → length q = 4 → Forall octet q →
  (asked_for dw r → state_QType r = TypeA →
    ∃ m, ServeDNS dc w r = write_or_fail WriteMsg w m RcodeSuccess ∧
      msg_Id m = msg_Id r ∧ Rcode m = RcodeSuccess ∧ Authoritative m = true ∧
      Answer m = [mk_dns_A (state_QName r) TypeA ClassINET (dc_TTL dc) q]) ∧
  (¬ asked_for dw r → ServeDNS dc w r = unknown dc w r).
Proof.
  intros Hinv Hr Hip Hl Ho. unfold DockerCluster_ServeDNS. rewrite Hr. split.
  - intros Ha Ht. rewrite (lookup_asked owner dw world r Hinv Ha), Ht, Hip.
    rewrite ParseIPv4_quad by done. simpl. eexists. split; [done|].
    autorewrite with dnsmsg. by rewrite app_nil_l.
  - intros Ha. rewrite (lookup_not_asked owner dw world r Hinv Ha).
    rewrite (bool_decide_eq_false_2 (is_Some None)) by (by intros []).
    rewrite andb_false_r. by case_bool_decide.
Qed.

(** For a name the store knows, an AAAA query gets an empty NOERROR reply; but
    a query of any other type but A goes to handleUnknown, so that with the
    nxdomain action and no fallthrough the plugin asserts that a name it
    resolves does not exist.  The same happens to an A query when the stored
    address is not an IPv4 address. *)
Theorem known_name_other_types dc w r ip :
  Lookup (dc_Records dc) (query_name r) = Some ip →
  (state_QType r = TypeAAAA →
    ∃ m, ServeDNS dc w r = write_or_fail WriteMsg w m RcodeSuccess ∧
      msg_Id m = msg_Id r ∧ Rcode m = RcodeSuccess ∧ Answer m = []) ∧
  (state_QType r ≠ TypeAAAA → state_QType r ≠ TypeA ∨ ParseIPv4 ip = None →
    dc_UnknownAction dc = ActionNXDomain → Through (dc_Fall dc) (state_Name r) = false →
    ∃ m, ServeDNS dc w r = write_or_fail WriteMsg w m RcodeNameError ∧
      msg_Id m = msg_Id r ∧ Rcode m = RcodeNameError ∧ Answer m = []).
Proof.
  intros Hl. unfold DockerCluster_ServeDNS. rewrite Hl.
  rewrite (bool_decide_eq_true_2 (is_Some (Some ip))) by eauto. rewrite andb_true_r. split.
  - intros ->. eexists. split; [done|]. by autorewrite with dnsmsg.
  - intros HnotAAAA Hbad Hact Hthr. rewrite bool_decide_eq_false_2 by done.
    assert (unknown dc w r = write_or_fail WriteMsg w (SetRcode new_Msg r RcodeNameError)
      RcodeNameError) as Hu by (unfold handleUnknown; by rewrite Hthr, Hact).
    exists (SetRcode new_Msg r RcodeNameError). autorewrite with dnsmsg. split; [|done].
    case_bool_decide; [|done]. destruct Hbad as [?| ->]; done.
Qed.

(** A hostname written with its final dot passes the label check when
    dns.IsDomainName accepts it and is stored with the dot, but queries are
    looked up without it: unless the query name itself ends in two dots, the
    handler behaves as if that record were not there. *)
Theorem trailing_dot_unreachable dc w r h ip recs ttl fall act :
  (∀ p, ToLower (state_Name r) ≠ p +:+ dot_string +:+ dot_string) →
  dc = mkDockerCluster (Add recs (h +:+ dot_string) ip) ttl fall act →
  ServeDNS dc w r = ServeDNS (mkDockerCluster recs ttl fall act) w r.
Proof.
  intros Hname ->.
  assert (Lookup (Add recs (h +:+ dot_string) ip) (query_name r) = Lookup recs (query_name r)) as Hl.
  { unfold Lookup. rewrite Add_eq. simpl. rewrite lookup_insert_ne; [done|].
    rewrite query_name_lower, ToLower_dot. unfold query_name. change "."%string with dot_string.
    destruct (TrimSuffix_cases (ToLower (state_Name r)) dot_string) as [Hs|Hs].
    - intros Heq. apply (Hname (ToLower h)). by rewrite Hs, <-Heq, sapp_assoc.
    - rewrite Hs. intros Heq. rewrite <-Heq, TrimSuffix_app in Hs.
      apply (f_equal String.length) in Hs. rewrite slength_app in Hs. simpl in Hs. lia. }
  unfold DockerCluster_ServeDNS. cbn [dc_Records dc_TTL]. rewrite Hl. done.
Qed.
End answers.

(** ** The theorems at concrete inputs *)

Module HandlerExamples.
Import WatcherExamples.
#[local] Existing Instance latin1_case.
#[local] Existing Instance plain_msg.
#[local] Existing Instance plain_msg_laws.

(** A writer that keeps what is written, a chain that refuses. *)
Definition log_write (w : list plain) (m : plain) : option string * list plain := (None, w ++ [m]).
Definition thr (f : bool) (_ : string) : bool := f.
Definition refuse (_ : string) (w : list plain) (_ : plain) : (N * option string) * list plain :=
  ((5%N, None), w).
Definition query (name : string) (qtype : N) : plain := mkPlain 77 name qtype 0 false [].
Definition serve (recs : Records) : plain → (N * option string) * list plain :=
  DockerCluster_ServeDNS log_write thr refuse (mkDockerCluster recs 60 false ActionNXDomain) [].

Lemma tracked_name_answered_witness :
  asked_for (W := Records) both.1 (query "WEB.lan." TypeA) ∧
  ∃ m, serve both.2 (query "WEB.lan." TypeA) = write_or_fail log_write [] m RcodeSuccess ∧
    msg_Id m = 77%N ∧ Rcode m = RcodeSuccess ∧ Authoritative m = true ∧
    Answer m = [mk_dns_A "WEB.lan." TypeA ClassINET 60 [10; 0; 0; 1]%N].
Proof.
  assert (asked_for (W := Records) both.1 (query "WEB.lan." TypeA)) as Ha.
  { exists "c1", ["Web.lan"; "api.lan"], "Web.lan". split_and!; [by vm_compute|by left|by vm_compute]. }
  split; [exact Ha|].
  refine (proj1 (tracked_name_answered log_write thr refuse (W := Records) owner both.1 both.2
    (mkDockerCluster both.2 60 false ActionNXDomain) [] (query "WEB.lan." TypeA) [10; 0; 0; 1]%N
    _ _ _ _ _) Ha _); [rewrite <-surjective_pairing; apply both_inv|done|by vm_compute|done| |done].
  by repeat constructor.
Defined.

Lemma known_name_other_types_witness :
  ∃ m, serve both.2 (query "web.lan." 65) = write_or_fail log_write [] m RcodeNameError ∧
    msg_Id m = 77%N ∧ Rcode m = RcodeNameError ∧ Answer m = [].
Proof.
  refine (proj2 (known_name_other_types log_write thr refuse
    (mkDockerCluster both.2 60 false ActionNXDomain) [] (query "web.lan." 65) "10.0.0.1" _) _ _ _ _);
    [by vm_compute|done|by left|done|done].
Defined.

Lemma trailing_dot_unreachable_witness :
  isValidHostname any_name "app.lan." = true ∧
  serve (Add NewRecords ("app.lan" +:+ dot_string) "10.0.0.1") (query "app.lan." TypeA) =
  serve NewRecords (query "app.lan." TypeA).
Proof.
  split; [by vm_compute|].
  apply (trailing_dot_unreachable log_write thr refuse _ [] (query "app.lan." TypeA) "app.lan"
    "10.0.0.1" NewRecords 60 false ActionNXDomain); [|done].
  intros p Heq. apply (f_equal (λ s, TrimSuffix s dot_string)) in Heq.
  rewrite <-sapp_assoc, TrimSuffix_app in Heq. pose proof Heq as Hp.
  apply (f_equal (λ s, TrimSuffix s dot_string)) in Hp. rewrite TrimSuffix_app in Hp.
  rewrite <-Hp in Heq. by vm_compute in Heq.
Defined.
End HandlerExamples.
