(* ===== verification/Version.v ===== *)
(** * Version: the version endpoint (version/version.go and the HTTP handler of
    docker_cluster.go)

    What net/http does with the calls of the handler is modelled for one
    response: the status and headers go out with the first WriteHeader or Write,
    and later changes to them do not reach the client. *)

From stdpp Require Import gmap strings list fin_maps.
From Stdlib Require Import ZArith NArith Lia Ascii.
From S2P Require Import Prelude GoStrings Strconv Json JsonSpec Message.

#[local] Open Scope joyride_scope.

(** ** version.go *)

(** The package variables, which the linker may set. *)
Record build := mkBuild { Version : string; GitCommit : string; BuildTime : string }.
Definition unset_build : build := mkBuild "dev" "unknown" "unknown".

Record Info := mkInfo { info_Version : string; info_GitCommit : string; info_BuildTime : string }.

(** [GetInfo]. *)
Definition GetInfo (b : build) : Info := mkInfo (Version b) (GitCommit b) (BuildTime b).

Definition Info_fields : list (field Info) := [
  mkField "version" (λ i, JStr (info_Version i)) (λ v i,
    let? x := store_string v (info_Version i) in
    Ok (mkInfo x (info_GitCommit i) (info_BuildTime i)));
  mkField "git_commit" (λ i, JStr (info_GitCommit i)) (λ v i,
    let? x := store_string v (info_GitCommit i) in
    Ok (mkInfo (info_Version i) x (info_BuildTime i)));
  mkField "build_time" (λ i, JStr (info_BuildTime i)) (λ v i,
    let? x := store_string v (info_BuildTime i) in
    Ok (mkInfo (info_Version i) (info_GitCommit i) x))].
#[global] Instance Info_struct : JsonStruct Info := {|
  fields := Info_fields;
  zero_value := mkInfo EmptyString EmptyString EmptyString;
|}.

(** ** net/http *)

(** [w_header] is what [w.Header()] returns, [w_sent] the status and the headers
    that have gone out. *)
Record ResponseWriter := mkResponseWriter {
  w_header : gmap string string;
  w_sent : option (Z * gmap string string);
  w_body : string;
}.
Definition new_response : ResponseWriter := mkResponseWriter ∅ None EmptyString.

Definition Header_Set (k v : string) (w : ResponseWriter) : ResponseWriter :=
  mkResponseWriter (<[k := v]> (w_header w)) (w_sent w) (w_body w).
Definition Header_Del (k : string) (w : ResponseWriter) : ResponseWriter :=
  mkResponseWriter (delete k (w_header w)) (w_sent w) (w_body w).

Definition WriteHeader (code : Z) (w : ResponseWriter) : ResponseWriter :=
  match w_sent w with
  | Some _ => w
  | None => mkResponseWriter (w_header w) (Some (code, w_header w)) (w_body w)
  end.

Definition StatusOK : Z := 200.
Definition StatusMethodNotAllowed : Z := 405.
Definition StatusInternalServerError : Z := 500.
Definition newline_byte : string := String (ascii_of_N 10) EmptyString.

Section handler.
Context {E : Type} (write_err : string → option E).

(** [w.Write]; [write_err] says which writes fail. *)
Definition Write (p : string) (w : ResponseWriter) : option E * ResponseWriter :=
  let w := WriteHeader StatusOK w in
  match write_err p with
  | Some err => (Some err, w)
  | None => (None, mkResponseWriter (w_header w) (w_sent w) (w_body w +:+ p))
  end.

(** [http.Error]. *)
Definition http_Error (msg : string) (code : Z) (w : ResponseWriter) : ResponseWriter :=
  let w := Header_Del "Content-Length" w in
  let w := Header_Set "Content-Type" "text/plain; charset=utf-8" w in
  let w := Header_Set "X-Content-Type-Options" "nosniff" w in
  (Write (msg +:+ newline_byte) (WriteHeader code w)).2.

(** [func (dc *DockerCluster) versionHandler(w http.ResponseWriter, r *http.Request)];
    Encode writes the value and a newline in one call. *)
Definition versionHandler (b : build) (method : string) (w : ResponseWriter) : ResponseWriter :=
  if negb (bool_decide (method = "GET")) then http_Error "Method not allowed" StatusMethodNotAllowed w
  else
    let w := Header_Set "Content-Type" "application/json" w in
    let (err, w) := Write (marshal_struct (GetInfo b) +:+ newline_byte) w in
    match err with
    | Some _ => http_Error "Internal Server Error" StatusInternalServerError w
    | None => w
    end.

(** [http.Server]: the route of its mux, its timeouts in nanoseconds, and whether
    it has been shut down. *)
Record http_Server := mkServer {
  srv_Addr : string;
  srv_routes : list (string * (string → ResponseWriter → ResponseWriter));
  srv_ReadTimeout : Z;
  srv_WriteTimeout : Z;
  srv_IdleTimeout : Z;
  srv_closed : bool;
}.
Definition second : Z := 1000000000.

(** [func (dc *DockerCluster) ServeVersionHTTP(addr string) *http.Server]: the
    goroutine that serves only logs how it ended. *)
Definition ServeVersionHTTP (b : build) (addr : string) : http_Server :=
  mkServer addr [("/version", versionHandler b)] (5 * second) (10 * second) (60 * second) false.
Definition Shutdown (s : http_Server) : http_Server :=
  mkServer (srv_Addr s) (srv_routes s) (srv_ReadTimeout s) (srv_WriteTimeout s) (srv_IdleTimeout s) true.

(** ** What the client sees *)

Lemma Info_writable (i : Info) : writable 0 (struct_json i).
Proof. by repeat constructor. Qed.

Lemma store_info i :
  valid_utf8 (info_Version i) → valid_utf8 (info_GitCommit i) → valid_utf8 (info_BuildTime i) →
  store_struct (scrub_json (struct_json i)) zero_value = Ok i.
Proof.
  intros H1 H2 H3. change (store_members [("version", JStr (scrub (info_Version i)));
    ("git_commit", JStr (scrub (info_GitCommit i))); ("build_time", JStr (scrub (info_BuildTime i)))]
    zero_value = Ok i).
  store_fields. cbn [info_Version info_GitCommit info_BuildTime]. rewrite H1, H2, H3. by destruct i.
Qed.

(** A GET of the version endpoint is answered with status 200, the JSON
    content type and one line of JSON that decodes to the version, commit and
    build time of the binary. *)
Theorem version_served b :
  valid_utf8 (Version b) → valid_utf8 (GitCommit b) → valid_utf8 (BuildTime b) →
  (∀ p, write_err p = None) →
  let w := versionHandler b "GET" new_response in
  w_sent w = Some (StatusOK, {["Content-Type" := "application/json"]}) ∧
  unmarshal_struct (w_body w) = Ok (GetInfo b).
Proof.
  intros H1 H2 H3 Hok. unfold versionHandler. rewrite bool_decide_eq_true_2 by done. cbn [negb].
  unfold Write. rewrite Hok. cbn [w_sent WriteHeader Header_Set new_response w_header w_body].
  split; [done|]. rewrite app_empty_l. unfold unmarshal_struct, marshal_struct.
  rewrite parse_print_then; [by apply store_info|apply Info_writable|set_solver|done].
Qed.

(** Any other method is answered with 405 and plain text.  When writing the
    answer to a GET fails, the handler asks for status 500, but the status has
    gone out with the failed write: the client is told 200 and JSON whatever
    happens, and at most the text of the error follows. *)
Theorem version_errors b method :
  let w := versionHandler b method new_response in
  (method ≠ "GET" →
    w_sent w = Some (StatusMethodNotAllowed,
      {["Content-Type" := "text/plain; charset=utf-8"; "X-Content-Type-Options" := "nosniff"]})) ∧
  (method = "GET" → is_Some (write_err (marshal_struct (GetInfo b) +:+ newline_byte)) →
    w_sent w = Some (StatusOK, {["Content-Type" := "application/json"]})).
Proof.
  intros w. subst w. unfold versionHandler. split.
  - intros Hm. rewrite bool_decide_eq_false_2 by done. cbn [negb]. unfold http_Error, Write.
    destruct (write_err _); cbn; do 2 f_equal; by_computation.
  - intros -> [err He]. rewrite bool_decide_eq_true_2 by done. cbn [negb]. unfold Write at 1. rewrite He.
    unfold http_Error, Write. by destruct (write_err ("Internal Server Error" +:+ newline_byte)).
Qed.
End handler.

(** ** The theorems at concrete inputs *)

Module VersionExamples.
Definition release : build := mkBuild "1.4.0" "0a1b2c3" "2026-01-31T12:00:00Z".

Lemma version_served_witness :
  let w := versionHandler (E := string) (λ _, None) release "GET" new_response in
  w_sent w = Some (200%Z, {["Content-Type" := "application/json"]}) ∧
  unmarshal_struct (w_body w) = Ok (mkInfo "1.4.0" "0a1b2c3" "2026-01-31T12:00:00Z").
Proof.
  apply (version_served (E := string) (λ _, None) release); [by_computation..|done].
Defined.

Lemma version_errors_witness :
  let w := versionHandler (λ _, Some "broken pipe") release "GET" new_response in
  w_sent w = Some (200%Z, {["Content-Type" := "application/json"]}).
Proof.
  intros w. apply (proj2 (version_errors (λ _, Some "broken pipe") release "GET")); [done|by eexists].
Defined.
End VersionExamples.
