(* ===== verification/Discovery.v ===== *)
(** * Discovery: finding peers by UDP broadcast (docker-cluster/discovery.go)

    Every node announces its name and cluster port in a JSON packet; the
    listener keeps the last address seen per node name.  The socket is an input:
    a run of the listener is a sequence of results of ReadFromUDP. *)

From stdpp Require Import gmap strings list fin_maps pretty.
From Stdlib Require Import ZArith Lia.
From S2P Require Import Prelude GoStrings Strconv Json JsonSpec JsonPrefix Message.

#[local] Open Scope joyride_scope.

Definition DefaultDiscoveryPort : Z := 8889.
Definition discoveryInterval : Z := 5 * 1000000000.
Definition discoveryMessage : string := "COREDNS-CLUSTER".

Record discoveryPacket := mkPacket {
  pkt_Magic : string;
  pkt_NodeID : string;
  pkt_ClusterPort : Z;
}.

#[global] Instance discoveryPacket_eq_dec : EqDecision discoveryPacket.
Proof. solve_decision. Defined.

Definition discoveryPacket_fields : list (field discoveryPacket) := [
  mkField "m" (λ p, JStr (pkt_Magic p)) (λ v p,
    let? x := store_string v (pkt_Magic p) in
    Ok (mkPacket x (pkt_NodeID p) (pkt_ClusterPort p)));
  mkField "n" (λ p, JStr (pkt_NodeID p)) (λ v p,
    let? x := store_string v (pkt_NodeID p) in
    Ok (mkPacket (pkt_Magic p) x (pkt_ClusterPort p)));
  mkField "p" (λ p, JNum (pretty (pkt_ClusterPort p))) (λ v p,
    let? x := store_int v (pkt_ClusterPort p) in
    Ok (mkPacket (pkt_Magic p) (pkt_NodeID p) x))].
#[global] Instance discoveryPacket_struct : JsonStruct discoveryPacket := {|
  fields := discoveryPacket_fields;
  zero_value := mkPacket EmptyString EmptyString 0%Z;
|}.

Definition packet_ok (p : discoveryPacket) : Prop :=
  valid_utf8 (pkt_Magic p) ∧ valid_utf8 (pkt_NodeID p) ∧ int64 (pkt_ClusterPort p).
#[global] Instance packet_ok_dec p : Decision (packet_ok p).
Proof. unfold packet_ok. apply _. Defined.

Lemma store_packet p :
  packet_ok p → store_struct (scrub_json (struct_json p)) zero_value = Ok p.
Proof.
  intros (Hm & Hn & Hp). change (store_members [("m", JStr (scrub (pkt_Magic p)));
    ("n", JStr (scrub (pkt_NodeID p))); ("p", JNum (pretty (pkt_ClusterPort p)))] zero_value = Ok p).
  store_fields. rewrite Hm, Hn. by destruct p.
Qed.

#[global] Instance discoveryPacket_round_trip : JsonRoundTrip discoveryPacket.
Proof.
  refine {| representable := packet_ok |}. intros p Hp. eexists. split_and!; [done|done|].
  apply unmarshal_marshal; [by repeat constructor|]. by apply store_packet.
Defined.

Section discovery.
Context `{JsonCodec discoveryPacket} {E : Type}.

(** [pd_conn]: whether the socket is open; [pd_wg]: running goroutines;
    [pd_cancel_set]: [pd.cancel] is not nil. *)
Record PeerDiscovery := mkPeerDiscovery {
  pd_nodeID : string;
  pd_clusterPort : Z;
  pd_discoveryPort : Z;
  pd_conn : bool;
  pd_peers : gmap string string;
  pd_cancel_set : bool;
  pd_ctx_done : bool;
  pd_wg : nat;
}.

(** [NewPeerDiscovery]. *)
Definition NewPeerDiscovery (nodeID : string) (clusterPort discoveryPort : Z) : PeerDiscovery :=
  let discoveryPort :=
    if bool_decide (discoveryPort = 0%Z) then DefaultDiscoveryPort else discoveryPort in
  mkPeerDiscovery nodeID clusterPort discoveryPort false ∅ false false 0.

Definition set_peers (peers : gmap string string) (pd : PeerDiscovery) : PeerDiscovery :=
  mkPeerDiscovery (pd_nodeID pd) (pd_clusterPort pd) (pd_discoveryPort pd) (pd_conn pd) peers
    (pd_cancel_set pd) (pd_ctx_done pd) (pd_wg pd).

(** [func (pd *PeerDiscovery) Start(ctx context.Context) error]; [listen] is the
    error of net.ListenUDP, if any. *)
Definition PeerDiscovery_Start (listen : option E) (pd : PeerDiscovery)
    : option E * PeerDiscovery :=
  match listen with
  | Some err =>
      (Some err, mkPeerDiscovery (pd_nodeID pd) (pd_clusterPort pd) (pd_discoveryPort pd)
                   (pd_conn pd) (pd_peers pd) true false (pd_wg pd))
  | None =>
      (None, mkPeerDiscovery (pd_nodeID pd) (pd_clusterPort pd) (pd_discoveryPort pd)
               true (pd_peers pd) true false (pd_wg pd + 2))
  end.

(** [func (pd *PeerDiscovery) Stop()], up to its wait. *)
Definition PeerDiscovery_Stop (pd : PeerDiscovery) : PeerDiscovery :=
  mkPeerDiscovery (pd_nodeID pd) (pd_clusterPort pd) (pd_discoveryPort pd) false (pd_peers pd)
    (pd_cancel_set pd) (if pd_cancel_set pd then true else pd_ctx_done pd) (pd_wg pd).

(** [func (pd *PeerDiscovery) GetPeers() []string]. *)
Definition GetPeers (rng : gmap string string → list (string * string)) (pd : PeerDiscovery)
    : list string := (rng (pd_peers pd)).*2.

(** [defer pd.wg.Done()] of both loops. *)
Definition pd_wg_Done (pd : PeerDiscovery) : PeerDiscovery :=
  mkPeerDiscovery (pd_nodeID pd) (pd_clusterPort pd) (pd_discoveryPort pd) (pd_conn pd)
    (pd_peers pd) (pd_cancel_set pd) (pd_ctx_done pd) (pred (pd_wg pd)).

(** The packet broadcastLoop marshals, and what the loop hands to [broadcast]
    (data and port) after [ticks] firings of its ticker, [cancelled] saying
    whether the context was then done; nothing when the packet cannot be
    marshalled. *)
Definition announcement (pd : PeerDiscovery) : discoveryPacket :=
  mkPacket discoveryMessage (pd_nodeID pd) (pd_clusterPort pd).
Definition broadcastLoop (pd : PeerDiscovery) (ticks : nat) (cancelled : bool)
    : list (string * Z) * PeerDiscovery :=
  match Marshal (announcement pd) with
  | Err _ => ([], pd_wg_Done pd)
  | Ok data => (replicate (S ticks) (data, pd_discoveryPort pd),
                if cancelled then pd_wg_Done pd else pd)
  end.

(** [func (pd *PeerDiscovery) broadcast(data []byte, addr *net.UDPAddr)]: what it
    sends, with the errors of dialling and writing. *)
Definition broadcast (dial write : option E) (data : string) (port : Z) : list (string * Z) :=
  match dial with
  | Some _ => []
  | None => match write with Some _ => [] | None => [(data, port)] end
  end.

(** [fmt.Sprintf("%s:%d", remoteAddr.IP.String(), packet.ClusterPort)]. *)
Definition peer_addr (ip : string) (port : Z) : string := ip +:+ ":" +:+ pretty port.

(** [handlePacket]; [ip] is the text of the sender's address. *)
Definition handlePacket (data ip : string) (pd : PeerDiscovery) : PeerDiscovery :=
  match Unmarshal (A := discoveryPacket) data with
  | Err _ => pd
  | Ok packet =>
      if negb (bool_decide (pkt_Magic packet = discoveryMessage)) then pd
      else if bool_decide (pkt_NodeID packet = pd_nodeID pd) then pd
      else set_peers (<[pkt_NodeID packet := peer_addr ip (pkt_ClusterPort packet)]>
                        (pd_peers pd)) pd
  end.

(** One result of ReadFromUDP: a timeout, another error, or a datagram with its
    sender; before each read the context may be found done. *)
Inductive udp_read := ReadDone | ReadTimeout | ReadError (e : E) | ReadPacket (data ip : string).

(** [buf := make([]byte, 1024)]: a longer datagram is cut. *)
Definition recv_buffer : nat := 1024.

(** [listenLoop] over a sequence of reads; [pd.ctx.Err() != nil] after a failed
    read ends it too. *)
Fixpoint listenLoop (reads : list udp_read) (pd : PeerDiscovery) : PeerDiscovery :=
  match reads with
  | [] => pd
  | ReadDone :: _ => pd_wg_Done pd
  | ReadTimeout :: reads => listenLoop reads pd
  | ReadError _ :: reads => if pd_ctx_done pd then pd_wg_Done pd else listenLoop reads pd
  | ReadPacket data ip :: reads =>
      listenLoop reads (handlePacket (String.substring 0 recv_buffer data) ip pd)
  end.

Lemma substring_whole (s : string) n : String.length s ≤ n → String.substring 0 n s = s.
Proof.
  revert n. induction s as [|c s IH]; intros [|n] Hn; simpl in *; [done|done|lia|].
  f_equal. apply IH. lia.
Qed.
Lemma substring_split (s : string) n : ∃ t, s = String.substring 0 n s +:+ t ∧
  (n < String.length s → t ≠ EmptyString).
Proof.
  revert n. induction s as [|c s IH]; intros [|n]; simpl.
  - exists EmptyString. split; [done|lia].
  - exists EmptyString. split; [done|lia].
  - exists (String c s). split; [done|by intros].
  - destruct (IH n) as (t & Ht & Hn). exists t. rewrite app_String, <-Ht. split; [done|].
    intros ?. apply Hn. lia.
Qed.

(** ** What a node learns *)

Implicit Types (pd : PeerDiscovery) (reads : list udp_read).

(** The address a datagram announces for [id], if it is a discovery packet. *)
Definition announces (id data ip : string) : option string :=
  match Unmarshal (A := discoveryPacket) (String.substring 0 recv_buffer data) with
  | Ok packet =>
      if bool_decide (pkt_Magic packet = discoveryMessage) && bool_decide (pkt_NodeID packet = id)
      then Some (peer_addr ip (pkt_ClusterPort packet)) else None
  | Err _ => None
  end.
Definition heard (id : string) reads : list string :=
  omap (λ rd, match rd with ReadPacket data ip => announces id data ip | _ => None end) reads.

Lemma heard_packet id data ip reads :
  heard id (ReadPacket data ip :: reads) =
    match announces id data ip with Some a => a :: heard id reads | None => heard id reads end.
Proof. done. Qed.

Lemma handlePacket_lookup data ip pd id :
  pd_peers (handlePacket (String.substring 0 recv_buffer data) ip pd) !! id =
    if decide (id = pd_nodeID pd) then pd_peers pd !! id
    else match announces id data ip with Some a => Some a | None => pd_peers pd !! id end.
Proof.
  unfold handlePacket, announces. destruct (Unmarshal _) as [packet|e]; [|by case_decide].
  destruct (bool_decide_reflect (pkt_Magic packet = discoveryMessage)); simpl; [|by case_decide].
  destruct (bool_decide_reflect (pkt_NodeID packet = pd_nodeID pd)) as [Hself|Hself].
  - case_decide; [done|]. rewrite bool_decide_eq_false_2; [done|congruence].
  - simpl. rewrite lookup_insert. case_decide as Hid; [subst id|].
    + rewrite decide_False by done. by rewrite bool_decide_eq_true_2.
    + rewrite bool_decide_eq_false_2 by done. by case_decide.
Qed.

Lemma handlePacket_fixed data ip pd :
  let pd' := handlePacket data ip pd in
  pd_nodeID pd' = pd_nodeID pd ∧ pd_ctx_done pd' = pd_ctx_done pd.
Proof. unfold handlePacket. repeat case_match; done. Qed.

(** While a node listens, the address it holds for a peer is the one of the
    last valid announcement it received under that peer's name, and packets that
    do not decode, carry another magic word or carry the node's own name change
    nothing; timeouts and read errors lose nothing. *)
Theorem peers_last_heard reads pd id :
  pd_ctx_done pd = false → Forall (λ rd, rd ≠ ReadDone) reads →
  pd_peers (listenLoop reads pd) !! id =
    if decide (id = pd_nodeID pd) then pd_peers pd !! id
    else match last (heard id reads) with Some a => Some a | None => pd_peers pd !! id end.
Proof.
  revert pd. induction reads as [|rd reads IH]; intros pd Hctx Hd; [by case_decide|].
  apply Forall_cons in Hd as [Hrd Hd]. destruct rd as [| |e|data ip]; [done|..]; cbn [listenLoop].
  - by apply IH.
  - rewrite Hctx. by apply IH.
  - destruct (handlePacket_fixed (String.substring 0 recv_buffer data) ip pd) as [Hid Hctx'].
    rewrite IH, Hid, handlePacket_lookup by (done || congruence).
    rewrite heard_packet. case_decide; [done|].
    destruct (announces id data ip) as [a|]; [|done].
    rewrite last_cons. by destruct (last (heard id reads)).
Qed.

End discovery.
Arguments udp_read : clear implicits.

(** ** Announcements, as JSON *)

Lemma packet_writable (p : discoveryPacket) : writable 0 (struct_json p).
Proof. by repeat constructor. Qed.

(** C26: The loop sends one packet at the start and one per tick to the discovery
    port, always the same bytes.  A node of another name that receives them
    records the sender's address with its cluster port exactly when the packet
    fits the receive buffer of 1024 bytes; a longer one is cut, which leaves no
    JSON text, and a node of the same name, such as the sender itself, learns
    nothing. *)
Theorem announcement_discovered {E} pd pd' ticks cancelled data port ip :
  valid_utf8 (pd_nodeID pd) → int64 (pd_clusterPort pd) →
  (data, port) ∈ (broadcastLoop pd ticks cancelled).1 →
  length (broadcastLoop pd ticks cancelled).1 = S ticks ∧ port = pd_discoveryPort pd ∧
  listenLoop (E := E) [ReadPacket data ip] pd' =
    if decide (String.length data ≤ recv_buffer ∧ pd_nodeID pd ≠ pd_nodeID pd')
    then set_peers (<[pd_nodeID pd := peer_addr ip (pd_clusterPort pd)]> (pd_peers pd')) pd'
    else pd'.
Proof.
  intros Hid Hport. unfold broadcastLoop. cbn [Marshal struct_codec fst].
  intros [[= -> ->] _]%elem_of_replicate. rewrite length_replicate. split_and!; [done..|].
  cbn [listenLoop]. unfold handlePacket. cbn [Unmarshal struct_codec].
  destruct (decide (String.length (marshal_struct (announcement pd)) ≤ recv_buffer)) as [Hl|Hl].
  - rewrite substring_whole by done.
    rewrite (unmarshal_marshal _ (announcement pd));
      [|apply packet_writable|by apply store_packet; split_and!].
    cbn [announcement pkt_Magic pkt_NodeID pkt_ClusterPort negb bool_decide].
    rewrite bool_decide_eq_true_2 by done. cbn [negb].
    destruct (decide (pd_nodeID pd = pd_nodeID pd')).
    + rewrite bool_decide_eq_true_2 by done. by rewrite decide_False by tauto.
    + rewrite bool_decide_eq_false_2 by done. by rewrite decide_True by tauto.
  - rewrite decide_False by tauto.
    destruct (substring_split (marshal_struct (announcement pd)) recv_buffer) as (t & Ht & Hne).
    rewrite (truncated_struct (announcement pd) _ t); [done|apply packet_writable|done|].
    apply Hne. lia.
Qed.

(** ** The theorems at concrete inputs *)

Module DiscoveryExamples.

Definition node_a : PeerDiscovery := NewPeerDiscovery "a" 7946 0.
Definition node_b : PeerDiscovery := NewPeerDiscovery "b" 7947 9000.
Definition sent (pd : PeerDiscovery) : string :=
  match Marshal (announcement pd) with Ok data => data | Err _ => EmptyString end.
Definition reads : list (udp_read string) :=
  [ReadPacket (sent node_a) "10.0.0.9"; ReadTimeout; ReadPacket "junk" "10.0.0.7";
   ReadPacket (sent node_b) "10.0.0.2"; ReadError "lost"; ReadPacket (sent node_a) "10.0.0.1"].

Lemma peers_last_heard_witness :
  pd_peers (listenLoop reads node_b) !! "a" = Some "10.0.0.1:7946" ∧
  pd_peers (listenLoop reads node_b) !! "b" = None.
Proof.
  split.
  - rewrite (peers_last_heard reads node_b "a"); [by vm_compute|done|by repeat constructor].
  - by vm_compute.
Defined.

Lemma announcement_discovered_witness :
  (sent node_a, 8889%Z) ∈ (broadcastLoop node_a 3 false).1 ∧
  listenLoop (E := string) [ReadPacket (sent node_a) "10.0.0.1"] node_b =
    set_peers {["a" := "10.0.0.1:7946"]} node_b.
Proof.
  assert ((sent node_a, 8889%Z) ∈ (broadcastLoop node_a 3 false).1) as Hin by by_computation.
  split; [done|].
  destruct (announcement_discovered (E := string) node_a node_b 3 false (sent node_a) 8889
    "10.0.0.1") as (_ & _ & ->); [by_computation|by_computation|exact Hin|by vm_compute].
Defined.
End DiscoveryExamples.
