(* ===== verification/Cluster.v ===== *)
(** * Cluster: configuration and lifecycle of a cluster node
    (docker-cluster/cluster_config.go, cluster.go, the wiring in setup.go)

    The cluster manager ties the record store, the gossip delegate, the peer
    discovery and memberlist together; the Docker watcher reaches it through the
    callback that setup installs.  memberlist is an interface; the operating
    system's answers (the host name, binding a port) are arguments. *)

From stdpp Require Import gmap strings list fin_maps.
From Stdlib Require Import ZArith Lia.
From S2P Require Import Prelude GoStrings Json Message Records Lww Delegate Watcher Discovery.

(** ** Configuration *)

Record ClusterConfig := mkClusterConfig {
  cc_Enabled : bool;
  cc_Port : Z;
  cc_Seeds : list string;
  cc_NodeName : string;
  cc_BindAddr : string;
  cc_SecretKey : string;
  cc_DiscoveryPort : Z;
}.

(** [NewClusterConfig]. *)
Definition NewClusterConfig : ClusterConfig :=
  mkClusterConfig false 7946 [] EmptyString "0.0.0.0" EmptyString 8889.

Definition set_NodeName (name : string) (c : ClusterConfig) : ClusterConfig :=
  mkClusterConfig (cc_Enabled c) (cc_Port c) (cc_Seeds c) name (cc_BindAddr c) (cc_SecretKey c)
    (cc_DiscoveryPort c).

(** The errors of Validate, with what their messages report. *)
Inductive config_error (E : Type) :=
| PortOutOfRange (port : Z)
| BadSecretLength (len : nat)
| NoNodeName (err : E).
Arguments PortOutOfRange {E} _.
Arguments BadSecretLength {E} _.
Arguments NoNodeName {E} _.

(** [func (c *ClusterConfig) Validate() error], with the result of os.Hostname;
    on success, the configuration it leaves. *)
Definition Validate {E} (hostname : result E string) (c : ClusterConfig)
    : result (config_error E) ClusterConfig :=
  if bool_decide (cc_Port c ≤ 0)%Z || bool_decide (65536 ≤ cc_Port c)%Z
  then Err (PortOutOfRange (cc_Port c))
  else
    let keyLen := String.length (cc_SecretKey c) in
    if bool_decide (0 < keyLen) && negb (bool_decide (keyLen = 16)) &&
       negb (bool_decide (keyLen = 24)) && negb (bool_decide (keyLen = 32))
    then Err (BadSecretLength keyLen)
    else if cc_Enabled c && bool_decide (cc_NodeName c = EmptyString) then
      match hostname with
      | Err err => Err (NoNodeName err)
      | Ok name => Ok (set_NodeName name c)
      end
    else Ok c.

(** Validate accepts a configuration exactly when its port is a TCP port, its
    secret is absent or an AES key of 16, 24 or 32 bytes, and an enabled cluster
    has a name or the host's name can be found; the configuration it leaves
    differs only in that name, and an enabled one then has one unless the host
    name itself is empty. *)
Lemma Validate_ok {E} (hostname : result E string) c c' :
  Validate hostname c = Ok c' ↔
    (1 ≤ cc_Port c ≤ 65535)%Z ∧ String.length (cc_SecretKey c) ∈ [0; 16; 24; 32] ∧
    (if cc_Enabled c && bool_decide (cc_NodeName c = EmptyString)
     then ∃ name, hostname = Ok name ∧ c' = set_NodeName name c
     else c' = c).
Proof.
  unfold Validate.
  destruct (bool_decide_reflect (cc_Port c ≤ 0)%Z); simpl; [split; [done|intros [? _]; lia]|].
  destruct (bool_decide_reflect (65536 ≤ cc_Port c)%Z); simpl; [split; [done|intros [? _]; lia]|].
  match goal with |- context [if ?b then Err (BadSecretLength _) else _] =>
    assert (b = false ↔ String.length (cc_SecretKey c) ∈ [0; 16; 24; 32]) as Hkey;
      [|destruct b] end.
  { rewrite !elem_of_cons, elem_of_nil. repeat case_bool_decide; simpl; lia. }
  { split; [done|]. intros (_ & Hin & _). by apply Hkey in Hin. }
  assert (String.length (cc_SecretKey c) ∈ [0; 16; 24; 32]) as Hin by (by apply Hkey).
  destruct (cc_Enabled c && bool_decide (cc_NodeName c = EmptyString)).
  - destruct hostname as [name|err].
    + split; [intros [= <-]|intros (_ & _ & name' & [= ->] & ->)]; [|done].
      split_and!; [lia|lia|done|eauto].
    + split; [done|]. by intros (_ & _ & name' & ? & _).
  - split; [intros [= <-]|intros (_ & _ & ->)]; [|done]. split_and!; [lia|lia|done|done].
Qed.

(** ** memberlist *)

(** The fields of memberlist.Config the manager sets. *)
Record mlConfig := mkMlConfig {
  ml_Name : string;
  ml_BindAddr : string;
  ml_BindPort : Z;
  ml_AdvertisePort : Z;
  ml_SecretKey : string;
  ml_GossipInterval : Z;
  ml_ProbeInterval : Z;
  ml_ProbeTimeout : Z;
  ml_SuspicionMult : Z;
}.

(** The operations of memberlist the manager calls; a member list changes under
    Join and Leave. *)
Class Memberlist (E : Type) := {
  ML : Type;
  ml_node : Type;
  DefaultLANConfig_SecretKey : string;
  ml_Create : mlConfig → result E ML;
  ml_NumMembers : ML → Z;
  ml_Members : ML → list ml_node;
  ml_Join : list string → ML → (Z * option E) * ML;
  ml_Leave : Z → ML → option E * ML;
  ml_Shutdown : ML → option E;
}.

Section manager.
Context `{UnicodeCase} `{TransmitLimitedQueue}.
Context `{!JsonCodec RecordMessage} `{!JsonCodec FullState}.
Context {E : Type} `{!Memberlist E}.

(** A nil pointer is [None]; [cm_cancel_set]: [cm.cancel] is not nil. *)
Record ClusterManager := mkClusterManager {
  cm_config : ClusterConfig;
  cm_delegate : option ClusterDelegate;
  cm_discovery : option PeerDiscovery;
  cm_memberlist : option ML;
  cm_ctx_done : bool;
  cm_cancel_set : bool;
}.

(** [NewClusterManager]; a nil manager is [None]. *)
Definition NewClusterManager (hostname : result E string) (config : option ClusterConfig)
    : result (config_error E) (option ClusterManager) :=
  match config with
  | None => Ok None
  | Some config =>
      if negb (cc_Enabled config) then Ok None
      else match Validate hostname config with
           | Err err => Err err
           | Ok config =>
               Ok (Some (mkClusterManager config (Some (NewClusterDelegate (cc_NodeName config)))
                 None None false false))
           end
  end.

(** The function the manager gives the delegate as its node count. *)
Definition numNodes (cm : ClusterManager) : Z :=
  match cm_memberlist cm with None => 1 | Some ml => ml_NumMembers ml end.

(** The configuration Start hands to memberlist.Create; durations in
    nanoseconds. *)
Definition memberlist_config (c : ClusterConfig) : mlConfig := {|
  ml_Name := cc_NodeName c;
  ml_BindAddr := cc_BindAddr c;
  ml_BindPort := cc_Port c;
  ml_AdvertisePort := cc_Port c;
  ml_SecretKey :=
    if bool_decide (0 < String.length (cc_SecretKey c)) then cc_SecretKey c
    else DefaultLANConfig_SecretKey;
  ml_GossipInterval := 200 * 1000000;
  ml_ProbeInterval := 1000 * 1000000;
  ml_ProbeTimeout := 500 * 1000000;
  ml_SuspicionMult := 4;
|}.

(** What a call can do: return, with an error or not, or panic on a nil
    pointer. *)
Inductive call_result := Returns (err : option E) | NilPanic.

(** [func (cm *ClusterManager) Start(ctx context.Context) error]; [listen] is
    the error of binding the discovery port, if any, which is only logged. *)
Definition ClusterManager_Start (listen : option E) (cm : ClusterManager)
    : call_result * ClusterManager :=
  let c := cm_config cm in
  match ml_Create (memberlist_config c) with
  | Err err =>
      (Returns (Some err), mkClusterManager c (cm_delegate cm) (cm_discovery cm)
                             (cm_memberlist cm) false true)
  | Ok ml =>
      match cm_delegate cm with
      | None => (NilPanic, mkClusterManager c None (cm_discovery cm) (Some ml) false true)
      | Some d =>
          let discovery :=
            if bool_decide (length (cc_Seeds c) = 0) then
              Some (PeerDiscovery_Start listen
                (NewPeerDiscovery (cc_NodeName c) (cc_Port c) (cc_DiscoveryPort c))).2
            else cm_discovery cm in
          (Returns None, mkClusterManager c (Some (Start d)) discovery (Some ml) false true)
      end
  end.

(** [func (cm *ClusterManager) Stop() error]: the references are cleared and
    what they held is shut down in order; the waits of the delegate and of the
    discovery are their own. *)
Record stopped := mkStopped {
  st_cm : ClusterManager;
  st_discovery : option PeerDiscovery;
  st_delegate : option ClusterDelegate;
  st_err : option E;
}.
Definition ClusterManager_Stop (cm : ClusterManager) : stopped := {|
  st_cm := mkClusterManager (cm_config cm) None None None
             (if cm_cancel_set cm then true else cm_ctx_done cm) false;
  st_discovery := PeerDiscovery_Stop <$> cm_discovery cm;
  st_delegate := Stop_cancel <$> cm_delegate cm;
  st_err :=
    match cm_memberlist cm with
    | None => None
    | Some ml => ml_Shutdown (ml_Leave (5 * 1000000000) ml).2
    end;
|}.

Definition set_memberlist (ml : ML) (cm : ClusterManager) : ClusterManager :=
  mkClusterManager (cm_config cm) (cm_delegate cm) (cm_discovery cm) (Some ml)
    (cm_ctx_done cm) (cm_cancel_set cm).

(** [func (cm *ClusterManager) Join() error]; the flag says whether the
    discovery loop was started. *)
Definition ClusterManager_Join (cm : ClusterManager) : call_result * bool * ClusterManager :=
  if bool_decide (0 < length (cc_Seeds (cm_config cm))) then
    match cm_memberlist cm with
    | None => (NilPanic, false, cm)
    | Some ml =>
        let '((_, err), ml) := ml_Join (cc_Seeds (cm_config cm)) ml in
        (Returns err, false, set_memberlist ml cm)
    end
  else match cm_discovery cm with
       | None => (Returns None, false, cm)
       | Some _ => (Returns None, true, cm)
       end.

(** One turn of [discoveryJoinLoop], after a firing of its select: [tick] is
    false when the context was done.  [None]: the goroutine returns. *)
Definition discoveryJoinLoop_turn (rng : gmap string string → list (string * string))
    (tick : bool) (cm : ClusterManager) : option ClusterManager :=
  if negb tick then None
  else match cm_discovery cm, cm_memberlist cm with
       | Some discovery, Some ml =>
           let peers := GetPeers rng discovery in
           if bool_decide (length peers = 0) then Some cm
           else if bool_decide (1 < ml_NumMembers ml)%Z then Some cm
           else Some (set_memberlist (ml_Join peers ml).2 cm)
       | _, _ => None
       end.

(** [NotifyRecordAdd] and [NotifyRecordRemove], on the manager and the shared
    store. *)
Definition add_message (cm : ClusterManager) (hostname ip : string) (timestamp : Z) : RecordMessage :=
  mkRecordMessage hostname ip RecordActionAdd timestamp (cc_NodeName (cm_config cm)).
Definition remove_message (cm : ClusterManager) (hostname : string) (timestamp : Z) : RecordMessage :=
  mkRecordMessage hostname EmptyString RecordActionRemove timestamp (cc_NodeName (cm_config cm)).

Definition set_delegate (d : ClusterDelegate) (cm : ClusterManager) : ClusterManager :=
  mkClusterManager (cm_config cm) (Some d) (cm_discovery cm) (cm_memberlist cm)
    (cm_ctx_done cm) (cm_cancel_set cm).

Definition NotifyRecordAdd (hostname ip : string) (timestamp : Z)
    (s : ClusterManager * Records) : ClusterManager * Records :=
  let (cm, r) := s in
  match cm_delegate cm with
  | None => (cm, r)
  | Some d =>
      let msg := add_message cm hostname ip timestamp in
      (set_delegate (BroadcastRecord d msg) cm, (ApplyMessage r msg).2)
  end.

Definition NotifyRecordRemove (hostname : string) (timestamp : Z)
    (s : ClusterManager * Records) : ClusterManager * Records :=
  let (cm, r) := s in
  match cm_delegate cm with
  | None => (cm, r)
  | Some d =>
      let msg := remove_message cm hostname timestamp in
      (set_delegate (BroadcastRecord d msg) cm, (ApplyMessage r msg).2)
  end.

(** [func (cm *ClusterManager) Members() []*memberlist.Node]; nil is [None]. *)
Definition Members (cm : ClusterManager) : option (list ml_node) := ml_Members <$> cm_memberlist cm.

(** [func (cm *ClusterManager) IsHealthy() bool]. *)
Definition IsHealthy (cm : ClusterManager) : bool :=
  match cm_memberlist cm with
  | None => false
  | Some ml => bool_decide (0 < ml_NumMembers ml)%Z
  end.

(** ** A node: the store the watcher writes and the manager it notifies *)

#[export, refine] Instance node_world : RecordsWorld (ClusterManager * Records) := {|
  get_records := snd;
  set_records r n := (n.1, r);
|}.
Proof. all: by intros; try destruct w. Defined.

(** The callback that setup gives the watcher. *)
Definition cluster_callback : RecordChangeCallback (W := ClusterManager * Records) :=
  λ hostname ip added timestamp n,
    if (added : bool) then NotifyRecordAdd hostname ip timestamp n
    else NotifyRecordRemove hostname timestamp n.
End manager.
Arguments ClusterManager {_} E {_}.
