(* ===== verification/ClusterSpec.v ===== *)
(** * ClusterSpec: what clustering adds to a watched node

    The watcher writes the store directly and the manager then applies and
    broadcasts a message about it.  When the stamp is news everywhere, all nodes
    resolve the name as the container's node does; when it is not, the direct
    write leaves the node with an address that its metadata does not belong to. *)

From stdpp Require Import gmap strings list fin_maps.
From Stdlib Require Import ZArith Lia.
From S2P Require Import Prelude GoStrings Json Message Records Lww Delegate Watcher WatcherSpec WatchLoop Discovery Cluster.

Section cluster.
Context `{UnicodeCase} `{TransmitLimitedQueue}.
Context `{!JsonCodec RecordMessage} `{!JsonCodec FullState}.
Context {E : Type} `{!Memberlist E}.
Abbreviation node := (ClusterManager E * Records)%type.
Implicit Types (cm : ClusterManager E) (r : Records) (d : ClusterDelegate).
Implicit Types (dw : DockerWatcher (W := node)) (hs removed added : list string).

(** The messages of one update: removals, then additions. *)
Definition update_messages cm (ip : string) (ts : Z) removed added : list RecordMessage :=
  ((λ h, remove_message cm h ts) <$> removed) ++ ((λ h, add_message cm h ip ts) <$> added).
Definition broadcast_all d (msgs : list RecordMessage) : ClusterDelegate :=
  foldl BroadcastRecord d msgs.

Lemma set_delegate_id cm d : cm_delegate cm = Some d → set_delegate d cm = cm.
Proof. intros Hd. destruct cm. simpl in *. by subst. Qed.

Lemma notify_all_messages cm r d (ip ip' : string) (added : bool) ts hs :
  cm_delegate cm = Some d →
  let msgs := (λ h, if added then add_message cm h ip ts else remove_message cm h ts) <$> hs in
  notify_all cluster_callback (if added then ip else ip') added ts hs (cm, r) =
    (set_delegate (broadcast_all d msgs) cm, apply_all r msgs).
Proof.
  revert cm r d. induction hs as [|h hs IH]; intros cm r d Hd; simpl.
  { by rewrite set_delegate_id. }
  unfold notify_all in *. simpl. destruct added; simpl; rewrite Hd; by erewrite IH.
Qed.

(** An update of a clustered node: the direct writes, then the messages applied
    to the store and broadcast. *)
Lemma updateContainer_clustered dw cm r d id new now :
  dw_callback dw = Some cluster_callback → cm_delegate cm = Some d →
  let old := default [] (dw_containers dw !! id) in
  let msgs := update_messages cm (dw_hostIP dw) now (minus old new) (minus new old) in
  updateContainer dw (cm, r) id new now =
    (set_containers (<[id := new]> (dw_containers dw)) dw,
     (set_delegate (broadcast_all d msgs) cm,
      apply_all (foldl (λ r h, Add r h (dw_hostIP dw)) (foldl Remove r (minus old new)) (minus new old))
        msgs)).
Proof.
  intros Hcb Hd old msgs. rewrite updateContainer_eq. unfold tell. rewrite Hcb. fold old.
  match goal with |- context [adds ?ip (removes ?w ?l1) ?l2] =>
    assert (adds ip (removes w l1) l2 =
      (cm, foldl (λ r h, Add r h ip) (foldl Remove r l1) l2)) as -> end.
  { generalize (minus old new), (minus new old). intros l1 l2. unfold removes, adds.
    assert (∀ r l, foldl (λ w h, rec_Remove h w) (cm, r) l = (cm, foldl Remove r l)) as ->.
    { intros r' l. revert r'. induction l as [|h l IH]; intros r'; simpl; [done|apply IH]. }
    generalize (foldl Remove r l1). intros r'. revert r'.
    induction l2 as [|h l IH]; intros r'; simpl; [done|apply IH]. }
  pose proof (notify_all_messages cm) as Hn.
  rewrite (Hn _ d (dw_hostIP dw) EmptyString false now (minus old new) Hd).
  match goal with |- context [notify_all _ _ _ _ _ (?cm', ?r')] =>
    pose proof (notify_all_messages cm' r') as Hn' end.
  rewrite (Hn' (broadcast_all d ((λ h, remove_message cm h now) <$> minus old new))
    (dw_hostIP dw) EmptyString true now (minus new old) eq_refl).
  subst msgs. unfold update_messages, broadcast_all, apply_all. by rewrite !foldl_app.
Qed.

(** *** A stamp that is news *)

Definition stamp_of cm (ts : Z) : RecordMeta := mkRecordMeta ts (cc_NodeName (cm_config cm)).
Definition news cm ts r hs : Prop := ∀ h, h ∈ hs → ¬ stale r (ToLower h) (stamp_of cm ts).

Lemma apply_all_cons r m l : apply_all r (m :: l) = apply_all (ApplyMessage r m).2 l.
Proof. done. Qed.

Lemma apply_removals cm ts r hs h :
  news cm ts r hs →
  let r' := apply_all r ((λ h, remove_message cm h ts) <$> hs) in
  Lookup r' h = (if decide (ToLower h ∈ ToLower <$> hs) then None else Lookup r h) ∧
  ∀ k, ¬ stale r k (stamp_of cm ts) → ¬ stale r' k (stamp_of cm ts).
Proof.
  revert r. induction hs as [|x hs IH]; intros r Hn; [done|]. cbn zeta.
  rewrite !fmap_cons, !apply_all_cons.
  set (r1 := (ApplyMessage r (remove_message cm x ts)).2).
  assert (r1 = (RemoveWithMeta r x ts (cc_NodeName (cm_config cm))).2) as Hr1 by done.
  assert (∀ k, ¬ stale r k (stamp_of cm ts) → ¬ stale r1 k (stamp_of cm ts)) as Hst.
  { intros k Hk. rewrite Hr1, RemoveWithMeta_eq. unfold stale in Hk |- *.
    destruct (decide (_ ∧ _)); simpl; [|exact Hk]. rewrite lookup_delete.
    destruct (decide (ToLower x = k)); [cbn; tauto|exact Hk]. }
  destruct (IH r1) as [HL Hs]; [intros y Hy; apply Hst, Hn; by right|].
  split; [|by auto]. rewrite HL, Hr1.
  rewrite Lookup_RemoveWithMeta_fresh by (apply Hn; by left).
  destruct (decide (ToLower h ∈ ToLower <$> hs)) as [Hin|Hin].
  - by rewrite decide_True by set_solver.
  - destruct (decide (ToLower x = ToLower h)) as [Hx|Hx].
    + by rewrite decide_True by set_solver.
    + rewrite decide_False; [done|]. set_solver.
Qed.

(** During the additions every name is either still news or already there. *)
Lemma apply_additions cm ip ts r hs h :
  (∀ x, x ∈ hs → ¬ stale r (ToLower x) (stamp_of cm ts) ∨ Lookup r x = Some ip) →
  Lookup (apply_all r ((λ h, add_message cm h ip ts) <$> hs)) h =
    if decide (ToLower h ∈ ToLower <$> hs) then Some ip else Lookup r h.
Proof.
  revert r. induction hs as [|x hs IH]; intros r Hn; [done|]. cbn zeta.
  rewrite !fmap_cons, !apply_all_cons.
  set (r1 := (ApplyMessage r (add_message cm x ip ts)).2).
  assert (∀ y, Lookup r1 y = if decide (ToLower x = ToLower y) then Some ip else Lookup r y) as HL1.
  { intros y. change r1 with (AddWithMeta r x ip ts (cc_NodeName (cm_config cm))).2.
    destruct (Hn x) as [Hx|Hx]; [by left|by apply Lookup_AddWithMeta_fresh|].
    unfold Lookup in *. rewrite AddWithMeta_eq. destruct (decide (stale _ _ _)); simpl.
    - destruct (decide (ToLower x = ToLower y)) as [<-|]; done.
    - apply lookup_insert. }
  rewrite IH.
  - rewrite HL1. destruct (decide (ToLower h ∈ ToLower <$> hs)) as [Hin|Hin].
    + by rewrite decide_True by set_solver.
    + destruct (decide (ToLower x = ToLower h)) as [Hx|Hx].
      * by rewrite decide_True by set_solver.
      * rewrite decide_False; [done|]. set_solver.
  - intros y Hy. rewrite HL1. destruct (decide (ToLower x = ToLower y)) as [|Hxy]; [by right|].
    destruct (Hn y) as [Hst|?]; [by right| |by right]. left.
    change r1 with (AddWithMeta r x ip ts (cc_NodeName (cm_config cm))).2.
    rewrite AddWithMeta_eq. destruct (decide (stale _ _ _)); [done|]. unfold stale in *. simpl.
    by rewrite lookup_insert_ne.
Qed.

Lemma apply_update cm ip ts r removed added h :
  news cm ts r (removed ++ added) →
  Lookup (apply_all r (update_messages cm ip ts removed added)) h =
    if decide (ToLower h ∈ ToLower <$> added) then Some ip
    else if decide (ToLower h ∈ ToLower <$> removed) then None
    else Lookup r h.
Proof.
  intros Hn. unfold update_messages, apply_all. rewrite foldl_app. fold (apply_all r).
  destruct (apply_removals cm ts r removed h) as [HL Hst]; [intros x Hx; apply Hn; set_solver|].
  pose proof (apply_additions cm ip ts) as Ha. unfold apply_all in Ha, HL, Hst. rewrite Ha.
  - by rewrite HL.
  - intros x Hx. left. apply Hst, Hn. set_solver.
Qed.

(** C12: When a clustered node updates a container, it broadcasts one message per
    removed and per added name, in that order; and on the node itself and on
    every peer to which the update's stamp is news, applying them makes the added
    names resolve to the node's host IP, the removed names to nothing, and
    leaves every other name alone. *)
Theorem update_reaches_peers dw cm r d id new now :
  dw_callback dw = Some cluster_callback → cm_delegate cm = Some d →
  let old := default [] (dw_containers dw !! id) in
  let removed := filter (λ h, h ∉ new) old in
  let added := filter (λ h, h ∉ old) new in
  ∃ msgs cm' r',
    (updateContainer dw (cm, r) id new now).2 = (cm', r') ∧
    length msgs = length removed + length added ∧
    cm_delegate cm' = Some (foldl BroadcastRecord d msgs) ∧
    (∀ rp h, (∀ x, x ∈ removed ++ added → ¬ stale rp (ToLower x) (stamp_of cm now)) →
      Lookup (apply_all rp msgs) h =
        if decide (ToLower h ∈ ToLower <$> added) then Some (dw_hostIP dw)
        else if decide (ToLower h ∈ ToLower <$> removed) then None else Lookup rp h) ∧
    (∀ h, (∀ x, x ∈ removed ++ added → ¬ stale r (ToLower x) (stamp_of cm now)) →
      Lookup r' h =
        if decide (ToLower h ∈ ToLower <$> added) then Some (dw_hostIP dw)
        else if decide (ToLower h ∈ ToLower <$> removed) then None else Lookup r h).
Proof.
  intros Hcb Hd old removed added. rewrite (updateContainer_clustered dw cm r d id new now Hcb Hd).
  eexists (update_messages cm (dw_hostIP dw) now removed added), _, _. split_and!.
  - done.
  - unfold update_messages. by rewrite length_app, !length_fmap.
  - done.
  - intros rp h Hn. by apply apply_update.
  - intros h Hn. fold old removed added. rewrite apply_update.
    + unfold Lookup. rewrite data_adds, data_removes. by repeat case_decide.
    + intros x Hx. unfold stale. rewrite meta_adds, meta_removes. by apply Hn.
Qed.

(** *** Direct writes that the metadata does not follow *)

Lemma apply_removals_absent cm ts r hs :
  (∀ h, h ∈ hs → Lookup r h = None) →
  apply_all r ((λ h, remove_message cm h ts) <$> hs) = r.
Proof.
  revert r. induction hs as [|x hs IH]; intros r Hn; [done|].
  rewrite fmap_cons, apply_all_cons.
  change (ApplyMessage r (remove_message cm x ts)) with
    (RemoveWithMeta r x ts (cc_NodeName (cm_config cm))).
  rewrite RemoveWithMeta_eq, decide_False; [apply IH; intros h Hh; apply Hn; by right|].
  intros [[ip Hip] _]. pose proof (Hn x) as Hx. unfold Lookup in Hx. rewrite Hip in Hx.
  by discriminate Hx; left.
Qed.

(** A clustered node that sees a container stop stops resolving its names, but
    never clears their metadata: the direct removal comes first, so the message
    it then applies finds nothing to remove.  The metadata of names that are gone
    stays in the store, while the broadcast clears it on the peers. *)
Theorem stop_keeps_metadata dw cm r d id hs now :
  dw_callback dw = Some cluster_callback → cm_delegate cm = Some d →
  dw_containers dw !! id = Some hs →
  let '(dw', (cm', r')) := handleContainerStop dw (cm, r) id now in
  meta r' = meta r ∧
  (∀ h, Lookup r' h = if decide (ToLower h ∈ ToLower <$> hs) then None else Lookup r h) ∧
  cm_delegate cm' = Some (foldl BroadcastRecord d ((λ h, remove_message cm h now) <$> hs)).
Proof.
  intros Hcb Hd Hid. unfold handleContainerStop. rewrite Hid. cbn [dw_callback set_containers].
  rewrite Hcb.
  assert (∀ r l, foldl (λ w h, rec_Remove h w) (cm, r) l = (cm, foldl Remove r l)) as ->.
  { intros r' l. revert r'. induction l as [|h l IH]; intros r'; simpl; [done|apply IH]. }
  pose proof (notify_all_messages cm (foldl Remove r hs) d EmptyString EmptyString false now hs Hd)
    as ->. rewrite apply_removals_absent.
  - split_and!; [apply meta_removes| |done]. intros h. unfold Lookup. apply data_removes.
  - intros h Hh. unfold Lookup. rewrite data_removes, decide_True; [done|].
    by apply list_elem_of_fmap_2.
Qed.

Lemma paired_is_Some r k : paired r → is_Some (data r !! k) → is_Some (meta r !! k).
Proof. intros Hp. rewrite <-!elem_of_dom. by rewrite Hp. Qed.

Lemma merge_same_stamps `{!JsonRoundTrip FullState} rng d d2 r r' join :
  range_order rng → representable (snapshot d2 r') → records_wf r' →
  meta r = meta r' → (∀ k, is_Some (data r' !! k) → is_Some (meta r' !! k)) →
  MergeRemoteState rng d r (LocalState d2 r' join) join = r.
Proof.
  intros Hr Hrep [Hwf _] Hm Hall. rewrite MergeRemoteState_snapshot by done.
  assert (∀ he, he ∈ rng (GetAllWithMeta r') → (ApplyMessage r (entry_message he.1 he.2)).2 = r) as Hstep.
  { intros [k e]. rewrite (Hr _), elem_of_map_to_list, GetAllWithMeta_lookup.
    destruct (data r' !! k) as [ip|] eqn:Hk; [|done]. intros [= <-].
    destruct (Hall k) as [m Hmk]; [by rewrite Hk|].
    unfold ApplyMessage. simpl. rewrite AddWithMeta_eq, decide_True; [done|].
    rewrite (Hwf k ip Hk). unfold stale. rewrite Hm, Hmk. simpl.
    destruct m. reflexivity. }
  induction (rng (GetAllWithMeta r')) as [|he l IH]; [done|].
  rewrite fmap_cons, apply_all_cons, Hstep by (by left). apply IH. intros he' Hin.
  apply Hstep. by right.
Qed.

(** C29: When a container starts with a name for which the store holds a later
    stamp, as after the clock of another node ran ahead, the direct write
    replaces the address and the message that should justify it is rejected: the
    node serves its own address under the other node's stamp.  Exchanging full
    states with the other node in either direction then changes nothing, so the
    two nodes answer differently from there on. *)
Theorem local_add_diverges `{!JsonRoundTrip FullState} dw cm r d d2 id h now rng join :
  range_order rng → dw_callback dw = Some cluster_callback → cm_delegate cm = Some d →
  dw_containers dw !! id = None →
  paired r → records_wf r → stale r (ToLower h) (stamp_of cm now) →
  let '(dw', (cm', r')) := updateContainer dw (cm, r) id [h] now in
  representable (snapshot d r') → representable (snapshot d2 r) →
  Lookup r' h = Some (dw_hostIP dw) ∧ GetMeta r' h = GetMeta r h ∧
  MergeRemoteState rng d r' (LocalState d2 r join) join = r' ∧
  MergeRemoteState rng d2 r (LocalState d r' join) join = r.
Proof.
  intros Hr Hcb Hd Hid Hp Hwf Hst.
  rewrite (updateContainer_clustered dw cm r d id [h] now Hcb Hd), Hid. simpl default.
  assert (minus [] [h] = []) as -> by done.
  assert (minus [h] [] = [h]) as -> by (unfold minus; by rewrite filter_cons_True by apply not_elem_of_nil).
  change (foldl _ (foldl Remove r []) [h]) with (Add r h (dw_hostIP dw)).
  assert (apply_all (Add r h (dw_hostIP dw)) (update_messages cm (dw_hostIP dw) now [] [h]) =
    Add r h (dw_hostIP dw)) as ->.
  { unfold update_messages. simpl. change (apply_all ?r [?m]) with (ApplyMessage r m).2.
    unfold ApplyMessage. simpl. rewrite AddWithMeta_eq, decide_True; [done|].
    rewrite Add_eq. exact Hst. }
  intros Hrep Hrep2. split_and!.
  - unfold Lookup. rewrite Add_eq. apply lookup_insert_eq.
  - unfold GetMeta. by rewrite Add_eq.
  - apply merge_same_stamps; [done..|by rewrite Add_eq|].
    intros k Hk. by apply paired_is_Some.
  - apply merge_same_stamps; [done..|auto with joyride|by rewrite Add_eq|].
    rewrite Add_eq. simpl. intros k Hk. rewrite lookup_insert_is_Some in Hk.
    destruct (decide (ToLower h = k)) as [<-|]; [|apply paired_is_Some; naive_solver].
    unfold stale in Hst. by destruct (meta r !! ToLower h).
Qed.

(** The callback of a clustered watcher publishes only the name it is given, so
    what is lost with a shared name stays lost there too. *)
Lemma cluster_names_only k : names_only k cluster_callback.
Proof.
  intros h ip added ts [cm r] Hne Hk. simpl in *. unfold cluster_callback.
  destruct added; [unfold NotifyRecordAdd|unfold NotifyRecordRemove];
    (destruct (cm_delegate cm); [|done]); simpl; unfold ApplyMessage; simpl.
  - rewrite AddWithMeta_eq. case_decide; [done|]. simpl.
    rewrite lookup_insert_ne; [done|]. by apply Hne.
  - rewrite RemoveWithMeta_eq. case_decide; [|done]. simpl. rewrite lookup_delete. by case_decide.
Qed.

(** *** Stopping *)

(** A stopped manager is inert: the watcher's callback changes neither the
    store nor the manager, the discovery loop ends at its next firing, no member
    is reported, and stopping again does nothing more.  Only Join is not guarded:
    with configured seeds it calls memberlist through a nil pointer, which a
    shutdown before the joining goroutine has run brings about. *)
Theorem stopped_manager_inert cm r rng tick h ip (added : bool) ts :
  let cm' := st_cm (ClusterManager_Stop cm) in
  cluster_callback h ip added ts (cm', r) = (cm', r) ∧
  discoveryJoinLoop_turn rng tick cm' = None ∧
  Members cm' = None ∧ IsHealthy cm' = false ∧ numNodes cm' = 1%Z ∧
  st_cm (ClusterManager_Stop cm') = cm' ∧ st_err (ClusterManager_Stop cm') = None ∧
  (cc_Seeds (cm_config cm) ≠ [] → ClusterManager_Join cm' = (NilPanic, false, cm')) ∧
  (cc_Seeds (cm_config cm) = [] → ClusterManager_Join cm' = (Returns None, false, cm')).
Proof.
  intros cm'. split_and!; try done.
  - by destruct added.
  - by destruct tick.
  - intros Hs. unfold ClusterManager_Join. simpl. rewrite bool_decide_eq_true_2; [done|].
    destruct (cc_Seeds (cm_config cm)); simpl; [done|lia].
  - intros Hs. unfold ClusterManager_Join. simpl. by rewrite Hs.
Qed.
End cluster.

(** ** The theorems at concrete inputs *)

Module ClusterExamples.
#[local] Existing Instance latin1_case.
#[local] Existing Instance list_queue.

(** A member list that joins whatever it is given. *)
Definition list_members : Memberlist string := {|
  ML := list string;
  ml_node := string;
  DefaultLANConfig_SecretKey := EmptyString;
  ml_Create c := Ok [ml_Name c];
  ml_NumMembers l := Z.of_nat (length l);
  ml_Members l := l;
  ml_Join peers l := ((Z.of_nat (length peers), None), l ++ peers);
  ml_Leave _ l := (None, l);
  ml_Shutdown _ := None;
|}.
#[local] Existing Instance list_members.

Definition config : ClusterConfig := set_NodeName "b" NewClusterConfig.
Definition delegate_b : ClusterDelegate := Start (NewClusterDelegate "b").
Definition manager_b : ClusterManager string :=
  mkClusterManager config (Some delegate_b) None (Some ["b"]) false true.
Definition watcher_b : DockerWatcher (W := ClusterManager string * Records) :=
  SetCallback cluster_callback (NewDockerWatcher "" "10.0.0.2" ["coredns.host.name"]).
(** The store of [b] after a message of node [a]. *)
Definition store_b : Records :=
  (ApplyMessage NewRecords (mkRecordMessage "app.lan" "10.0.0.1" RecordActionAdd 50 "a")).2.

Lemma update_reaches_peers_witness :
  ∃ msgs cm' r',
    (updateContainer watcher_b (manager_b, store_b) "c1" ["App.lan"; "db.lan"] 60).2 = (cm', r') ∧
    cm_delegate cm' = Some (foldl BroadcastRecord delegate_b msgs) ∧
    Lookup (apply_all store_b msgs) "app.lan" = Some "10.0.0.2" ∧
    Lookup r' "DB.lan" = Some "10.0.0.2".
Proof.
  destruct (update_reaches_peers watcher_b manager_b store_b delegate_b "c1"
    ["App.lan"; "db.lan"] 60 eq_refl eq_refl) as (msgs & cm' & r' & H1 & _ & H3 & H4 & H5).
  assert (∀ x, x ∈ ["App.lan"; "db.lan"] → ¬ stale store_b (ToLower x) (stamp_of manager_b 60)) as Hn.
  { apply Forall_forall. repeat constructor; apply (bool_decide_unpack _); by vm_compute. }
  exists msgs, cm', r'. split_and!; [exact H1|exact H3| |].
  - rewrite (H4 store_b "app.lan" Hn). by vm_compute.
  - rewrite (H5 "DB.lan" Hn). by vm_compute.
Defined.

Definition tracked_b : DockerWatcher (W := ClusterManager string * Records) :=
  set_containers {["c1" := ["app.lan"]]} watcher_b.

Lemma stop_keeps_metadata_witness :
  let '(dw', (cm', r')) := handleContainerStop tracked_b (manager_b, store_b) "c1" 70 in
  meta r' = meta store_b ∧ Lookup r' "app.lan" = None ∧
  GetMeta r' "app.lan" = (mkRecordMeta 50 "a", true).
Proof.
  pose proof (stop_keeps_metadata tracked_b manager_b store_b delegate_b "c1" ["app.lan"] 70
    eq_refl eq_refl eq_refl) as Hstop.
  destruct (handleContainerStop tracked_b (manager_b, store_b) "c1" 70) as [dw' [cm' r']].
  destruct Hstop as (Hm & HL & _). split_and!; [done|by rewrite HL|].
  unfold GetMeta. rewrite Hm. by vm_compute.
Defined.

Lemma local_add_diverges_witness :
  let '(dw', (cm', r')) := updateContainer watcher_b (manager_b, store_b) "c1" ["app.lan"] 40 in
  Lookup r' "app.lan" = Some "10.0.0.2" ∧ Lookup store_b "app.lan" = Some "10.0.0.1" ∧
  MergeRemoteState map_to_list delegate_b store_b (LocalState delegate_b r' false) false = store_b.
Proof.
  pose proof (local_add_diverges watcher_b manager_b store_b delegate_b delegate_b "c1" "app.lan" 40
    map_to_list false ltac:(by intros m) eq_refl eq_refl eq_refl
    (ApplyMessage_paired _ _ NewRecords_paired) (ApplyMessage_wf _ _ NewRecords_wf)
    ltac:(apply (bool_decide_unpack _); by vm_compute)) as Hdiv.
  assert (state_ok (snapshot delegate_b
    (updateContainer watcher_b (manager_b, store_b) "c1" ["app.lan"] 40).2.2)) as Hok by by_computation.
  assert (state_ok (snapshot delegate_b store_b)) as Hok2 by by_computation.
  destruct (updateContainer _ _ _ _ _) as [dw' [cm' r']]. cbn [snd] in Hok.
  destruct (Hdiv Hok Hok2) as (H1 & _ & _ & H4). split_and!; [exact H1|by vm_compute|exact H4].
Defined.

(** What the theorems about validation and stopping say of this node. *)
Example default_config_valid : Validate (E := string) (Ok "host") NewClusterConfig = Ok NewClusterConfig.
Proof. reflexivity. Qed.
Example short_secret_refused :
  Validate (E := string) (Ok "host") (mkClusterConfig true 7946 [] "b" "0.0.0.0" "short" 8889)
  = Err (BadSecretLength 5).
Proof. reflexivity. Qed.
End ClusterExamples.
