(* ===== verification/TornRead.v ===== *)
(** * TornRead: a full state taken while a record changes

    LocalState reads the store with GetAllWithMeta, which loads the addresses and
    then the metadata.  When an update of a record is stored between the two
    loads, the state that goes out pairs the old address with the new stamp
    ([RecordsConc.concurrent_calls_linearize] says that this is as far as the two
    can be apart).  A peer that merges it rejects the update itself when it
    arrives, because it already knows the stamp, and no exchange of full states
    tells the two nodes apart afterwards. *)

From stdpp Require Import gmap strings list fin_maps relations.
From Stdlib Require Import ZArith Lia.
From S2P Require Import Prelude GoStrings Json JsonSpec Message Records Lww RecordsConc Delegate Wire Watcher Cluster ClusterSpec.

Section torn.
Context `{UnicodeCase} `{TransmitLimitedQueue}.
Implicit Types (r : Records) (m : RecordMessage).

(** The store [r] with the stamp of [m], but not its address. *)
Definition torn (r : Records) (m : RecordMessage) : Records :=
  mkRecords (data r) (<[ToLower (msg_Hostname m) := stamp m]> (meta r)).

Lemma ApplyMessage_fresh_add r m :
  is_add m → ¬ stale r (ToLower (msg_Hostname m)) (stamp m) →
  ApplyMessage r m =
    (true, mkRecords (<[ToLower (msg_Hostname m) := msg_IP m]> (data r))
                     (<[ToLower (msg_Hostname m) := stamp m]> (meta r))).
Proof.
  intros Ha Hs. unfold ApplyMessage. rewrite bool_decide_eq_true_2 by done.
  rewrite AddWithMeta_eq. by rewrite decide_False.
Qed.

(** The run: the reader loads the addresses, the writer runs to its end, the
    reader loads the metadata. *)
Lemma torn_run r m :
  is_add m → ¬ stale r (ToLower (msg_Hostname m)) (stamp m) →
  rtc step (init r [OpGetAllWithMeta; OpApplyMessage m])
    (mkConfig (ApplyMessage r m).2 None
      [Ret (REntries (GetAllWithMeta (torn r m))); Ret (RBool true)]).
Proof.
  intros Ha Hs. rewrite ApplyMessage_fresh_add by done. unfold init. simpl.
  unfold ApplyMessage_prog. rewrite bool_decide_eq_true_2 by done. unfold AddWithMeta_prog.
  eapply rtc_l; [by eapply (step_load_data _ _ _ 0)|]. simpl.
  eapply rtc_l; [by eapply (step_lock _ _ 1)|]. simpl.
  eapply rtc_l; [by eapply (step_load_meta _ _ _ 1)|]. simpl.
  set (accept := LoadData _). assert (match meta r !! ToLower (msg_Hostname m) with
    | Some existing => if existing_wins existing (msg_Timestamp m) (msg_NodeID m)
                       then Unlock (Ret (RBool false)) else accept
    | None => accept end = accept) as ->.
  { unfold stale in Hs. destruct (meta r !! _) as [e|]; [|done].
    rewrite existing_wins_spec, bool_decide_eq_false_2 by done. done. }
  subst accept. rewrite range_copy_id.
  eapply rtc_l; [by eapply (step_load_data _ _ _ 1)|]. simpl. rewrite range_copy_id.
  eapply rtc_l; [by eapply (step_store_data _ _ _ 1)|]. simpl.
  eapply rtc_l; [by eapply (step_store_meta _ _ _ 1)|]. simpl.
  eapply rtc_l; [by eapply (step_unlock _ _ _ 1)|]. simpl.
  eapply rtc_l; [by eapply (step_load_meta _ _ _ 0)|]. apply rtc_refl.
Qed.

Lemma torn_paired r m ip :
  paired r → data r !! ToLower (msg_Hostname m) = Some ip → paired (torn r m).
Proof.
  unfold paired. intros Hp Hk. simpl. rewrite dom_insert_L, <-Hp.
  apply elem_of_dom_2 in Hk. set_solver.
Qed.

Lemma torn_wf r m : records_wf r → records_wf (torn r m).
Proof.
  intros [Hd Hm]. split; [done|]. apply map_Forall_insert_2; [|done]. apply ToLower_idem.
Qed.

Lemma torn_ok r m : records_ok r → message_ok m → records_ok (torn r m).
Proof.
  intros [Hd Hm] ([_ Ht] & _ & _ & Hn). split; [done|]. by apply map_Forall_insert_2.
Qed.

(** Where the stamp is news, it wins: merging the torn state makes the peer's
    store the torn one. *)
Lemma torn_joins r m ip :
  paired r → data r !! ToLower (msg_Hostname m) = Some ip →
  ¬ stale r (ToLower (msg_Hostname m)) (stamp m) →
  lww_join (view r) (view (torn r m)) = view (torn r m).
Proof.
  intros Hp Hk Hs. pose proof (torn_paired r m ip Hp Hk) as Hp'.
  apply map_eq. intros k. unfold lww_join. rewrite lookup_union_with.
  rewrite !view_lookup by done. simpl. destruct (data r !! k) as [ip'|] eqn:Hd; [|done]. simpl.
  rewrite lookup_insert. case_decide as Heq; [subst k|].
  - simpl. f_equal. unfold later. simpl. rewrite decide_False; [done|].
    destruct (paired_is_Some r (ToLower (msg_Hostname m)) Hp) as [e He]; [by rewrite Hk|].
    unfold stale in Hs. rewrite He in Hs |- *. done.
  - by rewrite later_idem.
Qed.

(** C30: A full state can carry a record that never existed.  A node serves [h]
    under the address [old] and applies an update of it, of a later stamp, while
    LocalState runs.  Some interleaving makes LocalState send [old] with the stamp
    of the update.  A peer that had the same records keeps answering [old] after
    merging that state, rejects the update when it arrives by gossip, and
    exchanging full states in either direction changes neither node: the node
    answers the new address, the peer the old one. *)
Theorem torn_state_diverges r m old d d2 rng join :
  range_order rng → valid_utf8 (d_nodeID d) → valid_utf8 (d_nodeID d2) →
  paired r → records_wf r → records_ok r → message_ok m → is_add m →
  Lookup r (msg_Hostname m) = Some old → ¬ stale r (ToLower (msg_Hostname m)) (stamp m) →
  let r' := (ApplyMessage r m).2 in
  ∃ sent, rtc step (init r [OpGetAllWithMeta; OpApplyMessage m])
      (mkConfig r' None [Ret (REntries sent); Ret (RBool true)]) ∧
    sent !! ToLower (msg_Hostname m) = Some (mkRecordEntry old (msg_Timestamp m) (msg_NodeID m)) ∧
    ∃ bytes, FullState_Encode (mkFullState (d_nodeID d) sent) = Ok bytes ∧
    let peer := MergeRemoteState rng d2 r bytes join in
    Lookup r' (msg_Hostname m) = Some (msg_IP m) ∧ Lookup peer (msg_Hostname m) = Some old ∧
    ApplyMessage peer m = (false, peer) ∧
    MergeRemoteState rng d2 peer (LocalState d r' join) join = peer ∧
    MergeRemoteState rng d r' (LocalState d2 peer join) join = r'.
Proof.
  intros Hrng Hn Hn2 Hp Hwf Hok Hm Ha Hold Hs r'.
  exists (GetAllWithMeta (torn r m)). split; [by apply torn_run|]. split.
  { rewrite GetAllWithMeta_lookup. simpl. unfold Lookup in Hold. rewrite Hold. simpl.
    unfold with_meta. by rewrite lookup_insert_eq. }
  exists (marshal_struct (snapshot d (torn r m))). split; [done|].
  assert (paired (torn r m)) as Hpt by (by eapply torn_paired).
  destruct (merge_view rng d2 d r (torn r m) join) as [Hpp Hv];
    [done|by apply snapshot_ok, torn_ok|done|done|by apply torn_wf|].
  change (LocalState d (torn r m) join) with (marshal_struct (snapshot d (torn r m))) in Hpp, Hv.
  rewrite (torn_joins r m old) in Hv by done. apply view_inj in Hv; [|done|done]. cbv zeta. rewrite Hv.
  assert (r' = mkRecords (<[ToLower (msg_Hostname m) := msg_IP m]> (data r)) (meta (torn r m))) as Hr'
    by (unfold r'; by rewrite ApplyMessage_fresh_add).
  assert (records_ok r') as Hok' by by apply ApplyMessage_ok.
  assert (paired r') as Hp' by by apply ApplyMessage_paired.
  split_and!.
  - unfold Lookup. rewrite Hr'. apply lookup_insert_eq.
  - exact Hold.
  - unfold ApplyMessage. rewrite bool_decide_eq_true_2 by done. rewrite AddWithMeta_eq, decide_True; [done|].
    unfold stale, torn. simpl. rewrite lookup_insert_eq. reflexivity.
  - apply merge_same_stamps; [done|by apply snapshot_ok|by apply ApplyMessage_wf|by rewrite Hr'|].
    intros k. by apply paired_is_Some.
  - apply merge_same_stamps; [done|by apply snapshot_ok, torn_ok|by apply torn_wf|by rewrite Hr'|].
    intros k. by apply paired_is_Some.
Qed.
End torn.

(** ** The theorem at a concrete input *)

Module TornExamples.
Import LwwExamples.
#[local] Existing Instance latin1_case.
#[local] Existing Instance list_queue.

Definition node_a : ClusterDelegate := NewClusterDelegate "node-a".
Definition node_b : ClusterDelegate := NewClusterDelegate "node-b".
Definition store : Records := (ApplyMessage NewRecords add_old).2.

Lemma torn_state_diverges_witness :
  ∃ peer, Lookup (ApplyMessage store add_new).2 "app.example.com" = Some "10.0.0.2" ∧
    Lookup peer "app.example.com" = Some "10.0.0.1" ∧ ApplyMessage peer add_new = (false, peer).
Proof.
  destruct (torn_state_diverges store add_new "10.0.0.1" node_a node_b map_to_list false)
    as (sent & _ & _ & bytes & _ & H1 & H2 & H3 & _).
  - by intros m.
  - by_computation.
  - by_computation.
  - apply ApplyMessage_paired, NewRecords_paired.
  - apply ApplyMessage_wf, NewRecords_wf.
  - apply ApplyMessage_ok; [apply NewRecords_ok|by_computation].
  - by_computation.
  - done.
  - by vm_compute.
  - by_computation.
  - exists (MergeRemoteState map_to_list node_b store bytes false). split_and!; [exact H1|exact H2|exact H3].
Defined.
End TornExamples.
