(* ===== verification/Network.v ===== *)
(** * Network: a cluster of nodes that gossip

    Any number of clustered nodes, each with its watcher, its manager, its
    delegate and its store, and the bytes on the wire.  The watchers see
    containers come and go; what a delegate hands out from its broadcast queue
    reaches any node any number of times and in any order, or never, and is
    processed by the goroutine of that node; and any node may merge the full state
    of any other.  Every address a node answers was queued for broadcast by some
    node for that name, and one round of full-state exchanges through a hub brings
    all nodes to the same answers. *)

From stdpp Require Import gmap strings list fin_maps relations.
From Stdlib Require Import ZArith Lia.
From S2P Require Import Prelude GoStrings Json JsonSpec Message Records Lww Delegate Wire Watcher WatcherSpec Cluster ClusterSpec.

(** ** The queue *)

(** What memberlist promises of its queue: it holds and hands out only what was
    put into it. *)
Class TransmitLimitedQueueLaws (Q : TransmitLimitedQueue) := {
  pending : queue → list string;
  pending_new n : pending (NewQueue n) = [];
  pending_queue q b x : x ∈ pending (QueueBroadcast q b) → x = Message b ∨ x ∈ pending q;
  pending_get q o l x : x ∈ (Queue_GetBroadcasts q o l).1 → x ∈ pending q;
  pending_got q o l x : x ∈ pending (Queue_GetBroadcasts q o l).2 → x ∈ pending q;
}.

(** Any queue, together with the log of what was put into it. *)
Definition logged (Q : TransmitLimitedQueue) : TransmitLimitedQueue := {|
  queue := @queue Q * list string;
  NewQueue n := (NewQueue n, []);
  QueueBroadcast q b := (QueueBroadcast q.1 b, Message b :: q.2);
  Queue_GetBroadcasts q o l :=
    let (out, q') := Queue_GetBroadcasts q.1 o l in (out, (q', q.2));
|}.

Section network.
Context `{UnicodeCase} (Q : TransmitLimitedQueue) `{!TransmitLimitedQueueLaws Q}.
#[local] Instance net_queue : TransmitLimitedQueue := logged Q.
Context {E : Type} `{!Memberlist E}.
Abbreviation world := (ClusterManager E * Records)%type.
Abbreviation node := (DockerWatcher (W := world) * world)%type.
Implicit Types (cm : ClusterManager E) (r : Records) (d : ClusterDelegate) (m : RecordMessage).
Implicit Types (dw : DockerWatcher (W := world)) (removed added hs : list string) (n : node).

(** ** Steps *)

Record net := mkNet { net_nodes : list node; net_wire : list string }.

(** What a delegate was told to broadcast, and all delegates of a cluster. *)
Definition d_log (d : ClusterDelegate) : list string := snd (d_broadcasts d).
Definition node_log (n : node) : list string :=
  match cm_delegate n.2.1 with Some d => d_log d | None => [] end.
Definition broadcast_of (nodes : list node) : list string := concat (node_log <$> nodes).

(** A node as setup leaves it: the watcher's callback is the manager's, which has
    been started, and the configured address and name are valid UTF-8. *)
Definition running (dw : DockerWatcher (W := world)) (cm : ClusterManager E) (d : ClusterDelegate) : Prop :=
  dw_callback dw = Some cluster_callback ∧ cm_delegate cm = Some d ∧
  valid_utf8 (dw_hostIP dw) ∧ valid_utf8 (cc_NodeName (cm_config cm)) ∧ valid_utf8 (d_nodeID d).

(** The names and the clocks are arbitrary.  An update of a container, a stop,
    the second half of syncContainers (its first half is a sequence of updates),
    each with the notifications that follow; memberlist taking broadcasts from the
    delegate, and handing bytes from the wire to it; the goroutine; and the merge
    of a full state that was taken at one moment. *)
Inductive node_step (nodes : list node) (wire : list string) : node → node → list string → Prop :=
| ns_update dw cm r d id new now :
    running dw cm d → int64 now →
    node_step nodes wire (dw, (cm, r)) (updateContainer dw (cm, r) id new now) []
| ns_stop dw cm r d id now :
    running dw cm d → int64 now →
    node_step nodes wire (dw, (cm, r)) (handleContainerStop dw (cm, r) id now) []
| ns_prune dw cm r d seen rng dw' w removed now :
    running dw cm d → int64 now →
    sync_prune seen dw (cm, r) (rng (dw_containers dw)) = (dw', w, removed) →
    node_step nodes wire (dw, (cm, r))
      (dw', notify_all cluster_callback EmptyString false now removed w) []
| ns_gossip dw cm r d o l :
    cm_delegate cm = Some d →
    node_step nodes wire (dw, (cm, r)) (dw, (set_delegate (GetBroadcasts d o l).2 cm, r))
      (GetBroadcasts d o l).1
| ns_receive dw cm r d bytes :
    cm_delegate cm = Some d → bytes ∈ wire →
    node_step nodes wire (dw, (cm, r)) (dw, (set_delegate (NotifyMsg d bytes) cm, r)) []
| ns_process dw cm r d d' r' :
    cm_delegate cm = Some d → process_step (d, r) (d', r') →
    node_step nodes wire (dw, (cm, r)) (dw, (set_delegate d' cm, r')) []
| ns_sync dw cm r d dw2 cm2 r2 d2 rng join :
    cm_delegate cm = Some d → (dw2, (cm2, r2)) ∈ nodes → running dw2 cm2 d2 → range_order rng →
    node_step nodes wire (dw, (cm, r))
      (dw, (cm, MergeRemoteState rng d r (LocalState d2 r2 join) join)) [].

Inductive net_step : net → net → Prop :=
| net_at nodes wire i n n' out :
    nodes !! i = Some n → node_step nodes wire n n' out →
    net_step (mkNet nodes wire) (mkNet (<[i := n']> nodes) (out ++ wire)).

(** ** Where the records come from *)

(** An addition of [ip] for the key [k] has been sent. *)
Definition announced (sent : list string) (k : string) (ip : string) : Prop :=
  ∃ m, marshal_struct m ∈ sent ∧ is_add m ∧ ToLower (msg_Hostname m) = k ∧ msg_IP m = ip.

Definition known (sent : list string) (r : Records) : Prop := map_Forall (announced sent) (data r).

(** What a node sends: integers in range, address and node in valid UTF-8. *)
Definition sendable m : Prop := message_fits m ∧ valid_utf8 (msg_IP m) ∧ valid_utf8 (msg_NodeID m).
Definition sent_ok (sent : list string) : Prop :=
  ∀ b, b ∈ sent → ∃ m, b = marshal_struct m ∧ sendable m.

(** What a node queues for processing or applies. *)
Definition justified (sent : list string) m : Prop :=
  sendable m ∧ (is_add m → announced sent (ToLower (msg_Hostname m)) (msg_IP m)).

Record store_ok (sent : list string) (r : Records) : Prop := {
  store_keyed : records_wf r; store_sends : records_ok r; store_known : known sent r;
}.
Record delegate_ok (sent : list string) (d : ClusterDelegate) : Prop := {
  delegate_chan : Forall (justified sent) (d_msgChan d);
  delegate_pending : pending (d_broadcasts d).1 ⊆ d_log d;
  delegate_log : sent_ok (d_log d);
}.
Definition node_ok (sent : list string) (n : node) : Prop :=
  store_ok sent n.2.2 ∧ match cm_delegate n.2.1 with Some d => delegate_ok sent d | None => True end.
Definition net_ok (s : net) : Prop :=
  Forall (node_ok (broadcast_of (net_nodes s))) (net_nodes s) ∧
  net_wire s ⊆ broadcast_of (net_nodes s).

(** More broadcasts justify no less. *)
Lemma announced_mono sent sent' k ip : sent ⊆ sent' → announced sent k ip → announced sent' k ip.
Proof. intros Hs (m & Hin & Hm). exists m. split; [by apply Hs|done]. Qed.
Lemma justified_mono sent sent' m : sent ⊆ sent' → justified sent m → justified sent' m.
Proof. intros Hs [Hm Ha]. split; [done|]. eauto using announced_mono. Qed.
Lemma known_mono sent sent' r : sent ⊆ sent' → known sent r → known sent' r.
Proof. intros Hs Hk. eapply map_Forall_impl; [exact Hk|]. eauto using announced_mono. Qed.
Lemma store_ok_mono sent sent' r : sent ⊆ sent' → store_ok sent r → store_ok sent' r.
Proof. intros Hs []. split; eauto using known_mono. Qed.
Lemma delegate_ok_mono sent sent' d : sent ⊆ sent' → delegate_ok sent d → delegate_ok sent' d.
Proof.
  intros Hs []. split; [|done..]. eapply Forall_impl; [done|]. eauto using justified_mono.
Qed.
Lemma node_ok_mono sent sent' n : sent ⊆ sent' → node_ok sent n → node_ok sent' n.
Proof.
  intros Hs [Hr Hd]. split; [by eapply store_ok_mono|].
  destruct (cm_delegate n.2.1); [by eapply delegate_ok_mono|done].
Qed.

Lemma elem_of_broadcast nodes b : b ∈ broadcast_of nodes ↔ ∃ n, n ∈ nodes ∧ b ∈ node_log n.
Proof.
  unfold broadcast_of. induction nodes as [|n nodes IH]; csimpl; [set_solver|].
  rewrite elem_of_app, IH. set_solver.
Qed.

(** A node whose log grows makes the broadcasts of the cluster grow. *)
Lemma broadcast_insert nodes i n n' :
  nodes !! i = Some n → node_log n ⊆ node_log n' → broadcast_of nodes ⊆ broadcast_of (<[i := n']> nodes).
Proof.
  intros Hi Hlog b (n0 & Hin & Hb)%elem_of_broadcast. apply elem_of_broadcast.
  apply list_elem_of_lookup in Hin as [j Hj]. destruct (decide (i = j)) as [<-|Hne].
  - exists n'. split; [|simplify_eq; by apply Hlog]. apply list_elem_of_lookup_2 with i.
    apply list_lookup_insert_eq. by eapply lookup_lt_Some.
  - exists n0. split; [|done]. apply list_elem_of_lookup_2 with j. by rewrite list_lookup_insert_ne.
Qed.

(** Scrubbing a name changes nothing about its key. *)
Lemma ToLower_scrub s : ToLower (scrub s) = ToLower s.
Proof. rewrite !ToLower_Map. unfold Map. by rewrite runes_scrub. Qed.

(** ** Applying justified messages *)

Lemma ApplyMessage_justified sent r m : justified sent m → store_ok sent r → store_ok sent (ApplyMessage r m).2.
Proof.
  intros [([_ Ht] & Hi & Hn) Ha] [Hwf Hok Hk]. split.
  - by apply ApplyMessage_wf.
  - unfold ApplyMessage. repeat case_match; auto using AddWithMeta_ok, RemoveWithMeta_ok.
  - unfold ApplyMessage. case_bool_decide as Hadd; [|case_bool_decide; [|done]].
    + rewrite AddWithMeta_eq. case_decide; [done|]. apply map_Forall_insert_2; [by apply Ha|done].
    + rewrite RemoveWithMeta_eq. case_decide; [|done]. by apply map_Forall_delete.
Qed.

Lemma apply_all_justified sent r l :
  Forall (justified sent) l → store_ok sent r → store_ok sent (apply_all r l).
Proof.
  intros Hl. revert r. induction Hl as [|m l Hm _ IH]; intros r Hr; [done|].
  rewrite apply_all_cons. by apply IH, ApplyMessage_justified.
Qed.

(** What a node decodes from broadcast bytes is justified by whoever sent them. *)
Lemma received_justified sent sent' bytes m :
  sent_ok sent → bytes ∈ sent → sent ⊆ sent' → DecodeRecordMessage bytes = Ok m → justified sent' m.
Proof.
  intros Hs Hin Hsub Hm. unfold DecodeRecordMessage in Hm. simpl in Hm.
  destruct (unmarshal_struct bytes) as [m'|] eqn:Hu; simplify_eq.
  destruct (unmarshal_message_ok _ _ Hu) as (Hf & _ & Hi & Hn). split; [done|]. intros Ha.
  destruct (Hs bytes Hin) as (m0 & -> & Hf0 & Hi0 & Hn0).
  rewrite decode_encode_message in Hu by done. simplify_eq.
  exists m0. split_and!; [by apply Hsub|exact Ha|by rewrite <-(ToLower_scrub (msg_Hostname m0))|].
  unfold scrub_message. simpl. by rewrite Hi0.
Qed.

(** The messages a snapshot turns into are justified by its records. *)
Lemma snapshot_justified sent r rng :
  range_order rng → store_ok sent r →
  Forall (justified sent) ((λ he, entry_message he.1 he.2) <$> rng (GetAllWithMeta r)).
Proof.
  intros Hr [[Hwf _] [Hd Hm] Hk]. rewrite Forall_fmap, (Hr _). apply Forall_forall.
  intros [k e] Hin%elem_of_map_to_list. simpl. rewrite GetAllWithMeta_lookup in Hin.
  destruct (data r !! k) as [ip|] eqn:Hkip; [|done]. simplify_eq/=.
  destruct (Hd k ip Hkip) as [_ Hip]. split; [|intros _; simpl; rewrite (Hwf k ip Hkip); by apply Hk].
  unfold with_meta, sendable, message_fits. destruct (meta r !! k) as [me|] eqn:Hme; simpl.
  - destruct (Hm k me Hme). by split_and!.
  - by split_and!.
Qed.

(** ** What the watcher does *)

Lemma BroadcastRecord_eq d m :
  BroadcastRecord d m =
    set_broadcasts d (QueueBroadcast (d_broadcasts d) (mkBroadcast (marshal_struct m))).
Proof. done. Qed.

Lemma BroadcastRecord_ok sent d m :
  sendable m → delegate_ok sent d → delegate_ok sent (BroadcastRecord d m).
Proof.
  intros Hm [Hc Hp Hl]. rewrite BroadcastRecord_eq. split; [done| |].
  - intros x [->|Hx]%pending_queue; [by left|]. right. by apply Hp.
  - intros b [->|Hb]%elem_of_cons; [by exists m|by apply Hl].
Qed.

Lemma broadcast_all_ok sent d msgs :
  Forall sendable msgs → delegate_ok sent d →
  delegate_ok sent (broadcast_all d msgs) ∧ d_log d ⊆ d_log (broadcast_all d msgs) ∧
  (∀ m, m ∈ msgs → marshal_struct m ∈ d_log (broadcast_all d msgs)).
Proof.
  intros Hm. revert d. induction Hm as [|m msgs Hm _ IH]; intros d Hd; [set_solver|].
  destruct (IH (BroadcastRecord d m)) as (Hok & Hsub & Hin); [by apply BroadcastRecord_ok|].
  assert (d_log (BroadcastRecord d m) = marshal_struct m :: d_log d) as Hlog by done.
  rewrite Hlog in Hsub. unfold broadcast_all in *. cbn [foldl].
  split_and!; [done|set_solver|]. intros m' [->|Hm']%elem_of_cons; [apply Hsub; by left|by apply Hin].
Qed.

Lemma update_messages_sendable cm ip ts removed added :
  valid_utf8 ip → valid_utf8 (cc_NodeName (cm_config cm)) → int64 ts →
  Forall sendable (update_messages cm ip ts removed added).
Proof.
  intros Hi Hn Ht. unfold update_messages. apply Forall_app.
  split; apply Forall_fmap, Forall_true; intros h; split_and!; done.
Qed.

(** The direct writes of the watcher. *)
Definition written (ip : string) r removed added : Records :=
  foldl (λ r h, Add r h ip) (foldl Remove r removed) added.

Lemma written_store_ok sent ip r removed added :
  valid_utf8 ip → (∀ h, h ∈ added → announced sent (ToLower h) ip) →
  store_ok sent r → store_ok sent (written ip r removed added).
Proof.
  intros Hip Ha Hr. unfold written. assert (store_ok sent (foldl Remove r removed)) as Hrm.
  { clear Ha. revert r Hr. induction removed as [|h l IH]; intros r [Hwf Hok Hk]; [done|].
    apply IH. split; [by apply Remove_wf|by apply Remove_ok|].
    rewrite Remove_eq. by apply map_Forall_delete. }
  revert Hrm. generalize (foldl Remove r removed). clear r Hr.
  induction added as [|h l IH]; intros r [Hwf Hok Hk]; [done|].
  apply IH; [set_solver|]. split; [by apply Add_wf|by apply Add_ok|].
  rewrite Add_eq. apply map_Forall_insert_2; [apply Ha; by left|done].
Qed.

(** The writes and the notifications that follow them: what the node then serves
    is justified by what it has put into its queue. *)
Lemma write_ok sent sent' dw cm d r ip ts removed added :
  cm_delegate cm = Some d → valid_utf8 ip → valid_utf8 (cc_NodeName (cm_config cm)) → int64 ts →
  node_ok sent (dw, (cm, r)) → sent ⊆ sent' →
  let msgs := update_messages cm ip ts removed added in
  let cm' := set_delegate (broadcast_all d msgs) cm in
  (node_log (dw, (cm', r)) ⊆ sent' →
   node_ok sent' (dw, (cm', apply_all (written ip r removed added) msgs))) ∧
  node_log (dw, (cm, r)) ⊆ node_log (dw, (cm', r)).
Proof.
  intros Hd Hi Hn Ht [Hr Hok] Hsub msgs cm'. cbn [fst snd] in *. rewrite Hd in Hok.
  pose proof (update_messages_sendable cm ip ts removed added Hi Hn Ht) as Hs.
  destruct (broadcast_all_ok sent d msgs Hs Hok) as (Hok' & Hlog & Hin).
  unfold node_log. cbn [fst snd]. rewrite Hd. split; [|done]. intros Hlog'. simpl in Hlog'.
  assert (∀ h, h ∈ added → announced sent' (ToLower h) ip) as Ha.
  { intros h Hh. exists (add_message cm h ip ts). split_and!; [|done..]. apply Hlog', Hin.
    apply elem_of_app. right. by apply (list_elem_of_fmap_2 (λ h, add_message cm h ip ts)). }
  assert (Forall (justified sent') msgs) as Hj.
  { apply Forall_forall. intros m Hm. split; [by apply (proj1 (Forall_forall _ _) Hs)|]. intros Hadd.
    apply elem_of_app in Hm as [(h & -> & _)%list_elem_of_fmap|(h & -> & Hh)%list_elem_of_fmap];
      [done|by apply Ha]. }
  split; cbn [fst snd].
  - apply apply_all_justified; [done|]. apply written_store_ok; [done..|]. exact (store_ok_mono _ _ _ Hsub Hr).
  - simpl. exact (delegate_ok_mono _ _ _ Hsub Hok').
Qed.

(** The removals of a stop or of a synchronization, as such a write. *)
Lemma notify_removed cm r d hs now :
  cm_delegate cm = Some d →
  let msgs := update_messages cm EmptyString now hs [] in
  notify_all cluster_callback EmptyString false now hs (cm, foldl Remove r hs) =
    (set_delegate (broadcast_all d msgs) cm, apply_all (written EmptyString r hs []) msgs).
Proof.
  intros Hd. pose proof (notify_all_messages cm (foldl Remove r hs) d EmptyString EmptyString false now hs Hd)
    as ->. unfold update_messages. by rewrite app_nil_r.
Qed.

Lemma removes_world cm r hs : foldl (λ w h, rec_Remove h w) (cm, r) hs = (cm, foldl Remove r hs).
Proof. revert r. induction hs as [|h hs IH]; intros r; simpl; [done|apply IH]. Qed.

Lemma prune_world seen dw cm r tracked dw' w removed :
  sync_prune seen dw (cm, r) tracked = (dw', w, removed) → w = (cm, foldl Remove r removed).
Proof.
  unfold sync_prune. change (cm, r) with (cm, foldl Remove r []). generalize (@nil string). revert dw.
  induction tracked as [|[id hs] tracked IH]; intros dw acc; simpl; [by intros [= <- <- <-]|].
  case_bool_decide; [apply IH|]. rewrite removes_world, <-foldl_app. apply IH.
Qed.

(** ** The steps keep the invariant *)

Lemma NotifyMsg_ok sent d bytes :
  sent_ok sent → bytes ∈ sent → delegate_ok sent d → delegate_ok sent (NotifyMsg d bytes).
Proof.
  intros Hs Hin Hd. unfold NotifyMsg. case_bool_decide; [done|].
  destruct (DecodeRecordMessage bytes) as [m|] eqn:Hm; [|done]. case_bool_decide; [|done].
  destruct Hd as [Hc Hp Hl]. split; [|done..]. simpl. apply Forall_app. split; [done|].
  apply Forall_singleton. by apply (received_justified sent sent bytes).
Qed.

Lemma GetBroadcasts_ok sent d o l :
  delegate_ok sent d →
  delegate_ok sent (GetBroadcasts d o l).2 ∧ d_log (GetBroadcasts d o l).2 = d_log d ∧
  (GetBroadcasts d o l).1 ⊆ d_log d.
Proof.
  intros [Hc Hp Hl]. unfold GetBroadcasts. simpl.
  pose proof (pending_get (d_broadcasts d).1 o l) as Hget.
  pose proof (pending_got (d_broadcasts d).1 o l) as Hgot.
  destruct (Queue_GetBroadcasts (d_broadcasts d).1 o l) as [out q] eqn:Hq. simpl in *.
  split_and!; [|done|].
  - split; [done| |done]. intros x Hx. by apply Hp, Hgot.
  - intros x Hx. by apply Hp, Hget.
Qed.

Lemma process_ok sent d r d' r' :
  process_step (d, r) (d', r') → delegate_ok sent d → store_ok sent r →
  delegate_ok sent d' ∧ store_ok sent r' ∧ d_log d' = d_log d.
Proof.
  intros Hs [Hc Hp Hl] Hr. inversion Hs as [| |? ? i c msg rest Hi Hch]; simplify_eq; try done.
  rewrite Hch in Hc. apply Forall_cons in Hc as [Hm Hrest].
  split_and!; [done|by apply ApplyMessage_justified|done].
Qed.

Lemma sync_ok sent d r d2 r2 rng join :
  valid_utf8 (d_nodeID d2) → range_order rng → store_ok sent r → store_ok sent r2 →
  store_ok sent (MergeRemoteState rng d r (LocalState d2 r2 join) join).
Proof.
  intros Hn Hr H1 H2. rewrite MergeRemoteState_snapshot by (apply (snapshot_ok d2 r2); [done|apply H2]).
  apply apply_all_justified; [|done]. by apply snapshot_justified.
Qed.

(** The logs of all nodes hold sendable messages only. *)
Lemma net_sent_ok nodes : Forall (node_ok (broadcast_of nodes)) nodes → sent_ok (broadcast_of nodes).
Proof.
  intros Hn b (n & Hin & Hb)%elem_of_broadcast.
  destruct (proj1 (Forall_forall _ _) Hn n Hin) as [_ Hd]. unfold node_log in Hb.
  destruct (cm_delegate n.2.1) as [d|]; [by apply Hd|by apply elem_of_nil in Hb].
Qed.

(** What one step gives the node, for any broadcasts [sent'] of the cluster after
    it. *)
Lemma node_step_ok nodes wire n n' out sent' :
  node_step nodes wire n n' out → n ∈ nodes → net_ok (mkNet nodes wire) →
  broadcast_of nodes ⊆ sent' →
  node_log n ⊆ node_log n' ∧ out ⊆ node_log n ∧ (node_log n' ⊆ sent' → node_ok sent' n').
Proof.
  intros Hstep Hin [Hnodes Hwire] Hsub. simpl in *.
  pose proof (proj1 (Forall_forall _ _) Hnodes n Hin) as Hn.
  pose proof (node_ok_mono _ sent' _ Hsub Hn) as Hn'.
  destruct Hstep as [dw cm r d id new now Hrun Ht|dw cm r d id now Hrun Ht
    |dw cm r d seen rng dw' w removed now Hrun Ht Hp|dw cm r d o l Hd|dw cm r d bytes Hd Hb
    |dw cm r d d' r' Hd Hs|dw cm r d dw2 cm2 r2 d2 rng join Hd Hin2 Hrun2 Hr];
    try destruct Hrun as (Hcb & Hd & Hip & Hname & _).
  - rewrite (updateContainer_clustered dw cm r d id new now Hcb Hd).
    destruct (write_ok _ sent' dw cm d r (dw_hostIP dw) now
      (minus (default [] (dw_containers dw !! id)) new) (minus new (default [] (dw_containers dw !! id)))
      Hd Hip Hname Ht Hn Hsub) as [H1 H2]. split_and!; [exact H2|set_solver|exact H1].
  - unfold handleContainerStop. destruct (dw_containers dw !! id) as [hs|]; [|split_and!; set_solver].
    cbn [dw_callback set_containers]. rewrite Hcb, removes_world, (notify_removed cm r d) by done.
    destruct (write_ok _ sent' dw cm d r EmptyString now hs [] Hd eq_refl Hname Ht Hn Hsub) as [H1 H2].
    split_and!; [exact H2|set_solver|exact H1].
  - rewrite (prune_world _ _ _ _ _ _ _ _ Hp), (notify_removed cm r d) by done.
    destruct (write_ok _ sent' dw cm d r EmptyString now removed [] Hd eq_refl Hname Ht Hn Hsub) as [H1 H2].
    split_and!; [exact H2|set_solver|exact H1].
  - destruct Hn' as [Hst Hdel]. cbn [fst snd] in *. rewrite Hd in Hdel.
    destruct (GetBroadcasts_ok sent' d o l Hdel) as (H1 & H2 & H3). unfold node_log. cbn [fst snd].
    rewrite Hd. simpl. rewrite H2. split_and!; [done|done|]. by split.
  - destruct Hn as [Hst Hdel]. cbn [fst snd] in *. rewrite Hd in Hdel.
    assert (delegate_ok (broadcast_of nodes) (NotifyMsg d bytes)) as Hok.
    { apply NotifyMsg_ok; [by apply net_sent_ok|by apply Hwire|done]. }
    assert (d_log (NotifyMsg d bytes) = d_log d) as Hlog.
    { destruct (NotifyMsg_spec d bytes) as (l & -> & _). done. }
    unfold node_log. cbn [fst snd]. rewrite Hd. simpl. rewrite Hlog.
    split_and!; [done|set_solver|]. intros _. split; [apply Hn'|]. simpl. by eapply delegate_ok_mono.
  - destruct Hn' as [Hst Hdel]. cbn [fst snd] in *. rewrite Hd in Hdel.
    destruct (process_ok sent' d r d' r' Hs Hdel Hst) as (H1 & H2 & H3). unfold node_log. cbn [fst snd].
    rewrite Hd. simpl. rewrite H3. split_and!; [done|set_solver|]. by split.
  - split_and!; [done|set_solver|]. intros _. destruct Hn' as [Hst Hdel].
    split; [|exact Hdel]. cbn [fst snd] in *. apply sync_ok; [apply Hrun2|done|done|].
    destruct (proj1 (Forall_forall _ _) Hnodes _ Hin2) as [Hst2 _]. by eapply store_ok_mono.
Qed.

Lemma net_step_ok s s' : net_ok s → net_step s s' → net_ok s'.
Proof.
  intros Hok Hs. destruct Hs as [nodes wire i n n' out Hi Hstep].
  pose proof (list_elem_of_lookup_2 _ _ _ Hi) as Hin.
  destruct (node_step_ok nodes wire n n' out (broadcast_of nodes) Hstep Hin Hok) as (Hlog & Hout & _); [done|].
  pose proof (broadcast_insert nodes i n n' Hi Hlog) as Hsub.
  destruct (node_step_ok nodes wire n n' out _ Hstep Hin Hok Hsub) as (_ & _ & Hn').
  destruct Hok as [Hnodes Hwire]. simpl in *. split; simpl.
  - apply Forall_insert.
    + eapply Forall_impl; [exact Hnodes|]. intros n0. by apply node_ok_mono.
    + apply Hn'. intros b Hb. apply elem_of_broadcast. exists n'. split; [|done].
      apply list_elem_of_lookup_2 with i, list_lookup_insert_eq. by eapply lookup_lt_Some.
  - intros b [Hb|Hb]%elem_of_app; [|by apply Hsub, Hwire].
    apply Hsub, elem_of_broadcast. exists n. split; [done|by apply Hout].
Qed.

(** A cluster that has just been set up: empty stores, and delegates that have
    sent and received nothing. *)
Definition fresh_node (n : node) : Prop :=
  n.2.2 = NewRecords ∧
  match cm_delegate n.2.1 with
  | Some d => d_broadcasts d = NewQueue 3 ∧ d_msgChan d = []
  | None => True
  end.
Definition fresh (s : net) : Prop := net_wire s = [] ∧ Forall fresh_node (net_nodes s).

Lemma fresh_ok s : fresh s → net_ok s.
Proof.
  intros [Hw Hn]. split; [|rewrite Hw; set_solver].
  eapply Forall_impl; [exact Hn|]. intros n [Hr Hd]. split.
  - rewrite Hr. split; [apply NewRecords_wf|apply NewRecords_ok|apply map_Forall_empty].
  - destruct (cm_delegate n.2.1) as [d|]; [|done]. destruct Hd as [Hq Hc].
    unfold d_log. split; unfold d_log; rewrite ?Hc, ?Hq; simpl; [done| |].
    + rewrite pending_new. set_solver.
    + by intros b ?%elem_of_nil.
Qed.

(** C7: No node makes an address up.  However containers come and go on the nodes
    of a cluster, whatever their clocks show, and in whatever order, how often and
    to whom memberlist delivers what it takes from their broadcast queues and
    exchanges full states: between any two such steps, an address that some node
    answers for a name is that of an addition for this name which some node has
    put into its broadcast queue. *)
Theorem served_was_announced s s' i dw cm r h ip :
  fresh s → rtc net_step s s' → net_nodes s' !! i = Some (dw, (cm, r)) → Lookup r h = Some ip →
  ∃ j dwj cmj rj dj m, net_nodes s' !! j = Some (dwj, (cmj, rj)) ∧ cm_delegate cmj = Some dj ∧
    marshal_struct m ∈ d_log dj ∧ is_add m ∧
    ToLower (msg_Hostname m) = ToLower h ∧ msg_IP m = ip.
Proof.
  intros Hf%fresh_ok Hrun Hi Hl. assert (net_ok s') as [Hn _].
  { clear Hi. revert Hf. induction Hrun as [|s1 s2 s3 Hs _ IH]; [done|]. eauto using net_step_ok. }
  destruct (Forall_lookup_1 _ _ _ _ Hn Hi) as [[_ _ Hk] _].
  destruct (Hk (ToLower h) ip Hl) as (m & Hm & Ha & Hh & Hip).
  apply elem_of_broadcast in Hm as ([dwj [cmj rj]] & [j Hj]%list_elem_of_lookup & Hb).
  unfold node_log in Hb. cbn [fst snd] in Hb.
  destruct (cm_delegate cmj) as [dj|] eqn:Hdj; [|by apply elem_of_nil in Hb].
  by exists j, dwj, cmj, rj, dj, m.
Qed.
End network.

(** ** Full-state exchanges through a hub *)

(** Compatibility of two maps is decided by going through the first. *)
#[global] Instance compatible_dec L1 L2 : Decision (compatible L1 L2).
Proof.
  pose (P := λ k (e1 : entry),
    match L2 !! k with Some e2 => e1.1 = e2.1 → e1 = e2 | None => True end).
  assert (∀ k e1, Decision (P k e1)) by (intros k e1; unfold P; destruct (L2 !! k); apply _).
  refine (cast_if (decide (map_Forall P L1))); subst P; unfold compatible.
  - intros k e1 e2 H1 H2. match goal with H : map_Forall _ _ |- _ => specialize (H k e1 H1) end.
    simpl in *. by rewrite H2 in *.
  - intros Hc. match goal with H : ¬ _ |- _ => apply H end. intros k e1 H1. simpl.
    destruct (L2 !! k) eqn:H2; [|done]. by apply (Hc k).
Defined.

Lemma join_entry L1 L2 k e :
  lww_join L1 L2 !! k = Some e → L1 !! k = Some e ∨ L2 !! k = Some e.
Proof.
  unfold lww_join. rewrite lookup_union_with.
  destruct (L1 !! k), (L2 !! k); simpl; intros [= <-]; try tauto.
  unfold later. case_decide; tauto.
Qed.

Lemma join_all_entry Ls L k e :
  foldl lww_join L Ls !! k = Some e → ∃ L', L' ∈ L :: Ls ∧ L' !! k = Some e.
Proof.
  revert L. induction Ls as [|L1 Ls IH]; intros L Hk; simpl in *; [by eauto using list_elem_of_here|].
  destruct (IH _ Hk) as (L' & Hin & HL'). apply elem_of_cons in Hin as [->|Hin].
  - apply join_entry in HL' as [?|?]; eexists; split; try done; set_solver.
  - exists L'. split; [set_solver|done].
Qed.

(** A join of compatible maps is above each of them. *)
Lemma join_all_absorbs Ls L L' :
  (∀ L1, L1 ∈ Ls → compatible L1 L') → lww_join L L' = L ∨ L' ∈ Ls →
  lww_join (foldl lww_join L Ls) L' = foldl lww_join L Ls.
Proof.
  revert L. induction Ls as [|L1 Ls IH]; intros L Hc Hin; simpl.
  { by destruct Hin as [|?%not_elem_of_nil]. }
  apply IH; [set_solver|]. destruct Hin as [Habs|[->|Hin]%elem_of_cons].
  - left. rewrite lww_join_assoc, (lww_join_comm L1) by (apply Hc; set_solver).
    by rewrite <-lww_join_assoc, Habs.
  - left. by rewrite lww_join_assoc, lww_join_idem.
  - by right.
Qed.

(** The join at one key depends on the maps at that key only. *)
Lemma join_key L1 L1' L2 L2' k :
  L1 !! k = L1' !! k → L2 !! k = L2' !! k → lww_join L1 L2 !! k = lww_join L1' L2' !! k.
Proof. intros H1 H2. unfold lww_join. by rewrite !lookup_union_with, H1, H2. Qed.
Lemma join_all_key Ls L L' k :
  L !! k = L' !! k → foldl lww_join L Ls !! k = foldl lww_join L' Ls !! k.
Proof. revert L L'. induction Ls as [|L1 Ls IH]; intros L L' Hk; [done|]. by apply IH, join_key. Qed.

Section hub.
Context `{UnicodeCase} `{TransmitLimitedQueue}.
Implicit Types (n : ClusterDelegate * Records).

(** A node that can send its state, whose records all carry stamps. *)
Definition exchangeable n : Prop :=
  valid_utf8 (d_nodeID n.1) ∧ stamped n.2 ∧ records_wf n.2 ∧ records_ok n.2.

(** The hub merges the state of each of the nodes. *)
Definition pull_all rng d r (ns : list (ClusterDelegate * Records)) join : Records :=
  foldl (λ r n, MergeRemoteState rng d r (LocalState n.1 n.2 join) join) r ns.

Lemma apply_all_wf r l : records_wf r → records_wf (apply_all r l).
Proof. revert r. induction l as [|m l IH]; intros r Hr; [done|]. apply IH. by apply ApplyMessage_wf. Qed.

Section merge.
Context (rng : gmap string RecordEntry → list (string * RecordEntry)) (join : bool).
Context (d : ClusterDelegate) (r : Records) (d2 : ClusterDelegate) (r2 : Records).
Hypothesis (Hr : range_order rng) (H1 : exchangeable (d, r)) (H2 : exchangeable (d2, r2)).
Abbreviation merged := (MergeRemoteState rng d r (LocalState d2 r2 join) join).

Lemma merged_cell k :
  cell_at merged k = cell_at r k ∧ (is_Some (data r2 !! k) → stale r k (stamp_at r2 k)) ∨
  cell_at merged k = (Some (stamp_at r2 k), data r2 !! k) ∧
    is_Some (data r2 !! k) ∧ ¬ stale r k (stamp_at r2 k).
Proof.
  destruct H2 as (Hn & _ & Hw & Hok). simpl in *.
  rewrite merge_cell by (done || by apply (snapshot_ok d2 r2)).
  destruct (data r2 !! k) as [ip|]; [|left; split; [done|by intros [? ?]]].
  case_decide; [by left|by right].
Qed.

Lemma merge_exchangeable : exchangeable (d, merged).
Proof.
  destruct H1 as (Hn & Hs & Hw & Hok). pose proof H2 as (Hn2 & _ & _ & Hok2). simpl in *.
  split_and!; simpl; [done| | |by apply MergeRemoteState_ok].
  - intros k. rewrite !elem_of_dom. specialize (Hs k). rewrite !elem_of_dom in Hs.
    destruct (merged_cell k) as [[Hc _]|(Hc & _)]; unfold cell_at in Hc; by injection Hc as -> ->.
  - rewrite MergeRemoteState_snapshot by (by apply (snapshot_ok d2 r2)). by apply apply_all_wf.
Qed.

(** Where the node does not shadow the peer's record, merging joins. *)
Lemma merge_view_key k :
  ¬ shadowed r r2 k → view merged !! k = lww_join (view r) (view r2) !! k.
Proof.
  intros Hsh. pose proof merge_exchangeable as (_ & Hsm & _). pose proof H1 as (_ & Hs1 & _).
  pose proof H2 as (_ & Hs2 & _). simpl in *. unfold lww_join. rewrite lookup_union_with.
  rewrite !view_at by done. unfold shadowed in Hsh.
  pose proof (stamped_at r k Hs1) as He1. destruct (merged_cell k) as [[Hc Hst]|(Hc & [ip2 Hd2] & Hst)];
    unfold cell_at in Hc; injection Hc as Hm Hd; unfold stamp_at at 1; rewrite Hm, Hd.
  - fold (stamp_at r k). destruct (data r2 !! k) as [ip2|]; [|by destruct (data r !! k)].
    specialize (Hst ltac:(done)). destruct (data r !! k) as [ip|]; simpl.
    + f_equal. unfold later. simpl. unfold stale in Hst. rewrite He1 in Hst by done.
      by rewrite decide_True.
    + destruct Hsh. by split_and!.
  - rewrite Hd2. destruct (data r !! k) as [ip|]; simpl; [|done].
    f_equal. unfold later. simpl. unfold stale in Hst. rewrite He1 in Hst by done.
    by rewrite decide_False.
Qed.

(** Merging shadows nothing that was not shadowed. *)
Lemma merge_shadowed r3 k : shadowed merged r3 k → shadowed r r3 k.
Proof.
  intros (Hd & Hd3 & Hst). unfold shadowed, stale in *.
  destruct (merged_cell k) as [[Hc _]|(Hc & Hd2 & _)]; unfold cell_at in Hc; injection Hc as Hm Hdm.
  - by rewrite Hm in Hst; rewrite Hdm in Hd.
  - rewrite Hdm in Hd. rewrite Hd in Hd2. by destruct Hd2.
Qed.
End merge.

Lemma pull_all_join rng d r ns join k :
  range_order rng → exchangeable (d, r) → Forall exchangeable ns →
  (∀ n, n ∈ ns → ¬ shadowed r n.2 k) →
  let hub := pull_all rng d r ns join in
  exchangeable (d, hub) ∧ view hub !! k = foldl lww_join (view r) (view ∘ snd <$> ns) !! k.
Proof.
  intros Hr Hx Hns. revert r Hx. induction Hns as [|[d2 r2] ns Hx2 _ IH]; intros r Hx Hsh; [done|].
  destruct (IH (MergeRemoteState rng d r (LocalState d2 r2 join) join)) as [Hx' Hv].
  { by apply merge_exchangeable. }
  { intros n Hn Hs. apply (Hsh n); [by right|]. by apply merge_shadowed in Hs. }
  split; [exact Hx'|]. cbn [fmap list_fmap foldl]. simpl in Hv |- *. unfold pull_all in Hv |- *. simpl.
  rewrite Hv. apply join_all_key, merge_view_key; [done..|]. apply (Hsh (d2, r2)). by left.
Qed.

(** The records the hub ends up with are records of the nodes. *)
Lemma hub_entry r (ns : list (ClusterDelegate * Records)) k e :
  foldl lww_join (view r) (view ∘ snd <$> ns) !! k = Some e →
  ∃ r', r' ∈ r :: ns.*2 ∧ view r' !! k = Some e.
Proof.
  intros (L & HL & He)%join_all_entry.
  apply elem_of_cons in HL as [->|(n & -> & Hn)%list_elem_of_fmap]; [by exists r; split; [left|]|].
  exists n.2. split; [|done]. right. by apply list_elem_of_fmap_2.
Qed.

(** Where nobody shadows anybody, a node that merges the hub agrees with it. *)
Lemma hub_sync_key rng rng' d r ns join n k :
  range_order rng → range_order rng' → Forall exchangeable ((d, r) :: ns) →
  (∀ n1 n2, n1 ∈ (d, r) :: ns → n2 ∈ ns → compatible (view n1.2) (view n2.2)) →
  n ∈ ns → (∀ n1 n2, n1 ∈ (d, r) :: ns → n2 ∈ (d, r) :: ns → ¬ shadowed n1.2 n2.2 k) →
  let hub := pull_all rng d r ns join in
  exchangeable (d, hub) ∧
  view (MergeRemoteState rng' n.1 n.2 (LocalState d hub join) join) !! k = view hub !! k.
Proof.
  intros Hr Hr' [Hx Hns]%Forall_cons Hc Hin Hsh hub.
  destruct (pull_all_join rng d r ns join k Hr Hx Hns) as [Hhub Hv].
  { intros n' Hn'. apply (Hsh (d, r)); [by left|by right]. }
  fold hub in Hhub, Hv. split; [done|].
  set (F := foldl lww_join (view r) (view ∘ snd <$> ns)) in *.
  pose proof (proj1 (Forall_forall _ _) Hns n Hin) as Hxn.
  rewrite (merge_view_key rng' join n.1 n.2 d hub Hr'); [|by destruct n|done|].
  - rewrite (join_key _ (view n.2) _ F) by done. rewrite Hv, lww_join_comm.
    + unfold F. rewrite join_all_absorbs; [done| |].
      * intros L1 (n1 & -> & Hn1)%list_elem_of_fmap. apply Hc; [by right|done].
      * right. apply list_elem_of_fmap. by exists n.
    + intros k' e1 e2 H1 (r' & Hr2 & H2)%hub_entry He. symmetry.
      apply elem_of_cons in Hr2 as [->|(n1 & -> & Hn1)%list_elem_of_fmap].
      * by apply (Hc (d, r) n (list_elem_of_here _ _) Hin k').
      * by apply (Hc n1 n (list_elem_of_further _ _ _ Hn1) Hin k').
  - intros (Hd & Hdh & Hst). destruct Hhub as (_ & Hsh' & _). simpl in Hsh'.
    destruct (data hub !! k) as [ip|] eqn:Hip; [|by destruct Hdh].
    rewrite view_at, Hip in Hv by done. simpl in Hv. symmetry in Hv.
    apply hub_entry in Hv as (r' & Hr2 & Hv).
    assert (∃ n1, n1 ∈ (d, r) :: ns ∧ n1.2 = r') as (n1 & Hn1 & <-).
    { apply elem_of_cons in Hr2 as [->|(n1 & -> & Hn1)%list_elem_of_fmap];
        [exists (d, r)|exists n1]; (split; [|done]); [by left|by right]. }
    assert (Forall exchangeable ((d, r) :: ns)) as Hall by by constructor.
    destruct (proj1 (Forall_forall _ _) Hall n1 Hn1) as (_ & Hs1 & _).
    apply (Hsh n n1); [by right|done|]. rewrite view_at in Hv by done.
    destruct (data n1.2 !! k) as [ip1|] eqn:Hd1; simplify_eq/=. unfold shadowed. rewrite Hd1.
    split_and!; [done|done|]. congruence.
Qed.

Lemma MergeRemoteState_paired rng d r buf join : paired r → paired (MergeRemoteState rng d r buf join).
Proof.
  intros Hp. unfold MergeRemoteState. case_match; [done|]. destruct (DecodeFullState buf) as [st|]; [|done].
  generalize (rng (state_Records st)). intros l. revert r Hp.
  induction l as [|he l IH]; intros r Hp; [done|]. by apply IH, ApplyMessage_paired.
Qed.
Lemma pull_all_paired rng d r ns join : paired r → paired (pull_all rng d r ns join).
Proof.
  revert r. induction ns as [|n ns IH]; intros r Hp; [done|]. by apply IH, MergeRemoteState_paired.
Qed.

(** C6: One round of full-state exchanges through any one node makes a cluster of
    any size agree.  All states can be sent, the records of all nodes carry
    stamps, and no stamp stands for two addresses.  The hub merges the state of
    every other node, and each of them then merges the hub's: from then on it
    answers as the hub does, under the same stamp, for every host that no node
    shadows (has no record for but still a stamp, no earlier than another node's
    record, as after it saw its own container stop).  If the records and the
    stamps of every node are for the same hosts, all stores end up equal. *)
Theorem hub_sync_converges rng rng' d r ns join n :
  range_order rng → range_order rng' → Forall exchangeable ((d, r) :: ns) →
  (∀ n1 n2, n1 ∈ (d, r) :: ns → n2 ∈ ns → compatible (view n1.2) (view n2.2)) →
  n ∈ ns →
  let hub := pull_all rng d r ns join in
  let synced := MergeRemoteState rng' n.1 n.2 (LocalState d hub join) join in
  (∀ h, (∀ n1 n2, n1 ∈ (d, r) :: ns → n2 ∈ (d, r) :: ns → ¬ shadowed n1.2 n2.2 (ToLower h)) →
     Lookup synced h = Lookup hub h ∧
     (is_Some (Lookup hub h) → GetMeta synced h = GetMeta hub h)) ∧
  (Forall (λ n, paired n.2) ((d, r) :: ns) → synced = hub).
Proof.
  intros Hr Hr' Hall Hc Hin hub synced.
  assert (Forall exchangeable ns) as Hns by by apply Forall_cons in Hall as [_ ?].
  pose proof (proj1 (Forall_forall _ _) Hns n Hin) as Hxn. split.
  - intros h Hsh. destruct (hub_sync_key rng rng' d r ns join n (ToLower h) Hr Hr' Hall Hc Hin Hsh)
      as [Hxh Hv]. fold hub in Hxh, Hv. fold synced in Hv.
    assert (exchangeable (n.1, synced)) as (_ & Hss & _) by (apply merge_exchangeable; by destruct n).
    destruct Hxh as (_ & Hsh' & _). simpl in *. rewrite !view_at in Hv by done.
    pose proof (stamped_at synced (ToLower h) Hss) as He1.
    pose proof (stamped_at hub (ToLower h) Hsh') as He2. unfold Lookup, GetMeta.
    destruct (data synced !! _), (data hub !! _); simplify_eq/=; [|done].
    split; [done|]. intros _. rewrite He1, He2 by done. by f_equal.
  - intros Hp. assert (∀ k n1 n2, n1 ∈ (d, r) :: ns → ¬ shadowed n1.2 n2.2 k) as Hsh.
    { intros k n1 n2 Hn1. apply paired_not_shadowed. by apply (proj1 (Forall_forall _ _) Hp). }
    assert (paired hub) as Hph by (apply pull_all_paired; by apply Forall_cons in Hp as [? _]).
    apply view_inj; [apply MergeRemoteState_paired, (proj1 (Forall_forall _ _) Hp n); by right|done|].
    apply map_eq. intros k.
    apply (hub_sync_key rng rng' d r ns join n k Hr Hr' Hall Hc Hin). eauto.
Qed.
End hub.

(** ** The theorems at concrete inputs *)

#[global] Instance list_queue_laws : TransmitLimitedQueueLaws list_queue.
Proof.
  refine {| pending := λ q : @queue list_queue, Message <$> q |}; simpl.
  - done.
  - intros q b x. rewrite fmap_app, elem_of_app, fmap_cons, fmap_nil, list_elem_of_singleton. tauto.
  - done.
  - by intros q o l x ?%elem_of_nil.
Defined.

Module NetworkExamples.
Import LwwExamples.
#[local] Existing Instance latin1_case.
#[local] Existing Instance ClusterExamples.list_members.
Definition example_queue : TransmitLimitedQueue := logged list_queue.
#[local] Existing Instance example_queue.

Definition delegate_a : ClusterDelegate := Start (NewClusterDelegate "a").
Definition delegate_b : ClusterDelegate := Start (NewClusterDelegate "b").
Definition manager (name : string) (d : ClusterDelegate) : ClusterManager string :=
  mkClusterManager (set_NodeName name NewClusterConfig) (Some d) None (Some [name]) false true.
Definition watcher (ip : string) : DockerWatcher (W := ClusterManager string * Records) :=
  SetCallback cluster_callback (NewDockerWatcher "" ip ["coredns.host.name"]).

Abbreviation network := (net list_queue (E := string)).
Definition node_a : DockerWatcher * (ClusterManager string * Records) :=
  (watcher "10.0.0.1", (manager "a" delegate_a, NewRecords)).
Definition node_b (d : ClusterDelegate) (r : Records)
    : DockerWatcher * (ClusterManager string * Records) :=
  (watcher "10.0.0.2", (manager "b" d, r)).

(** A container starts at node [a], whose broadcast reaches node [b], where the
    goroutine takes it from the channel. *)
Definition sent_a : RecordMessage := add_message (manager "a" delegate_a) "App.lan" "10.0.0.1" 50.
Definition updated_a : DockerWatcher * (ClusterManager string * Records) :=
  updateContainer node_a.1 node_a.2 "c1" ["App.lan"] 50.
Definition queued_a : ClusterDelegate := BroadcastRecord delegate_a sent_a.
Definition gossiped_a : DockerWatcher * (ClusterManager string * Records) :=
  (updated_a.1, (set_delegate (GetBroadcasts queued_a 0 1400).2 updated_a.2.1, updated_a.2.2)).
Definition wire_a : list string := (GetBroadcasts queued_a 0 1400).1.
Definition waiting_b : ClusterDelegate := set_goroutines delegate_b [Waiting 0].
Definition notified_b : ClusterDelegate := set_chan waiting_b [sent_a].
Definition store_b : Records := (ApplyMessage NewRecords sent_a).2.
Definition processed_b : ClusterDelegate := set_goroutines delegate_b [Looping].

Definition started : network := mkNet list_queue [node_a; node_b delegate_b NewRecords] [].
Definition served : network := mkNet list_queue [gossiped_a; node_b processed_b store_b] wire_a.

Lemma step_at (nodes nodes' : list _) wire out i n n' :
  nodes !! i = Some n → node_step list_queue (E := string) nodes wire n n' out →
  nodes' = <[i := n']> nodes →
  net_step list_queue (mkNet list_queue nodes wire) (mkNet list_queue nodes' (out ++ wire)).
Proof. intros Hi Hs ->. by eapply net_at. Qed.

Lemma served_reached : rtc (net_step list_queue) started served.
Proof.
  unfold started, served.
  eapply rtc_l; [apply (step_at _ [updated_a; node_b delegate_b NewRecords] [] [] 0 node_a updated_a)|].
  { done. }
  { apply (ns_update list_queue _ _ _ _ _ delegate_a); [|by_computation].
    split_and!; [done|done|by_computation..]. }
  { done. }
  eapply rtc_l; [apply (step_at _ [gossiped_a; node_b delegate_b NewRecords] [] wire_a 0 updated_a gossiped_a)|].
  { done. }
  { apply (ns_gossip list_queue _ _ updated_a.1 updated_a.2.1 updated_a.2.2 queued_a 0 1400). by vm_compute. }
  { done. }
  eapply rtc_l; [apply (step_at _ [gossiped_a; node_b waiting_b NewRecords] _ [] 1 (node_b delegate_b NewRecords)
    (node_b waiting_b NewRecords))|].
  { done. }
  { apply (ns_process list_queue _ _ (watcher "10.0.0.2") (manager "b" delegate_b) NewRecords delegate_b
      waiting_b NewRecords); [done|].
    by apply (process_select delegate_b NewRecords 0 0). }
  { done. }
  eapply rtc_l; [apply (step_at _ [gossiped_a; node_b notified_b NewRecords] _ [] 1 (node_b waiting_b NewRecords)
    (node_b (NotifyMsg waiting_b (marshal_struct sent_a)) NewRecords))|].
  { done. }
  { apply (ns_receive list_queue _ _ (watcher "10.0.0.2") (manager "b" waiting_b) NewRecords waiting_b);
      [done|]. simpl.
    replace wire_a with [marshal_struct sent_a] by (by vm_compute). by left. }
  { replace (NotifyMsg waiting_b (marshal_struct sent_a)) with notified_b by (by vm_compute). done. }
  apply rtc_once. apply (step_at _ _ _ [] 1 (node_b notified_b NewRecords) (node_b processed_b store_b)).
  { done. }
  { apply (ns_process list_queue _ _ (watcher "10.0.0.2") (manager "b" notified_b) NewRecords notified_b
      processed_b store_b); [done|].
    by apply (process_msg notified_b NewRecords 0 0 sent_a []). }
  { done. }
Qed.

Lemma served_was_announced_witness :
  ∃ j dwj cmj rj dj m, net_nodes list_queue served !! j = Some (dwj, (cmj, rj)) ∧
    cm_delegate cmj = Some dj ∧ marshal_struct m ∈ d_log list_queue dj ∧ is_add m ∧
    ToLower (msg_Hostname m) = ToLower "APP.lan" ∧ msg_IP m = "10.0.0.1".
Proof.
  apply (served_was_announced list_queue started served 1 (watcher "10.0.0.2") (manager "b" processed_b)
    store_b "APP.lan").
  - split; [done|]. by repeat constructor.
  - exact served_reached.
  - done.
  - by vm_compute.
Defined.

Definition hub_a : ClusterDelegate * Records := (delegate_a, (ApplyMessage NewRecords add_new).2).
(** Node [b] has an older record for the same host, and has seen a container of
    its own stop. *)
Definition peer_b : ClusterDelegate * Records :=
  (delegate_b, Remove (apply_all NewRecords
    [add_old; mkRecordMessage "old.lan" "10.0.0.2" RecordActionAdd 6 "b"]) "old.lan").
Definition peer_c : ClusterDelegate * Records :=
  (NewClusterDelegate "c",
    (ApplyMessage NewRecords (mkRecordMessage "db.lan" "10.0.0.3" RecordActionAdd 7 "c")).2).

Lemma examples_exchangeable : Forall exchangeable [hub_a; peer_b; peer_c].
Proof.
  repeat apply Forall_cons_2; try apply Forall_nil_2; split_and!; by_computation.
Qed.

Lemma hub_sync_converges_witness :
  let hub := pull_all map_to_list hub_a.1 hub_a.2 [peer_b; peer_c] false in
  let synced := MergeRemoteState map_to_list peer_b.1 peer_b.2 (LocalState hub_a.1 hub false) false in
  Lookup synced "db.lan" = Lookup hub "db.lan" ∧ Lookup hub "db.lan" = Some "10.0.0.3".
Proof.
  split; [|by vm_compute].
  apply (hub_sync_converges map_to_list map_to_list hub_a.1 hub_a.2 [peer_b; peer_c] false peer_b).
  - by intros m.
  - by intros m.
  - exact examples_exchangeable.
  - assert (Forall (λ n1, Forall (λ n2, compatible (view n1.2) (view n2.2)) [peer_b; peer_c])
      [hub_a; peer_b; peer_c]) as Hc by by_computation.
    intros n1 n2 H1 H2. exact (proj1 (Forall_forall _ _) (proj1 (Forall_forall _ _) Hc n1 H1) n2 H2).
  - by left.
  - assert (Forall (λ n1, Forall (λ n2, ¬ shadowed n1.2 n2.2 (ToLower "db.lan"))
      [hub_a; peer_b; peer_c]) [hub_a; peer_b; peer_c]) as Hs by by_computation.
    intros n1 n2 H1 H2. exact (proj1 (Forall_forall _ _) (proj1 (Forall_forall _ _) Hs n1 H1) n2 H2).
Defined.
End NetworkExamples.
