(* ===== verification/TraefikRecords.v ===== *)
(** * TraefikRecords: the record store of the traefik-externals plugin
    (traefik-externals/records.go)

    One map from lower-cased hostname to IP, replaced as a whole at every reload.
    Each operation builds a fresh map under the mutex and publishes it. *)

From stdpp Require Import gmap strings list fin_maps.
From Stdlib Require Import Lia.
From S2P Require Import Prelude GoStrings.

Record Records := mkRecords { data : gmap string string }.

(** [NewRecords]. *)
Definition NewRecords : Records := {| data := ∅ |}.

Section operations.
Context `{UnicodeCase}.

(** [func (r *Records) Add(hostname, ip string)]. *)
Definition Add (r : Records) (hostname ip : string) : Records :=
  {| data := <[ToLower hostname := ip]> (range_copy (data r)) |}.

(** [func (r *Records) Remove(hostname string)]. *)
Definition Remove (r : Records) (hostname : string) : Records :=
  let hostname := ToLower hostname in
  match data r !! hostname with
  | None => r
  | Some _ => {| data := range_copy_except hostname (data r) |}
  end.

(** [func (r *Records) Lookup(hostname string) (ip string, found bool)]. *)
Definition Lookup (r : Records) (hostname : string) : option string :=
  data r !! ToLower hostname.

(** [func (r *Records) GetAll() map[string]string]. *)
Definition GetAll (r : Records) : gmap string string := range_copy (data r).

(** [func (r *Records) Count() int]. *)
Definition Count (r : Records) : nat := size (data r).

(** [func (r *Records) ReplaceAll(newRecords map[string]string)]; [rng] is the
    order of its loop. *)
Definition normalize (l : list (string * string)) : gmap string string :=
  foldl (λ m kv, <[ToLower kv.1 := kv.2]> m) ∅ l.
Definition ReplaceAll (rng : gmap string string → list (string * string))
    (r : Records) (newRecords : gmap string string) : Records :=
  {| data := normalize (rng newRecords) |}.

(** ** Replacing everything *)

Lemma normalize_elem l k ip :
  normalize l !! k = Some ip → ∃ h, (h, ip) ∈ l ∧ ToLower h = k.
Proof.
  unfold normalize. induction l as [|[h v] l IH] using rev_ind; [done|].
  rewrite foldl_app. simpl. setoid_rewrite elem_of_app. setoid_rewrite list_elem_of_singleton.
  intros [[<- <-]|[_ Hl]]%lookup_insert_Some; [exists h; auto|].
  destruct (IH Hl) as (h' & ? & ?). exists h'. auto.
Qed.

Lemma normalize_is_Some l h ip :
  (h, ip) ∈ l → is_Some (normalize l !! ToLower h).
Proof.
  unfold normalize. induction l as [|[h' v] l IH] using rev_ind; [by intros ?%elem_of_nil|].
  rewrite foldl_app, elem_of_app, list_elem_of_singleton. simpl. intros Hin.
  apply lookup_insert_is_Some. destruct (decide (ToLower h' = ToLower h)) as [Heq|Hne]; [by left|].
  right. split; [done|]. destruct Hin as [?|[= -> ->]]; [by apply IH|done].
Qed.

(** When all values are one address, the order of the loop does not matter. *)
Lemma ReplaceAll_uniform rng r hosts ip h :
  range_order rng → map_Forall (λ _ v, v = ip) hosts →
  ∀ v, Lookup (ReplaceAll rng r hosts) h = Some v ↔
    v = ip ∧ ∃ h', is_Some (hosts !! h') ∧ ToLower h' = ToLower h.
Proof.
  intros Hr Hall v. unfold Lookup, ReplaceAll. simpl. split.
  - intros (h' & Hin & Heq)%normalize_elem. rewrite (Hr hosts) in Hin.
    apply elem_of_map_to_list in Hin. split; [by apply (Hall h')|]. exists h'. eauto.
  - intros (-> & h' & [v' Hv'] & Heq). pose proof (Hall _ _ Hv') as ->.
    assert ((h', ip) ∈ rng hosts) as Hin by (rewrite (Hr hosts); by apply elem_of_map_to_list).
    destruct (normalize_is_Some _ _ _ Hin) as [v Hv]. rewrite Heq in Hv. rewrite Hv. f_equal.
    apply normalize_elem in Hv as (h2 & Hin2 & _). rewrite (Hr hosts) in Hin2.
    apply elem_of_map_to_list in Hin2. by apply (Hall h2).
Qed.

(** Keys stay in lower case under every operation. *)
Definition normal_keys (r : Records) : Prop := map_Forall (λ k _, ToLower k = k) (data r).

Lemma NewRecords_normal : normal_keys NewRecords.
Proof. apply map_Forall_empty. Qed.
Lemma Add_normal r h ip : normal_keys r → normal_keys (Add r h ip).
Proof.
  intros Hr. unfold normal_keys, Add. simpl. rewrite range_copy_id.
  apply map_Forall_insert_2; [apply ToLower_idem|done].
Qed.
Lemma Remove_normal r h : normal_keys r → normal_keys (Remove r h).
Proof.
  intros Hr. unfold normal_keys, Remove. destruct (data r !! ToLower h); [|done]. simpl.
  rewrite range_copy_except_delete. by apply map_Forall_delete.
Qed.
Lemma ReplaceAll_normal rng r m : normal_keys (ReplaceAll rng r m).
Proof. intros k v (h & _ & <-)%normalize_elem. apply ToLower_idem. Qed.
End operations.
