(* ===== verification/Parser.v ===== *)
(** * Parser: host rules in Traefik configuration files
    (traefik-externals/parser.go)

    Comments are stripped line by line, the rules are found with regular
    expressions, backquoted names are taken from them and environment templates
    in the names resolved.  The expressions of the source are sequences of
    literals and greedy one-or-more classes with one group; a matcher with
    backtracking for such sequences stands for package regexp.  All classes of
    the source either exclude one ASCII byte or are ASCII blanks, so matching
    bytes finds the same spans as matching runes. *)

From stdpp Require Import gmap strings list.
From Stdlib Require Import NArith Lia Ascii.
From S2P Require Import Prelude GoStrings.

(** ** Package regexp, for sequences *)

(** A literal byte, a greedy one-or-more class, and the same inside the group. *)
Inductive item :=
| Lit (c : ascii)
| Plus (cls : ascii → bool)
| Group (cls : ascii → bool).
Definition pattern := list item.

Fixpoint lits (s : string) : pattern :=
  match s with EmptyString => [] | String c s => Lit c :: lits s end.

Fixpoint take_bytes (n : nat) (s : string) : string :=
  match n, s with
  | S n, String c s => String c (take_bytes n s)
  | _, _ => EmptyString
  end.

(** Zero or more bytes of the class, as many as possible first, then whatever
    follows. *)
Fixpoint star {A} (cls : ascii → bool) (k : string → option A) (s : string) : option A :=
  match s with
  | EmptyString => k s
  | String c s' =>
      if cls c then match star cls k s' with Some a => Some a | None => k s end
      else k s
  end.
Definition plus {A} (cls : ascii → bool) (k : string → option A) (s : string) : option A :=
  match s with
  | String c s' => if cls c then star cls k s' else None
  | EmptyString => None
  end.

(** A match at the start of [s]: the text of the group and the rest. *)
Fixpoint match_here (p : pattern) (s group : string) : option (string * string) :=
  match p with
  | [] => Some (group, s)
  | Lit c :: p =>
      match s with
      | String c' s' => if bool_decide (c' = c) then match_here p s' group else None
      | EmptyString => None
      end
  | Plus cls :: p => plus cls (λ rest, match_here p rest group) s
  | Group cls :: p =>
      plus cls (λ rest, match_here p rest
        (take_bytes (String.length s - String.length rest) s)) s
  end.

(** [FindAllStringSubmatch(s, -1)]: the leftmost matches that do not overlap, as
    the whole match and the text of the group.  [skip] counts the bytes left of
    the last match.  Only for patterns that match no empty text, as those of the
    source. *)
Fixpoint find_from (p : pattern) (skip : nat) (s : string) : list (string * string) :=
  match s with
  | EmptyString => []
  | String c s' =>
      match skip with
      | S skip => find_from p skip s'
      | O =>
          match match_here p s EmptyString with
          | None => find_from p 0 s'
          | Some (group, rest) =>
              let len := String.length s - String.length rest in
              (take_bytes len s, group) :: find_from p (pred len) s'
          end
      end
  end.
Definition FindAll (p : pattern) (s : string) : list (string * string) := find_from p 0 s.

(** ** The parser *)

Definition backtick : ascii := "`"%char.
Definition hash : ascii := "#"%char.
Definition newline : ascii := ascii_of_nat 10.
Definition dquote : ascii := ascii_of_nat 34.
Definition lparen : ascii := "("%char.
Definition rparen : ascii := ")"%char.

Definition not_byte (b c : ascii) : bool := negb (bool_decide (c = b)).
(** [\s]. *)
Definition blank (c : ascii) : bool :=
  bool_decide (N_of_ascii c ∈ [9; 10; 12; 13; 32]%N).

(** [hostPattern], [hostSNIPattern], [hostRegexpPattern], [backtickPattern] and
    [envPattern]. *)
Definition hostPattern : pattern := lits "Host(" ++ [Group (not_byte rparen); Lit rparen].
Definition hostSNIPattern : pattern := lits "HostSNI(" ++ [Group (not_byte rparen); Lit rparen].
Definition hostRegexpPattern : pattern := lits "HostRegexp(".
Definition backtickPattern : pattern := [Lit backtick; Group (not_byte backtick); Lit backtick].
Definition envPattern : pattern :=
  lits "{{env" ++ [Plus blank; Lit dquote; Group (not_byte dquote); Lit dquote] ++ lits "}}".

Definition middlewareOnlyFiles : list string :=
  ["middleware.yml"; "authentik_middleware.yml"; "authelia_middlewares.yml"; "crowdsec-bouncer.yml"].

(** [type Parser struct]: the patterns are constants; [hostRegexpWarnOnce] says
    whether the warning was given. *)
Record Parser := mkParser {
  envVars : gmap string string;
  hostRegexpWarnOnce : bool;
}.

(** [NewParserWithEnv]. *)
Definition NewParserWithEnv (env : gmap string string) : Parser :=
  mkParser (range_copy env) false.

(** [loadEnvVars], on what os.Environ returns. *)
Definition loadEnvVars (environ : list string) : gmap string string :=
  foldl (λ vars env,
    match SplitN2 env "="%char with
    | [name; value] => <[name := value]> vars
    | _ => vars
    end) ∅ environ.

(** [NewParser]. *)
Definition NewParser (environ : list string) : Parser := NewParserWithEnv (loadEnvVars environ).

(** [func (p *Parser) IsMiddlewareOnly(filename string) bool]. *)
Definition IsMiddlewareOnly (filename : string) : bool :=
  bool_decide (filename ∈ middlewareOnlyFiles).

(** [func (p *Parser) GetEnvVar(key string) (string, bool)]. *)
Definition GetEnvVar (p : Parser) (key : string) : option string := envVars p !! key.

(** The scan of one line: what stands before the first [#] outside backquotes. *)
Fixpoint strip_line (inBacktick : bool) (line : string) : string :=
  match line with
  | EmptyString => EmptyString
  | String ch rest =>
      if bool_decide (ch = backtick) then String ch (strip_line (negb inBacktick) rest)
      else if bool_decide (ch = hash) && negb inBacktick then EmptyString
      else String ch (strip_line inBacktick rest)
  end.

(** [func (p *Parser) stripComments(content string) string]. *)
Definition stripComments (content : string) : string :=
  Join (strip_line false <$> Split content newline) newline.

(** [func (p *Parser) resolveEnvTemplate(template string) string]. *)
Fixpoint resolve_matches (p : Parser) (matches : list (string * string)) (res : string) : string :=
  match matches with
  | [] => res
  | (varName, envKey) :: matches =>
      match envVars p !! envKey with
      | None => EmptyString
      | Some envValue =>
          if bool_decide (envValue = EmptyString) then EmptyString
          else resolve_matches p matches (Replace1 res varName envValue)
      end
  end.
Definition resolveEnvTemplate (p : Parser) (template : string) : string :=
  resolve_matches p (FindAll envPattern template) template.

Section hosts.
Context `{UnicodeCase}.

(** The inner loop of extractHostsFromMatches on [seen] and [hosts]. *)
Definition extract_host (p : Parser) (st : gset string * list string) (btMatch : string * string)
    : gset string * list string :=
  let resolved := resolveEnvTemplate p btMatch.2 in
  if bool_decide (resolved = EmptyString) then st
  else
    let resolved := ToLower resolved in
    if bool_decide (resolved ∈ st.1) then st
    else ({[resolved]} ∪ st.1, st.2 ++ [resolved]).

(** [extractHostsFromMatches]. *)
Definition extractHostsFromMatches (p : Parser) (matches : list (string * string))
    (st : gset string * list string) : gset string * list string :=
  foldl (λ st m, foldl (extract_host p) st (FindAll backtickPattern m.2)) st matches.

(** [func (p *Parser) ParseContent(content string) []string]; the parser records
    that the warning about HostRegexp was given. *)
Definition ParseContent (p : Parser) (content : string) : Parser * list string :=
  let content := stripComments content in
  let p :=
    if bool_decide (0 < length (FindAll hostRegexpPattern content))
    then mkParser (envVars p) true else p in
  let st := extractHostsFromMatches p (FindAll hostPattern content) (∅, []) in
  let st := extractHostsFromMatches p (FindAll hostSNIPattern content) st in
  (p, st.2).

Definition maxFileSize : N := 2 ^ 20.

(** [io.ReadAll(io.LimitReader(f, n))]. *)
Fixpoint limit_read (n : N) (s : string) : string :=
  match s with
  | EmptyString => EmptyString
  | String c s => if (n =? 0)%N then EmptyString else String c (limit_read (n - 1) s)
  end.

(** [func (p *Parser) ParseFile(filePath string) ([]string, error)]; [file] is
    what opening and reading the path yields. *)
Inductive parse_error (E : Type) := ReadFails (e : E) | FileTooLarge.
Arguments ReadFails {E} _.
Arguments FileTooLarge {E}.
Definition ParseFile {E} (p : Parser) (file : result E string)
    : result (parse_error E) (Parser * list string) :=
  match file with
  | Err err => Err (ReadFails err)
  | Ok bytes =>
      let content := limit_read (maxFileSize + 1) bytes in
      if bool_decide (maxFileSize < N.of_nat (String.length content))%N then Err FileTooLarge
      else Ok (ParseContent p content)
  end.
End hosts.

Definition demo_env : Parser := NewParser ["DOMAIN=Example.com"; "EMPTY="; "EQ=a=b"].
Definition nl : string := String newline EmptyString.
Definition quoted (s : string) : string := String dquote (s +:+ String dquote EmptyString).
Definition env_ref (v : string) : string := "{{env " +:+ quoted v +:+ "}}".

Example parse_two :
  (ParseContent (H := latin1_case) demo_env
    ("rule: Host(`a.com`, `B.com`) && !HostSNI(`tcp.lan`)" +:+ nl +:+
     "# Host(`off.lan`)" +:+ nl +:+ "rule: Host(`x." +:+ env_ref "DOMAIN" +:+ "`) # Host(`no.lan`)" +:+ nl +:+
     "r: Host(`y." +:+ env_ref "EMPTY" +:+ "`)")).2 = ["a.com"; "b.com"; "x.example.com"; "tcp.lan"].
Proof. reflexivity. Qed.
