(* ===== verification/ParserSpec.v ===== *)
(** * ParserSpec: what the rule parser extracts

    The set of names found in a file, the text of rules read back, comments, and
    environment templates. *)

From stdpp Require Import gmap strings list.
From Stdlib Require Import NArith Lia Ascii.
From S2P Require Import Prelude GoStrings Parser.

(** ** Scanning *)

Section scanning.
Implicit Types (cls : ascii → bool) (s t : string) (p : pattern).

Lemma all_bytes_app (f : ascii → bool) s t :
  all_bytes f (s +:+ t) = all_bytes f s && all_bytes f t.
Proof. induction s as [|c s IH]; [done|]. rewrite app_String. simpl. by rewrite IH, andb_assoc. Qed.

Lemma all_bytes_impl (f g : ascii → bool) s :
  (∀ c, f c = true → g c = true) → all_bytes f s = true → all_bytes g s = true.
Proof.
  intros Hfg. induction s as [|c s IH]; [done|]. simpl. rewrite !andb_true_iff. naive_solver.
Qed.

Lemma take_bytes_app s t : take_bytes (String.length s) (s +:+ t) = s.
Proof. induction s as [|c s IH]; [by destruct t|]. rewrite app_String. simpl. by rewrite IH. Qed.

(** A class runs to the first byte outside it. *)
Lemma star_run {A} cls (k : string → option A) s c t a :
  all_bytes cls s = true → cls c = false → k (String c t) = Some a →
  star cls k (s +:+ String c t) = Some a.
Proof.
  intros Hs Hc Hk. induction s as [|b s IH].
  - rewrite app_empty_l. simpl. by rewrite Hc.
  - simpl in Hs. apply andb_true_iff in Hs as [Hb Hs]. rewrite app_String. simpl.
    by rewrite Hb, IH.
Qed.

Lemma plus_run {A} cls (k : string → option A) s c t a :
  s ≠ EmptyString → all_bytes cls s = true → cls c = false → k (String c t) = Some a →
  plus cls k (s +:+ String c t) = Some a.
Proof.
  intros Hne Hs Hc Hk. destruct s as [|b s]; [done|]. simpl in Hs.
  apply andb_true_iff in Hs as [Hb Hs]. rewrite app_String. simpl. rewrite Hb.
  by apply star_run.
Qed.

Lemma match_lits l p s g : match_here (lits l ++ p) (l +:+ s) g = match_here p s g.
Proof.
  induction l as [|c l IH]; [done|]. rewrite app_String. simpl. by rewrite bool_decide_eq_true_2.
Qed.

(** A group that runs to the byte after it. *)
Lemma match_group cls p s c t g :
  s ≠ EmptyString → all_bytes cls s = true → cls c = false →
  is_Some (match_here p (String c t) s) →
  match_here (Group cls :: p) (s +:+ String c t) g = match_here p (String c t) s.
Proof.
  intros Hne Hs Hc [a Ha]. rewrite Ha. cbn [match_here]. apply plus_run; [done..|].
  rewrite slength_app. replace (_ + _ - _) with (String.length s) by lia.
  by rewrite take_bytes_app.
Qed.

(** The search passes over bytes that cannot start a match. *)
Lemma find_pass c p s t :
  all_bytes (not_byte c) s = true → find_from (Lit c :: p) 0 (s +:+ t) = find_from (Lit c :: p) 0 t.
Proof.
  induction s as [|b s IH]; [done|]. cbn [all_bytes]. intros [Hb Hs]%andb_true_iff.
  rewrite app_String. cbn [find_from match_here]. unfold not_byte in Hb.
  apply negb_true_iff in Hb. rewrite Hb. by apply IH.
Qed.

Lemma find_skip p s t : find_from p (String.length s) (s +:+ t) = find_from p 0 t.
Proof. induction s as [|c s IH]; [done|]. rewrite app_String. simpl. apply IH. Qed.

Lemma find_none c p s : all_bytes (not_byte c) s = true → find_from (Lit c :: p) 0 s = [].
Proof. intros Hs. rewrite <-(app_empty_r s), find_pass by done. done. Qed.

(** A match at the start is found and passed. *)
Lemma find_match p m s g :
  m ≠ EmptyString → match_here p (m +:+ s) EmptyString = Some (g, s) →
  find_from p 0 (m +:+ s) = (m, g) :: find_from p 0 s.
Proof.
  intros Hne Hm. destruct m as [|c m]; [done|]. rewrite app_String in *. cbn [find_from].
  rewrite Hm. simpl String.length. rewrite slength_app.
  replace (S (String.length m + String.length s) - String.length s) with (S (String.length m)) by lia.
  cbn [pred take_bytes]. by rewrite take_bytes_app, find_skip.
Qed.
End scanning.

(** ** Which names are found *)

Section names.
Context `{UnicodeCase}.
Implicit Types (p : Parser) (content h : string) (st : gset string * list string).

Lemma ToLower_empty h : ToLower h = EmptyString → h = EmptyString.
Proof.
  destruct h as [|c h]; [done|]. rewrite ToLower_Map. unfold Map. intros He. exfalso.
  destruct (DecodeRune_cons c h) as [[r s'] Hd]. rewrite (runes_step _ _ _ Hd) in He.
  rewrite fmap_cons, encode_all_cons in He. revert He. unfold Utf8.EncodeRune.
  by repeat case_match; rewrite app_String.
Qed.

Definition hosts_ok st : Prop := st.1 = list_to_set st.2 ∧ NoDup st.2.

Lemma extract_host_ok p st bt :
  hosts_ok st →
  hosts_ok (extract_host p st bt) ∧
  ∀ h, h ∈ (extract_host p st bt).2 ↔
    h ∈ st.2 ∨ resolveEnvTemplate p bt.2 ≠ EmptyString ∧ ToLower (resolveEnvTemplate p bt.2) = h.
Proof.
  intros [Hs Hnd]. unfold extract_host.
  destruct (bool_decide_reflect (resolveEnvTemplate p bt.2 = EmptyString)) as [He|He].
  { split; [done|]. intros h. naive_solver. }
  destruct (bool_decide_reflect (ToLower (resolveEnvTemplate p bt.2) ∈ st.1)) as [Hin|Hin].
  { split; [done|]. rewrite Hs, elem_of_list_to_set in Hin. naive_solver. }
  rewrite Hs, elem_of_list_to_set in Hin. split.
  - split; simpl; [rewrite list_to_set_app_L, Hs; simpl; set_solver|].
    apply NoDup_app. split_and!; [done| |apply NoDup_singleton].
    by intros x Hx ->%list_elem_of_singleton.
  - intros h. simpl. rewrite elem_of_app, list_elem_of_singleton. naive_solver.
Qed.

Lemma extract_texts_ok p st (bts : list (string * string)) :
  hosts_ok st →
  let st' := foldl (extract_host p) st bts in
  hosts_ok st' ∧
  ∀ h, h ∈ st'.2 ↔ h ∈ st.2 ∨ ∃ t, t ∈ bts.*2 ∧ resolveEnvTemplate p t ≠ EmptyString ∧
    ToLower (resolveEnvTemplate p t) = h.
Proof.
  revert st. induction bts as [|bt bts IH]; intros st Hok; simpl.
  { split; [done|]. set_solver. }
  destruct (extract_host_ok p st bt Hok) as [Hok1 Hin1]. destruct (IH _ Hok1) as [Hok2 Hin2].
  split; [done|]. intros h. rewrite Hin2, Hin1. setoid_rewrite elem_of_cons. naive_solver.
Qed.

Lemma extractHostsFromMatches_texts p matches st :
  extractHostsFromMatches p matches st =
    foldl (extract_host p) st (m ← matches; FindAll backtickPattern m.2).
Proof.
  unfold extractHostsFromMatches. revert st. induction matches as [|m l IH]; intros st; [done|].
  simpl. by rewrite IH, foldl_app.
Qed.

(** Only the variables of the parser matter to the extraction. *)
Lemma resolve_env p p' t : envVars p = envVars p' → resolveEnvTemplate p t = resolveEnvTemplate p' t.
Proof.
  intros He. unfold resolveEnvTemplate. generalize t at 2 4 as res.
  induction (FindAll envPattern t) as [|[v k] l IH]; intros res; simpl; [done|].
  rewrite He. by repeat case_match.
Qed.

Lemma ParseContent_texts p content :
  let texts := m ← FindAll hostPattern (stripComments content)
                    ++ FindAll hostSNIPattern (stripComments content);
               FindAll backtickPattern m.2 in
  (ParseContent p content).2 = (foldl (extract_host p) (∅, []) texts).2.
Proof.
  cbn zeta. unfold ParseContent. set (p' := if bool_decide _ then _ else p).
  cbn [snd]. rewrite !extractHostsFromMatches_texts, <-foldl_app, <-bind_app.
  assert (envVars p' = envVars p) as He by (subst p'; by case_bool_decide).
  generalize (∅ : gset string, @nil string) as st.
  induction (_ ≫= _) as [|bt l IH]; intros st; [done|]. cbn [foldl]. rewrite IH.
  unfold extract_host. by rewrite (resolve_env p' p).
Qed.

(** C14: ParseContent yields, without repetition and in lower case, exactly the
    backquoted texts inside the Host and HostSNI rules of the file without its
    comments, with their environment references replaced; a text with a
    reference that cannot be resolved yields nothing. *)
Theorem ParseContent_spec p content :
  let hs := (ParseContent p content).2 in
  NoDup hs ∧ (∀ h, h ∈ hs → h ≠ EmptyString ∧ ToLower h = h) ∧
  ∀ h, h ∈ hs ↔ ∃ m t,
    (m ∈ FindAll hostPattern (stripComments content) ∨
     m ∈ FindAll hostSNIPattern (stripComments content)) ∧
    t ∈ (FindAll backtickPattern m.2).*2 ∧
    resolveEnvTemplate p t ≠ EmptyString ∧ ToLower (resolveEnvTemplate p t) = h.
Proof.
  cbn zeta. rewrite ParseContent_texts. set (texts := _ ≫= _).
  destruct (extract_texts_ok p (∅, []) texts) as [[_ Hnd] Hin]; [split; [done|constructor]|].
  split_and!; [done| |].
  - intros h [?%elem_of_nil|(t & _ & Hne & <-)]%Hin; [done|]. split; [|apply ToLower_idem].
    by intros He%ToLower_empty.
  - intros h. rewrite Hin. split.
    + intros [?%elem_of_nil|(t & Ht & ?)]; [done|].
      apply list_elem_of_fmap in Ht as (bt & -> & Hbt). subst texts.
      apply list_elem_of_bind in Hbt as (m & Hbt & Hm%elem_of_app).
      exists m, bt.2. split_and!; [done|by apply list_elem_of_fmap_2|naive_solver..].
    + intros (m & t & Hm & Ht & Hrest). right. exists t. split; [|done].
      apply list_elem_of_fmap in Ht as (bt & -> & Hbt). apply list_elem_of_fmap_2.
      apply list_elem_of_bind. exists m. split; [done|]. by apply elem_of_app.
Qed.
End names.

(** ** Rules read back *)

(** A name as a rule quotes it, the arguments of a rule, the rule. *)
Definition tick (h : string) : string := String backtick (h +:+ String backtick EmptyString).
Fixpoint args (hs : list string) : string :=
  match hs with
  | [] => EmptyString
  | [h] => tick h
  | h :: hs => tick h +:+ String "," (String " " (args hs))
  end.
Definition rule (hs : list string) : string := "Host(" +:+ args hs +:+ String rparen EmptyString.

(** A file with rules: each rule after some text, and text at the end. *)
Fixpoint document (rules : list (string * list string)) (post : string) : string :=
  match rules with
  | [] => post
  | (pre, hs) :: rules => pre +:+ rule hs +:+ document rules post
  end.

(** A host name in lower case, and text that holds neither an [H] nor a [#]. *)
Definition name_byte (c : ascii) : bool :=
  let b := N_of_ascii c in
  Utf8.in_range 97 122 b || Utf8.in_range 48 57 b || bool_decide (c = "-"%char)
  || bool_decide (c = "."%char).
Definition host_name (h : string) : Prop := h ≠ EmptyString ∧ all_bytes name_byte h = true.
Definition quiet_byte (c : ascii) : bool := not_byte "H" c && not_byte hash c.
Definition quiet (s : string) : Prop := all_bytes quiet_byte s = true.

Lemma name_byte_iff c :
  name_byte c = true → c ≠ backtick ∧ c ≠ rparen ∧ c ≠ hash ∧ c ≠ "H"%char ∧ c ≠ "{"%char ∧
    is_upper c = false ∧ (N_of_ascii c < Utf8.RuneSelf)%N.
Proof.
  destruct c as [[] [] [] [] [] [] [] []]; vm_compute; intros Hc; (discriminate Hc || done).
Qed.

Section reading.
Implicit Types (h s t pre post : string) (hs : list string).

Lemma name_all (f : ascii → bool) h :
  (∀ c, name_byte c = true → f c = true) → host_name h → all_bytes f h = true.
Proof. intros Hf [_ Hh]. by apply (all_bytes_impl name_byte). Qed.

Lemma not_byte_true b c : c ≠ b → not_byte b c = true.
Proof. intros Hc. unfold not_byte. by rewrite bool_decide_eq_false_2. Qed.

Lemma ToLower_name `{UnicodeCase} h : host_name h → ToLower h = h.
Proof.
  intros Hh. unfold ToLower, is_ascii.
  rewrite (name_all (λ c, (N_of_ascii c <? Utf8.RuneSelf)%N)), (name_all (λ c, negb (is_upper c))); [done|..|done];
    try done; intros c Hc%name_byte_iff; simpl.
  - apply negb_true_iff. apply Hc.
  - apply N.ltb_lt. apply Hc.
Qed.

(** The backquoted names of the arguments of a rule. *)
Lemma find_tick h t :
  host_name h →
  find_from backtickPattern 0 (tick h +:+ t) = (tick h, h) :: find_from backtickPattern 0 t.
Proof.
  intros Hh. apply find_match; [done|]. unfold tick.
  autorewrite with gostrings.
  change backtickPattern with
    (lits (String backtick EmptyString) ++ [Group (not_byte backtick); Lit backtick]).
  rewrite <-(app_empty_l (h +:+ _)), <-app_String, match_lits.
  rewrite match_group; [done|apply Hh| |done|by eexists].
  apply (name_all _ h); [|done]. intros c Hc%name_byte_iff. by apply not_byte_true, Hc.
Qed.

Lemma find_args hs :
  Forall host_name hs → FindAll backtickPattern (args hs) = (λ h, (tick h, h)) <$> hs.
Proof.
  unfold FindAll. induction hs as [|h hs IH]; [done|]. intros [Hh Hhs]%Forall_cons.
  destruct hs as [|h' hs].
  - pose proof (find_tick h EmptyString Hh) as Ht. by rewrite app_empty_r in Ht.
  - change (args (h :: h' :: hs)) with (tick h +:+ String "," (String " " (args (h' :: hs)))).
    rewrite find_tick by done. rewrite fmap_cons, <-IH by done. done.
Qed.

Lemma args_bytes (f : ascii → bool) hs :
  (∀ c, name_byte c = true → f c = true) → f backtick = true → f ","%char = true →
  f " "%char = true → Forall host_name hs → all_bytes f (args hs) = true.
Proof.
  intros Hf Hb Hc Hs. induction hs as [|h hs IH]; [done|]. intros [Hh Hhs]%Forall_cons.
  assert (all_bytes f (tick h) = true) as Ht.
  { unfold tick. simpl. rewrite all_bytes_app. simpl. by rewrite Hb, (name_all f). }
  destruct hs as [|h' hs]; [done|].
  change (args (h :: h' :: hs)) with (tick h +:+ String "," (String " " (args (h' :: hs)))).
  rewrite all_bytes_app, Ht. simpl. rewrite Hc, Hs. by apply IH.
Qed.

Lemma match_rule hs t :
  hs ≠ [] → Forall host_name hs →
  match_here hostPattern (rule hs +:+ t) EmptyString = Some (args hs, t).
Proof.
  intros Hne Hhs. unfold rule, hostPattern. rewrite sapp_assoc, match_lits, sapp_assoc, app_String,
    app_empty_l. rewrite match_group; [done| | |done|by eexists].
  - destruct hs as [|h [|]]; done.
  - apply args_bytes; try done. intros c Hc%name_byte_iff. by apply not_byte_true, Hc.
Qed.

Lemma rule_not_empty hs : rule hs ≠ EmptyString.
Proof. done. Qed.

Definition rules_ok (rules : list (string * list string)) : Prop :=
  Forall (λ r, quiet r.1 ∧ r.2 ≠ [] ∧ Forall host_name r.2) rules.

Lemma quiet_no_H s : quiet s → all_bytes (not_byte "H") s = true.
Proof. apply all_bytes_impl. intros c. unfold quiet_byte. by intros [? _]%andb_true_iff. Qed.

Lemma find_rules rules post :
  rules_ok rules → quiet post →
  FindAll hostPattern (document rules post) = (λ r, (rule r.2, args r.2)) <$> rules.
Proof.
  unfold FindAll. intros Hr Hpost. change hostPattern with
    (Lit "H" :: lits "ost(" ++ [Group (not_byte rparen); Lit rparen]).
  induction rules as [|[pre hs] rules IH]; [by apply find_none, quiet_no_H|].
  apply Forall_cons in Hr as [(Hq & Hne & Hhs) Hr]. cbn [document].
  rewrite find_pass by (by apply quiet_no_H).
  rewrite (find_match _ (rule hs) _ (args hs)); [by rewrite IH|done|by apply match_rule].
Qed.

(** The other two patterns do not match a Host rule. *)
Lemma find_other (p : pattern) rules post :
  (∀ s, match_here (Lit "H" :: p) ("Host(" +:+ s) EmptyString = None) →
  rules_ok rules → quiet post → FindAll (Lit "H" :: p) (document rules post) = [].
Proof.
  unfold FindAll. intros Hp Hr Hpost.
  induction rules as [|[pre hs] rules IH]; [by apply find_none, quiet_no_H|].
  apply Forall_cons in Hr as [(Hq & Hne & Hhs) Hr]. cbn [document].
  rewrite find_pass by (by apply quiet_no_H). unfold rule. rewrite !sapp_assoc.
  specialize (Hp (args hs +:+ String rparen EmptyString +:+ document rules post)).
  change ("Host(" +:+ ?x) with (String "H" ("ost(" +:+ x)) in Hp |- *.
  cbn [find_from]. rewrite Hp.
  change (find_from (Lit "H" :: p) 0
    ("ost(" +:+ (args hs +:+ (String rparen EmptyString +:+ document rules post))) = []).
  rewrite <-(sapp_assoc (args hs)), <-sapp_assoc, find_pass; [by apply IH|].
  rewrite !all_bytes_app, args_bytes; [done| |done..].
  intros c Hc%name_byte_iff. by apply not_byte_true, Hc.
Qed.

(** Text without a [#] has no comments. *)
Lemma strip_line_id b s : all_bytes (not_byte hash) s = true → strip_line b s = s.
Proof.
  revert b. induction s as [|c s IH]; intros b; [done|]. simpl. intros [Hc Hs]%andb_true_iff.
  unfold not_byte in Hc. apply negb_true_iff in Hc. rewrite Hc. simpl.
  destruct (bool_decide (c = backtick)); rewrite IH; done.
Qed.

Lemma all_bytes_Split (f : ascii → bool) s sep :
  all_bytes f s = true → Forall (λ w, all_bytes f w = true) (Split s sep).
Proof.
  induction s as [|c s IH]; [by repeat constructor|]. simpl. intros [Hc Hs]%andb_true_iff.
  specialize (IH Hs). case_bool_decide; [by constructor|].
  destruct (Split s sep) as [|w ws]; [by repeat constructor; simpl; rewrite ?Hc|].
  apply Forall_cons in IH as [Hw Hws]. constructor; [|done]. simpl. by rewrite Hc, Hw.
Qed.

Lemma stripComments_id s : all_bytes (not_byte hash) s = true → stripComments s = s.
Proof.
  intros Hs. unfold stripComments. rewrite <-(Join_Split s newline) at 2. f_equal.
  apply (all_bytes_Split _ _ newline) in Hs. induction Hs as [|w ws Hw _ IH]; [done|].
  rewrite fmap_cons, IH. by rewrite strip_line_id.
Qed.

Lemma document_no_hash rules post :
  rules_ok rules → quiet post → all_bytes (not_byte hash) (document rules post) = true.
Proof.
  assert (∀ s, quiet s → all_bytes (not_byte hash) s = true) as Hquiet.
  { intros s. apply all_bytes_impl. intros c. unfold quiet_byte. by intros [_ ?]%andb_true_iff. }
  intros Hr Hpost. induction rules as [|[pre hs] rules IH]; [by apply Hquiet|].
  apply Forall_cons in Hr as [(Hq & Hne & Hhs) Hr]. cbn [document]. unfold rule.
  rewrite !all_bytes_app, Hquiet, args_bytes by
    (done || intros c Hc%name_byte_iff; by apply not_byte_true, Hc). by apply IH.
Qed.

Lemma resolve_name p h : host_name h → resolveEnvTemplate p h = h.
Proof.
  intros Hh. unfold resolveEnvTemplate, FindAll. change envPattern with
    (Lit "{" :: lits "{env" ++ [Plus blank; Lit dquote; Group (not_byte dquote); Lit dquote]
                ++ lits "}}").
  rewrite find_none; [done|]. apply (name_all _ h); [|done].
  intros c Hc%name_byte_iff. by apply not_byte_true, Hc.
Qed.
End reading.

(** Fresh lower-case names are collected in order. *)
Lemma extract_fresh `{UnicodeCase} (p : Parser) (l d : list string) :
  Forall host_name l → NoDup (d ++ l) →
  (foldl (extract_host p) (list_to_set d, d) ((λ h, (tick h, h)) <$> l)).2 = d ++ l.
Proof.
  revert d. induction l as [|h l IH]; intros d Hl Hd; [by rewrite app_nil_r|].
  apply Forall_cons in Hl as [Hh Hl]. rewrite fmap_cons. cbn [foldl].
  assert (h ∉ d) as Hnot.
  { intros Hin. apply NoDup_app in Hd as (_ & Hdis & _). apply (Hdis h Hin). by left. }
  unfold extract_host at 2. cbn [fst snd]. rewrite resolve_name, ToLower_name by done.
  rewrite bool_decide_eq_false_2 by apply Hh.
  rewrite bool_decide_eq_false_2 by (by rewrite elem_of_list_to_set).
  replace (d ++ h :: l) with ((d ++ [h]) ++ l) in * by (by rewrite <-app_assoc).
  rewrite <-(IH (d ++ [h])) by done. do 3 f_equal.
  rewrite list_to_set_app_L. simpl. set_solver.
Qed.

(** C15: A file whose rules name lower-case host names is read back exactly: the
    parser yields the names of its Host rules in the order of the file, whatever
    text without an [H] or a comment stands around them (a negated rule counts
    like any other), when no name is repeated. *)
Theorem rules_read_back `{UnicodeCase} (p : Parser) rules post :
  rules_ok rules → quiet post → NoDup (rules ≫= snd) →
  ParseContent p (document rules post) = (p, rules ≫= snd).
Proof.
  intros Hr Hpost Hnd. apply injective_projections.
  { unfold ParseContent. rewrite stripComments_id by (by apply document_no_hash).
    change hostRegexpPattern with (Lit "H" :: lits "ostRegexp(").
    by rewrite find_other by done. }
  cbn [snd]. rewrite ParseContent_texts, stripComments_id by (by apply document_no_hash).
  rewrite find_rules by done.
  change hostSNIPattern with (Lit "H" :: lits "ostSNI(" ++ [Group (not_byte rparen); Lit rparen]).
  rewrite find_other, app_nil_r by done.
  assert (((λ r : string * list string, (rule r.2, args r.2)) <$> rules) ≫=
      (λ m, FindAll backtickPattern m.2) = (λ h, (tick h, h)) <$> (rules ≫= snd)) as ->.
  { clear Hnd. induction Hr as [|[pre hs] rules (_ & _ & Hhs) _ IH]; [done|].
    rewrite fmap_cons, !bind_cons, fmap_app, IH. simpl. by rewrite find_args. }
  assert (Forall host_name (rules ≫= snd)) as Hn.
  { clear Hnd. induction Hr as [|[pre hs] rules (_ & _ & Hhs) _ IH]; [done|].
    rewrite bind_cons. by apply Forall_app. }
  rewrite (extract_fresh p _ []); done.
Qed.

(** ** Comments *)

(** Whether a scan that starts with [b] ends inside backquotes. *)
Fixpoint open_after (b : bool) (s : string) : bool :=
  match s with
  | EmptyString => b
  | String c s => open_after (if bool_decide (c = backtick) then negb b else b) s
  end.

Lemma strip_comment b c t :
  strip_line b c = c → open_after b c = false → strip_line b (c +:+ String hash t) = c.
Proof.
  revert b. induction c as [|x c IH]; intros b; [intros _ Ho; cbn in Ho; by subst b|].
  rewrite app_String. cbn [strip_line open_after].
  destruct (bool_decide (x = backtick)).
  { intros [= Hs] Ho. by rewrite IH. }
  destruct (bool_decide (x = hash) && negb b); [done|]. intros [= Hs] Ho. by rewrite IH.
Qed.

Lemma Split_app s t sep : Split (s +:+ String sep t) sep = Split s sep ++ Split t sep.
Proof.
  induction s as [|c s IH]; [rewrite app_empty_l; simpl; by rewrite bool_decide_eq_true_2|].
  rewrite app_String. cbn [Split]. rewrite IH. destruct (Split_cons s sep) as (w & ws & ->).
  by case_bool_decide.
Qed.

Lemma Split_one s sep : has_byte sep s = false → Split s sep = [s].
Proof.
  induction s as [|c s IH]; [done|]. rewrite has_byte_cons. intros [Hc Hs]%orb_false_iff.
  cbn [Split]. by rewrite Hc, IH.
Qed.

Lemma strip_middle pre line post :
  has_byte newline line = false →
  stripComments (pre +:+ String newline (line +:+ String newline post)) =
    Join ((strip_line false <$> Split pre newline) ++ strip_line false line ::
          (strip_line false <$> Split post newline)) newline.
Proof.
  intros Hl. unfold stripComments. rewrite !Split_app, (Split_one line) by done.
  by rewrite fmap_app.
Qed.

Lemma has_byte_snoc b s t : has_byte b (s +:+ t) = has_byte b s || has_byte b t.
Proof.
  induction s as [|c s IH]; [done|]. rewrite app_String, !has_byte_cons, IH. by rewrite orb_assoc.
Qed.

(** What a comment says does not count: cutting a line at a [#] outside
    backquotes, whatever follows it on the line (rules included), leaves what
    ParseContent finds in the file as it was. *)
Theorem comments_ignored `{UnicodeCase} (p : Parser) pre code comment post :
  has_byte newline code = false → has_byte newline comment = false →
  strip_line false code = code → open_after false code = false →
  ParseContent p (pre +:+ String newline ((code +:+ String hash comment) +:+ String newline post)) =
  ParseContent p (pre +:+ String newline (code +:+ String newline post)).
Proof.
  intros Hc Ht Hs Ho. unfold ParseContent.
  rewrite !strip_middle by (rewrite ?has_byte_snoc, ?has_byte_cons, ?Hc, ?Ht; done).
  by rewrite strip_comment, Hs.
Qed.

(** ** Environment templates *)

Lemma Replace1_first c old pre new post :
  all_bytes (not_byte c) pre = true →
  Replace1 (pre +:+ (String c old +:+ post)) (String c old) new = pre +:+ (new +:+ post).
Proof.
  intros Hp. induction pre as [|b pre IH].
  - rewrite !app_empty_l. rewrite app_String. cbn [Replace1].
    assert (∀ s t, String.prefix s (s +:+ t) = true) as Hpre.
    { induction s as [|x s IHs]; intros t; [by destruct t|]. rewrite app_String. simpl.
      destruct (ascii_dec x x); [apply IHs|done]. }
    rewrite <-app_String, Hpre. f_equal.
    assert (∀ s t, drop_bytes (String.length s) (s +:+ t) = t) as Hd; [|apply Hd].
    induction s as [|x s IHs]; intros t; [done|]. rewrite app_String. apply IHs.
  - cbn [all_bytes] in Hp. apply andb_true_iff in Hp as [Hb Hp].
    rewrite !(app_String b pre). cbn [Replace1 String.prefix]. unfold not_byte in Hb.
    apply negb_true_iff, bool_decide_eq_false in Hb.
    destruct (ascii_dec c b); [congruence|]. rewrite IH by done. done.
Qed.

(** A reference as the pattern expects it. *)
Definition reference (blanks var : string) : string :=
  "{{env" +:+ (blanks +:+ String dquote (var +:+ String dquote "}}")).

Lemma match_reference blanks var post :
  blanks ≠ EmptyString → all_bytes blank blanks = true →
  var ≠ EmptyString → all_bytes (not_byte dquote) var = true →
  match_here envPattern (reference blanks var +:+ post) EmptyString = Some (var, post).
Proof.
  intros Hb1 Hb2 Hv1 Hv2. unfold envPattern, reference.
  rewrite sapp_assoc, match_lits, sapp_assoc, app_String, sapp_assoc, app_String.
  change ([Plus blank; ?a; ?b; ?c] ++ ?p) with (Plus blank :: a :: b :: c :: p).
  cbn [match_here]. apply plus_run; [done|done|done|].
  rewrite bool_decide_eq_true_2 by done.
  change (match_here (Group (not_byte dquote) :: Lit dquote :: lits "}}")
    (var +:+ String dquote ("}}" +:+ post)) EmptyString = Some (var, post)).
  by rewrite match_group.
Qed.

(** A template with one environment reference resolves to the text with the
    variable's value in its place when the variable is set and not empty, and to
    nothing otherwise, so that the host is left out. *)
Theorem resolve_reference (p : Parser) pre blanks var post :
  all_bytes (not_byte "{") pre = true → all_bytes (not_byte "{") post = true →
  blanks ≠ EmptyString → all_bytes blank blanks = true →
  var ≠ EmptyString → all_bytes (not_byte dquote) var = true →
  resolveEnvTemplate p (pre +:+ (reference blanks var +:+ post)) =
    match GetEnvVar p var with
    | Some value => if decide (value = EmptyString) then EmptyString else pre +:+ (value +:+ post)
    | None => EmptyString
    end.
Proof.
  intros Hpre Hpost Hb1 Hb2 Hv1 Hv2. unfold resolveEnvTemplate, FindAll.
  assert (find_from envPattern 0 (pre +:+ (reference blanks var +:+ post)) =
    [(reference blanks var, var)]) as ->.
  { change envPattern with (Lit "{" :: lits "{env" ++
      [Plus blank; Lit dquote; Group (not_byte dquote); Lit dquote] ++ lits "}}").
    rewrite find_pass by done. rewrite (find_match _ _ _ var); [by rewrite find_none|done|].
    by apply match_reference. }
  cbn [resolve_matches]. unfold GetEnvVar. destruct (envVars p !! var) as [v|]; [|done].
  destruct (decide (v = EmptyString)); [by rewrite bool_decide_eq_true_2|].
  rewrite bool_decide_eq_false_2 by done. by apply (Replace1_first "{").
Qed.

(** ** The theorems at concrete inputs *)

Module ParserExamples.
#[local] Existing Instance latin1_case.

Definition doc : list (string * list string) :=
  [("rule: ", ["a.lan"; "b.lan"]); ("!", ["c.lan"])].

Lemma rules_read_back_witness :
  ParseContent demo_env (document doc " && PathPrefix") = (demo_env, ["a.lan"; "b.lan"; "c.lan"]).
Proof.
  apply (rules_read_back demo_env doc " && PathPrefix").
  - repeat constructor; done.
  - done.
  - apply (bool_decide_unpack _). by vm_compute.
Defined.

Lemma comments_ignored_witness :
  ParseContent demo_env ("x: 1" +:+ String newline (("rule: Host(`a.lan`)" +:+
    String hash " was Host(`b.lan`)") +:+ String newline "y: 2")) =
  ParseContent demo_env ("x: 1" +:+ String newline ("rule: Host(`a.lan`)" +:+
    String newline "y: 2")).
Proof.
  apply (comments_ignored demo_env "x: 1" "rule: Host(`a.lan`)" " was Host(`b.lan`)" "y: 2"); done.
Defined.

Lemma resolve_reference_witness :
  resolveEnvTemplate demo_env ("www." +:+ (reference " " "DOMAIN" +:+ "")) = "www.Example.com" ∧
  resolveEnvTemplate demo_env ("www." +:+ (reference " " "EMPTY" +:+ "")) = "".
Proof.
  split.
  - rewrite (resolve_reference demo_env "www." " " "DOMAIN" ""); done.
  - by vm_compute.
Defined.
End ParserExamples.
