(* ===== verification/FileWatcher.v ===== *)
(** * FileWatcher: keeping the store in step with a directory of rules
    (traefik-externals/file_watcher.go, metrics.go)

    A reload reads every regular YAML file of the directory and replaces the
    store; file system events only arm a timer, so that a burst of changes leads
    to one reload.  The directory and its files are inputs, as is the time of
    each event. *)

From stdpp Require Import gmap strings list fin_maps.
From Stdlib Require Import ZArith NArith Lia Ascii.
From S2P Require Import Prelude GoStrings TraefikRecords Parser ParserSpec.

(** The counters of metrics.go. *)
Record Metrics := mkMetrics {
  recordsTotal : nat;
  reloadsTotal : nat;
  parseErrorsTotal : nat;
  queriesTotal : gmap (string * string) nat;
}.
Definition NewMetrics : Metrics := mkMetrics 0 0 0 ∅.

(** ** Package filepath *)

Definition slash : ascii := "/"%char.

(** [filepath.Ext]: from the last dot of the last element, [cur] being the best
    candidate so far. *)
Fixpoint Ext_from (cur s : string) : string :=
  match s with
  | EmptyString => cur
  | String c rest =>
      if bool_decide (c = "."%char) then Ext_from s rest
      else if bool_decide (c = slash) then Ext_from EmptyString rest
      else Ext_from cur rest
  end.
Definition Ext (path : string) : string := Ext_from EmptyString path.

(** [filepath.Base]: the last element, without trailing slashes. *)
Fixpoint trim_slashes (s : string) : string :=
  match s with
  | EmptyString => EmptyString
  | String c rest =>
      if all_bytes (λ b, bool_decide (b = slash)) s then EmptyString
      else String c (trim_slashes rest)
  end.
Fixpoint last_element (cur s : string) : string :=
  match s with
  | EmptyString => cur
  | String c rest =>
      if bool_decide (c = slash) then last_element rest rest else last_element cur rest
  end.
Definition Base (path : string) : string :=
  if bool_decide (path = EmptyString) then "."
  else
    let path := trim_slashes path in
    let path := last_element path path in
    if bool_decide (path = EmptyString) then "/" else path.

Example ext_yml : Ext "/etc/traefik.d/app.yml" = ".yml".
Proof. reflexivity. Qed.
Example ext_none : Ext "/etc/traefik.d/app" = "".
Proof. reflexivity. Qed.
Example base_yml : Base "/etc/traefik.d/app.yml" = "app.yml".
Proof. reflexivity. Qed.
Example base_root : Base "///" = "/".
Proof. reflexivity. Qed.

(** ** The watcher *)

Section watcher.
Context `{UnicodeCase} {E : Type}.

(** [fw_watcher]: the fsnotify watcher is open; [fw_pending]: when the debounce
    timer will fire; [fw_wg]: running goroutines. *)
Record FileWatcher := mkFileWatcher {
  fw_directory : string;
  fw_hostIP : string;
  fw_parser : Parser;
  fw_watcher : bool;
  fw_running : bool;
  fw_ctx_done : bool;
  fw_wg : nat;
  fw_pending : option Z;
}.

(** [NewFileWatcher]; [environ] is what os.Environ returns. *)
Definition NewFileWatcher (environ : list string) (directory hostIP : string) : FileWatcher :=
  mkFileWatcher directory hostIP (NewParser environ) false false false 0 None.

Definition set_parser (p : Parser) (fw : FileWatcher) : FileWatcher :=
  mkFileWatcher (fw_directory fw) (fw_hostIP fw) p (fw_watcher fw) (fw_running fw)
    (fw_ctx_done fw) (fw_wg fw) (fw_pending fw).
Definition set_pending (d : option Z) (fw : FileWatcher) : FileWatcher :=
  mkFileWatcher (fw_directory fw) (fw_hostIP fw) (fw_parser fw) (fw_watcher fw) (fw_running fw)
    (fw_ctx_done fw) (fw_wg fw) d.

(** One entry of os.ReadDir: its name, whether it is a directory, what Info says
    of its being a regular file, and what reading it yields. *)
Record DirEntry := mkDirEntry {
  de_Name : string;
  de_IsDir : bool;
  de_IsRegular : result E bool;
  de_File : result E string;
}.

(** The guards of the loop of loadAllConfigs. *)
Definition is_yaml (name : string) : bool :=
  bool_decide (Ext name = ".yml") || bool_decide (Ext name = ".yaml").
Definition considered (e : DirEntry) : bool :=
  if de_IsDir e then false
  else match de_IsRegular e with
       | Err _ => false
       | Ok regular => regular && is_yaml (de_Name e) && negb (IsMiddlewareOnly (de_Name e))
       end.

(** One turn of that loop, on the parser, the hosts and the parse errors. *)
Definition load_entry (hostIP : string) (st : Parser * gmap string string * nat) (e : DirEntry)
    : Parser * gmap string string * nat :=
  let '(p, allHosts, errors) := st in
  if negb (considered e) then st
  else match ParseFile p (de_File e) with
       | Err _ => (p, allHosts, S errors)
       | Ok (p, hosts) => (p, foldl (λ m host, <[host := hostIP]> m) allHosts hosts, errors)
       end.

Definition shared : Type := Records * Metrics.

(** [func (fw *FileWatcher) loadAllConfigs() error]; [rng] is the order of the
    loop of ReplaceAll. *)
Definition loadAllConfigs (rng : gmap string string → list (string * string))
    (dir : result E (list DirEntry)) (s : FileWatcher * shared) : option E * (FileWatcher * shared) :=
  let '(fw, (r, m)) := s in
  match dir with
  | Err err => (Some err, s)
  | Ok entries =>
      let '(p, allHosts, errors) := foldl (load_entry (fw_hostIP fw)) (fw_parser fw, ∅, 0) entries in
      (None,
       (set_parser p fw,
        (ReplaceAll rng r allHosts,
         mkMetrics (size allHosts) (S (reloadsTotal m)) (parseErrorsTotal m + errors)
           (queriesTotal m))))
  end.

(** [func (fw *FileWatcher) Start(ctx context.Context) error]: creating the
    fsnotify watcher and adding the directory can fail; a failing first load is
    only logged. *)
Definition FileWatcher_Start (rng : gmap string string → list (string * string))
    (create add : option E) (dir : result E (list DirEntry)) (s : FileWatcher * shared)
    : option E * (FileWatcher * shared) :=
  let '(fw, sh) := s in
  if fw_running fw then (None, s)
  else match create, add with
       | Some err, _ => (Some err, s)
       | None, Some err => (Some err, s)
       | None, None =>
           let fw := mkFileWatcher (fw_directory fw) (fw_hostIP fw) (fw_parser fw) true true false
                       (fw_wg fw) (fw_pending fw) in
           let '(_, (fw, sh)) := loadAllConfigs rng dir (fw, sh) in
           (None, (mkFileWatcher (fw_directory fw) (fw_hostIP fw) (fw_parser fw) true true false
                     (S (fw_wg fw)) (fw_pending fw), sh))
       end.

(** [func (fw *FileWatcher) Stop()], up to its wait for watchLoop. *)
Definition FileWatcher_Stop (fw : FileWatcher) : FileWatcher :=
  if negb (fw_running fw) then fw
  else mkFileWatcher (fw_directory fw) (fw_hostIP fw) (fw_parser fw) false false true (fw_wg fw) None.

(** [500*time.Millisecond]. *)
Definition debounce : Z := 500 * 1000000.

Definition relevant (name : string) : bool :=
  is_yaml name && negb (IsMiddlewareOnly (Base name)).

(** [func (fw *FileWatcher) handleEvent(event fsnotify.Event)], at time [now]:
    the timer is set anew. *)
Definition FileWatcher_handleEvent (now : Z) (name : string) (fw : FileWatcher) : FileWatcher :=
  if relevant name then set_pending (Some (now + debounce)%Z) fw else fw.

(** What the select of watchLoop receives. *)
Inductive fs_firing := FsCtxDone | FsClosed | FsEvent (name : string) | FsError (e : E).

(** The timer's function, if it is due by [now]: [dir] is the directory over
    time. *)
Definition advance (rng : gmap string string → list (string * string))
    (dir : Z → result E (list DirEntry)) (now : Z) (s : FileWatcher * shared) : FileWatcher * shared :=
  match fw_pending s.1 with
  | Some due =>
      if bool_decide (due ≤ now)%Z
      then (loadAllConfigs rng (dir due) (set_pending None s.1, s.2)).2 else s
  | None => s
  end.

(** [watchLoop] over what it receives and when, with the timer firing in
    between. *)
Fixpoint FileWatcher_watchLoop (rng : gmap string string → list (string * string))
    (dir : Z → result E (list DirEntry)) (firings : list (Z * fs_firing)) (s : FileWatcher * shared)
    : FileWatcher * shared :=
  match firings with
  | [] => s
  | (now, f) :: firings =>
      let s := advance rng dir now s in
      match f with
      | FsCtxDone | FsClosed =>
          (mkFileWatcher (fw_directory s.1) (fw_hostIP s.1) (fw_parser s.1) (fw_watcher s.1)
             (fw_running s.1) (fw_ctx_done s.1) (pred (fw_wg s.1)) (fw_pending s.1), s.2)
      | FsEvent name =>
          FileWatcher_watchLoop rng dir firings (FileWatcher_handleEvent now name s.1, s.2)
      | FsError _ => FileWatcher_watchLoop rng dir firings s
      end
  end.

(** [func (fw *FileWatcher) GetDirectory() string]. *)
Definition GetDirectory (fw : FileWatcher) : string := fw_directory fw.
End watcher.

(** ** What a reload serves *)

Section reload.
Context `{UnicodeCase} {E : Type}.
Implicit Types (p : Parser) (e : DirEntry (E := E)) (entries : list (DirEntry (E := E))).

Lemma ParseContent_env p p' content :
  envVars p = envVars p' →
  (ParseContent p content).2 = (ParseContent p' content).2 ∧
  envVars (ParseContent p content).1 = envVars p.
Proof.
  intros He. split; [|unfold ParseContent; by case_bool_decide].
  rewrite !ParseContent_texts. cbn zeta. generalize (∅ : gset string, @nil string) as st.
  induction (_ ≫= _) as [|bt l IH]; intros st; [done|]. cbn [foldl]. rewrite IH.
  unfold extract_host. by rewrite (resolve_env p p').
Qed.

(** The hosts a parser finds in an entry. *)
Definition entry_hosts p e : list string :=
  match ParseFile p (de_File e) with Ok (_, hosts) => hosts | Err _ => [] end.
Definition entry_fails p e : bool :=
  match ParseFile p (de_File e) with Ok _ => false | Err _ => true end.

Lemma ParseFile_env p p' e :
  envVars p = envVars p' →
  match ParseFile p (de_File e) with
  | Ok (p1, hosts) =>
      envVars p1 = envVars p ∧ entry_hosts p' e = hosts ∧ entry_fails p' e = false
  | Err _ => entry_hosts p' e = [] ∧ entry_fails p' e = true
  end.
Proof.
  intros He. unfold entry_hosts, entry_fails, ParseFile. destruct (de_File e) as [bytes|]; [|done].
  cbn zeta. case_bool_decide; [done|].
  destruct (ParseContent_env p p' (limit_read (maxFileSize + 1) bytes) He) as [Hh Hp].
  destruct (ParseContent p _) as [p1 hosts], (ParseContent p' _) as [p1' hosts'].
  simpl in *. by subst.
Qed.

Lemma insert_hosts (ip : string) (m : gmap string string) (hosts : list string) k v :
  foldl (λ m host, <[host := ip]> m) m hosts !! k = Some v ↔
    k ∈ hosts ∧ v = ip ∨ k ∉ hosts ∧ m !! k = Some v.
Proof.
  induction hosts as [|h hosts IH] using rev_ind.
  { simpl. set_solver. }
  rewrite foldl_app. simpl. rewrite lookup_insert_Some, IH, elem_of_app, list_elem_of_singleton.
  destruct (decide (h = k)), (decide (k ∈ hosts)); intuition congruence.
Qed.

(** The loop of loadAllConfigs from any state. *)
Lemma load_entries p0 ip entries p m errors :
  envVars p = envVars p0 →
  let '(p', m', errors') := foldl (load_entry ip) (p, m, errors) entries in
  let served := filter (λ e, considered e = true) entries in
  envVars p' = envVars p0 ∧
  errors' = errors + length (filter (λ e, entry_fails p0 e = true) served) ∧
  ∀ k v, m' !! k = Some v ↔
    k ∈ (served ≫= entry_hosts p0) ∧ v = ip ∨ k ∉ (served ≫= entry_hosts p0) ∧ m !! k = Some v.
Proof.
  revert p m errors. induction entries as [|e entries IH]; intros p m errors He.
  { simpl. split_and!; [done|lia|set_solver]. }
  cbn [foldl]. cbv zeta. rewrite filter_cons. unfold load_entry at 2.
  destruct (considered e) eqn:Hc; simpl negb.
  2:{ rewrite decide_False by done. by apply IH. }
  rewrite decide_True by done. pose proof (ParseFile_env p p0 e He) as Hf.
  destruct (ParseFile p (de_File e)) as [[p1 hosts]|err].
  - destruct Hf as (He1 & Hhosts & Hfail).
    specialize (IH p1 (foldl (λ m host, <[host := ip]> m) m hosts) errors ltac:(congruence)).
    destruct (foldl _ _ entries) as [[p' m'] errors']. destruct IH as (? & -> & Hm).
    rewrite filter_cons_False by (by rewrite Hfail). split_and!; [done|done|].
    intros k v. rewrite Hm, insert_hosts, bind_cons, elem_of_app, Hhosts.
    match goal with |- context [k ∈ ?l ∧ _ ∨ _] => destruct (decide (k ∈ l)) end;
      destruct (decide (k ∈ hosts)); tauto.
  - destruct Hf as [Hhosts Hfail]. specialize (IH p m (S errors) He).
    destruct (foldl _ _ entries) as [[p' m'] errors']. destruct IH as (? & -> & Hm).
    rewrite filter_cons_True by done. simpl length.
    split_and!; [done|lia|]. intros k v. by rewrite Hm, bind_cons, Hhosts.
Qed.

(** The names found are in lower case, so replacing the store keeps them. *)
Lemma entry_hosts_lower p e h : h ∈ entry_hosts p e → ToLower h = h.
Proof.
  unfold entry_hosts, ParseFile. destruct (de_File e) as [bytes|]; [|by intros ?%elem_of_nil].
  cbn zeta. case_bool_decide; [by intros ?%elem_of_nil|].
  destruct (ParseContent p _) as [p' hosts] eqn:Hp. intros Hh.
  assert (h ∈ (ParseContent p (limit_read (maxFileSize + 1) bytes)).2) as Hin
    by (by rewrite Hp).
  rewrite ParseContent_texts in Hin.
  apply (extract_texts_ok p (∅, [])) in Hin as [?%elem_of_nil|(t & _ & _ & <-)];
    [done|apply ToLower_idem|split; [done|constructor]].
Qed.

(** C13: A reload that can read the directory makes a name resolve, to the host IP,
    exactly when a considered file of it (regular, YAML, not a middleware file)
    could be parsed and holds a rule for the name: names whose file is gone or no
    longer parses are dropped, whatever was served before.  The record gauge is
    then the size of the store, and each file that failed counts as one parse
    error.  When the directory cannot be read, nothing changes. *)
Theorem reload_spec rng fw r m entries err :
  range_order rng →
  let '(res, (fw', (r', m'))) := loadAllConfigs rng (Ok entries) (fw, (r, m)) in
  res = None ∧
  (∀ h ip, Lookup r' h = Some ip ↔ ip = fw_hostIP fw ∧
     ∃ e, e ∈ entries ∧ considered e = true ∧ ToLower h ∈ entry_hosts (fw_parser fw) e) ∧
  recordsTotal m' = Count r' ∧ reloadsTotal m' = S (reloadsTotal m) ∧
  parseErrorsTotal m' = parseErrorsTotal m +
    length (filter (λ e, considered e = true ∧ entry_fails (fw_parser fw) e = true) entries) ∧
  loadAllConfigs rng (Err (E := E) err) (fw, (r, m)) = (Some err, (fw, (r, m))).
Proof.
  intros Hr. unfold loadAllConfigs.
  pose proof (load_entries (fw_parser fw) (fw_hostIP fw) entries (fw_parser fw) ∅ 0 eq_refl) as Hl.
  destruct (foldl _ _ entries) as [[p' hosts] errors]. destruct Hl as (_ & -> & Hm).
  assert (∀ k v, hosts !! k = Some v ↔ v = fw_hostIP fw ∧
    ∃ e, e ∈ entries ∧ considered e = true ∧ k ∈ entry_hosts (fw_parser fw) e) as Hhosts.
  { intros k v. rewrite Hm, lookup_empty, list_elem_of_bind.
    setoid_rewrite list_elem_of_filter. split.
    - intros [[(e & ? & ? & ?) ->]|[_ ?]]; [|done]. split; [done|]. by exists e.
    - intros (-> & e & ? & ? & ?). left. split; [|done]. by exists e. }
  assert (∀ h ip, Lookup (ReplaceAll rng r hosts) h = Some ip ↔ hosts !! ToLower h = Some ip) as HL.
  { intros h ip. rewrite (ReplaceAll_uniform rng r hosts (fw_hostIP fw)); [|done|].
    - rewrite Hhosts. split; intros [-> Hx]; (split; [done|]).
      + destruct Hx as (h' & [v' (-> & e & ? & ? & Hin)%Hhosts] & <-).
        exists e. by rewrite (entry_hosts_lower _ _ _ Hin).
      + exists (ToLower h). split; [|apply ToLower_idem]. exists (fw_hostIP fw). by apply Hhosts.
    - intros k v Hk. by apply Hhosts in Hk as [-> _]. }
  split_and!; [done| | |done| |done].
  - intros h ip. by rewrite HL, Hhosts.
  - cbn [recordsTotal]. unfold Count. f_equal. apply map_eq. intros k.
    apply option_eq. intros v. cbn [data ReplaceAll]. split.
    + intros Hk. assert (ToLower k = k) as Hlow.
      { apply Hhosts in Hk as (_ & e & _ & _ & Hin). by apply entry_hosts_lower in Hin. }
      pose proof (HL k v) as HLk. unfold Lookup in HLk. rewrite Hlow in HLk. by apply HLk.
    + intros Hk. pose proof (ReplaceAll_normal rng r hosts k v Hk) as Hlow.
      pose proof (HL k v) as HLk. unfold Lookup in HLk. rewrite Hlow in HLk. by apply HLk.
  - cbn [parseErrorsTotal]. rewrite list_filter_filter, Nat.add_0_l.
    do 2 f_equal. apply list_filter_iff. tauto.
Qed.
End reload.

(** ** Bursts of changes *)

Section bursts.
Context `{UnicodeCase} {E : Type}.
Implicit Types (fw : FileWatcher) (sh : shared).

(** What can follow an event that armed the timer at [t], each thing before the
    timer fires; [last] is when the timer was last set. *)
Inductive burst : Z → list (Z * fs_firing (E := E)) → Z → Prop :=
| burst_end t : burst t [] t
| burst_event t t' name firings last :
    (t' < t + debounce)%Z → relevant name = true → burst t' firings last →
    burst t ((t', FsEvent name) :: firings) last
| burst_other t t' name firings last :
    (t' < t + debounce)%Z → relevant name = false → burst t firings last →
    burst t ((t', FsEvent name) :: firings) last
| burst_error t t' e firings last :
    (t' < t + debounce)%Z → burst t firings last →
    burst t ((t', FsError e) :: firings) last.

Lemma burst_run rng dir t firings last fw sh :
  burst t firings last → fw_pending fw = Some (t + debounce)%Z →
  FileWatcher_watchLoop rng dir firings (fw, sh) = (set_pending (Some (last + debounce)%Z) fw, sh).
Proof.
  assert (∀ fw t t' sh, fw_pending fw = Some (t + debounce)%Z → (t' < t + debounce)%Z →
    advance rng dir t' (fw, sh) = (fw, sh)) as Hadv.
  { intros fw' t0 t1 sh' Hp Hlt. unfold advance. cbn [fst]. rewrite Hp.
    by rewrite bool_decide_eq_false_2 by lia. }
  intros Hb. revert fw sh.
  induction Hb as [t|t t' name firings last Hlt Hrel _ IH|t t' name firings last Hlt Hrel _ IH
    |t t' e firings last Hlt _ IH]; intros fw sh Hp; cbn [FileWatcher_watchLoop].
  - destruct fw. simpl in *. by subst.
  - rewrite (Hadv fw t) by done. cbn [fst snd]. unfold FileWatcher_handleEvent. rewrite Hrel.
    by rewrite IH.
  - rewrite (Hadv fw t) by done. cbn [fst snd]. unfold FileWatcher_handleEvent. rewrite Hrel.
    by apply IH.
  - rewrite (Hadv fw t) by done. by apply IH.
Qed.

(** C28: A burst of file events, each less than half a second after the last one
    that counted, leads to exactly one reload, half a second after the last of
    them, which reads the directory as it is then; until then, however long the
    burst lasts, the store does not change.  Events for other files and watcher
    errors do not delay it. *)
Theorem burst_reloads_once rng dir t name firings last now fw sh :
  fw_pending fw = None → relevant name = true → burst t firings last →
  let s := FileWatcher_watchLoop rng dir ((t, FsEvent name) :: firings) (fw, sh) in
  s.2 = sh ∧
  ((now < last + debounce)%Z → advance rng dir now s = s) ∧
  ((last + debounce ≤ now)%Z →
    advance rng dir now s = (loadAllConfigs rng (dir (last + debounce)%Z) (fw, sh)).2).
Proof.
  intros Hp Hrel Hb s.
  assert (s = (set_pending (Some (last + debounce)%Z) fw, sh)) as ->.
  { subst s. cbn [FileWatcher_watchLoop]. unfold advance. cbn [fst]. rewrite Hp. cbn [fst snd].
    unfold FileWatcher_handleEvent. rewrite Hrel. by rewrite (burst_run _ _ t firings last). }
  assert (set_pending None fw = fw) as Hfw by (destruct fw; simpl in *; by subst).
  split_and!; [done| |]; intros Hnow; unfold advance; cbn [fst snd fw_pending set_pending].
  - by rewrite bool_decide_eq_false_2 by lia.
  - rewrite bool_decide_eq_true_2 by done.
    change (set_pending None (set_pending (Some (last + debounce)%Z) fw)) with (set_pending None fw).
    by rewrite Hfw.
Qed.
End bursts.

(** ** The theorems at concrete inputs *)

Module FileExamples.
#[local] Existing Instance latin1_case.

Definition entry (name content : string) : DirEntry (E := string) :=
  mkDirEntry name false (Ok true) (Ok content).
Definition entries : list (DirEntry (E := string)) :=
  [entry "app.yml" "rule: Host(`App.lan`)"; entry "middleware.yml" "rule: Host(`mw.lan`)";
   entry "notes.txt" "Host(`txt.lan`)"; mkDirEntry "bad.yaml" false (Ok true) (Err "denied");
   mkDirEntry "link.yml" false (Ok false) (Ok "Host(`link.lan`)")].
Definition fw : FileWatcher := NewFileWatcher [] "/etc/traefik.d" "10.0.0.1".
Definition loaded := (loadAllConfigs map_to_list (Ok entries) (fw, (NewRecords, NewMetrics))).2.

Lemma reload_spec_witness :
  Lookup loaded.2.1 "APP.lan" = Some "10.0.0.1" ∧ Lookup loaded.2.1 "mw.lan" = None ∧
  parseErrorsTotal loaded.2.2 = 1 ∧ recordsTotal loaded.2.2 = Count loaded.2.1.
Proof.
  pose proof (reload_spec (E := string) map_to_list fw NewRecords NewMetrics entries "no dir"
    ltac:(by intros m)) as Hload.
  split_and!; [by vm_compute..|]. unfold loaded.
  destruct (loadAllConfigs map_to_list (Ok entries) (fw, (NewRecords, NewMetrics)))
    as [res [fw' [r' m']]]. apply Hload.
Defined.

Lemma burst_reloads_once_witness :
  let dir (_ : Z) := @Ok string _ entries in
  let s := FileWatcher_watchLoop map_to_list dir
    [(0, FsEvent "/etc/traefik.d/app.yml"); (400000000, FsEvent "/etc/traefik.d/app.yml");
     (800000000, FsError "overflow")]%Z (fw, (NewRecords, NewMetrics)) in
  s.2 = (NewRecords, NewMetrics) ∧ advance map_to_list dir 900000000 s = loaded.
Proof.
  intros dir s.
  assert (burst (E := string) 0 [(400000000, FsEvent "/etc/traefik.d/app.yml");
    (800000000, FsError "overflow")]%Z 400000000) as Hb.
  { apply burst_event; [done|done|]. apply burst_error; [done|]. apply burst_end. }
  destruct (burst_reloads_once map_to_list dir 0 "/etc/traefik.d/app.yml" _ _ 900000000 fw
    (NewRecords, NewMetrics) eq_refl eq_refl Hb) as (H1 & _ & H3).
  split; [exact H1|]. apply H3. by vm_compute.
Defined.
End FileExamples.
