(* ===== verification/TraefikExternals.v ===== *)
(** * TraefikExternals: answering DNS queries from the Traefik rules
    (traefik-externals/traefik_externals.go)

    The handler mirrors the one of docker-cluster, with its own store, its query
    counters, and its own way with the queries it does not answer. *)

From stdpp Require Import gmap strings list.
From Stdlib Require Import ZArith NArith Lia Ascii.
From S2P Require Import Prelude GoStrings NetIP Dns DockerCluster TraefikRecords Parser FileWatcher.

Section handler.
Context `{UnicodeCase} {Msg F Wr E : Type} `{DnsMsg Msg}.
Variable WriteMsg : Wr → Msg → option E * Wr.
Variable Through : F → string → bool.
Variable NextOrFailure : string → Wr → Msg → (N * option E) * Wr.

(** [type TraefikExternals struct], with the contents of its store at the
    query; the file watcher is modelled apart. *)
Record TraefikExternals := mkTraefikExternals {
  te_Records : Records;
  te_TTL : N;
  te_Fall : F;
}.

(** [func (te *TraefikExternals) Name() string]. *)
Definition TraefikExternals_Name : string := "traefik-externals".

(** [queriesTotal.WithLabelValues(qtype, outcome).Inc()]. *)
Definition count_query (qtype outcome : string) (m : Metrics) : Metrics :=
  mkMetrics (recordsTotal m) (reloadsTotal m) (parseErrorsTotal m)
    (partial_alter (λ n, Some (S (default 0 n))) (qtype, outcome) (queriesTotal m)).

(** Writing a reply, with its error return; the counter moves on success. *)
Definition write_counted (qtype : string) (w : Wr) (m : Msg) (mt : Metrics)
    : (N * option E) * Wr * Metrics :=
  match WriteMsg w m with
  | (Some err, w) => ((RcodeServerFailure, Some err), w, mt)
  | (None, w) => ((RcodeSuccess, None), w, count_query qtype "success" mt)
  end.

(** [ServeDNS]. *)
Definition TraefikExternals_ServeDNS (te : TraefikExternals) (w : Wr) (r : Msg) (mt : Metrics)
    : (N * option E) * Wr * Metrics :=
  let qname := query_name r in
  let found := Lookup (te_Records te) qname in
  if bool_decide (state_QType r = TypeAAAA) && bool_decide (is_Some found) then
    write_counted "AAAA" w (set_Authoritative true (SetReply new_Msg r)) mt
  else if negb (bool_decide (state_QType r = TypeA)) then
    (NextOrFailure TraefikExternals_Name w r, mt)
  else match found with
       | None =>
           let mt := count_query "A" "miss" mt in
           if Through (te_Fall te) (state_Name r) then (NextOrFailure TraefikExternals_Name w r, mt)
           else ((RcodeSuccess, None), w, mt)
       | Some ip =>
           match ParseIPv4 ip with
           | None => ((RcodeSuccess, None), w, count_query "A" "miss" mt)
           | Some parsedIP =>
               let a := mk_dns_A (state_QName r) TypeA ClassINET (te_TTL te) parsedIP in
               let m := set_Authoritative true (SetReply new_Msg r) in
               write_counted "A" w (set_Answer (Answer m ++ [a]) m) mt
           end
       end.
End handler.

(** ** What the handler answers *)

Section answers.
Context `{UnicodeCase} {Msg F Wr E : Type} `{DnsMsgLaws Msg}.
Variable WriteMsg : Wr → Msg → option E * Wr.
Variable Through : F → string → bool.
Variable NextOrFailure : string → Wr → Msg → (N * option E) * Wr.
Implicit Types (te : TraefikExternals (F := F)) (w : Wr) (r : Msg) (mt : Metrics).
Abbreviation ServeDNS := (TraefikExternals_ServeDNS WriteMsg Through NextOrFailure).


(** A stored address that is not an IPv4 address is not treated as a name that
    is not found: the A query is dropped without a reply even where fallthrough
    would hand a query for an unknown name to the next plugin. *)
Theorem bad_address_dropped te w r mt ip :
  state_QType r = TypeA → Lookup (te_Records te) (query_name r) = Some ip → ParseIPv4 ip = None →
  ServeDNS te w r mt = ((RcodeSuccess, None), w, count_query "A" "miss" mt) ∧
  (Through (te_Fall te) (state_Name r) = true →
    ServeDNS (mkTraefikExternals NewRecords (te_TTL te) (te_Fall te)) w r mt =
      (NextOrFailure TraefikExternals_Name w r, count_query "A" "miss" mt)).
Proof.
  intros Ht Hl Hp. unfold TraefikExternals_ServeDNS. rewrite Ht, Hl. split.
  - simpl. by rewrite Hp.
  - intros Hthr. cbn [te_Records te_Fall]. unfold Lookup. simpl.
    rewrite lookup_empty. simpl. by rewrite Hthr.
Qed.
End answers.

Module ExternalExamples.
Import HandlerExamples.
#[local] Existing Instance latin1_case.
#[local] Existing Instance plain_msg.
#[local] Existing Instance plain_msg_laws.

Definition served : Records := FileExamples.loaded.2.1.


Lemma bad_address_dropped_witness :
  TraefikExternals_ServeDNS log_write thr refuse
    (mkTraefikExternals (Add NewRecords "app.lan" "fe80::1") 60 true) []
    (query "app.lan." TypeA) NewMetrics =
  ((RcodeSuccess, None), [], count_query "A" "miss" NewMetrics).
Proof.
  apply (bad_address_dropped log_write thr refuse
    (mkTraefikExternals (Add NewRecords "app.lan" "fe80::1") 60 true) []
    (query "app.lan." TypeA) NewMetrics "fe80::1"); by vm_compute.
Defined.
End ExternalExamples.
