(* ===== verification/Controller.v ===== *)
(** * Controller: what both setup functions use of Caddy

    The dispenser of Corefile tokens is an interface; [ControllerLaws] states
    that its loops make progress, and [token_controller] is an instance that
    reads a list of lines. *)

From stdpp Require Import gmap strings list.
From Stdlib Require Import ZArith NArith Lia Ascii.
From S2P Require Import Prelude GoStrings Strconv.

#[local] Open Scope joyride_scope.

(** ** The dispenser *)

Class Controller (C : Type) := {
  c_Next : C → bool * C;
  c_NextBlock : C → bool * C;
  c_NextArg : C → bool * C;
  c_RemainingArgs : C → list string * C;
  c_Val : C → string;
}.

(** A measure of the tokens left: a successful Next or NextBlock uses one, and
    nothing puts tokens back. *)
Class ControllerLaws (C : Type) `{Controller C} := {
  c_left : C → nat;
  Next_uses : ∀ c c', c_Next c = (true, c') → c_left c' < c_left c;
  NextBlock_uses : ∀ c c', c_NextBlock c = (true, c') → c_left c' < c_left c;
  NextBlock_ends : ∀ c c', c_NextBlock c = (false, c') → c_left c' ≤ c_left c;
  NextArg_uses : ∀ c, c_left (c_NextArg c).2 ≤ c_left c;
  RemainingArgs_uses : ∀ c, c_left (c_RemainingArgs c).2 ≤ c_left c;
}.

Section loops.
Context `{Controller C} {Er St : Type}.

(** [if !c.NextArg() { return nil, c.ArgErr() }], then [c.Val()]. *)
Definition next_arg (argErr : Er) (c : C) : result Er (string * C) :=
  let (ok, c) := c_NextArg c in
  if ok then Ok (c_Val c, c) else Err argErr.

Variable directive : C → St → result Er (St * C).

(** [for c.NextBlock() { ... }] and [for c.Next() { _ = c.RemainingArgs(); ... }],
    whose body can return an error; [None] when the fuel runs out. *)
Fixpoint block_loop (fuel : nat) (c : C) (s : St) : option (result Er (St * C)) :=
  match fuel with
  | O => None
  | S fuel =>
      let (ok, c) := c_NextBlock c in
      if ok then
        match directive c s with
        | Ok (s, c) => block_loop fuel c s
        | Err e => Some (Err e)
        end
      else Some (Ok (s, c))
  end.
Fixpoint server_loop (fuel : nat) (c : C) (s : St) : option (result Er (St * C)) :=
  match fuel with
  | O => None
  | S fuel =>
      let (ok, c) := c_Next c in
      if ok then
        let (_, c) := c_RemainingArgs c in
        match block_loop fuel c s with
        | Some (Ok (s, c)) => server_loop fuel c s
        | Some (Err e) => Some (Err e)
        | None => None
        end
      else Some (Ok (s, c))
  end.

(** *** Invariants of the loops *)

Section invariant.
Variable P : St → Prop.
Hypothesis directive_inv : ∀ c s s' c', directive c s = Ok (s', c') → P s → P s'.

Lemma block_loop_inv fuel c s s' c' :
  block_loop fuel c s = Some (Ok (s', c')) → P s → P s'.
Proof.
  revert c s. induction fuel as [|fuel IH]; intros c s; [done|]. simpl.
  destruct (c_NextBlock c) as [[] c1]; [|by intros [= <- _]].
  destruct (directive c1 s) as [[s1 c2]|e] eqn:Hd; [|done]. eauto.
Qed.

Lemma server_loop_inv fuel c s s' c' :
  server_loop fuel c s = Some (Ok (s', c')) → P s → P s'.
Proof.
  revert c s. induction fuel as [|fuel IH]; intros c s; [done|]. simpl.
  destruct (c_Next c) as [[] c1]; [|by intros [= <- _]]. destruct (c_RemainingArgs c1) as [args c2].
  destruct (block_loop fuel c2 s) as [[[s1 c3]|e]|] eqn:Hb; [|done..].
  eauto using block_loop_inv.
Qed.
End invariant.

(** *** Enough fuel *)

Context `{!ControllerLaws C}.
(** A directive does not put tokens back. *)
Hypothesis directive_uses : ∀ c s s' c', directive c s = Ok (s', c') → c_left c' ≤ c_left c.

Lemma block_loop_enough fuel c s :
  c_left c < fuel →
  ∃ r, (∀ fuel', c_left c < fuel' → block_loop fuel' c s = Some r) ∧
    ∀ s' c', r = Ok (s', c') → c_left c' ≤ c_left c.
Proof.
  revert c s. induction fuel as [|fuel IH]; intros c s Hlt; [lia|].
  destruct (c_NextBlock c) as [[] c1] eqn:Hn.
  - pose proof (NextBlock_uses _ _ Hn) as Hl. destruct (directive c1 s) as [[s1 c2]|e] eqn:Hd.
    + pose proof (directive_uses _ _ _ _ Hd). destruct (IH c2 s1) as (r & Hr & Hc); [lia|].
      exists r. split.
      * intros [|fuel'] Hf; [lia|]. simpl. rewrite Hn, Hd. apply Hr. lia.
      * intros s' c' Heq. specialize (Hc s' c' Heq). lia.
    + exists (Err e). split; [|done]. intros [|fuel'] Hf; [lia|]. simpl. by rewrite Hn, Hd.
  - exists (Ok (s, c1)). split.
    + intros [|fuel'] Hf; [lia|]. simpl. by rewrite Hn.
    + intros s' c' [= _ <-]. by apply NextBlock_ends.
Qed.

Lemma server_loop_enough fuel c s :
  c_left c < fuel → ∃ r, ∀ fuel', c_left c < fuel' → server_loop fuel' c s = Some r.
Proof.
  revert c s. induction fuel as [|fuel IH]; intros c s Hlt; [lia|].
  destruct (c_Next c) as [[] c1] eqn:Hn.
  2:{ exists (Ok (s, c1)). intros [|fuel'] Hf; [lia|]. simpl. by rewrite Hn. }
  pose proof (Next_uses _ _ Hn) as Hl. pose proof (RemainingArgs_uses c1) as Hl1.
  destruct (c_RemainingArgs c1) as [args c2] eqn:Ha. simpl in Hl1.
  destruct (block_loop_enough (S (c_left c2)) c2 s) as (r & Hr & Hc); [lia|].
  destruct r as [[s' c3]|e].
  - specialize (Hc s' c3 eq_refl). destruct (IH c3 s') as (r & Hr'); [lia|]. exists r.
    intros [|fuel'] Hf; [lia|]. simpl. rewrite Hn, Ha, Hr by lia. apply Hr'. lia.
  - exists (Err e). intros [|fuel'] Hf; [lia|]. simpl. by rewrite Hn, Ha, Hr by lia.
Qed.
End loops.

(** ** A dispenser for lines of words *)

(** The blocks still to come, the lines left in the current block, the words
    left on the current line, and the current word. *)
Record tokens := mkTokens {
  tk_blocks : list (list (list string));
  tk_lines : list (list string);
  tk_args : list string;
  tk_val : string;
}.

Definition token_controller : Controller tokens := {|
  c_Next t :=
    match tk_blocks t with
    | [] => (false, t)
    | b :: bs => (true, mkTokens bs b [] EmptyString)
    end;
  c_NextBlock t :=
    match tk_lines t with
    | [] => (false, t)
    | l :: ls => (true, mkTokens (tk_blocks t) ls (tail l) (default EmptyString (head l)))
    end;
  c_NextArg t :=
    match tk_args t with
    | [] => (false, t)
    | a :: args => (true, mkTokens (tk_blocks t) (tk_lines t) args a)
    end;
  c_RemainingArgs t := (tk_args t, mkTokens (tk_blocks t) (tk_lines t) [] (tk_val t));
  c_Val := tk_val;
|}.

Definition token_laws : @ControllerLaws tokens token_controller.
Proof.
  refine {| c_left t := length (tk_lines t) + sum_list_with (λ b, S (length b)) (tk_blocks t) |};
    intros [blocks lines args val]; simpl.
  - intros c'. destruct blocks as [|b bs]; [done|]. intros [= <-]. simpl. lia.
  - intros c'. destruct lines as [|l ls]; [done|]. intros [= <-]. simpl. lia.
  - intros c'. destruct lines as [|l ls]; [|done]. intros [= <-]. simpl. lia.
  - destruct args; simpl; lia.
  - lia.
Defined.
