(* ===== verification/Setup.v ===== *)
(** * Setup: from the Corefile and the environment to a running plugin
    (docker-cluster/setup.go)

    [parseConfig] reads the block of the Corefile, lets the environment override
    it, and validates the outcome; [setup] then starts the cluster manager and
    the watcher.  The dispenser, the environment, the host name and the fall
    package are arguments. *)

From stdpp Require Import gmap strings list.
From Stdlib Require Import ZArith NArith Lia Ascii.
From S2P Require Import Prelude GoStrings Strconv Json Message Records Delegate Watcher Discovery Cluster Dns DockerCluster Version Controller.

#[local] Open Scope joyride_scope.

(** The errors of parseConfig, with what their messages report. *)
Inductive setup_error (E : Type) :=
| ArgErr
| InvalidTTL (val : string)
| InvalidUnknownAction (val : string)
| InvalidClusterPort (val : string)
| InvalidDiscoveryPort (val : string)
| SecretInCorefile
| UnknownProperty (val : string)
| InvalidUnknownActionEnv (val : string)
| InvalidClusterPortEnv (val : string)
| InvalidDiscoveryPortEnv (val : string)
| HostIPRequired
| ClusterConfigError (err : config_error E).
Arguments ArgErr {E}.
Arguments InvalidTTL {E} _.
Arguments InvalidUnknownAction {E} _.
Arguments InvalidClusterPort {E} _.
Arguments InvalidDiscoveryPort {E} _.
Arguments SecretInCorefile {E}.
Arguments UnknownProperty {E} _.
Arguments InvalidUnknownActionEnv {E} _.
Arguments InvalidClusterPortEnv {E} _.
Arguments InvalidDiscoveryPortEnv {E} _.
Arguments HostIPRequired {E}.
Arguments ClusterConfigError {E} _.

(** Setters of the configuration. *)
Definition set_Enabled (b : bool) (c : ClusterConfig) : ClusterConfig :=
  mkClusterConfig b (cc_Port c) (cc_Seeds c) (cc_NodeName c) (cc_BindAddr c) (cc_SecretKey c)
    (cc_DiscoveryPort c).
Definition set_Port (p : Z) (c : ClusterConfig) : ClusterConfig :=
  mkClusterConfig (cc_Enabled c) p (cc_Seeds c) (cc_NodeName c) (cc_BindAddr c) (cc_SecretKey c)
    (cc_DiscoveryPort c).
Definition set_Seeds (l : list string) (c : ClusterConfig) : ClusterConfig :=
  mkClusterConfig (cc_Enabled c) (cc_Port c) l (cc_NodeName c) (cc_BindAddr c) (cc_SecretKey c)
    (cc_DiscoveryPort c).
Definition set_BindAddr (a : string) (c : ClusterConfig) : ClusterConfig :=
  mkClusterConfig (cc_Enabled c) (cc_Port c) (cc_Seeds c) (cc_NodeName c) a (cc_SecretKey c)
    (cc_DiscoveryPort c).
Definition set_SecretKey (k : string) (c : ClusterConfig) : ClusterConfig :=
  mkClusterConfig (cc_Enabled c) (cc_Port c) (cc_Seeds c) (cc_NodeName c) (cc_BindAddr c) k
    (cc_DiscoveryPort c).
Definition set_DiscoveryPort (p : Z) (c : ClusterConfig) : ClusterConfig :=
  mkClusterConfig (cc_Enabled c) (cc_Port c) (cc_Seeds c) (cc_NodeName c) (cc_BindAddr c)
    (cc_SecretKey c) p.

Section setup.
Context `{UnicodeCase} `{Controller C} {E F : Type}.
Variable SetZonesFromArgs : F → list string → F.
Variable fall_zero : F.

(** The variables of parseConfig. *)
Record vars := mkVars {
  v_dockerSocket : string;
  v_hostIP : string;
  v_labels : list string;
  v_ttl : N;
  v_f : F;
  v_unknownAction : UnknownAction;
  v_clusterConfig : ClusterConfig;
}.
Definition init_vars : vars :=
  mkVars "unix:///var/run/docker.sock" EmptyString [] 60 fall_zero ActionDrop NewClusterConfig.

Definition set_socket (x : string) (v : vars) : vars :=
  mkVars x (v_hostIP v) (v_labels v) (v_ttl v) (v_f v) (v_unknownAction v) (v_clusterConfig v).
Definition set_hostIP (x : string) (v : vars) : vars :=
  mkVars (v_dockerSocket v) x (v_labels v) (v_ttl v) (v_f v) (v_unknownAction v) (v_clusterConfig v).
Definition add_labels (l : list string) (v : vars) : vars :=
  mkVars (v_dockerSocket v) (v_hostIP v) (v_labels v ++ l) (v_ttl v) (v_f v) (v_unknownAction v)
    (v_clusterConfig v).
Definition set_ttl (n : N) (v : vars) : vars :=
  mkVars (v_dockerSocket v) (v_hostIP v) (v_labels v) n (v_f v) (v_unknownAction v) (v_clusterConfig v).
Definition set_fall (f : F) (v : vars) : vars :=
  mkVars (v_dockerSocket v) (v_hostIP v) (v_labels v) (v_ttl v) f (v_unknownAction v) (v_clusterConfig v).
Definition set_action (a : UnknownAction) (v : vars) : vars :=
  mkVars (v_dockerSocket v) (v_hostIP v) (v_labels v) (v_ttl v) (v_f v) a (v_clusterConfig v).
Definition on_cluster (g : ClusterConfig → ClusterConfig) (v : vars) : vars :=
  mkVars (v_dockerSocket v) (v_hostIP v) (v_labels v) (v_ttl v) (v_f v) (v_unknownAction v)
    (g (v_clusterConfig v)).

(** [parseUnknownAction]. *)
Definition parseUnknownAction (s : string) : option UnknownAction :=
  let s := ToLower s in
  if bool_decide (s ∈ ["drop"; "timeout"; "none"]) then Some ActionDrop
  else if bool_decide (s = "nxdomain") then Some ActionNXDomain else None.

(** [val == "true" || val == "1" || val == "yes"] on the lower-cased value. *)
Definition truthy (val : string) : bool := bool_decide (ToLower val ∈ ["true"; "1"; "yes"]).

(** The seeds of a comma-separated list. *)
Definition split_seeds (val : string) : list string := TrimSpace <$> Split val ",".

Definition or_error {A} (o : option A) (e : setup_error E) : result (setup_error E) A :=
  match o with Some a => Ok a | None => Err e end.

(** The switch of parseConfig on one property of the block. *)
Definition directive (c : C) (v : vars) : result (setup_error E) (vars * C) :=
  let name := c_Val c in
  if bool_decide (name = "docker_socket") then
    let? (a, c) := next_arg ArgErr c in Ok (set_socket a v, c)
  else if bool_decide (name = "host_ip") then
    let? (a, c) := next_arg ArgErr c in Ok (set_hostIP a v, c)
  else if bool_decide (name = "label") then
    let (args, c) := c_RemainingArgs c in
    if bool_decide (length args = 0) then Err ArgErr else Ok (add_labels args v, c)
  else if bool_decide (name = "ttl") then
    let? (a, c) := next_arg ArgErr c in
    let? n := or_error (ParseUint32 a) (InvalidTTL a) in Ok (set_ttl n v, c)
  else if bool_decide (name = "fallthrough") then
    let (args, c) := c_RemainingArgs c in Ok (set_fall (SetZonesFromArgs (v_f v) args) v, c)
  else if bool_decide (name = "unknown_action") then
    let? (a, c) := next_arg ArgErr c in
    let? action := or_error (parseUnknownAction a) (InvalidUnknownAction a) in
    Ok (set_action action v, c)
  else if bool_decide (name = "cluster_enabled") then
    let? (a, c) := next_arg ArgErr c in Ok (on_cluster (set_Enabled (truthy a)) v, c)
  else if bool_decide (name = "cluster_port") then
    let? (a, c) := next_arg ArgErr c in
    let? port := or_error (Atoi a) (InvalidClusterPort a) in Ok (on_cluster (set_Port port) v, c)
  else if bool_decide (name = "cluster_seeds") then
    let? (a, c) := next_arg ArgErr c in Ok (on_cluster (set_Seeds (split_seeds a)) v, c)
  else if bool_decide (name = "node_name") then
    let? (a, c) := next_arg ArgErr c in Ok (on_cluster (set_NodeName a) v, c)
  else if bool_decide (name = "cluster_bind_addr") then
    let? (a, c) := next_arg ArgErr c in Ok (on_cluster (set_BindAddr a) v, c)
  else if bool_decide (name = "cluster_secret") then Err SecretInCorefile
  else if bool_decide (name = "discovery_port") then
    let? (a, c) := next_arg ArgErr c in
    let? port := or_error (Atoi a) (InvalidDiscoveryPort a) in
    Ok (on_cluster (set_DiscoveryPort port) v, c)
  else Err (UnknownProperty name).

(** [if env := os.Getenv(name); env != EMPTY { ... }]. *)
Definition on_env (getenv : string → string) (name : string)
    (f : string → vars → result (setup_error E) vars) (v : vars) : result (setup_error E) vars :=
  let env := getenv name in
  if bool_decide (env = EmptyString) then Ok v else f env v.

(** The environment section of parseConfig, in its order. *)
Definition env_overrides (getenv : string → string) (v : vars) : result (setup_error E) vars :=
  let? v := on_env getenv "JOYRIDE_ENABLE_SERF"
    (λ e v, Ok (on_cluster (set_Enabled (truthy e)) v)) v in
  let? v := on_env getenv "JOYRIDE_NXDOMAIN_ENABLED"
    (λ e v, Ok (if truthy e then set_action ActionNXDomain v else v)) v in
  let? v := on_env getenv "HOSTIP" (λ e v, Ok (set_hostIP e v)) v in
  let? v := on_env getenv "DOCKER_SOCKET" (λ e v, Ok (set_socket e v)) v in
  let? v := on_env getenv "DNS_UNKNOWN_ACTION"
    (λ e v, let? a := or_error (parseUnknownAction e) (InvalidUnknownActionEnv e) in
            Ok (set_action a v)) v in
  let? v := on_env getenv "CLUSTER_ENABLED"
    (λ e v, Ok (on_cluster (set_Enabled (truthy e)) v)) v in
  let? v := on_env getenv "CLUSTER_PORT"
    (λ e v, let? p := or_error (Atoi e) (InvalidClusterPortEnv e) in
            Ok (on_cluster (set_Port p) v)) v in
  let? v := on_env getenv "CLUSTER_SEEDS"
    (λ e v, Ok (on_cluster (set_Seeds (split_seeds e)) v)) v in
  let? v := on_env getenv "NODE_NAME" (λ e v, Ok (on_cluster (set_NodeName e) v)) v in
  let? v := on_env getenv "CLUSTER_BIND_ADDR" (λ e v, Ok (on_cluster (set_BindAddr e) v)) v in
  let? v := on_env getenv "CLUSTER_SECRET" (λ e v, Ok (on_cluster (set_SecretKey e) v)) v in
  on_env getenv "DISCOVERY_PORT"
    (λ e v, let? p := or_error (Atoi e) (InvalidDiscoveryPortEnv e) in
            Ok (on_cluster (set_DiscoveryPort p) v)) v.

(** What parseConfig builds: the plugin, the watcher, the cluster
    configuration. *)
Definition default_labels : list string := ["coredns.host.name"; "joyride.host.name"].
Definition finish_config {W} (hostname : result E string) (v : vars)
    : result (setup_error E) (DockerCluster (F := F) * DockerWatcher (W := W) * ClusterConfig) :=
  if bool_decide (v_hostIP v = EmptyString) then Err HostIPRequired
  else match Validate hostname (v_clusterConfig v) with
       | Err err => Err (ClusterConfigError err)
       | Ok cc =>
           let labels := if bool_decide (length (v_labels v) = 0) then default_labels else v_labels v in
           Ok (mkDockerCluster NewRecords (v_ttl v) (v_f v) (v_unknownAction v),
               NewDockerWatcher (v_dockerSocket v) (v_hostIP v) labels, cc)
       end.

(** [parseConfig]. *)
Definition parseConfig {W} (fuel : nat) (getenv : string → string) (hostname : result E string) (c : C)
    : option (result (setup_error E) (DockerCluster (F := F) * DockerWatcher (W := W) * ClusterConfig)) :=
  match server_loop directive fuel c init_vars with
  | None => None
  | Some parsed =>
      Some (let? (v, _) := parsed in
            let? v := env_overrides getenv v in
            finish_config hostname v)
  end.

(** ** What a configuration that is accepted satisfies *)

(** One argument at most is read. *)
Lemma next_arg_uses `{!ControllerLaws C} (e : setup_error E) c a c' :
  next_arg e c = Ok (a, c') → c_left c' ≤ c_left c.
Proof.
  unfold next_arg. pose proof (NextArg_uses c). destruct (c_NextArg c) as [[] c1]; [|done].
  by intros [= _ <-].
Qed.

Lemma directive_uses `{!ControllerLaws C} c v v' c' :
  directive c v = Ok (v', c') → c_left c' ≤ c_left c.
Proof.
  unfold directive, or_error. pose proof (RemainingArgs_uses c) as Hr. intros Hd.
  repeat (case_match; simplify_eq/=; try done; eauto using next_arg_uses).
Qed.

(** Reading the configuration terminates for every input: with fuel above the
    number of tokens left, parseConfig has a result, and more fuel does not
    change it. *)
Theorem parseConfig_terminates `{!ControllerLaws C} {W} getenv hostname c :
  ∃ r, ∀ fuel, c_left c < fuel → parseConfig (W := W) fuel getenv hostname c = Some r.
Proof.
  destruct (server_loop_enough directive directive_uses (S (c_left c)) c init_vars) as [r Hr]; [lia|].
  eexists. intros fuel Hf. unfold parseConfig. by rewrite Hr.
Qed.

(** What the block can and cannot set. *)
Definition vars_ok (v : vars) : Prop :=
  (v_ttl v < 2 ^ 32)%N ∧ cc_SecretKey (v_clusterConfig v) = EmptyString.

Lemma directive_ok c v v' c' : directive c v = Ok (v', c') → vars_ok v → vars_ok v'.
Proof.
  unfold directive, or_error. intros Hd Hv.
  repeat (case_match; simplify_eq/=; try done).
  split; [by eapply ParseUint32_bound|apply Hv].
Qed.

Lemma on_env_cases getenv name f v v' :
  on_env getenv name f v = Ok v' →
  getenv name = EmptyString ∧ v' = v ∨ getenv name ≠ EmptyString ∧ f (getenv name) v = Ok v'.
Proof. unfold on_env. case_bool_decide; [intros [= <-]; auto|auto]. Qed.

(** A step of the environment section leaves alone what its function leaves
    alone. *)
Lemma env_frame {A} (proj : vars → A) getenv name f v v' :
  on_env getenv name f v = Ok v' →
  (∀ e v v', f e v = Ok v' → proj v' = proj v) → proj v' = proj v.
Proof. intros [[_ ->]|[_ Hf]]%on_env_cases Hframe; [done|eauto]. Qed.

(** A step that sets one thing. *)
Lemma env_set {A} (proj : vars → A) getenv name (g : string → vars → vars) (x : string → A) v v' :
  on_env getenv name (λ e v, Ok (g e v)) v = Ok v' → (∀ e v, proj (g e v) = x e) →
  proj v' = if decide (getenv name = EmptyString) then proj v else x (getenv name).
Proof. by intros [[-> ->]|[? [= <-]]]%on_env_cases Hset; [|rewrite decide_False]. Qed.
End setup.

(** The steps of the environment section one by one, and the frame argument for
    every step that does not touch the projection in the goal. *)
Ltac env_steps H :=
  unfold env_overrides in H;
  repeat match type of H with
  | match ?x with _ => _ end = _ => let Hx := fresh "Hstep" in destruct x eqn:Hx; [|discriminate H]
  end.
Ltac env_frames proj :=
  repeat match goal with
  | H : on_env _ _ _ _ = Ok ?v' |- context [proj ?v'] =>
      rewrite (env_frame proj _ _ _ _ _ H)
        by (intros ???; unfold or_error; repeat case_match; by intros [= <-])
  end.

Section configured.
Context `{UnicodeCase} `{Controller C} {E F : Type}.
Variable SetZonesFromArgs : F → list string → F.
Variable fall_zero : F.
Implicit Types (v : vars (F := F)) (getenv : string → string).

Lemma env_hostIP getenv v v' :
  env_overrides (E := E) getenv v = Ok v' →
  v_hostIP v' = if decide (getenv "HOSTIP" = EmptyString) then v_hostIP v else getenv "HOSTIP".
Proof.
  intros Henv. env_steps Henv. env_frames (v_hostIP (F := F)).
  match goal with H : on_env _ "HOSTIP" _ _ = Ok _ |- _ =>
    rewrite (env_set v_hostIP _ _ _ (λ e, e) _ _ H) by done end.
  by env_frames (v_hostIP (F := F)).
Qed.

Lemma env_ttl getenv v v' : env_overrides (E := E) getenv v = Ok v' → v_ttl v' = v_ttl v.
Proof. intros Henv. env_steps Henv. by env_frames (v_ttl (F := F)). Qed.

Lemma env_secret getenv v v' :
  env_overrides (E := E) getenv v = Ok v' →
  cc_SecretKey (v_clusterConfig v') =
    if decide (getenv "CLUSTER_SECRET" = EmptyString) then cc_SecretKey (v_clusterConfig v)
    else getenv "CLUSTER_SECRET".
Proof.
  set (key := λ w : vars (F := F), cc_SecretKey (v_clusterConfig w)).
  change (env_overrides (E := E) getenv v = Ok v' →
    key v' = if decide (getenv "CLUSTER_SECRET" = EmptyString) then key v
             else getenv "CLUSTER_SECRET").
  intros Henv. env_steps Henv. env_frames key.
  match goal with H : on_env _ "CLUSTER_SECRET" _ _ = Ok _ |- _ =>
    rewrite (env_set key _ _ _ (λ e, e) _ _ H) by done end.
  by env_frames key.
Qed.

Lemma env_enabled getenv v v' :
  env_overrides (E := E) getenv v = Ok v' →
  cc_Enabled (v_clusterConfig v') =
    if decide (getenv "CLUSTER_ENABLED" = EmptyString) then
      if decide (getenv "JOYRIDE_ENABLE_SERF" = EmptyString) then cc_Enabled (v_clusterConfig v)
      else truthy (getenv "JOYRIDE_ENABLE_SERF")
    else truthy (getenv "CLUSTER_ENABLED").
Proof.
  set (on := λ w : vars (F := F), cc_Enabled (v_clusterConfig w)).
  change (env_overrides (E := E) getenv v = Ok v' → on v' =
    if decide (getenv "CLUSTER_ENABLED" = EmptyString) then
      if decide (getenv "JOYRIDE_ENABLE_SERF" = EmptyString) then on v
      else truthy (getenv "JOYRIDE_ENABLE_SERF")
    else truthy (getenv "CLUSTER_ENABLED")).
  intros Henv. env_steps Henv. env_frames on.
  match goal with H : on_env _ "CLUSTER_ENABLED" _ _ = Ok _ |- _ =>
    rewrite (env_set on _ _ _ truthy _ _ H) by done end.
  env_frames on.
  match goal with H : on_env _ "JOYRIDE_ENABLE_SERF" _ _ = Ok _ |- _ =>
    by rewrite (env_set on _ _ _ truthy _ _ H) by done end.
Qed.

Lemma env_action getenv v v' :
  env_overrides (E := E) getenv v = Ok v' →
  if decide (getenv "DNS_UNKNOWN_ACTION" = EmptyString) then
    v_unknownAction v' =
      if truthy (getenv "JOYRIDE_NXDOMAIN_ENABLED") then ActionNXDomain else v_unknownAction v
  else parseUnknownAction (getenv "DNS_UNKNOWN_ACTION") = Some (v_unknownAction v').
Proof.
  intros Henv. env_steps Henv. env_frames (v_unknownAction (F := F)).
  match goal with H : on_env _ "DNS_UNKNOWN_ACTION" _ _ = Ok _ |- _ =>
    apply on_env_cases in H as [[He ->]|[He Hf]] end.
  - rewrite decide_True by done. env_frames (v_unknownAction (F := F)).
    match goal with H : on_env _ "JOYRIDE_NXDOMAIN_ENABLED" _ _ = Ok _ |- _ =>
      apply on_env_cases in H as [[He' ->]|[He' [= <-]]] end.
    + rewrite He'. by env_frames (v_unknownAction (F := F)).
    + destruct (truthy _); [done|]. by env_frames (v_unknownAction (F := F)).
  - rewrite decide_False by done. unfold or_error in Hf.
    destruct (parseUnknownAction (getenv "DNS_UNKNOWN_ACTION")) as [act|]; [|done].
    by injection Hf as <-.
Qed.

(** C37: Where the Corefile and the environment disagree: HOSTIP wins over host_ip;
    CLUSTER_ENABLED wins over JOYRIDE_ENABLE_SERF, which wins over the Corefile;
    DNS_UNKNOWN_ACTION wins over everything for unknown names, and refuses values
    it does not know.  JOYRIDE_NXDOMAIN_ENABLED can only switch to nxdomain: set
    to false it leaves an unknown_action nxdomain of the Corefile in force. *)
Theorem env_precedence getenv v v' :
  env_overrides (E := E) getenv v = Ok v' →
  v_hostIP v' = (if decide (getenv "HOSTIP" = EmptyString) then v_hostIP v else getenv "HOSTIP") ∧
  cc_Enabled (v_clusterConfig v') =
    (if decide (getenv "CLUSTER_ENABLED" = EmptyString) then
       if decide (getenv "JOYRIDE_ENABLE_SERF" = EmptyString) then cc_Enabled (v_clusterConfig v)
       else truthy (getenv "JOYRIDE_ENABLE_SERF")
     else truthy (getenv "CLUSTER_ENABLED")) ∧
  (if decide (getenv "DNS_UNKNOWN_ACTION" = EmptyString) then
     v_unknownAction v' =
       if truthy (getenv "JOYRIDE_NXDOMAIN_ENABLED") then ActionNXDomain else v_unknownAction v
   else parseUnknownAction (getenv "DNS_UNKNOWN_ACTION") = Some (v_unknownAction v')).
Proof. intros Henv. split_and!; [by apply env_hostIP|by apply env_enabled|by apply env_action]. Qed.

(** C36: A configuration that is accepted has a host IP and at least one label, a
    TTL that fits 32 bits and a TCP port for the cluster; its encryption key is
    exactly CLUSTER_SECRET of the environment, never text of the Corefile, and
    has the size of an AES key; an enabled cluster has a node name unless the
    machine's name is empty; and the record store starts empty. *)
Theorem parseConfig_valid {W} fuel getenv (hostname : result E string) (c : C) dc dw cc :
  parseConfig (W := W) SetZonesFromArgs fall_zero fuel getenv hostname c = Some (Ok (dc, dw, cc)) →
  dw_hostIP dw ≠ EmptyString ∧ dw_labels dw ≠ [] ∧ (dc_TTL dc < 2 ^ 32)%N ∧
  (1 ≤ cc_Port cc ≤ 65535)%Z ∧ cc_SecretKey cc = getenv "CLUSTER_SECRET" ∧
  String.length (cc_SecretKey cc) ∈ [0; 16; 24; 32] ∧
  (cc_Enabled cc = true → cc_NodeName cc ≠ EmptyString ∨ hostname = Ok EmptyString) ∧
  dc_Records dc = NewRecords.
Proof.
  unfold parseConfig. destruct (server_loop _ _ _ _) as [[[v c']|e]|] eqn:Hl; [|done..].
  assert (vars_ok v) as [Httl Hkey].
  { eapply server_loop_inv; [|exact Hl|done]. intros ????. apply directive_ok. }
  destruct (env_overrides getenv v) as [v'|e] eqn:Henv; [|done].
  rewrite <-(env_ttl _ _ _ Henv) in Httl. apply env_secret in Henv. rewrite Hkey in Henv.
  unfold finish_config. case_bool_decide as Hip; [done|].
  destruct (Validate hostname (v_clusterConfig v')) as [cc'|e] eqn:Hval; [|done].
  intros [= <- <- <-]. apply Validate_ok in Hval as (Hport & Hlen & Hname).
  assert (cc_SecretKey (v_clusterConfig v') = getenv "CLUSTER_SECRET") as Hsecret.
  { rewrite Henv. by case_decide. }
  assert (cc_Port cc' = cc_Port (v_clusterConfig v') ∧
    cc_SecretKey cc' = cc_SecretKey (v_clusterConfig v') ∧
    cc_Enabled cc' = cc_Enabled (v_clusterConfig v') ∧
    (cc_Enabled cc' = true → cc_NodeName cc' ≠ EmptyString ∨ hostname = Ok EmptyString))
    as (-> & -> & _ & Hnode).
  { destruct (cc_Enabled (v_clusterConfig v')) eqn:He; simpl in Hname;
      [|subst; rewrite He; by split_and!].
    destruct (bool_decide_reflect (cc_NodeName (v_clusterConfig v') = EmptyString));
      [|subst; rewrite He; auto].
    destruct Hname as (n & -> & ->). simpl. rewrite He. split_and!; [done..|]. destruct n; auto. }
  rewrite Hsecret in *. split_and!; try done; [by destruct (v_labels v')|lia|lia].
Qed.
End configured.

(** ** Starting the plugin *)

Section start.
Context `{UnicodeCase} `{TransmitLimitedQueue}.
Context `{!JsonCodec RecordMessage} `{!JsonCodec FullState}.
Context {E F : Type} `{!Memberlist E}.
Abbreviation node := (ClusterManager E * Records)%type.

(** What setup leaves running: the handler, the watcher, with clustering the
    manager, whose Join was started in the background, and the version endpoint. *)
Record running := mkRunning {
  ru_dc : DockerCluster (F := F);
  ru_watcher : DockerWatcher (W := node);
  ru_cm : option (ClusterManager E);
  ru_version : http_Server;
}.

Inductive start_error :=
| NewManagerFails (err : config_error E)
| ManagerStartFails (err : E)
| StartPanics.

(** The address of the version endpoint. *)
Definition versionAddr (getenv : string → string) : string :=
  let addr := getenv "COREDNS_VERSION_PORT" in
  if bool_decide (addr = EmptyString) then ":8081" else addr.

(** [setup] after parseConfig; [listen] is the error of binding the discovery
    port, if any, [write_err] what the connections of the version endpoint do. *)
Definition setup (b : build) (write_err : string → option E) (getenv : string → string)
    (hostname : result E string) (listen : option E)
    (dc : DockerCluster (F := F)) (dw : DockerWatcher (W := node)) (cc : ClusterConfig)
    : result start_error running :=
  let versionServer := ServeVersionHTTP write_err b (versionAddr getenv) in
  if cc_Enabled cc then
    match NewClusterManager hostname (Some cc) with
    | Err err => Err (NewManagerFails err)
    | Ok None => Err StartPanics
    | Ok (Some cm) =>
        let dw := SetCallback cluster_callback dw in
        match ClusterManager_Start listen cm with
        | (NilPanic, _) => Err StartPanics
        | (Returns (Some err), _) => Err (ManagerStartFails err)
        | (Returns None, cm) => Ok (mkRunning dc (DockerWatcher_Start dw) (Some cm) versionServer)
        end
    end
  else Ok (mkRunning dc (DockerWatcher_Start dw) None versionServer).

(** The shutdown handler. *)
Definition shutdown (s : running) : running :=
  mkRunning (ru_dc s) (closeClient (DockerWatcher_Stop_cancel (ru_watcher s)))
    ((λ cm, st_cm (ClusterManager_Stop cm)) <$> ru_cm s) (Shutdown (ru_version s)).

(** Starting never panics; the watcher is connected to a manager exactly when
    clustering is enabled, and then the delegate runs under the configured name
    and peers are looked for exactly when no seeds are given.  The version
    endpoint listens at the configured or the default address. *)
Lemma setup_wiring b write_err getenv hostname listen dc dw cc :
  dw_running dw = false → dw_callback dw = None → Validate hostname cc = Ok cc →
  match setup b write_err getenv hostname listen dc dw cc with
  | Err err => cc_Enabled cc = true ∧ ∃ e, err = ManagerStartFails e
  | Ok s =>
      dw_running (ru_watcher s) = true ∧
      srv_Addr (ru_version s) = versionAddr getenv ∧ srv_closed (ru_version s) = false ∧
      dw_callback (ru_watcher s) = (if cc_Enabled cc then Some cluster_callback else None) ∧
      (cc_Enabled cc = false → ru_cm s = None) ∧
      (cc_Enabled cc = true → ∃ cm d, ru_cm s = Some cm ∧ cm_delegate cm = Some d ∧
        d_nodeID d = cc_NodeName cc ∧ d_wg d = 1 ∧
        (is_Some (cm_discovery cm) ↔ cc_Seeds cc = []))
  end.
Proof.
  intros Hrun Hcb Hval. unfold setup. destruct (cc_Enabled cc) eqn:He.
  2:{ unfold DockerWatcher_Start. rewrite Hrun. by split_and!. }
  unfold NewClusterManager. rewrite He. cbn [negb]. rewrite Hval.
  unfold ClusterManager_Start. cbn [cm_config cm_delegate].
  destruct (ml_Create (memberlist_config cc)) as [ml|e]; [|eauto].
  unfold DockerWatcher_Start. simpl. rewrite Hrun. simpl. split_and!; [done..|].
  intros _. eexists _, _. split_and!; [done..|]. simpl.
  destruct (cc_Seeds cc); simpl; split; intros Hx; first [done|by destruct Hx|eauto].
Qed.
End start.

(** ** The theorems at concrete inputs *)

Module SetupExamples.
#[local] Existing Instance latin1_case.
#[local] Existing Instance token_controller.
#[local] Existing Instance token_laws.

(** A Corefile block, and an environment. *)
Definition corefile : tokens :=
  mkTokens [[["host_ip"; "10.0.0.1"]; ["ttl"; "120"]; ["label"; "a.b"; "c.d"];
             ["unknown_action"; "nxdomain"]; ["cluster_seeds"; "n1:7946, n2:7946"]]] [] [] EmptyString.
Definition getenv (name : string) : string :=
  if bool_decide (name = "HOSTIP") then "10.0.0.9"
  else if bool_decide (name = "JOYRIDE_NXDOMAIN_ENABLED") then "false"
  else if bool_decide (name = "CLUSTER_ENABLED") then "yes"
  else if bool_decide (name = "CLUSTER_SECRET") then "0123456789abcdef" else EmptyString.
Definition zones (_ args : list string) : list string := args.
Definition parsed := parseConfig (E := string) (W := Records) zones [] 20 getenv (Ok "node7") corefile.

Lemma parseConfig_valid_witness :
  ∃ dc dw cc, parsed = Some (Ok (dc, dw, cc)) ∧ dc_UnknownAction dc = ActionNXDomain ∧
    cc_NodeName cc = "node7" ∧ cc_SecretKey cc = getenv "CLUSTER_SECRET".
Proof.
  assert (∃ dc dw cc, parsed = Some (Ok (dc, dw, cc)) ∧ dc_UnknownAction dc = ActionNXDomain ∧
    cc_NodeName cc = "node7") as (dc & dw & cc & Hp & Ha & Hn).
  { eexists _, _, _. split_and!; [by vm_compute|done|done]. }
  exists dc, dw, cc. split_and!; [done..|].
  apply (parseConfig_valid zones [] 20 getenv (Ok "node7") corefile dc dw cc Hp).
Defined.

Definition base_vars : vars (F := list string) :=
  set_action ActionNXDomain (set_hostIP "10.0.0.1" (init_vars [])).

Lemma env_precedence_witness :
  ∃ v, env_overrides (E := string) getenv base_vars = Ok v ∧
    v_hostIP v = "10.0.0.9" ∧ v_unknownAction v = ActionNXDomain.
Proof.
  eexists. split; [vm_compute; reflexivity|].
  destruct (env_precedence (E := string) getenv base_vars _ eq_refl) as (H1 & _ & H3).
  split; [exact H1|exact H3].
Defined.

Lemma parseConfig_terminates_witness :
  ∃ r, ∀ fuel, c_left corefile < fuel →
    parseConfig (E := string) (W := Records) zones [] fuel getenv (Ok "node7") corefile = Some r.
Proof. apply (parseConfig_terminates (E := string) zones [] getenv (Ok "node7") corefile). Defined.
End SetupExamples.
