(* ===== verification/TraefikSetup.v ===== *)
(** * TraefikSetup: from the Corefile and the environment to the running plugin
    (traefik-externals/setup.go) *)

From stdpp Require Import gmap strings list.
From Stdlib Require Import ZArith NArith Lia Ascii.
From S2P Require Import Prelude GoStrings Strconv NetIP Dns DockerCluster TraefikRecords Parser FileWatcher TraefikExternals Controller.

#[local] Open Scope joyride_scope.

(** The errors of parseConfig. *)
Inductive setup_error :=
| ArgErr
| InvalidTTL (val : string)
| UnknownProperty (val : string)
| HostIPRequired
| InvalidHostIP (val : string).

Section setup.
Context `{UnicodeCase} `{Controller C} {F : Type}.
Variable SetZonesFromArgs : F → list string → F.
Variable fall_zero : F.

(** The variables of parseConfig. *)
Record vars := mkVars { v_directory : string; v_hostIP : string; v_ttl : N; v_f : F }.
Definition init_vars : vars := mkVars "/etc/traefik/external-enabled" EmptyString 60 fall_zero.

(** The switch of parseConfig on one property of the block. *)
Definition directive (c : C) (v : vars) : result setup_error (vars * C) :=
  let name := c_Val c in
  if bool_decide (name = "directory") then
    let? (a, c) := next_arg ArgErr c in Ok (mkVars a (v_hostIP v) (v_ttl v) (v_f v), c)
  else if bool_decide (name = "host_ip") then
    let? (a, c) := next_arg ArgErr c in Ok (mkVars (v_directory v) a (v_ttl v) (v_f v), c)
  else if bool_decide (name = "ttl") then
    let? (a, c) := next_arg ArgErr c in
    match ParseUint32 a with
    | None => Err (InvalidTTL a)
    | Some n => Ok (mkVars (v_directory v) (v_hostIP v) n (v_f v), c)
    end
  else if bool_decide (name = "fallthrough") then
    let (args, c) := c_RemainingArgs c in
    Ok (mkVars (v_directory v) (v_hostIP v) (v_ttl v) (SetZonesFromArgs (v_f v) args), c)
  else Err (UnknownProperty name).

(** The environment section: a TTL that does not parse is ignored. *)
Definition env_overrides (getenv : string → string) (v : vars) : vars :=
  let pick name old :=
    if bool_decide (getenv name = EmptyString) then old else getenv name in
  let ttl :=
    if bool_decide (getenv "TRAEFIK_EXTERNALS_TTL" = EmptyString) then v_ttl v
    else default (v_ttl v) (ParseUint32 (getenv "TRAEFIK_EXTERNALS_TTL")) in
  mkVars (pick "TRAEFIK_EXTERNALS_DIRECTORY" (v_directory v)) (pick "HOSTIP" (v_hostIP v))
    ttl (v_f v).

(** [parseConfig]; [environ] is what os.Environ returns to the parser. *)
Definition finish_config (environ : list string) (v : vars)
    : result setup_error (TraefikExternals (F := F) * FileWatcher) :=
  if bool_decide (v_hostIP v = EmptyString) then Err HostIPRequired
  else match ParseIP (v_hostIP v) with
       | None => Err (InvalidHostIP (v_hostIP v))
       | Some _ =>
           Ok (mkTraefikExternals NewRecords (v_ttl v) (v_f v),
               NewFileWatcher environ (v_directory v) (v_hostIP v))
       end.
Definition parseConfig (fuel : nat) (getenv : string → string) (environ : list string) (c : C)
    : option (result setup_error (TraefikExternals (F := F) * FileWatcher)) :=
  match server_loop directive fuel c init_vars with
  | None => None
  | Some parsed =>
      Some (let? (v, _) := parsed in finish_config environ (env_overrides getenv v))
  end.

(** [isDisabled]. *)
Definition isDisabled (getenv : string → string) : bool :=
  let val := getenv "TRAEFIK_EXTERNALS_ENABLED" in
  if bool_decide (val = EmptyString) then false
  else bool_decide (ToLower val ∈ ["false"; "no"; "0"]).

(** [setup] after parseConfig: [missing] says that os.Stat finds no directory;
    without a handler the plugin is not in the chain. *)
Definition setup {E} (rng : gmap string string → list (string * string)) (getenv : string → string)
    (missing : bool) (create add : option E) (dir : result E (list (DirEntry (E := E))))
    (te : TraefikExternals (F := F)) (fw : FileWatcher) (m : Metrics)
    : result E (option (TraefikExternals (F := F) * FileWatcher * Metrics)) :=
  if isDisabled getenv then Ok None
  else if missing then Ok None
  else match FileWatcher_Start rng create add dir (fw, (te_Records te, m)) with
       | (Some err, _) => Err err
       | (None, (fw, (r, m))) => Ok (Some (mkTraefikExternals r (te_TTL te) (te_Fall te), fw, m))
       end.

(** ** What a configuration that is accepted satisfies *)

Lemma te_directive_uses `{!ControllerLaws C} c v v' c' :
  directive c v = Ok (v', c') → c_left c' ≤ c_left c.
Proof.
  unfold directive, next_arg. pose proof (RemainingArgs_uses c). pose proof (NextArg_uses c).
  intros Hd. repeat (case_match; simplify_eq/=; try done).
Qed.

Lemma directive_ttl c v v' c' :
  directive c v = Ok (v', c') → (v_ttl v < 2 ^ 32)%N → (v_ttl v' < 2 ^ 32)%N.
Proof.
  unfold directive. intros Hd Hv. repeat (case_match; simplify_eq/=; try done).
  by eapply ParseUint32_bound.
Qed.

(** Reading the configuration terminates for every input. *)
Lemma parse_terminates `{!ControllerLaws C} getenv environ c :
  ∃ r, ∀ fuel, c_left c < fuel → parseConfig fuel getenv environ c = Some r.
Proof.
  destruct (server_loop_enough directive te_directive_uses (S (c_left c)) c init_vars) as [r Hr]; [lia|].
  eexists. intros fuel Hf. unfold parseConfig. by rewrite Hr.
Qed.

(** C38: Of the configurations that can be read, exactly those are accepted whose
    host IP, from HOSTIP or else from the file, net.ParseIP understands, IPv4 or
    IPv6; so a misspelled address is refused at the start.  An accepted one has a
    TTL that fits 32 bits and serves that address, and if it is not IPv4, an A
    query for a name that resolves to it is dropped, whatever the fallthrough. *)
Theorem accepted_host_ip {Msg Wr E} `{DnsMsg Msg} WriteMsg Through NextOrFailure
    fuel getenv environ (c : C) v c' :
  server_loop directive fuel c init_vars = Some (Ok (v, c')) →
  let ip := if bool_decide (getenv "HOSTIP" = EmptyString) then v_hostIP v else getenv "HOSTIP" in
  (is_Some (ParseIP ip) ↔ ∃ te fw, parseConfig fuel getenv environ c = Some (Ok (te, fw))) ∧
  (∀ te fw, parseConfig fuel getenv environ c = Some (Ok (te, fw)) →
   (te_TTL te < 2 ^ 32)%N ∧ fw_hostIP fw = ip ∧
   ∀ (w : Wr) (q : Msg) m r, ParseIPv4 ip = None → state_QType q = TypeA →
     Lookup r (query_name q) = Some ip →
     (TraefikExternals_ServeDNS (E := E) WriteMsg Through NextOrFailure
       (mkTraefikExternals r (te_TTL te) (te_Fall te)) w q m).1 = ((RcodeSuccess, None), w)).
Proof.
  intros Hl ip. assert (v_hostIP (env_overrides getenv v) = ip) as Hip.
  { unfold env_overrides, ip. simpl. by case_bool_decide. }
  assert (v_ttl (env_overrides getenv v) < 2 ^ 32)%N as Httl.
  { assert (v_ttl v < 2 ^ 32)%N as Hv.
    { eapply (server_loop_inv directive (λ v, (v_ttl v < 2 ^ 32)%N)); [|exact Hl|done].
      intros ????. apply directive_ttl. }
    simpl. case_bool_decide; [done|].
    destruct (ParseUint32 _) eqn:Hp; simpl; [by apply ParseUint32_bound in Hp|done]. }
  unfold parseConfig. rewrite Hl. simpl. unfold finish_config. rewrite Hip. split.
  - split.
    + intros [a Ha]. rewrite bool_decide_eq_false_2; [|by intros Hnil; rewrite Hnil in Ha].
      rewrite Ha. eauto.
    + intros (te & fw & Hp). case_bool_decide; [done|]. by destruct (ParseIP ip).
  - intros te fw. case_bool_decide; [done|]. destruct (ParseIP ip) as [a|]; [|done].
    intros [= <- <-]. split_and!; [exact Httl|exact Hip|].
    intros w q m r H4 Ht HL. unfold TraefikExternals_ServeDNS. cbn [te_Records]. by rewrite HL, Ht, H4.
Qed.
End setup.

Module TraefikSetupExamples.
#[local] Existing Instance latin1_case.
#[local] Existing Instance token_controller.
#[local] Existing Instance plain_msg.
Import HandlerExamples.

Definition corefile : tokens := mkTokens [[["host_ip"; "fe80::1"]; ["ttl"; "30"]]] [] [] EmptyString.
Definition no_env (_ : string) : string := EmptyString.
Definition zones (_ args : list string) : list string := args.

Lemma accepted_host_ip_witness :
  ∃ te fw, parseConfig zones [] 9 no_env [] corefile = Some (Ok (te, fw)) ∧
    fw_hostIP fw = "fe80::1" ∧
    (TraefikExternals_ServeDNS log_write (λ _ _, true) refuse
      (mkTraefikExternals (Add NewRecords "app.lan" "fe80::1") (te_TTL te) (te_Fall te)) []
      (query "app.lan." TypeA) NewMetrics).1 = ((RcodeSuccess, None), []).
Proof.
  assert (∃ v c', server_loop (directive zones) 9 corefile (init_vars []) = Some (Ok (v, c')) ∧
    v_hostIP v = "fe80::1") as (v & c' & Hl & Hv).
  { eexists _, _. split; [vm_compute; reflexivity|done]. }
  destruct (accepted_host_ip zones [] log_write (λ _ _, true) refuse 9 no_env [] corefile v c' Hl)
    as [Hacc Hdrop]. simpl in Hacc, Hdrop. rewrite Hv in Hacc, Hdrop.
  destruct (proj1 Hacc) as (te & fw & Hp); [by_computation|].
  destruct (Hdrop te fw Hp) as (_ & Hip & Hq). exists te, fw.
  split_and!; [exact Hp|exact Hip|]. apply Hq; by vm_compute.
Defined.
End TraefikSetupExamples.
